(* ===== verification/_CoqProject ===== *)
-Q . S2P
Prelude.v
CStr.v
Buffer.v
TimeStamp.v
InetAddress.v
TimerHeap.v
TimerQueue.v
EncodeUtil.v
EncodeStream.v
Base64.v
HttpUtil.v
HttpMap.v
HttpHeader.v
HttpMultiPart.v
HttpAuth.v
Logger.v
HttpRequest.v
RequestPieces.v
ThreadPool.v
Channel.v
ServerSocket.v
JsonLexer.v
JsonParser.v
HttpResponse.v
ServerDate.v
HttpService.v
HttpSession.v
SessionThreads.v
SessionRefine.v
TcpServer.v
EventLoop.v
WorkerPool.v
EventRun.v
IdleTimeout.v
PhpFastCgi.v
JsonRoundtrip.v
JsonText.v
JsonFormat.v
AppConfig.v
HttpServer.v
Startup.v
HttpServerSpec.v
SimpleServer.v
HttpServerSafety.v
HttpServerPhp.v
HttpServerSession.v
HttpServerRun.v
