(* ===== verification/Prelude.v ===== *)
(** * socnet: a verification development for a small epoll HTTP server

    socnet (directory [soc/] of the repository) is an HTTP/1.x server in C++: an
    edge-triggered, one-shot epoll loop hands readable and writable connections
    to a pool of threads; a thread reads the request of its connection, parses
    it incrementally, finds what answers it (a service, a URL pattern, a file of
    a mounted directory, a PHP page through FastCGI, an error page) and writes
    the response, with timers that close idle connections and expire sessions,
    and a JSON library that reads the configuration and prints JSON bodies.

    ** The library

    - [Prelude]: faults and results, the [let*] notation, the tactics [rinv] and
      [inv_result], lemmas on lists, bytes and machine integers.
    - [CStr]: the members of [std::string], [std::string_view] and [<cctype>]
      that the source uses.

    Network ([soc/net]):
    - [Buffer] ([Buffer.h]): the byte buffer of a connection, and the class
      [ByteQueue] of FIFO byte queues against which the parsers and the
      channels are proved.
    - [TimeStamp], [TimerHeap], [TimerQueue] ([TimeStamp.h], [TimerHeap.h],
      [TimerQueue.cc]): clock values at their width, the indexed binary heap,
      the expiry loop and the timer descriptor.
    - [InetAddress] ([InetAddress.h], [InetAddress.cc]): addresses and the byte
      order of ports.
    - [ThreadPool] ([ThreadPool.h]): the workers and the calls of [add] and
      [shutdownAll] as a step relation over the flag, the mutex and the condition
      variable.
    - [Channel] ([Channel.h], [Channel.cc], [TcpConnection.cc]): one read or
      write of a plain or SSL connection, with the mapped or sent file, and the
      loops around it.
    - [ServerSocket] ([ServerSocket.cc], [ServerSsl.cc]): the server socket, the
      modes of descriptors and the contexts of TLS, as scripts of system calls
      whose answers are a parameter ([Kernel]).
    - [TcpServer] ([EPoller.cc], [TcpServer.cc]): the interest list, the
      handlers of the loop, the tasks of the pool, and their interleaving with
      the timers for events that arrive one at a time ([step], and [calm_step]
      where no timeout hits a connection in use).  Who uses the server gives it
      [callbacks] over a state of its own ([owner_]).
    - [EventLoop] ([EPoller::poll], [TcpServer::start]): the batches of
      [epoll_wait], whose events wait for their dispatch while the workers go on
      ([loop_step]).
    - [WorkerPool]: the loop beside the threads of [ThreadPool], which run the
      tasks ([pool_step]); it is simulated by [EventLoop].
    - [EventRun]: the same steps as an executable function of a list of
      commands ([exec]), and the cycles that a connection goes through.
    - [Startup]: the scripts of the constructors, of [start], of
      [handleServerAccept] and of the destructor, which make the states and steps
      that [EventLoop] has.
    - [IdleTimeout]: the alive timer against a clock and the times of the last
      activity of the connections.

    Utilities ([soc/utility], [soc/modules], [soc/libjson]):
    - [EncodeUtil], [Base64]: URL, hexadecimal and base64 coding, MurmurHash2,
      the comparison of MD5 digests; [EncodeStream]: the loops around zlib and
      the MD5 of a file.
    - [Logger] ([Logger.h]): the line that is printed.
    - [JsonLexer], [JsonParser]: the reader, the tokens, the lexer, the values,
      the parser and both printers; [JsonRoundtrip], [JsonText] and [JsonFormat]
      hold the proofs about them.
    - [AppConfig]: the typed configuration.
    - [PhpFastCgi] ([FastCgi.h], [PhpFastCgi.cc]): the FastCGI client.

    HTTP ([soc/http]):
    - [HttpUtil]: status and mime tables, the hash of an extension.
    - [HttpMap], [HttpHeader]: the class [Map] with its laws, the hash table and
      the case-insensitive multimap that implement it.
    - [HttpMultiPart], [HttpAuth] (with [HttpPassStore] and the line reader of
      [FileUtil]), [HttpRequest]: the incremental parser of a request;
      [RequestPieces]: a request whose bytes arrive in pieces.
    - [HttpResponse] (with [HttpCookie]), [HttpService]: the response builder and
      the services; [ServerDate]: the date that a response gets, with the calendar.
    - [HttpSession]: sessions, the class [HttpSessionServer] by which a request
      asks its server for one, and the store with its timer that implements it;
      [SessionThreads]: the same operations cut at their locks and at what they do
      without one, workers beside the expiry loop, with the lifetimes of the session
      objects; and
      [SessionRefine]: they implement the same abstract store.
    - [HttpServer]: routing, PHP pages and [onMessage]; [HttpServerSpec],
      [HttpServerSafety], [HttpServerPhp] and [HttpServerSession] hold the
      theorems about the whole server, [HttpServerRun] those about its runs
      over the event loop.
    - [SimpleServer]: the example programs of [test/], from their [main] to their
      services, on this server.

    A definition has the name of the function, the method or the local step it
    translates; the state of a class is the record [t] of its module, with the
    names of the members; a method takes the state last and returns the new one.

    ** How C++ is modelled

    An operation that can fail returns a [result]: an exception and undefined
    behaviour (an access outside an object, a signed overflow, an uninitialised
    read) are faults.  Integers are [Z] or [nat] with the wrap-around or the
    overflow check of their type written out.  Bytes are [ascii].  A loop that is
    not structural takes fuel; [OutOfFuel] is not a behaviour of the code but
    the bound of the model, and the theorems give the fuel that is enough:
    - the parser of a request makes at most four turns;
    - a header, a list of pairs and a base64 text take at most their length;
    - the multipart parser takes twice the length of the body and two, or does
      not end ([multipart_returns_or_loops]);
    - the lexer of JSON takes the length of the text and two where it ends, and
      the cases in which no fuel is enough are stated as such;
    - the expiry loop takes the size of the heap and one.

    Code outside the repository is a parameter: MD5 and zlib, [std::regex], the
    type [double] with its conversions, the contents of the file system and
    [std::filesystem::canonical], the results of system calls, the order in
    which a hash table is traversed, the random numbers, the clocks, what
    php-fpm answers.  Memory that the code reads although it should not (behind
    a buffer, a string that was destroyed, an array without a terminator) is a
    parameter too, so the theorems hold for any of its contents or say what
    depends on it.  A mutex makes an operation atomic; where the code does not
    hold it ([add], [shutdownAll], [handleTimeout]) the steps are separate.

    ** The theorems

    - The start: [server_starts] goes from the constructor to the loop, through
      the configuration, the socket, TLS and the first calls of [epoll_ctl], and
      [accept_refines] from a connection of the kernel to one of the loop.
    - From bytes to bytes: a rendered request is parsed back in one call
      ([request_roundtrip]) and in pieces ([request_in_pieces], [header_chunks]);
      a built response and its body are what a completed write loop sends
      ([response_on_wire], [write_sends_everything], [head_sends_file]); both
      meet in [static_file_served], a file from request to wire; and
      [conversation_served] runs the whole server, from the connection of a
      client over any number of requests on it to the bytes it gets back.
      [unmatched_address], [incomplete_request_waits], [bad_request_answer] and
      [content_is_what_arrived] are the other ways a request ends, [php_page]
      and [session_continues] follow a PHP page and a session through all
      components they touch; [login_guarded], [post_form_fields] and
      [json_page_reads_back] do so for pages of the example program.
    - Equivalence: [base64_encode_rfc4648], the coder against the definition of
      RFC 4648 on bits.
    - Round trips of the formats: [header_roundtrip], [multipart_roundtrip],
      [json_roundtrip], [fcgi_request_roundtrip], [base64_roundtrip],
      [urlDecode_inverts_urlEncode], [server_date_roundtrip];
      [gzipCompress_whole] for the loop around zlib.
    - Refinements of abstract specifications: [buffer_is_byte_queue],
      [timer_heap_refines_priority_map], [session_store_refines],
      [idle_timeout_refines] (the server closes what has been idle, and nothing
      else), and
      [header_case_insensitive_map] for the multimap.
    - Concurrency: [http_workers_exclusive] (a connection has at most one task
      or waiting event, along any interleaving of the loop, the timers and the
      threads of the pool at its mutex and condition variable), its
      limit [timeout_races], [pool_runs_everything] and its limits
      [shutdown_misses_a_worker] and [add_after_exit]; [session_threads_safe] (the sessions under
      any calm interleaving of the lock regions and unlocked accesses of
      [getSession] with the expiry loop), [session_threads_refine] (each of these steps is a change of the
      abstract store of sessions) and their limit [session_races]; [handleTimeout_fires_expired].
    - Termination: [parseRequest_terminates], [multipart_returns_or_loops],
      [parse_total]; and where the code does not end, [digest_comma_hangs] and
      [unterminated_string_loops].
    - Types, authentication and tables: [config_typed_access],
      [basicAuth_verifies], [digestAuth_verifies], [mappingMimeType_listed].
    - Bounds and misbehaviour that the code has: [base64_decode_overflow],
      [fcgi_request_limits], [request_line_not_incremental], [path_traversal],
      [null_byte_discloses_source], [interrupted_file_leaks].

    Other theorems state smaller facts of one component in the same way, among
    them [workers_exclusive], [runEvery_period], [write_finishes],
    [fpm_response_read] and [long_session_lifetime_undefined].

    ** Not modelled

    What the kernel, OpenSSL, zlib and php-fpm do is a parameter or an argument,
    and so are the texts of addresses; the date of a response is an argument of the
    theorems about the server, and [ServerDate] says what the code puts there.  The
    texts of the JSON exceptions are left out: an exception is its line and column.
    The accessors that only return or forward a member are the projections of the
    records.  In the
    theorems about the whole server a task takes effect in one step of the
    interleaving, at its end, so what two workers do to shared objects is ordered
    by those ends; for the sessions [SessionThreads] has the interleaving inside a
    task.  Weak memory is not modelled: a region that holds a lock, or reads or
    writes one shared pointer or flag, is a step; a timer that is copied without
    its lock is being copied between two steps, and a write to it there is a fault.
    What the example programs print and their signal handlers are left out. *)
From stdpp Require Export base tactics list gmap sorting.
From Stdlib Require Export Ascii ZArith Lia.
From Stdlib Require String.
Export String.StringSyntax.

#[export] Set Default Goal Selector "!".

(** ** Faults

    The program is C++: an operation either returns, throws, or has undefined
    behaviour.  [result] makes the last two explicit values. *)
Inductive fault :=
  | OutOfRange        (** [std::out_of_range], from [substr] or [at] *)
  | BadOptionalAccess (** [std::bad_optional_access], from [optional::value] *)
  | BadFunctionCall   (** [std::bad_function_call], an empty [std::function] *)
  | StdException      (** [throw std::exception()] *)
  | JsonErrorExn      (** [throw JsonError(...)] *)
  | JsonSyntaxErrorExn (line col : Z) (** [throw JsonSyntaxError(line, col, ...)] *)
  | BadArrayNewLength (** [std::bad_array_new_length], an array with more initializers than elements *)
  | BadVariantAccess  (** [std::bad_variant_access], from [std::get] *)
  | ExitProcess       (** [exit(-1)] *)
  | Undefined         (** undefined behaviour: an access outside an object, a signed overflow *)
  | OutOfFuel.        (** the model's loop bound was reached *)

#[export] Instance fault_eq_dec : EqDecision fault.
Proof. solve_decision. Defined.

Inductive result (A : Type) :=
  | Ok (a : A)
  | Err (e : fault).
Arguments Ok {A} a.
Arguments Err {A} e.

Declare Scope result_scope.
Delimit Scope result_scope with result.
Notation "'let*' x ':=' c1 'in' c2" :=
  (match c1 with Ok x => c2 | Err e => Err e end)
  (at level 10, x pattern, c1 at level 99, c2 at level 200) : result_scope.
Open Scope result_scope.

Definition of_option {A} (e : fault) (o : option A) : result A :=
  match o with Some a => Ok a | None => Err e end.

Definition is_Ok {A} (r : result A) : bool :=
  match r with Ok _ => true | Err _ => false end.

Lemma of_option_Ok {A} e (o : option A) a : of_option e o = Ok a <-> o = Some a.
Proof. destruct o; simpl; split; congruence. Qed.

(** [inv_result H] opens the first bind of [H : (let* x := c in k) = Ok r]. *)
Ltac inv_result H :=
  match type of H with
  | (match ?c with Ok _ => _ | Err _ => _ end) = Ok _ =>
      let E := fresh "E" in destruct c eqn:E; [|discriminate H]
  end.

(** [rinv] opens every bind and closes the impossible branches. *)
Ltac rinv :=
  repeat match goal with
    | H : Ok _ = Ok _ |- _ => injection H as H; try subst
    | H : Err _ = Ok _ |- _ => discriminate H
    | H : Ok _ = Err _ |- _ => discriminate H
    | H : (match ?c with Ok _ => _ | Err _ => _ end) = Ok _ |- _ => inv_result H
    | H : of_option _ _ = Ok _ |- _ => apply of_option_Ok in H
    end.

(** ** Bytes and characters *)

(** [std::string], [std::string_view] and raw memory are lists of bytes. *)
Abbreviation bytes := (list ascii).

(** String literals of the source. *)
Fixpoint bs (s : String.string) : bytes :=
  match s with
  | String.EmptyString => []
  | String.String c s' => c :: bs s'
  end.
Arguments bs s%_string_scope.

(** The value of a byte as [unsigned char] and as [char], which is signed on
    the platform the server targets (x86-64 Linux). *)
Definition char_u (c : ascii) : Z := Z.of_N (N_of_ascii c).
Definition char_s (c : ascii) : Z :=
  if (char_u c <? 128)%Z then char_u c else (char_u c - 256)%Z.

(** Conversion of an integer to a one-byte character: reduction modulo 256. *)
Definition chr (z : Z) : ascii := ascii_of_N (Z.to_N (z mod 256)).

Definition CR : ascii := "013"%char.
Definition LF : ascii := "010"%char.
Definition NUL : ascii := "000"%char.
Definition CRLF : bytes := [CR; LF].
Definition DQUOTE : ascii := "034"%char.

#[export] Instance ascii_inhabited : Inhabited ascii := populate NUL.

(** Exhaustive checking of a boolean property of bytes. *)
Definition all_bytes : list ascii := map ascii_of_nat (seq 0 256).

Lemma all_bytes_complete c : c ∈ all_bytes.
Proof.
  unfold all_bytes. apply list_elem_of_In, in_map_iff.
  exists (nat_of_ascii c). split; [apply ascii_nat_embedding|].
  apply in_seq. pose proof (nat_ascii_bounded c). lia.
Qed.

Lemma forall_byte (f : ascii -> bool) : forallb f all_bytes = true -> forall c, f c = true.
Proof.
  intros H c. apply forallb_forall with (x := c) in H; [done|].
  apply list_elem_of_In, all_bytes_complete.
Qed.

(** [by_bytes c] proves a decidable goal on the byte [c] by running over all
    256 values. *)
Ltac by_bytes c :=
  pattern c;
  match goal with |- ?P c =>
    let H := fresh in
    assert (forallb (fun x => bool_decide (P x)) all_bytes = true) as H
      by (vm_compute; reflexivity);
    exact (proj1 (bool_decide_eq_true _) (forall_byte _ H c))
  end.

Lemma char_u_range c : (0 <= char_u c < 256)%Z.
Proof. unfold char_u. pose proof (N_ascii_bounded c). lia. Qed.

Lemma chr_char_u c : chr (char_u c) = c.
Proof. by_bytes c. Qed.

Lemma char_u_inj a b : char_u a = char_u b -> a = b.
Proof. intros H. rewrite <- (chr_char_u a), <- (chr_char_u b). by rewrite H. Qed.

Lemma char_u_chr z : char_u (chr z) = (z mod 256)%Z.
Proof.
  unfold char_u, chr. pose proof (Z.mod_pos_bound z 256 ltac:(lia)).
  rewrite N_ascii_embedding by lia. lia.
Qed.

Lemma chr_char_s c : chr (char_s c) = c.
Proof. by_bytes c. Qed.

(** ** Machine integers *)
Definition u32 (z : Z) : Z := (z mod 2 ^ 32)%Z.
(** The [int] of a wider integer. *)
Definition s32 (z : Z) : Z := ((z + 2 ^ 31) mod 2 ^ 32 - 2 ^ 31)%Z.
Lemma s32_small z : (- 2 ^ 31 <= z < 2 ^ 31)%Z -> s32 z = z.
Proof. intros H. unfold s32. rewrite Z.mod_small; lia. Qed.
Definition u64 (z : Z) : Z := (z mod 2 ^ 64)%Z.
Definition u8 (z : Z) : Z := (z mod 256)%Z.

Definition INT_MAX : Z := 2147483647.
Definition INT_MIN : Z := -2147483648.

(** An [int] result: signed overflow is undefined behaviour. *)
Definition int_checked (z : Z) : result Z :=
  if ((INT_MIN <=? z) && (z <=? INT_MAX))%Z then Ok z else Err Undefined.

Lemma int_checked_Ok z : (INT_MIN <= z <= INT_MAX)%Z -> int_checked z = Ok z.
Proof.
  intros [H1 H2]. unfold int_checked.
  apply Z.leb_le in H1, H2. by rewrite H1, H2.
Qed.

Lemma u64_small z : (0 <= z < 2 ^ 64)%Z -> u64 z = z.
Proof. apply Z.mod_small. Qed.

Lemma u32_small z : (0 <= z < 2 ^ 32)%Z -> u32 z = z.
Proof. apply Z.mod_small. Qed.

Lemma u32_range z : (0 <= u32 z < 2 ^ 32)%Z.
Proof. apply Z.mod_pos_bound. lia. Qed.

(** ** Lists *)

(** [copy_into buf pos data] is [std::copy(data, data + n, buf + pos)]. *)
Definition copy_into (buf : bytes) (pos : nat) (data : bytes) : bytes :=
  take pos buf ++ data ++ drop (pos + length data) buf.

Lemma length_copy_into buf pos data :
  pos + length data <= length buf -> length (copy_into buf pos data) = length buf.
Proof.
  intros H. unfold copy_into. rewrite !length_app, length_take, length_drop. lia.
Qed.

Lemma take_copy_into buf pos data :
  pos <= length buf -> take (pos + length data) (copy_into buf pos data) = take pos buf ++ data.
Proof.
  intros H. unfold copy_into. rewrite app_assoc. apply take_app_length'.
  rewrite length_app, length_take. lia.
Qed.

Lemma drop_take_app {A} (l1 l2 l3 : list A) n :
  n = length l1 -> drop n (l1 ++ l2 ++ l3) = l2 ++ l3.
Proof. intros ->. apply drop_app_length. Qed.

(** Past the separator of [l1 ++ c :: l2]. *)
Lemma drop_past {A} (l1 l2 : list A) c : drop (length l1 + 1) (l1 ++ c :: l2) = l2.
Proof.
  replace (length l1 + 1) with (length (l1 ++ [c])) by (rewrite length_app; done).
  replace (l1 ++ c :: l2) with ((l1 ++ [c]) ++ l2) by (by rewrite <- app_assoc). apply drop_app_length.
Qed.

Lemma filter_all {A} (P : A -> Prop) `{forall x, Decision (P x)} l : Forall P l -> filter P l = l.
Proof. induction 1; [done|]. rewrite filter_cons_True by done. congruence. Qed.

Lemma filter_none {A} (P : A -> Prop) `{forall x, Decision (P x)} l :
  Forall (fun x => ~ P x) l -> filter P l = [].
Proof. induction 1; [done|]. by rewrite filter_cons_False. Qed.

Lemma Forall_filter_keep {A} (P Q : A -> Prop) `{forall x, Decision (P x)} l :
  Forall Q l -> Forall Q (filter P l).
Proof.
  induction 1 as [|x l Hx Hl IH]; [constructor|]. rewrite filter_cons. destruct (decide (P x)); [by constructor|done].
Qed.

Lemma NoDup_filter_filter {A} (P Q : A -> Prop) `{forall x, Decision (P x)} `{forall x, Decision (Q x)} l :
  NoDup (filter P l) -> NoDup (filter P (filter Q l)).
Proof.
  induction l as [|x l IH]; [done|]. rewrite !filter_cons. intros Hnd.
  destruct (decide (P x)) as [HP|HP].
  - apply NoDup_cons in Hnd as [Hx Hnd]. destruct (decide (Q x)); [|by apply IH].
    rewrite filter_cons_True by done. constructor; [|by apply IH].
    rewrite !list_elem_of_filter. rewrite list_elem_of_filter in Hx. tauto.
  - destruct (decide (Q x)); [|by apply IH]. rewrite filter_cons_False by done. by apply IH.
Qed.

Create HintDb socnet.
Create Rewrite HintDb socnet.
#[export] Hint Resolve char_u_range u32_range : socnet.
#[export] Hint Rewrite chr_char_u char_u_chr chr_char_s : socnet.
