(* ===== verification/CStr.v ===== *)
(** * CStr: the string operations of the C++ library the source uses

    [std::string_view] and [std::string] members ([starts_with], [ends_with],
    [find], [find_first_of], [substr], [remove_prefix], [operator[]]), the
    [ctype] predicates in the "C" locale, and decimal printing.  Positions are
    naturals, [npos] is [None], and what the library leaves undefined or throws
    is a fault. *)
From S2P Require Import Prelude.

(** ** ctype, "C" locale, on the unsigned value of the byte *)
Definition in_range (lo hi : ascii) (c : ascii) : bool :=
  ((char_u lo <=? char_u c) && (char_u c <=? char_u hi))%Z.

Definition isdigit (c : ascii) : bool := in_range "0" "9" c.
Definition isupper (c : ascii) : bool := in_range "A" "Z" c.
Definition islower (c : ascii) : bool := in_range "a" "z" c.
Definition isalnum (c : ascii) : bool := isdigit c || isupper c || islower c.
Definition isxdigit (c : ascii) : bool :=
  isdigit c || in_range "A" "F" c || in_range "a" "f" c.
Definition tolower (c : ascii) : ascii := if isupper c then chr (char_u c + 32) else c.
Definition toupper (c : ascii) : ascii := if islower c then chr (char_u c - 32) else c.

(** ** Prefixes and suffixes *)
Fixpoint starts_with (s p : bytes) {struct p} : bool :=
  match p, s with
  | [], _ => true
  | a :: p', b :: s' => bool_decide (a = b) && starts_with s' p'
  | _ :: _, [] => false
  end.

Lemma starts_with_spec s p : starts_with s p = true <-> exists t, s = p ++ t.
Proof.
  revert s. induction p as [|a p IH]; intros s; simpl.
  - split; [intros _; by exists s|done].
  - destruct s as [|b s].
    + split; [done|intros [t Ht]; discriminate].
    + rewrite andb_true_iff, bool_decide_eq_true, IH. split.
      * intros [-> [t ->]]. by exists t.
      * intros [t [= -> ->]]. split; [done|by exists t].
Qed.

Lemma starts_with_app p t : starts_with (p ++ t) p = true.
Proof. apply starts_with_spec. by exists t. Qed.

Lemma starts_with_refl p : starts_with p p = true.
Proof. apply starts_with_spec. exists []. by rewrite app_nil_r. Qed.

Definition ends_with (s p : bytes) : bool :=
  (length p <=? length s) && bool_decide (drop (length s - length p) s = p).

Lemma ends_with_spec s p : ends_with s p = true <-> exists t, s = t ++ p.
Proof.
  unfold ends_with. rewrite andb_true_iff, Nat.leb_le, bool_decide_eq_true. split.
  - intros [H1 H2]. exists (take (length s - length p) s). by rewrite <- H2 at 2; rewrite take_drop.
  - intros [t ->]. rewrite length_app. split; [lia|].
    replace (length t + length p - length p) with (length t) by lia. apply drop_app_length.
Qed.

(** ** Searching *)

(** [find_first_of] with a one-character set. *)
Fixpoint find_char (c : ascii) (s : bytes) : option nat :=
  match s with
  | [] => None
  | a :: s' => if bool_decide (a = c) then Some 0 else (S <$> find_char c s')
  end.

Lemma find_char_Some c s i :
  find_char c s = Some i <-> exists t, s = take i s ++ c :: t /\ c ∉ take i s /\ i < length s.
Proof.
  revert i. induction s as [|a s IH]; intros i; simpl.
  { split; [done|]. intros (t & Ht & _). destruct i; discriminate. }
  case_bool_decide as Ha.
  - subst a. split.
    + intros [= <-]. exists s. simpl. split; [done|]. split; [set_solver|lia].
    + intros (t & Ht & Hn & _). destruct i; [done|]. simpl in Hn. set_solver.
  - split.
    + intros H. destruct (find_char c s) as [j|] eqn:E; [|done]. simpl in H. injection H as <-.
      destruct (proj1 (IH j) eq_refl) as (t & Ht & Hn & Hl).
      exists t. simpl. split; [by rewrite <- Ht|]. split; [set_solver|lia].
    + intros (t & Ht & Hn & Hl). destruct i as [|i]; simpl in *; [congruence|].
      injection Ht as Ht. rewrite (proj2 (IH i)); [done|].
      exists t. split; [done|]. split; [set_solver|lia].
Qed.

Lemma find_char_None c s : find_char c s = None <-> c ∉ s.
Proof.
  induction s as [|a s IH]; simpl; [split; [set_solver|done]|].
  case_bool_decide; [split; [done|set_solver]|].
  rewrite fmap_None, IH. set_solver.
Qed.

Lemma find_char_app c s t : c ∉ s -> find_char c (s ++ c :: t) = Some (length s).
Proof.
  intros H. apply find_char_Some. exists t. rewrite take_app_length.
  split; [done|]. split; [done|]. rewrite length_app. simpl. lia.
Qed.

(** [find] with a string argument. *)
Fixpoint find (p s : bytes) : option nat :=
  if starts_with s p then Some 0
  else match s with [] => None | _ :: s' => (S <$> find p s') end.

Lemma find_Some_drop p s i : find p s = Some i -> starts_with (drop i s) p = true /\ i <= length s.
Proof.
  revert i. induction s as [|a s IH]; intros i.
  - simpl. destruct (starts_with [] p) eqn:E; [|done]. intros [= <-]. split; [done|simpl; lia].
  - cbn [find]. destruct (starts_with (a :: s) p) eqn:E.
    + intros [= <-]. split; [done|lia].
    + destruct (find p s) as [j|] eqn:F; [|done]. intros [= <-]. simpl.
      destruct (IH j eq_refl). split; [done|lia].
Qed.

Lemma find_None_drop p s i : find p s = None -> starts_with (drop i s) p = false.
Proof.
  revert i. induction s as [|a s IH]; intros i; cbn [find].
  - destruct (starts_with [] p) eqn:E; [done|]. intros _. by rewrite drop_nil.
  - destruct (starts_with (a :: s) p) eqn:E; [done|]. intros H.
    apply fmap_None in H. destruct i as [|i]; [done|]. simpl. by apply IH.
Qed.

Lemma find_Some_first p s i j : find p s = Some i -> j < i -> starts_with (drop j s) p = false.
Proof.
  revert i j. induction s as [|a s IH]; intros i j; cbn [find].
  - destruct (starts_with [] p); [|done]. intros [= <-]. lia.
  - destruct (starts_with (a :: s) p) eqn:E; [intros [= <-]; lia|].
    destruct (find p s) as [k|] eqn:F; [|done]. intros [= <-] Hj.
    destruct j as [|j]; [done|]. simpl. apply IH with k; [done|lia].
Qed.

(** [find] for the two-byte line terminator, when the text before it has none. *)
Lemma find_CRLF s t : CR ∉ s -> find CRLF (s ++ CRLF ++ t) = Some (length s).
Proof.
  induction s as [|a s IH]; intros H; [done|].
  apply not_elem_of_cons in H as [Ha Hs].
  cbn [find app]. rewrite (IH Hs).
  by replace (starts_with (a :: s ++ CRLF ++ t) CRLF) with false
    by (simpl; by rewrite bool_decide_false by congruence).
Qed.

Lemma find_CRLF_split s i :
  find CRLF s = Some i -> s = take i s ++ CRLF ++ drop (i + 2) s /\ i + 2 <= length s.
Proof.
  intros H. apply find_Some_drop in H as [H Hi]. apply starts_with_spec in H as [t Ht].
  assert (s = take i s ++ CRLF ++ t) as Hs by (by rewrite <- Ht, take_drop).
  assert (i + 2 <= length s) as Hl.
  { apply (f_equal length) in Ht. rewrite length_drop, length_app in Ht. simpl in Ht. lia. }
  split; [|done]. replace (drop (i + 2) s) with t; [done|].
  replace (i + 2) with (2 + i) by lia. rewrite Nat.add_comm, <- drop_drop, Ht. done.
Qed.

(** A match stays where it is when text is appended. *)
Lemma starts_with_app_l s t p : starts_with s p = true -> starts_with (s ++ t) p = true.
Proof. intros H. apply starts_with_spec in H as [u ->]. apply starts_with_spec. exists (u ++ t). by rewrite app_assoc. Qed.

Lemma starts_with_longer s t p : length p <= length s -> starts_with (s ++ t) p = starts_with s p.
Proof.
  revert s. induction p as [|c p IH]; intros [|d s] H; simpl in *; try done; try lia.
  rewrite IH by lia. done.
Qed.

Lemma starts_with_short s p : length s < length p -> starts_with s p = false.
Proof.
  intros H. destruct (starts_with s p) eqn:E; [|done]. apply starts_with_spec in E as [t ->].
  rewrite length_app in H. lia.
Qed.

Lemma find_bound p s i : find p s = Some i -> i + length p <= length s.
Proof.
  intros H. apply find_Some_drop in H as [H Hi]. apply starts_with_spec in H as [t Ht].
  apply (f_equal length) in Ht. rewrite length_drop, length_app in Ht. lia.
Qed.

Lemma find_app p s t i : find p s = Some i -> find p (s ++ t) = Some i.
Proof.
  revert i. induction s as [|a s IH]; intros i H.
  - simpl in H. destruct p; [|done]. injection H as <-. by destruct t.
  - pose proof (find_bound _ _ _ H) as Hb. cbn [find] in H. cbn [app find].
    change (a :: s ++ t) with ((a :: s) ++ t). rewrite starts_with_longer by lia.
    destruct (starts_with (a :: s) p); [done|].
    destruct (find p s) as [j|]; [|done]. by rewrite (IH j).
Qed.

(** One-character patterns. *)
Lemma find_single c s : find [c] s = find_char c s.
Proof.
  induction s as [|a s IH]; [done|]. cbn [find starts_with find_char]. rewrite andb_true_r.
  destruct (decide (c = a)) as [->|]; [by rewrite !bool_decide_true|].
  rewrite !bool_decide_false by congruence. by rewrite IH.
Qed.

(** ** Taking parts *)

(** [substr(pos, n)]: throws [std::out_of_range] when [pos > size()]. *)
Definition substr (s : bytes) (pos : nat) (n : option nat) : result bytes :=
  if length s <? pos then Err OutOfRange
  else Ok (match n with Some n => take n (drop pos s) | None => drop pos s end).

(** [remove_prefix(n)]: undefined when [n > size()]. *)
Definition remove_prefix (s : bytes) (n : nat) : result bytes :=
  if length s <? n then Err Undefined else Ok (drop n s).

(** An access through a pointer or [operator[]]: undefined out of range. *)
Definition at_ {A} (s : list A) (i : nat) : result A := of_option Undefined (s !! i).

Lemma substr_Ok s pos n :
  pos <= length s ->
  substr s pos n = Ok (match n with Some n => take n (drop pos s) | None => drop pos s end).
Proof. intros H. unfold substr. by rewrite (proj2 (Nat.ltb_ge _ _) H). Qed.

Lemma remove_prefix_Ok s n : n <= length s -> remove_prefix s n = Ok (drop n s).
Proof. intros H. unfold remove_prefix. by rewrite (proj2 (Nat.ltb_ge _ _) H). Qed.

Lemma remove_prefix_app p t n : n = length p -> remove_prefix (p ++ t) n = Ok t.
Proof.
  intros ->. rewrite remove_prefix_Ok by (rewrite length_app; lia). by rewrite drop_app_length.
Qed.

Lemma at_Ok {A} (s : list A) i x : at_ s i = Ok x <-> s !! i = Some x.
Proof. apply of_option_Ok. Qed.

Lemma at_lookup {A} (s : list A) i x : s !! i = Some x -> at_ s i = Ok x.
Proof. apply at_Ok. Qed.

(** ** Decimal printing: [std::to_string] *)
Definition digit (n : nat) : ascii := ascii_of_nat (48 + n).

Fixpoint nat_digits (fuel n : nat) (acc : bytes) : bytes :=
  match fuel with
  | 0 => acc
  | S fuel' =>
      let acc' := digit (n mod 10) :: acc in
      if n <? 10 then acc' else nat_digits fuel' (n / 10) acc'
  end.

Definition to_string_nat (n : nat) : bytes := nat_digits (S n) n [].

Definition to_string (z : Z) : bytes :=
  if (z <? 0)%Z then "-"%char :: to_string_nat (Z.to_nat (- z)) else to_string_nat (Z.to_nat z).

#[export] Hint Resolve starts_with_app starts_with_refl : socnet.
