(* ===== verification/Buffer.v ===== *)
(** * Buffer: the growable byte buffer of a connection

    Models [soc/net/include/Buffer.h].  A [Buffer] is a vector of bytes with a
    read index and a write index.  The interface [ByteQueue] is what the rest
    of the server relies on: a FIFO queue of bytes whose storage can also be
    seen past the last readable byte, which is what a read past the end of a
    view sees. *)
From S2P Require Import Prelude CStr.

(** ** What a buffer promises to its clients *)
Class ByteQueue (Q : Type) := {
  bq_wf : Q -> Prop;
  (** the storage from [peek()] to its end: the readable bytes, then stale ones *)
  bq_memory : Q -> bytes;
  bq_readable : Q -> nat;
  bq_append : bytes -> Q -> result Q;
  bq_retired : nat -> Q -> Q;
  bq_retiredAll : Q -> Q;
}.

Definition bq_contents {Q} `{ByteQueue Q} (q : Q) : bytes := take (bq_readable q) (bq_memory q).

Class ByteQueueLaws (Q : Type) `{ByteQueue Q} := {
  bq_readable_le q : bq_wf q -> bq_readable q <= length (bq_memory q);
  bq_append_ok d q :
    bq_wf q -> exists q', bq_append d q = Ok q' /\ bq_wf q' /\ bq_contents q' = bq_contents q ++ d;
  bq_retired_wf n q : bq_wf q -> bq_wf (bq_retired n q);
  bq_retired_contents n q : bq_wf q -> bq_contents (bq_retired n q) = drop n (bq_contents q);
  bq_retired_memory n q :
    n < bq_readable q -> bq_memory (bq_retired n q) = drop n (bq_memory q);
  bq_retiredAll_wf q : bq_wf q -> bq_wf (bq_retiredAll q);
  bq_retiredAll_contents q : bq_wf q -> bq_contents (bq_retiredAll q) = [];
}.

Lemma bq_contents_length {Q} `{ByteQueueLaws Q} (q : Q) :
  bq_wf q -> length (bq_contents q) = bq_readable q.
Proof.
  intros Hq. unfold bq_contents. rewrite length_take. pose proof (bq_readable_le q Hq). lia.
Qed.

(** ** The implementation *)
Module Buffer.

Record t := Make { buffer_ : bytes; rindex_ : nat; windex_ : nat }.

Definition new (init_size : nat) : t := Make (replicate init_size NUL) 0 0.
Definition default_size : nat := 4096.

Definition reset (b : t) : t := Make (buffer_ b) 0 0.
Definition readable (b : t) : nat := windex_ b - rindex_ b.
Definition writable (b : t) : nat := length (buffer_ b) - windex_ b.

Definition retiredAll (b : t) : t := Make (buffer_ b) 0 0.
Definition retired (len : nat) (b : t) : t :=
  if len <? readable b then Make (buffer_ b) (rindex_ b + len) (windex_ b)
  else retiredAll b.

(** [makeSpace]: grow, or move the readable bytes to the front. *)
Definition makeSpace (len : nat) (b : t) : t :=
  if rindex_ b + writable b <? len then
    Make (resize (windex_ b + len + 1) NUL (buffer_ b)) (rindex_ b) (windex_ b)
  else
    let rlen := readable b in
    Make (copy_into (buffer_ b) 0 (take rlen (drop (rindex_ b) (buffer_ b)))) 0 rlen.

Definition ensureWritable (len : nat) (b : t) : t :=
  if writable b <? len then makeSpace len b else b.

Definition hasWritten (len : nat) (b : t) : t := Make (buffer_ b) (rindex_ b) (windex_ b + len).

(** Writing [data] at [beginWrite()], which is undefined past the storage. *)
Definition write_at_windex (data : bytes) (b : t) : result t :=
  if writable b <? length data then Err Undefined
  else Ok (Make (copy_into (buffer_ b) (windex_ b) data) (rindex_ b) (windex_ b)).

Definition append (data : bytes) (b : t) : result t :=
  if length data <=? 0 then Ok b
  else
    let b := ensureWritable (length data) b in
    let* b := write_at_windex data b in
    Ok (hasWritten (length data) b).

(** [peek()] is a pointer to [begin() + rindex_]. *)
Definition memory (b : t) : bytes := drop (rindex_ b) (buffer_ b).
Definition contents (b : t) : bytes := take (readable b) (memory b).

(** ** Invariant *)
Definition wf (b : t) : Prop := rindex_ b <= windex_ b /\ windex_ b <= length (buffer_ b).

#[export] Instance wf_dec b : Decision (wf b).
Proof. unfold wf. apply _. Defined.

Lemma new_wf n : wf (new n).
Proof. unfold wf, new. simpl. lia. Qed.

Lemma length_memory b : length (memory b) = length (buffer_ b) - rindex_ b.
Proof. apply length_drop. Qed.

Lemma contents_length b : wf b -> length (contents b) = readable b.
Proof.
  intros [H1 H2]. unfold contents. rewrite length_take, length_memory. unfold readable. lia.
Qed.

Lemma retiredAll_wf b : wf b -> wf (retiredAll b).
Proof. unfold wf, retiredAll. simpl. lia. Qed.

Lemma retired_wf n b : wf b -> wf (retired n b).
Proof.
  intros H. unfold retired. destruct (Nat.ltb_spec n (readable b)) as [Hn|]; [|by apply retiredAll_wf].
  unfold wf, readable in *. simpl. lia.
Qed.

Lemma retiredAll_contents b : contents (retiredAll b) = [].
Proof. done. Qed.

Lemma retired_contents n b : wf b -> contents (retired n b) = drop n (contents b).
Proof.
  intros H. unfold retired. destruct (Nat.ltb_spec n (readable b)) as [Hn|Hn].
  - unfold contents, memory, readable in *. simpl.
    rewrite <- (drop_drop (buffer_ b) n (rindex_ b)), skipn_firstn_comm.
    f_equal. lia.
  - rewrite retiredAll_contents. symmetry. apply nil_length_inv.
    rewrite length_drop, contents_length by done. lia.
Qed.

Lemma makeSpace_spec n b :
  wf b -> writable b < n ->
  wf (makeSpace n b) /\ n <= writable (makeSpace n b) /\ contents (makeSpace n b) = contents b.
Proof.
  intros Hwf Hn. pose proof (contents_length b Hwf) as Hlen. destruct Hwf as [H1 H2]. unfold makeSpace.
  destruct (Nat.ltb_spec (rindex_ b + writable b) n) as [Hs|Hs].
  - unfold wf, writable, contents, memory, readable in *. simpl.
    rewrite length_resize. split; [lia|]. split; [lia|].
    rewrite resize_ge by lia. rewrite drop_app_le by lia. rewrite take_app_le; [done|].
    rewrite length_drop. lia.
  - fold (memory b). fold (contents b). fold (readable b) in Hlen.
    unfold wf, writable, readable in *. simpl.
    rewrite length_copy_into by lia.
    split; [lia|]. split; [lia|].
    unfold contents at 1, memory, readable. simpl. unfold copy_into. simpl.
    rewrite drop_0, take_app_le by lia. rewrite Nat.sub_0_r. apply take_ge. lia.
Qed.

Lemma ensureWritable_spec n b :
  wf b ->
  wf (ensureWritable n b) /\ n <= writable (ensureWritable n b)
  /\ contents (ensureWritable n b) = contents b.
Proof.
  intros Hwf. unfold ensureWritable.
  destruct (Nat.ltb_spec (writable b) n); [by apply makeSpace_spec|done].
Qed.

Lemma append_spec d b :
  wf b -> exists b', append d b = Ok b' /\ wf b' /\ contents b' = contents b ++ d.
Proof.
  intros Hwf. unfold append. destruct (Nat.leb_spec (length d) 0) as [Hd|Hd].
  { destruct d; [|simpl in Hd; lia]. exists b. by rewrite app_nil_r. }
  destruct (ensureWritable_spec (length d) b Hwf) as ([H1 H2] & Hw & Hc).
  set (e := ensureWritable (length d) b) in *. unfold write_at_windex.
  rewrite (proj2 (Nat.ltb_ge _ _) Hw). eexists. split; [done|].
  unfold writable in Hw. unfold wf, hasWritten. simpl.
  rewrite length_copy_into by lia. split; [lia|].
  rewrite <- Hc. unfold contents, memory, readable. simpl.
  rewrite take_drop_commute, (take_drop_commute (buffer_ e)).
  replace (rindex_ e + (windex_ e + length d - rindex_ e)) with (windex_ e + length d) by lia.
  replace (rindex_ e + (windex_ e - rindex_ e)) with (windex_ e) by lia.
  rewrite take_copy_into by lia. rewrite drop_app_le; [done|]. rewrite length_take. lia.
Qed.

Lemma retired_memory n b : n < readable b -> memory (retired n b) = drop n (memory b).
Proof.
  intros H. unfold retired. rewrite (proj2 (Nat.ltb_lt _ _) H).
  unfold memory. simpl. by rewrite drop_drop.
Qed.

End Buffer.

#[export] Instance Buffer_ByteQueue : ByteQueue Buffer.t := {
  bq_wf := Buffer.wf;
  bq_memory := Buffer.memory;
  bq_readable := Buffer.readable;
  bq_append := Buffer.append;
  bq_retired := Buffer.retired;
  bq_retiredAll := Buffer.retiredAll;
}.

#[export] Instance Buffer_ByteQueueLaws : ByteQueueLaws Buffer.t.
Proof.
  split; intros; simpl in *.
  - rewrite Buffer.length_memory. unfold Buffer.wf, Buffer.readable in *. lia.
  - by apply Buffer.append_spec.
  - by apply Buffer.retired_wf.
  - by apply Buffer.retired_contents.
  - by apply Buffer.retired_memory.
  - by apply Buffer.retiredAll_wf.
  - done.
Qed.

(** ** Refinement: a buffer is a FIFO queue of bytes

    Any sequence of buffer operations, from any initial size, runs without an
    out-of-bounds write and leaves the readable bytes that the same operations
    leave on a plain list of bytes. *)
Inductive buffer_op :=
  | OpAppend (d : bytes)
  | OpRetired (n : nat)
  | OpRetiredAll
  | OpReset
  | OpReserveWrite (d : bytes). (** [ensureWritable]; [read] into [beginWrite]; [hasWritten] *)

Definition run_op (op : buffer_op) (b : Buffer.t) : result Buffer.t :=
  match op with
  | OpAppend d => Buffer.append d b
  | OpRetired n => Ok (Buffer.retired n b)
  | OpRetiredAll => Ok (Buffer.retiredAll b)
  | OpReset => Ok (Buffer.reset b)
  | OpReserveWrite d =>
      let b := Buffer.ensureWritable (length d) b in
      let* b := Buffer.write_at_windex d b in
      Ok (Buffer.hasWritten (length d) b)
  end.

Fixpoint run_ops (ops : list buffer_op) (b : Buffer.t) : result Buffer.t :=
  match ops with
  | [] => Ok b
  | op :: ops => let* b := run_op op b in run_ops ops b
  end.

Definition queue_op (op : buffer_op) (q : bytes) : bytes :=
  match op with
  | OpAppend d | OpReserveWrite d => q ++ d
  | OpRetired n => drop n q
  | OpRetiredAll | OpReset => []
  end.

Lemma reserve_write_append d b :
  Buffer.wf b -> 0 < length d ->
  run_op (OpReserveWrite d) b = Buffer.append d b.
Proof.
  intros Hwf Hd. simpl. unfold Buffer.append. by rewrite (proj2 (Nat.leb_gt _ _) Hd).
Qed.

Lemma run_op_spec op b :
  Buffer.wf b ->
  exists b', run_op op b = Ok b' /\ Buffer.wf b' /\ Buffer.contents b' = queue_op op (Buffer.contents b).
Proof.
  intros Hwf. destruct op as [d|n| | |d].
  - by apply Buffer.append_spec.
  - eexists. split; [done|]. split; [by apply Buffer.retired_wf|by apply Buffer.retired_contents].
  - eexists. split; [done|]. split; [by apply Buffer.retiredAll_wf|done].
  - eexists. split; [done|]. split; [by apply Buffer.retiredAll_wf|done].
  - destruct d as [|a d].
    + exists b. simpl. unfold Buffer.write_at_windex, Buffer.ensureWritable. simpl.
      unfold Buffer.hasWritten, copy_into. simpl. rewrite app_nil_r.
      rewrite !(Nat.add_0_r (Buffer.windex_ b)), take_drop. by destruct b.
    + rewrite reserve_write_append by (done || simpl; lia). by apply Buffer.append_spec.
Qed.

Lemma run_ops_spec ops b :
  Buffer.wf b ->
  exists b', run_ops ops b = Ok b' /\ Buffer.wf b'
    /\ Buffer.contents b' = fold_left (fun q op => queue_op op q) ops (Buffer.contents b).
Proof.
  revert b. induction ops as [|op ops IH]; intros b Hwf; simpl; [by exists b|].
  destruct (run_op_spec op b Hwf) as (b1 & -> & Hwf1 & <-). by apply IH.
Qed.

(** C12: from any initial size, every sequence of buffer operations runs without
    touching memory outside the vector, keeps [rindex_ <= windex_ <= size], and
    the readable bytes are those of a FIFO queue that received the same
    operations; [readable()] is their number. *)
Theorem buffer_is_byte_queue size ops :
  exists b, run_ops ops (Buffer.new size) = Ok b /\ Buffer.wf b
    /\ Buffer.contents b = fold_left (fun q op => queue_op op q) ops []
    /\ Buffer.readable b = length (Buffer.contents b).
Proof.
  destruct (run_ops_spec ops (Buffer.new size) (Buffer.new_wf size)) as (b & Hr & Hwf & Hc).
  exists b. split; [done|]. split; [done|]. split; [done|]. by rewrite Buffer.contents_length.
Qed.
