(* ===== verification/TimeStamp.v ===== *)
(** * TimeStamp: microsecond clock values

    Models [soc/net/include/TimeStamp.h].  The value is a [uint64_t]; the
    factories that take an [int] multiply it as an [int], so they are undefined
    when that product overflows.  [gettimeofday] is the argument [clock]. *)
From S2P Require Import Prelude.
Local Open Scope Z_scope.

Module TimeStamp.

Record t := Make { microsecond_ : Z }.

#[export] Instance t_eq_dec : EqDecision t.
Proof. solve_decision. Defined.

(** The constructor stores a [uint64_t]: an [int] argument is converted. *)
Definition make (microsecond : Z) : t := Make (u64 microsecond).

Definition get_second (x : t) : Z := microsecond_ x / 1000000.
Definition get_millsecond (x : t) : Z := microsecond_ x / 1000.
Definition get_microsecond (x : t) : Z := microsecond_ x.
Definition get_nanosecond (x : t) : Z := u64 (microsecond_ x * 1000).

(** [operator+] and [operator-] update the left operand and return it. *)
Definition add (x y : t) : t := Make (u64 (microsecond_ x + microsecond_ y)).
Definition sub (x y : t) : t := Make (u64 (microsecond_ x - microsecond_ y)).
Definition add_seconds (x : t) (second : Z) : result t :=
  let* d := int_checked (second * 1000000) in Ok (Make (u64 (microsecond_ x + u64 d))).
Definition sub_seconds (x : t) (second : Z) : result t :=
  let* d := int_checked (second * 1000000) in Ok (Make (u64 (microsecond_ x - u64 d))).

Definition ltb (x y : t) : bool := microsecond_ x <? microsecond_ y.
Definition leb (x y : t) : bool := microsecond_ x <=? microsecond_ y.
Definition gtb (x y : t) : bool := microsecond_ y <? microsecond_ x.
Definition eqb (x y : t) : bool := microsecond_ x =? microsecond_ y.

Definition second (sec : Z) : result t := let* p := int_checked (sec * 1000000) in Ok (make p).
Definition millsecond (msec : Z) : result t := let* p := int_checked (msec * 1000) in Ok (make p).
Definition microsecond (microsec : Z) : t := make microsec.
Definition nanosecond (nsec : Z) : t := make (nsec `quot` 1000).
Definition max : t := Make (2 ^ 64 - 1).

(** [now()]: [tv.tv_sec * 1000000 + tv.tv_usec] of the clock. *)
Definition now (tv_sec tv_usec : Z) : t := make (tv_sec * 1000000 + tv_usec).

Definition nowSecond (clock : t) (sec : Z) : result t := let* s := second sec in Ok (add clock s).
Definition nowMsecond (clock : t) (msec : Z) : result t :=
  let* s := millsecond msec in Ok (add clock s).
Definition nowNanosecond (clock : t) (nsec : Z) : t := add clock (nanosecond nsec).

(** ** Facts *)
Lemma make_small z : 0 <= z < 2 ^ 64 -> make z = Make z.
Proof. intros H. unfold make. by rewrite u64_small. Qed.

Lemma millsecond_small msec :
  0 <= msec <= 2147483 -> millsecond msec = Ok (Make (msec * 1000)).
Proof.
  intros H. unfold millsecond. rewrite int_checked_Ok by (unfold INT_MIN, INT_MAX; lia).
  rewrite make_small; [done|lia].
Qed.

Lemma second_small sec : 0 <= sec <= 2147 -> second sec = Ok (Make (sec * 1000000)).
Proof.
  intros H. unfold second. rewrite int_checked_Ok by (unfold INT_MIN, INT_MAX; lia).
  rewrite make_small; [done|lia].
Qed.

Lemma second_overflow sec : 2148 <= sec -> second sec = Err Undefined.
Proof.
  intros H. unfold second, int_checked, INT_MIN, INT_MAX.
  replace (sec * 1000000 <=? 2147483647) with false by (symmetry; apply Z.leb_gt; lia).
  by rewrite andb_false_r.
Qed.

Lemma add_small a b :
  0 <= a -> 0 <= b -> a + b < 2 ^ 64 -> add (Make a) (Make b) = Make (a + b).
Proof. intros. unfold add. simpl. by rewrite u64_small by lia. Qed.

Lemma leb_spec x y : leb x y = true <-> microsecond_ x <= microsecond_ y.
Proof. apply Z.leb_le. Qed.
Lemma leb_false x y : leb x y = false <-> microsecond_ y < microsecond_ x.
Proof. apply Z.leb_gt. Qed.
Lemma ltb_spec x y : ltb x y = true <-> microsecond_ x < microsecond_ y.
Proof. apply Z.ltb_lt. Qed.
Lemma ltb_false x y : ltb x y = false <-> microsecond_ y <= microsecond_ x.
Proof. apply Z.ltb_ge. Qed.

End TimeStamp.
