(* ===== verification/InetAddress.v ===== *)
(** * InetAddress: an IPv4 address and a port

    Models [soc/net/include/InetAddress.h] and [soc/net/src/InetAddress.cc].  The
    texts of addresses, [inet_pton] and [inet_ntop], are parameters; a
    [sockaddr_in] holds its numbers in the byte order of the network, on a
    machine of the other order. *)
From S2P Require Import Prelude CStr.
Local Open Scope Z_scope.

Module InetAddress.

(** [uint16_t], and the swap of its bytes. *)
Definition u16 (x : Z) : Z := x mod 2 ^ 16.
Definition htons (x : Z) : Z := Z.lor (Z.shiftl (Z.land x 0xff) 8) (Z.land (Z.shiftr x 8) 0xff).

Record t := Make { sin_port : Z; s_addr : Z }.

Section address.
Context (inet_pton : bytes -> option Z) (inet_ntop : Z -> bytes).

(** Any address of the host, at a port. *)
Definition any_address (port : Z) : t := Make (htons (u16 port)) 0.
(** An address that cannot be read leaves the zero of [memset]. *)
Definition new (ip : bytes) (port : Z) : t := Make (htons (u16 port)) (default 0 (inet_pton ip)).

(** [inet_ntop] is told that the buffer has [sizeof(sockaddr_in)] bytes: it
    writes nothing where the text and its zero do not fit. *)
Definition getIp (a : t) : result bytes :=
  let s := inet_ntop (s_addr a) in if (length s <? 16)%nat then Ok s else Err Undefined.
Definition getPort (a : t) : Z := htons (sin_port a).
Definition toString (a : t) : result bytes :=
  let* ip := getIp a in Ok (ip ++ bs ":" ++ to_string (getPort a)).

(** ** Round trips *)
Lemma htons_testbit x i :
  0 <= i -> Z.testbit (htons x) i = if i <? 8 then Z.testbit x (i + 8) else if i <? 16 then Z.testbit x (i - 8) else false.
Proof.
  intros Hi. unfold htons. change 0xff with (Z.ones 8). rewrite Z.lor_spec, Z.land_spec, Z.shiftr_spec, Z.testbit_ones_nonneg by lia.
  destruct (Z.ltb_spec i 8) as [H|H].
  - rewrite Z.shiftl_spec_low by lia. by rewrite andb_true_r.
  - rewrite Z.shiftl_spec_high, Z.land_spec, Z.testbit_ones_nonneg, andb_false_r, orb_false_r by lia.
    destruct (Z.ltb_spec (i - 8) 8), (Z.ltb_spec i 16); try lia; by rewrite ?andb_true_r, ?andb_false_r.
Qed.

Lemma htons_involutive x : 0 <= x < 2 ^ 16 -> htons (htons x) = x.
Proof.
  intros H. apply Z.bits_inj'. intros i Hi. rewrite htons_testbit by done.
  destruct (Z.ltb_spec i 8) as [H1|H1]; [|destruct (Z.ltb_spec i 16) as [H2|H2]].
  - rewrite htons_testbit by lia. rewrite (proj2 (Z.ltb_ge _ _)), (proj2 (Z.ltb_lt _ _)) by lia. f_equal. lia.
  - rewrite htons_testbit by lia. rewrite (proj2 (Z.ltb_lt _ _)) by lia. f_equal. lia.
  - rewrite <- (Z.mod_small x (2 ^ 16)) by done. by rewrite Z.mod_pow2_bits_high by lia.
Qed.

(** The port of an address is the one it was made with, as a [uint16_t]. *)
Lemma getPort_new ip port : getPort (new ip port) = port mod 65536.
Proof. apply htons_involutive. by apply Z.mod_pos_bound. Qed.

End address.
End InetAddress.
