(* ===== verification/TimerHeap.v ===== *)
(** * TimerHeap: the indexed binary heap of timers

    Models [soc/net/include/TimerHeap.h]: a vector [c_] of timers ordered as a
    min-heap by expiry time, its element count [n_], and the map [fds_] from a
    timer's key to its position.  The operations are written with the code's
    own loops (a hole that moves, and a value stored when the loop ends), every
    access through an index is checked, and [push], [adjust], [top] and [pop]
    are shown to implement a priority map keyed by [fd]. *)
From S2P Require Import Prelude CStr TimeStamp.

(** ** Timers *)
Record Timer (C : Type) := mkTimer {
  fd : Z;
  timestamp : TimeStamp.t;
  callback : option C; (** [std::function<void()>], [None] when empty *)
}.
Arguments mkTimer {C} fd timestamp callback.
Arguments fd {C} _.
Arguments timestamp {C} _.
Arguments callback {C} _.

(** [Timer::operator<]: the later timer is the smaller one. *)
Definition timer_lt {C} (self other : Timer C) : bool :=
  TimeStamp.ltb (timestamp other) (timestamp self).

Module TimerHeap.

Record t (C : Type) := Make { c_ : list (Timer C); n_ : nat; fds_ : gmap Z nat }.
Arguments Make {C} c_ n_ fds_.
Arguments c_ {C} _.
Arguments n_ {C} _.
Arguments fds_ {C} _.

Section operations.
Context {C : Type}.

Definition empty_heap : t C := Make [] 0 ∅.

(** The parent index [(i - 1) / 2]; the code computes it in [size_t] and does
    not use it when [i = 0]. *)
Definition parent (i : nat) : nat := (i - 1) / 2.

(** The loop of [upAdjust]: [v] is the timer being placed, [i] the hole. *)
Fixpoint upLoop (fuel : nat) (v : Timer C) (i : nat) (c : list (Timer C)) (fds : gmap Z nat)
    : result (list (Timer C) * gmap Z nat * nat) :=
  match fuel with
  | 0 => Err OutOfFuel
  | S fuel =>
      if i <=? 0 then Ok (c, fds, i)
      else
        let* p := at_ c (parent i) in
        if timer_lt v p then Ok (c, fds, i)
        else upLoop fuel v (parent i) (<[i := p]> c) (<[fd p := i]> fds)
  end.

Definition upAdjust (i : nat) (h : t C) : result (t C) :=
  let* v := at_ (c_ h) i in
  let* (c, fds, j) := upLoop (S i) v i (c_ h) (fds_ h) in
  Ok (Make (<[j := v]> c) (n_ h) (<[fd v := j]> fds)).

(** The child the hole may move to: the one that expires first. *)
Definition minChild (n i : nat) (c : list (Timer C)) : result nat :=
  let child := i * 2 + 1 in
  if child + 1 <? n then
    let* a := at_ c child in
    let* b := at_ c (child + 1) in
    Ok (if timer_lt a b then child + 1 else child)
  else Ok child.

Fixpoint downLoop (fuel n : nat) (v : Timer C) (i : nat) (c : list (Timer C)) (fds : gmap Z nat)
    : result (list (Timer C) * gmap Z nat * nat) :=
  match fuel with
  | 0 => Err OutOfFuel
  | S fuel =>
      if n <=? i * 2 + 1 then Ok (c, fds, i)
      else
        let* child := minChild n i c in
        let* x := at_ c child in
        if timer_lt x v then Ok (c, fds, i)
        else downLoop fuel n v child (<[i := x]> c) (<[fd x := i]> fds)
  end.

(** [downAdjust(i)] with its result [x > i], where [x] is the initial index. *)
Definition downAdjust (i : nat) (h : t C) : result (bool * t C) :=
  let* v := at_ (c_ h) i in
  let* (c, fds, j) := downLoop (S (n_ h)) (n_ h) v i (c_ h) (fds_ h) in
  Ok (j <? i, Make (<[j := v]> c) (n_ h) (<[fd v := j]> fds)).

(** [if (!downAdjust(i)) upAdjust(i);] *)
Definition readjust (i : nat) (h : t C) : result (t C) :=
  let* (moved, h) := downAdjust i h in
  if moved then Ok h else upAdjust i h.

Definition push (timer : Timer C) (h : t C) : result (t C) :=
  match fds_ h !! fd timer with
  | None =>
      let h := Make (c_ h ++ [timer]) (S (n_ h)) (<[fd timer := n_ h]> (fds_ h)) in
      if n_ h =? 1 then Ok h else upAdjust (n_ h - 1) h
  | Some i =>
      let* old := at_ (c_ h) i in
      let new := mkTimer (fd old) (timestamp timer) (callback timer) in
      readjust i (Make (<[i := new]> (c_ h)) (n_ h) (fds_ h))
  end.

(** [del(i)]: swap with the last timer, shrink, re-establish the order, erase. *)
Definition del (i : nat) (h : t C) : result (t C) :=
  if n_ h =? 0 then Ok h
  else
    let* x := at_ (c_ h) i in
    let* y := at_ (c_ h) (n_ h - 1) in
    let* h := readjust i (Make (<[n_ h - 1 := x]> (<[i := y]> (c_ h))) (n_ h - 1) (fds_ h)) in
    let* b := of_option Undefined (last (c_ h)) in
    Ok (Make (take (length (c_ h) - 1) (c_ h)) (n_ h) (delete (fd b) (fds_ h))).

Definition pop (h : t C) : result (t C) := if n_ h =? 0 then Err StdException else del 0 h.

Definition top (h : t C) : result (Timer C) := if n_ h =? 0 then Err StdException else at_ (c_ h) 0.

Definition empty (h : t C) : bool := n_ h =? 0.
Definition size (h : t C) : nat := n_ h.

(** [clear()] empties the vector and the map, and leaves [n_] as it is. *)
Definition clear (h : t C) : t C := Make [] (n_ h) ∅.

(** [adjust]: only the expiry time changes, and only [downAdjust] runs. *)
Definition adjust (timer : Timer C) (h : t C) : result (t C) :=
  match fds_ h !! fd timer with
  | None => Ok h
  | Some i =>
      let* old := at_ (c_ h) i in
      let new := mkTimer (fd old) (timestamp timer) (callback old) in
      let* (_, h) := downAdjust i (Make (<[i := new]> (c_ h)) (n_ h) (fds_ h)) in
      Ok h
  end.

End operations.

(** ** Heap order, as a property of the sequence of expiry times *)
Section order.
Implicit Types (f g : nat -> Z).

Definition ordered f (n : nat) : Prop := forall j, 0 < j < n -> (f (parent j) <= f j)%Z.

(** Ordered except between [i] and its parent. *)
Definition up_pre f (n i : nat) : Prop :=
  (forall j, 0 < j < n -> j <> i -> (f (parent j) <= f j)%Z)
  /\ (0 < i -> forall j, 0 < j < n -> parent j = i -> (f (parent i) <= f j)%Z).

(** Ordered except between [k] and its children, and, while the hole has not
    moved from its start [i0], between [i0] and its parent.  An [i0] past the
    end makes no such exception. *)
Definition down_pre f (n i0 k : nat) : Prop :=
  (forall j, 0 < j < n -> parent j <> k -> (j <> i0 \/ k <> i0) -> (f (parent j) <= f j)%Z)
  /\ (0 < k -> forall j, 0 < j < n -> parent j = k -> (f (parent k) <= f j)%Z).

Definition swapf f (i j : nat) : nat -> Z :=
  fun x => if x =? i then f j else if x =? j then f i else f x.

Lemma parent_lt i : 0 < i -> parent i < i.
Proof. unfold parent. intros H. apply Nat.Div0.div_lt_upper_bound. lia. Qed.

Lemma parent_child j k : 0 < j -> parent j = k <-> j = k * 2 + 1 \/ j = k * 2 + 2.
Proof.
  unfold parent. intros H. pose proof (Nat.div_mod_eq (j - 1) 2).
  pose proof (Nat.mod_upper_bound (j - 1) 2). lia.
Qed.

Ltac swapf_cases :=
  unfold swapf in *;
  repeat match goal with
    | |- context [?a =? ?b] => destruct (Nat.eqb_spec a b); subst
    | H : context [?a =? ?b] |- _ => destruct (Nat.eqb_spec a b); subst
    end.

Lemma up_step f n i :
  0 < i < n -> up_pre f n i -> (f i <= f (parent i))%Z ->
  up_pre (swapf f i (parent i)) n (parent i).
Proof.
  intros Hi [Hord Hgp] Hle. pose proof (parent_lt i ltac:(lia)) as Hpi. split.
  - intros j Hj Hne. pose proof (parent_lt j ltac:(lia)) as Hpj.
    destruct (decide (j = i)) as [->|Hji].
    { swapf_cases; lia. }
    destruct (decide (parent j = i)) as [Hc|Hc].
    { specialize (Hgp ltac:(lia) j Hj Hc). swapf_cases; try lia; congruence. }
    specialize (Hord j Hj Hji). swapf_cases; try lia.
    rewrite e in Hord. lia.
  - intros Hp j Hj Hc. pose proof (parent_lt (parent i) Hp) as Hpp.
    pose proof (Hord (parent i) ltac:(lia) ltac:(lia)) as H1.
    pose proof (parent_lt j ltac:(lia)) as Hpj.
    destruct (decide (j = i)) as [->|Hji].
    { swapf_cases; lia. }
    specialize (Hord j Hj Hji). rewrite Hc in Hord. swapf_cases; lia.
Qed.

Lemma up_exit_root f n : up_pre f n 0 -> ordered f n.
Proof. intros [H _] j Hj. apply H; lia. Qed.

Lemma up_pre_past_end f n : up_pre f n n -> ordered f n.
Proof. intros [H _] j Hj. apply H; lia. Qed.

Lemma up_exit f n i : up_pre f n i -> (0 < i -> (f (parent i) <= f i)%Z) -> ordered f n.
Proof.
  intros [H _] Hi j Hj. destruct (decide (j = i)) as [->|]; [apply Hi; lia|by apply H].
Qed.

Lemma ordered_up_pre f n i : ordered f n -> i < n -> up_pre f n i.
Proof.
  intros H Hin. split; [by intros; apply H|].
  intros Hi j Hj Hc. pose proof (H j Hj). pose proof (H i ltac:(lia)). rewrite Hc in *. lia.
Qed.

(** [m] is the child of [k] that expires first. *)
Lemma down_step f n i0 k m :
  i0 <= k \/ n <= i0 -> m < n -> 0 < m -> parent m = k ->
  (forall j, 0 < j < n -> parent j = k -> (f m <= f j)%Z) ->
  (f m <= f k)%Z -> down_pre f n i0 k -> down_pre (swapf f k m) n i0 m.
Proof.
  intros Hk Hm Hm0 Hpm Hmin Hle [HA HB]. pose proof (parent_lt m Hm0) as Hlt. split.
  - intros j Hj Hpj Hcond. pose proof (parent_lt j ltac:(lia)) as Hltj.
    destruct (decide (parent j = k)) as [Hc|Hc].
    { specialize (Hmin j Hj Hc). swapf_cases; try lia; congruence. }
    destruct (decide (j = k)) as [->|Hjk].
    { specialize (HB ltac:(lia) m ltac:(lia) Hpm). swapf_cases; lia. }
    destruct (decide (j = m)) as [->|Hjm]; [congruence|].
    assert (f (parent j) <= f j)%Z by (apply HA; [done|done|lia]). swapf_cases; lia.
  - intros _ j Hj Hc. pose proof (parent_lt j ltac:(lia)) as Hltj.
    assert (f (parent j) <= f j)%Z by (apply HA; [done|lia|lia]).
    rewrite Hc in *. rewrite Hpm. swapf_cases; lia.
Qed.

Lemma down_exit f n i0 k :
  i0 <= k \/ n <= i0 -> k < n -> down_pre f n i0 k ->
  (forall j, 0 < j < n -> parent j = k -> (f k <= f j)%Z) -> up_pre f n i0.
Proof.
  intros Hi0 Hk [HA HB] Hch.
  assert (Hall : forall j, 0 < j < n -> (j <> i0 \/ k <> i0) -> (f (parent j) <= f j)%Z).
  { intros j Hj Hc. destruct (decide (parent j = k)) as [Hp|]; [|by apply HA].
    rewrite Hp. by apply Hch. }
  split.
  - intros j Hj Hne. apply Hall; [done|by left].
  - intros Hi j Hj Hc. destruct (decide (k = i0)) as [->|Hne]; [by apply HB|].
    pose proof (parent_lt j ltac:(lia)).
    pose proof (Hall i0 ltac:(lia) ltac:(by right)).
    pose proof (Hall j Hj ltac:(by right)). rewrite Hc in *. lia.
Qed.

Lemma ordered_root f n j : ordered f n -> j < n -> (f 0%nat <= f j)%Z.
Proof.
  intros H. induction (lt_wf j) as [j _ IH]. intros Hj.
  destruct (decide (j = 0)) as [->|]; [lia|].
  pose proof (parent_lt j ltac:(lia)). pose proof (IH (parent j) ltac:(lia) ltac:(lia)).
  pose proof (H j ltac:(lia)). lia.
Qed.

Lemma ordered_ext f g n : (forall j, j < n -> f j = g j) -> ordered f n -> ordered g n.
Proof.
  intros Heq H j Hj. pose proof (parent_lt j ltac:(lia)).
  rewrite <- !Heq by lia. by apply H.
Qed.

Lemma up_pre_ext f g n i :
  i < n -> (forall j, j < n -> f j = g j) -> up_pre f n i -> up_pre g n i.
Proof.
  intros Hi Heq [H1 H2]. split.
  - intros j Hj Hne. pose proof (parent_lt j ltac:(lia)). rewrite <- !Heq by lia. by apply H1.
  - intros H0 j Hj Hc. pose proof (parent_lt i H0). rewrite <- !Heq by lia. by apply H2.
Qed.

Lemma down_pre_ext f g n i k :
  k < n -> (forall j, j < n -> f j = g j) -> down_pre f n i k -> down_pre g n i k.
Proof.
  intros Hi Heq [H1 H2]. split.
  - intros j Hj Hne Hc. pose proof (parent_lt j ltac:(lia)). rewrite <- !Heq by lia. by apply H1.
  - intros H0 j Hj Hc. pose proof (parent_lt k H0). rewrite <- !Heq by lia. by apply H2.
Qed.

End order.

(** ** The loops move a hole through a permutation *)
Section loops.
Context {C : Type}.

(** The expiry time at a position, as the heap order sees it. *)
Definition tm (c : list (Timer C)) (j : nat) : Z :=
  match c !! j with Some x => TimeStamp.microsecond_ (timestamp x) | None => 0 end.

(** [fds_] is the index of the first [n] timers, for the keys not in [ex]. *)
Definition idx (ex : Z -> Prop) (c : list (Timer C)) (n : nat) (fds : gmap Z nat) : Prop :=
  forall f k, ~ ex f -> fds !! f = Some k <-> exists x, k < n /\ c !! k = Some x /\ fd x = f.

Lemma keys_inj (c : list (Timer C)) i j x y :
  NoDup (fd <$> c) -> c !! i = Some x -> c !! j = Some y -> fd x = fd y -> i = j.
Proof.
  intros Hnd Hi Hj Heq. eapply NoDup_lookup; [exact Hnd| |].
  - rewrite list_lookup_fmap, Hi. done.
  - rewrite list_lookup_fmap, Hj. simpl. by rewrite Heq.
Qed.

Lemma insert_Permutation (l : list (Timer C)) i x y :
  l !! i = Some x -> x :: <[i := y]> l ≡ₚ y :: l.
Proof.
  revert i. induction l as [|a l IH]; intros [|i] Hi; simplify_eq/=.
  - constructor.
  - rewrite (Permutation_swap a x), (IH i Hi). constructor.
Qed.

Section step.
Context (c : list (Timer C)) (i j : nat) (v p : Timer C).
Context (Hi : i < length c) (Hij : i <> j) (Hj : c !! j = Some p).

Let before := <[i := v]> c.
Let after := <[j := v]> (<[i := p]> c).

Lemma step_Permutation : after ≡ₚ before.
Proof.
  destruct (lookup_lt_is_Some_2 c i Hi) as [x Hx]. unfold after, before.
  pose proof (insert_Permutation c i x v Hx) as H1.
  pose proof (insert_Permutation c i x p Hx) as H2.
  assert ((<[i := p]> c) !! j = Some p) as Hp by (rewrite list_lookup_insert_ne; done).
  pose proof (insert_Permutation (<[i := p]> c) j p v Hp) as H3.
  apply (Permutation_cons_inv (a := p)), (Permutation_cons_inv (a := x)).
  rewrite H3, (Permutation_swap v x), H2, (Permutation_swap p v), <- H1. constructor.
Qed.

Lemma step_lookup k :
  after !! k = if k =? i then Some p else if k =? j then Some v else before !! k.
Proof.
  pose proof (lookup_lt_Some _ _ _ Hj) as Hlt. unfold after, before.
  destruct (Nat.eqb_spec k i) as [->|Hki].
  - rewrite list_lookup_insert_ne, list_lookup_insert_eq by done. done.
  - destruct (Nat.eqb_spec k j) as [->|Hkj].
    + rewrite list_lookup_insert_eq; [done|]. by rewrite length_insert.
    + by rewrite !list_lookup_insert_ne by done.
Qed.

Lemma before_lookup_i : before !! i = Some v.
Proof. by apply list_lookup_insert_eq. Qed.

Lemma before_lookup_j : before !! j = Some p.
Proof. unfold before. by rewrite list_lookup_insert_ne. Qed.

Lemma step_tm k : tm after k = swapf (tm before) i j k.
Proof.
  unfold tm, swapf. rewrite step_lookup.
  destruct (k =? i); [by rewrite before_lookup_j|].
  destruct (k =? j); [by rewrite before_lookup_i|done].
Qed.

Lemma step_drop n : i < n -> j < n -> drop n after = drop n before.
Proof. intros. unfold after, before. by rewrite !drop_insert_lt by lia. Qed.

Lemma step_idx ex n fds :
  i < n -> j < n -> NoDup (fd <$> before) -> ex (fd v) ->
  idx ex before n fds -> idx ex after n (<[fd p := i]> fds).
Proof.
  intros Hin Hjn Hnd Hex Hidx f k Hf. rewrite step_lookup.
  destruct (decide (f = fd p)) as [->|Hfp].
  - rewrite lookup_insert_eq. split.
    + intros [= <-]. exists p. by rewrite Nat.eqb_refl.
    + intros (x & Hk & Hx & Hfx). destruct (Nat.eqb_spec k i) as [->|Hki]; [done|].
      destruct (Nat.eqb_spec k j) as [->|Hkj]; [congruence|].
      exfalso. apply Hkj. by eapply keys_inj; [exact Hnd|exact Hx|apply before_lookup_j|].
  - rewrite lookup_insert_ne by done. rewrite (Hidx f k Hf).
    destruct (Nat.eqb_spec k i) as [->|Hki].
    { rewrite before_lookup_i. naive_solver. }
    destruct (Nat.eqb_spec k j) as [->|Hkj]; [|done].
    rewrite before_lookup_j. naive_solver.
Qed.
End step.

(** What both loops maintain: storing [v] in the hole [i] gives a permutation
    of the heap [d0] the loop started from, and [fds] indexes it except for the
    keys in [ex], among which is the key of [v]. *)
Record hole_ok (ex : Z -> Prop) (n : nat) (v : Timer C) (d0 c : list (Timer C))
    (fds : gmap Z nat) (i : nat) : Prop := HoleOk {
  ho_lt : i < n;
  ho_len : n <= length c;
  ho_perm : <[i := v]> c ≡ₚ d0;
  ho_drop : drop n (<[i := v]> c) = drop n d0;
  ho_nodup : NoDup (fd <$> d0);
  ho_ex : ex (fd v);
  ho_idx : idx ex (<[i := v]> c) n fds;
}.

Lemma hole_step ex n v d0 c fds i j p :
  hole_ok ex n v d0 c fds i -> j < n -> i <> j -> c !! j = Some p ->
  hole_ok ex n v d0 (<[i := p]> c) (<[fd p := i]> fds) j.
Proof.
  intros [Hlt Hlen Hperm Hdrop Hnd Hex Hidx] Hj Hij Hp.
  assert (Hic : i < length c) by lia. split.
  - done.
  - by rewrite length_insert.
  - by rewrite (step_Permutation c i j v p).
  - by rewrite (step_drop c i j v p).
  - done.
  - done.
  - apply step_idx; try done. by rewrite Hperm.
Qed.

(** Storing [v] and recording its position closes the hole. *)
Lemma hole_close ex n v d0 c fds i :
  hole_ok ex n v d0 c fds i ->
  idx (fun f => ex f /\ f <> fd v) (<[i := v]> c) n (<[fd v := i]> fds).
Proof.
  intros [Hlt Hlen Hperm Hdrop Hnd Hex Hidx] f k Hf.
  assert (Hv : <[i := v]> c !! i = Some v) by (apply list_lookup_insert_eq; lia).
  destruct (decide (f = fd v)) as [->|Hne].
  - rewrite lookup_insert_eq. split.
    + intros [= <-]. exists v. done.
    + intros (x & Hk & Hx & Hfx). f_equal.
      assert (NoDup (fd <$> <[i := v]> c)) as Hnd' by (by rewrite Hperm).
      exact (keys_inj _ _ _ _ _ Hnd' Hv Hx (eq_sym Hfx)).
  - rewrite lookup_insert_ne by done. apply Hidx. intros He. by apply Hf.
Qed.

Lemma hole_open ex n v c fds i :
  i < n -> n <= length c -> c !! i = Some v -> NoDup (fd <$> c) ->
  idx ex c n fds -> hole_ok (fun f => ex f \/ f = fd v) n v c c fds i.
Proof.
  intros Hi Hn Hv Hnd Hidx. split; rewrite ?(list_insert_id _ _ _ Hv); try done.
  - by right.
  - intros f k Hf. apply Hidx. intros He. apply Hf. by left.
Qed.

Lemma upLoop_spec fuel ex n v d0 i c fds :
  i < fuel -> hole_ok ex n v d0 c fds i -> up_pre (tm (<[i := v]> c)) n i ->
  exists c' fds' j, upLoop fuel v i c fds = Ok (c', fds', j)
    /\ hole_ok ex n v d0 c' fds' j /\ ordered (tm (<[j := v]> c')) n.
Proof.
  revert i c fds. induction fuel as [|fuel IH]; intros i c fds Hf Hok Hpre; [lia|]. simpl.
  pose proof (ho_lt _ _ _ _ _ _ _ Hok) as Hin. pose proof (ho_len _ _ _ _ _ _ _ Hok) as Hlen.
  destruct (Nat.leb_spec i 0) as [H0|H0].
  { replace i with 0 in * by lia. eexists _, _, _. split; [done|]. split; [done|].
    by apply up_exit_root. }
  pose proof (parent_lt i H0) as Hpi.
  destruct (lookup_lt_is_Some_2 c (parent i) ltac:(lia)) as [p Hp].
  rewrite (at_lookup _ _ _ Hp).
  assert (Htp : tm (<[i := v]> c) (parent i) = TimeStamp.microsecond_ (timestamp p)).
  { unfold tm. rewrite list_lookup_insert_ne by lia. by rewrite Hp. }
  assert (Htv : tm (<[i := v]> c) i = TimeStamp.microsecond_ (timestamp v)).
  { unfold tm. by rewrite list_lookup_insert_eq by lia. }
  destruct (timer_lt v p) eqn:Hlt.
  - eexists _, _, _. split; [done|]. split; [done|]. apply (up_exit _ _ i Hpre). intros _.
    apply TimeStamp.ltb_spec in Hlt. lia.
  - apply TimeStamp.ltb_false in Hlt. apply IH; [lia|by apply hole_step; try done; lia|].
    eapply up_pre_ext; [lia|intros k _; symmetry; by apply step_tm; try done; lia|].
    apply up_step; [lia|done|lia].
Qed.

Lemma minChild_spec n k (c : list (Timer C)) :
  k * 2 + 1 < n -> n <= length c ->
  exists m, minChild n k c = Ok m /\ 0 < m < n /\ parent m = k
    /\ forall j, 0 < j < n -> parent j = k -> (tm c m <= tm c j)%Z.
Proof.
  intros Hk Hn. unfold minChild.
  destruct (Nat.ltb_spec (k * 2 + 1 + 1) n) as [H2|H2].
  - destruct (lookup_lt_is_Some_2 c (k * 2 + 1) ltac:(lia)) as [a Ha].
    destruct (lookup_lt_is_Some_2 c (k * 2 + 1 + 1) ltac:(lia)) as [b Hb].
    rewrite (at_lookup _ _ _ Ha), (at_lookup _ _ _ Hb). eexists. split; [done|].
    assert (Hta : tm c (k * 2 + 1) = TimeStamp.microsecond_ (timestamp a)) by (unfold tm; by rewrite Ha).
    assert (Htb : tm c (k * 2 + 1 + 1) = TimeStamp.microsecond_ (timestamp b)) by (unfold tm; by rewrite Hb).
    destruct (timer_lt a b) eqn:E.
    + apply TimeStamp.ltb_spec in E. split; [lia|]. split; [apply parent_child; lia|].
      intros j Hj Hc. apply parent_child in Hc; [|lia].
      destruct Hc as [->| ->]; [lia|]. replace (k * 2 + 2) with (k * 2 + 1 + 1) by lia. lia.
    + apply TimeStamp.ltb_false in E. split; [lia|]. split; [apply parent_child; lia|].
      intros j Hj Hc. apply parent_child in Hc; [|lia].
      destruct Hc as [->| ->]; [lia|]. replace (k * 2 + 2) with (k * 2 + 1 + 1) by lia. lia.
  - eexists. split; [done|]. split; [lia|]. split; [apply parent_child; lia|].
    intros j Hj Hc. apply parent_child in Hc; [|lia].
    replace j with (k * 2 + 1) by lia. lia.
Qed.

Lemma minChild_insert n i v (c : list (Timer C)) :
  minChild n i (<[i := v]> c) = minChild n i c.
Proof.
  unfold minChild, at_. by rewrite !list_lookup_insert_ne by lia.
Qed.

Lemma downLoop_spec fuel ex n v d0 i0 i c fds :
  n <= fuel + i -> i0 <= i \/ n <= i0 -> hole_ok ex n v d0 c fds i -> down_pre (tm (<[i := v]> c)) n i0 i ->
  exists c' fds' j, downLoop (S fuel) n v i c fds = Ok (c', fds', j)
    /\ hole_ok ex n v d0 c' fds' j /\ i <= j /\ up_pre (tm (<[j := v]> c')) n i0.
Proof.
  revert i c fds. induction fuel as [|fuel IH]; intros i c fds Hf Hi0 Hok Hpre;
    pose proof (ho_lt _ _ _ _ _ _ _ Hok) as Hin; pose proof (ho_len _ _ _ _ _ _ _ Hok) as Hlen; [lia|].
  set (fuel' := S fuel) in *. cbn [downLoop].
  destruct (Nat.leb_spec n (i * 2 + 1)) as [Hn|Hn].
  { eexists _, _, _. split; [done|]. split; [done|]. split; [lia|].
    apply (down_exit _ _ _ i); [lia|lia|done|].
    intros j Hj Hc. apply parent_child in Hc; lia. }
  destruct (minChild_spec n i (<[i := v]> c) ltac:(lia)) as (m & Hm & Hm0 & Hpm & Hmin).
  { by rewrite length_insert. }
  rewrite minChild_insert in Hm. rewrite Hm. pose proof (parent_lt m ltac:(lia)) as Hlt.
  destruct (lookup_lt_is_Some_2 c m ltac:(lia)) as [x Hx].
  rewrite (at_lookup _ _ _ Hx).
  assert (Htx : tm (<[i := v]> c) m = TimeStamp.microsecond_ (timestamp x)).
  { unfold tm. rewrite list_lookup_insert_ne by lia. by rewrite Hx. }
  assert (Htv : tm (<[i := v]> c) i = TimeStamp.microsecond_ (timestamp v)).
  { unfold tm. by rewrite list_lookup_insert_eq by lia. }
  destruct (timer_lt x v) eqn:Hxv.
  - eexists _, _, _. split; [done|]. split; [done|]. split; [lia|].
    apply TimeStamp.ltb_spec in Hxv.
    apply (down_exit _ _ _ i); [lia|lia|done|]. intros j Hj Hc. specialize (Hmin j Hj Hc). lia.
  - apply TimeStamp.ltb_false in Hxv.
    destruct (IH m (<[i := x]> c) (<[fd x := i]> fds)) as (c' & fds' & j & Hrun & Hok' & Hj & Hup).
    + lia.
    + lia.
    + apply hole_step; try done; lia.
    + eapply down_pre_ext; [lia|intros k _; symmetry; by apply step_tm; try done; lia|].
      apply down_step; try done; lia.
    + exists c', fds', j. split; [done|]. split; [done|]. split; [lia|done].
Qed.

Lemma idx_mono (ex ex' : Z -> Prop) (c : list (Timer C)) n fds :
  (forall f, ex f -> ex' f) -> idx ex c n fds -> idx ex' c n fds.
Proof. intros H Hidx f k Hf. apply Hidx. auto. Qed.

(** What re-establishing the order keeps: [h'] is [h] with its first [n_]
    timers permuted, and indexed except for the keys in [ex]. *)
Record rearranged (ex : Z -> Prop) (h h' : t C) : Prop := Rearranged {
  ra_n : n_ h' = n_ h;
  ra_perm : c_ h' ≡ₚ c_ h;
  ra_drop : drop (n_ h) (c_ h') = drop (n_ h) (c_ h);
  ra_idx : idx ex (c_ h') (n_ h) (fds_ h');
}.

Lemma rearranged_trans ex h1 h2 h3 :
  rearranged ex h1 h2 -> rearranged ex h2 h3 -> rearranged ex h1 h3.
Proof.
  intros [A1 B1 D1 E1] [A2 B2 D2 E2]. rewrite A1 in *. split; try congruence.
  - by rewrite B2.
  - done.
Qed.

Section adjust.
Context (ex : Z -> Prop) (i : nat) (h : t C) (v : Timer C).
Context (Hi : i < n_ h) (Hn : n_ h <= length (c_ h)) (Hv : c_ h !! i = Some v).
Context (Hnd : NoDup (fd <$> c_ h)).
Context (Hidx : idx (fun f => ex f \/ f = fd v) (c_ h) (n_ h) (fds_ h)).

Lemma adjust_open : hole_ok (fun f => ex f \/ f = fd v) (n_ h) v (c_ h) (c_ h) (fds_ h) i.
Proof.
  eapply (idx_mono _ (fun f => ex f \/ f = fd v)) in Hidx; [|done].
  split; rewrite ?(list_insert_id _ _ _ Hv); try done. by right.
Qed.

Lemma adjust_close c' fds' j :
  hole_ok (fun f => ex f \/ f = fd v) (n_ h) v (c_ h) c' fds' j ->
  rearranged ex h (Make (<[j := v]> c') (n_ h) (<[fd v := j]> fds')).
Proof.
  intros Hok. split; simpl; [done|apply Hok|apply Hok|].
  eapply idx_mono; [|by apply (hole_close _ _ _ _ _ _ _ Hok)]. naive_solver.
Qed.

Lemma upAdjust_spec :
  up_pre (tm (c_ h)) (n_ h) i ->
  exists h', upAdjust i h = Ok h' /\ rearranged ex h h' /\ ordered (tm (c_ h')) (n_ h).
Proof.
  intros Hpre. unfold upAdjust. rewrite (at_lookup _ _ _ Hv).
  destruct (upLoop_spec (S i) _ _ v (c_ h) i (c_ h) (fds_ h) ltac:(lia) adjust_open)
    as (c' & fds' & j & Hrun & Hok & Hord).
  { by rewrite (list_insert_id _ _ _ Hv). }
  rewrite Hrun. eexists. split; [done|]. split; [by apply adjust_close|done].
Qed.

Lemma downAdjust_spec i0 :
  i0 <= i \/ n_ h <= i0 -> down_pre (tm (c_ h)) (n_ h) i0 i ->
  exists h', downAdjust i h = Ok (false, h') /\ rearranged ex h h' /\ up_pre (tm (c_ h')) (n_ h) i0.
Proof.
  intros Hi0 Hpre. unfold downAdjust. rewrite (at_lookup _ _ _ Hv).
  destruct (downLoop_spec (n_ h) _ (n_ h) v (c_ h) i0 i (c_ h) (fds_ h) ltac:(lia) Hi0 adjust_open)
    as (c' & fds' & j & Hrun & Hok & Hj & Hup).
  { by rewrite (list_insert_id _ _ _ Hv). }
  rewrite Hrun, (proj2 (Nat.ltb_ge _ _) Hj).
  eexists. split; [done|]. split; [by apply adjust_close|done].
Qed.
End adjust.

Lemma readjust_spec ex i h v :
  i < n_ h -> n_ h <= length (c_ h) -> c_ h !! i = Some v -> NoDup (fd <$> c_ h) ->
  idx (fun f => ex f \/ f = fd v) (c_ h) (n_ h) (fds_ h) ->
  down_pre (tm (c_ h)) (n_ h) i i ->
  exists h', readjust i h = Ok h' /\ rearranged ex h h' /\ ordered (tm (c_ h')) (n_ h).
Proof.
  intros Hi Hn Hv Hnd Hidx Hpre. unfold readjust.
  destruct (downAdjust_spec ex i h v Hi Hn Hv Hnd Hidx i ltac:(lia) Hpre) as (h1 & -> & Hra & Hup).
  pose proof Hra as [Hn1 Hp1 Hd1 Hi1].
  assert (n_ h1 <= length (c_ h1)) as Hlen by (rewrite Hn1, Hp1; done).
  destruct (lookup_lt_is_Some_2 (c_ h1) i ltac:(lia)) as [w Hw].
  destruct (upAdjust_spec ex i h1 w) as (h2 & -> & Hra2 & Hord).
  - lia.
  - done.
  - done.
  - by rewrite Hp1.
  - rewrite Hn1. eapply idx_mono; [|done]. auto.
  - by rewrite Hn1.
  - exists h2. split; [done|]. rewrite Hn1 in Hord. split; [|done]. by apply rearranged_trans with h1.
Qed.

(** Changing the time of one timer leaves an order broken only around it. *)
Lemma insert_down_pre (c : list (Timer C)) n i new :
  n <= length c -> i < n -> ordered (tm c) n -> down_pre (tm (<[i := new]> c)) n i i.
Proof.
  intros Hn Hi Hord.
  assert (Hne : forall k, k <> i -> tm (<[i := new]> c) k = tm c k).
  { intros k Hk. unfold tm. by rewrite list_lookup_insert_ne by done. }
  split.
  - intros j Hj Hpj [Hji|]; [|lia]. rewrite !Hne by done. by apply Hord.
  - intros H0 j Hj Hc. pose proof (parent_lt i H0). pose proof (parent_lt j ltac:(lia)).
    rewrite !Hne by lia. pose proof (Hord i ltac:(lia)). pose proof (Hord j Hj).
    rewrite Hc in *. lia.
Qed.

(** When the new time is not earlier, only the children can be out of order. *)
Lemma insert_later_down_pre (c : list (Timer C)) n i old new :
  n <= length c -> i < n -> c !! i = Some old ->
  (TimeStamp.microsecond_ (timestamp old) <= TimeStamp.microsecond_ (timestamp new))%Z ->
  ordered (tm c) n -> down_pre (tm (<[i := new]> c)) n n i.
Proof.
  intros Hn Hi Hold Hle Hord.
  destruct (insert_down_pre c n i new Hn Hi Hord) as [HA HB]. split; [|done].
  intros j Hj Hpj _. destruct (decide (j = i)) as [->|]; [|by apply HA; auto].
  pose proof (Hord i Hj). pose proof (parent_lt i ltac:(lia)). unfold tm in *.
  rewrite list_lookup_insert_ne by lia. rewrite list_lookup_insert_eq by lia.
  rewrite Hold in *. lia.
Qed.

End loops.

(** ** The abstraction: a priority map *)
Section spec.
Context {C : Type}.

Record Inv (h : t C) : Prop := MkInv {
  inv_n : n_ h = length (c_ h);
  inv_nodup : NoDup (fd <$> c_ h);
  inv_idx : idx (fun _ => False) (c_ h) (n_ h) (fds_ h);
  inv_ord : ordered (tm (c_ h)) (n_ h);
}.

Definition entry (x : Timer C) : Z * (TimeStamp.t * option C) := (fd x, (timestamp x, callback x)).

Definition absl (c : list (Timer C)) : gmap Z (TimeStamp.t * option C) := list_to_map (entry <$> c).
Definition abs (h : t C) : gmap Z (TimeStamp.t * option C) := absl (c_ h).

Lemma fst_entry (c : list (Timer C)) : (entry <$> c).*1 = fd <$> c.
Proof. rewrite <- list_fmap_compose. by apply list_fmap_ext. Qed.

Lemma absl_perm (c c' : list (Timer C)) : NoDup (fd <$> c) -> c ≡ₚ c' -> absl c = absl c'.
Proof.
  intros Hnd Hp. apply list_to_map_proper; [by rewrite fst_entry|by rewrite Hp].
Qed.

Lemma absl_lookup (c : list (Timer C)) x :
  NoDup (fd <$> c) -> x ∈ c -> absl c !! fd x = Some (timestamp x, callback x).
Proof.
  intros Hnd Hx. apply elem_of_list_to_map; [by rewrite fst_entry|].
  apply list_elem_of_fmap. by exists x.
Qed.

Lemma absl_lookup_None (c : list (Timer C)) f : f ∉ fd <$> c -> absl c !! f = None.
Proof. intros H. apply not_elem_of_list_to_map. by rewrite fst_entry. Qed.

Lemma absl_update (c : list (Timer C)) i old new :
  NoDup (fd <$> c) -> c !! i = Some old -> fd new = fd old ->
  absl (<[i := new]> c) = <[fd old := (timestamp new, callback new)]> (absl c).
Proof.
  intros Hnd Hi Hfd. pose proof (lookup_lt_Some _ _ _ Hi) as Hlt.
  pose proof (delete_Permutation _ _ _ Hi) as Hp.
  assert (Hp' : <[i := new]> c ≡ₚ new :: delete i c).
  { apply (Permutation_cons_inv (a := old)). rewrite (insert_Permutation c i old new Hi).
    rewrite Hp at 1. constructor. }
  rewrite (absl_perm c _ Hnd Hp).
  assert (NoDup (fd <$> <[i := new]> c)) as Hnd'.
  { rewrite Hp'. rewrite Hp in Hnd. simpl in *. by rewrite Hfd. }
  rewrite (absl_perm _ _ Hnd' Hp'). unfold absl. simpl.
  by rewrite Hfd, insert_insert_eq.
Qed.

Lemma keys_insert (c : list (Timer C)) i old new :
  c !! i = Some old -> fd new = fd old -> fd <$> <[i := new]> c = fd <$> c.
Proof.
  intros Hi Hfd. rewrite list_fmap_insert, Hfd. apply list_insert_id.
  by rewrite list_lookup_fmap, Hi.
Qed.

Lemma idx_insert ex (c : list (Timer C)) n fds i old new :
  c !! i = Some old -> fd new = fd old -> idx ex c n fds -> idx ex (<[i := new]> c) n fds.
Proof.
  intros Hi Hfd Hidx f k Hf. rewrite (Hidx f k Hf).
  destruct (decide (k = i)) as [->|Hk].
  - rewrite list_lookup_insert_eq by (by eapply lookup_lt_Some). rewrite Hi.
    split; intros (x & Hlt & [= <-] & <-); eexists; (split; [done|]); (split; [done|]); congruence.
  - by rewrite list_lookup_insert_ne.
Qed.

Lemma Inv_empty : Inv empty_heap.
Proof.
  split; simpl; [done|constructor| |].
  - intros f k _. rewrite lookup_empty. split; [done|intros (x & Hk & _); lia].
  - intros j Hj. lia.
Qed.

Lemma rearranged_Inv (h h' : t C) :
  n_ h = length (c_ h) -> NoDup (fd <$> c_ h) -> rearranged (fun _ => False) h h' ->
  ordered (tm (c_ h')) (n_ h) -> Inv h' /\ abs h' = abs h.
Proof.
  intros Hn Hnd [H1 H2 H3 H4] Hord. split; [split|].
  - by rewrite H1, H2.
  - by rewrite H2.
  - by rewrite H1.
  - by rewrite H1.
  - apply absl_perm; [by rewrite H2|done].
Qed.

Lemma Inv_lookup (h : t C) f i : Inv h -> fds_ h !! f = Some i ->
  exists x, c_ h !! i = Some x /\ fd x = f /\ i < n_ h.
Proof.
  intros HI Hf. apply (inv_idx _ HI) in Hf as (x & Hi & Hx & Hfd); [|tauto]. by exists x.
Qed.

Lemma Inv_absent (h : t C) f : Inv h -> fds_ h !! f = None -> f ∉ fd <$> c_ h.
Proof.
  intros HI Hf Hin. apply list_elem_of_fmap in Hin as (x & -> & Hx).
  apply list_elem_of_lookup in Hx as [k Hk].
  assert (fds_ h !! fd x = Some k) as Heq; [|congruence].
  apply (inv_idx _ HI); [tauto|]. exists x. split; [|done].
  rewrite (inv_n _ HI). by eapply lookup_lt_Some.
Qed.

(** *** push *)
Lemma push_idx (x : Timer C) (h : t C) :
  Inv h -> fd x ∉ fd <$> c_ h ->
  idx (fun _ => False) (c_ h ++ [x]) (S (n_ h)) (<[fd x := n_ h]> (fds_ h)).
Proof.
  intros HI Habsent f k Hf. pose proof (inv_n _ HI) as Hn.
  destruct (decide (f = fd x)) as [->|Hne].
  - rewrite lookup_insert_eq. split.
    + intros [= <-]. exists x. rewrite Hn, list_lookup_middle by done. split; [lia|done].
    + intros (y & Hk & Hy & Hfd). destruct (decide (k = n_ h)) as [->|]; [done|].
      exfalso. apply Habsent. rewrite <- Hfd. apply list_elem_of_fmap. exists y. split; [done|].
      rewrite lookup_app_l in Hy by lia. by eapply list_elem_of_lookup_2.
  - rewrite lookup_insert_ne by done. rewrite (inv_idx _ HI f k Hf). split.
    + intros (y & Hk & Hy & Hfd). exists y. rewrite lookup_app_l by lia. split; [lia|done].
    + intros (y & Hk & Hy & Hfd). exists y.
      destruct (decide (k = n_ h)) as [->|]; [|rewrite lookup_app_l in Hy by lia; split; [lia|done]].
      rewrite Hn, list_lookup_middle in Hy by done. congruence.
Qed.

Lemma push_up_pre (x : Timer C) (h : t C) :
  Inv h -> up_pre (tm (c_ h ++ [x])) (S (n_ h)) (S (n_ h) - 1).
Proof.
  intros HI. pose proof (inv_n _ HI) as Hn. simpl. rewrite Nat.sub_0_r. split.
  - intros j Hj Hne. pose proof (parent_lt j ltac:(lia)). unfold tm.
    rewrite !lookup_app_l by lia. apply (inv_ord _ HI). lia.
  - intros _ j Hj Hc. pose proof (parent_lt j ltac:(lia)). lia.
Qed.

Lemma push_spec (x : Timer C) (h : t C) :
  Inv h ->
  exists h', push x h = Ok h' /\ Inv h'
    /\ abs h' = <[fd x := (timestamp x, callback x)]> (abs h).
Proof.
  intros HI. unfold push. destruct (fds_ h !! fd x) as [i|] eqn:Hf.
  - destruct (Inv_lookup h _ _ HI Hf) as (old & Hold & Hfd & Hi).
    rewrite (at_lookup _ _ _ Hold).
    set (new := mkTimer (fd old) (timestamp x) (callback x)).
    set (h1 := Make (<[i := new]> (c_ h)) (n_ h) (fds_ h)).
    pose proof (keys_insert (c_ h) i old new Hold eq_refl) as Hkeys.
    assert (n_ h1 = length (c_ h1)) as Hlen by (simpl; rewrite length_insert; apply HI).
    assert (NoDup (fd <$> c_ h1)) as Hnd1 by (simpl; rewrite Hkeys; apply HI).
    destruct (readjust_spec (fun _ => False) i h1 new) as (h' & Hrun & Hra & Hord).
    + done.
    + lia.
    + simpl. apply list_lookup_insert_eq. by eapply lookup_lt_Some.
    + done.
    + apply (idx_mono (fun _ => False)); [tauto|]. by eapply idx_insert, (inv_idx _ HI).
    + apply insert_down_pre; [by simpl; rewrite (inv_n _ HI)|done|apply HI].
    + rewrite Hrun. exists h'. split; [done|].
      destruct (rearranged_Inv h1 h') as [HI' Habs]; [done..|]. split; [done|].
      rewrite Habs. unfold abs. simpl.
      by rewrite (absl_update _ _ _ new (inv_nodup _ HI) Hold) by done; rewrite Hfd.
  - pose proof (Inv_absent h _ HI Hf) as Habsent.
    set (h1 := Make (c_ h ++ [x]) (S (n_ h)) (<[fd x := n_ h]> (fds_ h))).
    assert (Hp : c_ h1 ≡ₚ x :: c_ h) by (simpl; by rewrite Permutation_app_comm).
    assert (NoDup (fd <$> c_ h1)) as Hnd1 by (rewrite Hp; simpl; constructor; [done|apply HI]).
    assert (n_ h1 = length (c_ h1)) as Hlen by (rewrite Hp; simpl; f_equal; apply HI).
    assert (Habs1 : abs h1 = <[fd x := (timestamp x, callback x)]> (abs h)).
    { unfold abs. by rewrite (absl_perm _ _ Hnd1 Hp). }
    assert (Hidx1 : idx (fun _ => False) (c_ h1) (n_ h1) (fds_ h1)) by (by apply push_idx).
    cbv zeta. fold h1. destruct (Nat.eqb_spec (n_ h1) 1) as [H1|H1].
    + exists h1. split; [done|]. split; [|done]. split; [done..|].
      intros j Hj. lia.
    + destruct (upAdjust_spec (fun _ => False) (n_ h1 - 1) h1 x) as (h' & Hrun & Hra & Hord).
      * simpl. lia.
      * lia.
      * simpl. rewrite Nat.sub_0_r, (inv_n _ HI). by rewrite list_lookup_middle.
      * done.
      * apply (idx_mono (fun _ => False)); [tauto|done].
      * by apply push_up_pre.
      * rewrite Hrun. exists h'. split; [done|].
        destruct (rearranged_Inv h1 h') as [HI' Habs]; [done..|]. by rewrite Habs.
Qed.

(** *** top and pop *)
Lemma top_spec (h : t C) :
  Inv h -> 0 < n_ h ->
  exists r, top h = Ok r /\ c_ h !! 0 = Some r
    /\ forall x, x ∈ c_ h -> (TimeStamp.microsecond_ (timestamp r) <= TimeStamp.microsecond_ (timestamp x))%Z.
Proof.
  intros HI Hn. unfold top. destruct (Nat.eqb_spec (n_ h) 0); [lia|].
  pose proof (inv_n _ HI) as Hlen.
  destruct (lookup_lt_is_Some_2 (c_ h) 0 ltac:(lia)) as [r Hr].
  exists r. rewrite (at_lookup _ _ _ Hr). split; [done|]. split; [done|].
  intros x Hx. apply list_elem_of_lookup in Hx as [k Hk].
  pose proof (lookup_lt_Some _ _ _ Hk).
  pose proof (ordered_root _ _ k (inv_ord _ HI) ltac:(lia)) as Hle.
  unfold tm in Hle. by rewrite Hr, Hk in Hle.
Qed.

(** Dropping the last timer, [r], which is the only one whose key may be stale. *)
Lemma erase_last (h : t C) (r : Timer C) (c : list (Timer C)) :
  c_ h = c ++ [r] -> n_ h = length c -> NoDup (fd <$> c_ h) ->
  idx (fun f => f = fd r) (c_ h) (n_ h) (fds_ h) -> ordered (tm (c_ h)) (n_ h) ->
  Inv (Make c (n_ h) (delete (fd r) (fds_ h))).
Proof.
  intros Hc Hn Hnd Hidx Hord. rewrite Hc in *. rewrite fmap_app in Hnd. simpl in Hnd.
  apply NoDup_app in Hnd as (Hnd & Hr & _). split; simpl.
  - done.
  - done.
  - intros f k _. destruct (decide (f = fd r)) as [->|Hne].
    + rewrite lookup_delete_eq. split; [done|]. intros (x & Hk & Hx & Hfd). exfalso.
      apply (Hr (fd r)); [|by left]. apply list_elem_of_fmap. exists x.
      split; [done|]. by eapply list_elem_of_lookup_2.
    + rewrite lookup_delete_ne by done. rewrite (Hidx f k Hne).
      split; intros (x & Hk & Hx & Hfd); exists x; rewrite lookup_app_l in * by lia; done.
  - eapply ordered_ext; [|exact Hord]. intros j Hj. unfold tm. by rewrite lookup_app_l by lia.
Qed.

Lemma swap_last_idx (h : t C) (r y : Timer C) :
  Inv h -> 1 < n_ h -> c_ h !! 0 = Some r -> c_ h !! (n_ h - 1) = Some y ->
  idx (fun f => f = fd r \/ f = fd y) (<[n_ h - 1 := r]> (<[0 := y]> (c_ h))) (n_ h - 1) (fds_ h).
Proof.
  intros HI Hn Hr Hy f k Hf. pose proof (inv_n _ HI) as Hlen.
  rewrite (inv_idx _ HI f k) by tauto. rewrite step_lookup by (done || lia).
  rewrite (list_insert_id _ _ _ Hr).
  destruct (Nat.eqb_spec k 0) as [->|Hk0].
  { rewrite Hr. naive_solver. }
  destruct (Nat.eqb_spec k (n_ h - 1)) as [->|Hk1].
  { rewrite Hy. naive_solver. }
  split; intros (x & Hk & Hx & Hfd); exists x; (split; [|done]); [|lia].
  pose proof (lookup_lt_Some _ _ _ Hx). lia.
Qed.

Lemma pop_singleton (h : t C) (r : Timer C) :
  Inv h -> c_ h = [r] -> exists h', pop h = Ok h' /\ Inv h' /\ c_ h' = [].
Proof.
  intros HI Hc. destruct h as [c n fds]. pose proof (inv_n _ HI) as Hn.
  pose proof (inv_idx _ HI) as Hidx. simpl in *. subst c n.
  unfold pop, del, readjust, downAdjust, upAdjust. simpl.
  eexists. split; [done|]. split; [|done]. split; simpl; [done|constructor| |intros j Hj; lia].
  intros f k _. split; [|intros (x & Hk & _); lia].
  destruct (decide (f = fd r)) as [->|Hne]; [by rewrite lookup_delete_eq|].
  rewrite lookup_delete_ne, !lookup_insert_ne by done. intros Hf.
  apply Hidx in Hf as (x & Hk & Hx & Hfd); [|tauto]. destruct k; simplify_eq/=.
Qed.

Lemma pop_many (h : t C) (r : Timer C) :
  Inv h -> 1 < n_ h -> c_ h !! 0 = Some r ->
  exists h', pop h = Ok h' /\ Inv h' /\ r :: c_ h' ≡ₚ c_ h.
Proof.
  intros HI Hn Hr. pose proof (inv_n _ HI) as Hlen.
  destruct (lookup_lt_is_Some_2 (c_ h) (n_ h - 1) ltac:(lia)) as [y Hy].
  unfold pop, del. rewrite (proj2 (Nat.eqb_neq (n_ h) 0)) by lia.
  rewrite (at_lookup _ _ _ Hr), (at_lookup _ _ _ Hy).
  set (h1 := Make _ (n_ h - 1) (fds_ h)).
  assert (Hp1 : c_ h1 ≡ₚ c_ h).
  { simpl. rewrite (step_Permutation (c_ h) 0 (n_ h - 1) r y) by (done || lia).
    by rewrite (list_insert_id _ _ _ Hr). }
  assert (Hnd1 : NoDup (fd <$> c_ h1)) by (rewrite Hp1; apply HI).
  assert (Hlen1 : length (c_ h1) = n_ h) by (by rewrite Hp1).
  destruct (readjust_spec (fun f => f = fd r) 0 h1 y) as (h2 & Hrun & Hra & Hord).
  - simpl. lia.
  - simpl in *. lia.
  - simpl. rewrite list_lookup_insert_ne by lia. apply list_lookup_insert_eq. lia.
  - done.
  - exact (swap_last_idx h r y HI Hn Hr Hy).
  - apply (down_pre_ext (tm (<[0 := y]> (c_ h)))); [simpl; lia| |].
    + intros j Hj. simpl in *. unfold tm. by rewrite (list_lookup_insert_ne _ (n_ h - 1)) by lia.
    + apply insert_down_pre; simpl; [lia|lia|]. intros j Hj. apply (inv_ord _ HI). lia.
  - rewrite Hrun. destruct Hra as [Hn2 Hp2 Hd2 Hi2].
    assert (Hlast : drop (n_ h1) (c_ h1) = [r]).
    { simpl. rewrite drop_insert_ge by lia. rewrite Nat.sub_diag.
      destruct (drop (n_ h - 1) (<[0:=y]> (c_ h))) as [|a l] eqn:E.
      - apply (f_equal length) in E. rewrite length_drop, length_insert in E. simpl in E. lia.
      - simpl. f_equal. apply (f_equal length) in E. rewrite length_drop, length_insert in E.
        simpl in E. apply nil_length_inv. lia. }
    assert (Hc2 : c_ h2 = take (n_ h1) (c_ h2) ++ [r]) by (by rewrite <- Hlast, <- Hd2, take_drop).
    assert (Hlen2 : length (c_ h2) = n_ h) by (by rewrite Hp2).
    replace (last (c_ h2)) with (Some r) by (rewrite Hc2; symmetry; apply last_snoc). cbn [of_option].
    replace (length (c_ h2) - 1) with (n_ h1) by (rewrite Hlen2; done).
    eexists. split; [done|]. split.
    + apply erase_last; [done| | | |].
      * rewrite length_take, Hlen2, Hn2. simpl. lia.
      * by rewrite Hp2.
      * by rewrite Hn2.
      * by rewrite Hn2.
    + change (r :: take (n_ h1) (c_ h2) ≡ₚ c_ h). rewrite <- Hp1, <- Hp2. by rewrite Permutation_cons_append, <- Hc2.
Qed.

Lemma pop_spec (h : t C) (r : Timer C) :
  Inv h -> c_ h !! 0 = Some r -> exists h', pop h = Ok h' /\ Inv h' /\ r :: c_ h' ≡ₚ c_ h.
Proof.
  intros HI Hr. destruct (decide (1 < n_ h)) as [Hn|Hn]; [by apply pop_many|].
  pose proof (inv_n _ HI) as Hlen. pose proof (lookup_lt_Some _ _ _ Hr).
  assert (c_ h = [r]) as Hc by (destruct (c_ h) as [|a [|]]; simplify_eq/=; [done|lia]).
  destruct (pop_singleton h r HI Hc) as (h' & Hrun & HI' & Hc').
  exists h'. rewrite Hc', Hc. done.
Qed.

Lemma pop_abs (h h' : t C) (r : Timer C) :
  Inv h -> r :: c_ h' ≡ₚ c_ h ->
  abs h !! fd r = Some (timestamp r, callback r) /\ abs h' = delete (fd r) (abs h).
Proof.
  intros HI Hp. pose proof (inv_nodup _ HI) as Hnd. rewrite <- Hp in Hnd.
  unfold abs. rewrite <- (absl_perm _ _ Hnd Hp). split.
  - apply absl_lookup; [done|by left].
  - simpl in Hnd. apply NoDup_cons in Hnd as [Hr _]. unfold absl at 2. simpl. fold (absl (c_ h')).
    rewrite delete_insert_id; [done|]. by apply absl_lookup_None.
Qed.

(** *** adjust *)
Lemma adjust_spec (x : Timer C) (h : t C) :
  Inv h ->
  (forall ts cb, abs h !! fd x = Some (ts, cb) ->
     (TimeStamp.microsecond_ ts <= TimeStamp.microsecond_ (timestamp x))%Z) ->
  exists h', adjust x h = Ok h' /\ Inv h'
    /\ abs h' = alter (fun e => (timestamp x, e.2)) (fd x) (abs h).
Proof.
  intros HI Hlater. unfold adjust. destruct (fds_ h !! fd x) as [i|] eqn:Hf.
  - destruct (Inv_lookup h _ _ HI Hf) as (old & Hold & Hfd & Hi).
    rewrite (at_lookup _ _ _ Hold).
    set (new := mkTimer (fd old) (timestamp x) (callback old)).
    set (h1 := Make (<[i := new]> (c_ h)) (n_ h) (fds_ h)).
    assert (Habs : abs h !! fd x = Some (timestamp old, callback old)).
    { rewrite <- Hfd. apply absl_lookup; [apply HI|by eapply list_elem_of_lookup_2]. }
    pose proof (Hlater _ _ Habs) as Hle. pose proof (inv_n _ HI) as Hn.
    pose proof (keys_insert (c_ h) i old new Hold eq_refl) as Hkeys.
    assert (NoDup (fd <$> c_ h1)) as Hnd1 by (simpl; rewrite Hkeys; apply HI).
    destruct (downAdjust_spec (fun _ => False) i h1 new) with (i0 := n_ h) as (h' & Hrun & Hra & Hup).
    + done.
    + simpl. rewrite length_insert. lia.
    + simpl. apply list_lookup_insert_eq. lia.
    + done.
    + apply (idx_mono (fun _ => False)); [tauto|]. by eapply idx_insert, (inv_idx _ HI).
    + right. done.
    + eapply insert_later_down_pre; try done; [simpl; lia|apply HI].
    + rewrite Hrun. exists h'. split; [done|].
      destruct (rearranged_Inv h1 h') as [HI' Heq]; [simpl; by rewrite length_insert|done..| |].
      { by apply up_pre_past_end. }
      split; [done|]. rewrite Heq. unfold abs at 1. simpl.
      rewrite (absl_update _ _ _ new (inv_nodup _ HI) Hold) by done. fold (abs h). rewrite Hfd.
      apply map_eq. intros k. destruct (decide (k = fd x)) as [->|Hk].
      * by rewrite lookup_insert_eq, lookup_alter_eq, Habs.
      * by rewrite lookup_insert_ne, lookup_alter_ne by done.
  - exists h. split; [done|]. split; [done|]. symmetry. apply alter_id.
    intros e He. unfold abs in He. rewrite absl_lookup_None in He; [done|].
    by apply Inv_absent.
Qed.

(** *** The root stays while other timers are pushed or adjusted

    Between [top] and [pop] the lock is free.  A timer that is pushed with a
    later expiry than the root, or another one that is adjusted, does not move
    the root. *)
Lemma upLoop_root fuel (v : Timer C) i c fds c' fds' j r :
  upLoop fuel v i c fds = Ok (c', fds', j) -> 0 < i -> c !! 0 = Some r -> timer_lt v r = true ->
  0 < j /\ c' !! 0 = Some r.
Proof.
  revert i c fds. induction fuel as [|fuel IH]; intros i c fds H Hi Hr Hlt; [done|]. simpl in H.
  rewrite (proj2 (Nat.leb_gt i 0)) in H by done.
  destruct (at_ c (parent i)) as [p|] eqn:Ep; [|done]. destruct (timer_lt v p) eqn:Ev.
  - by injection H as <- <- <-.
  - apply IH in H; [done| |by rewrite list_lookup_insert_ne by lia|done].
    destruct (parent i) eqn:E0; [|lia]. rewrite (at_lookup _ _ _ Hr) in Ep. congruence.
Qed.

Lemma downLoop_root fuel n (v : Timer C) i c fds c' fds' j :
  downLoop fuel n v i c fds = Ok (c', fds', j) -> 0 < i -> 0 < j /\ c' !! 0 = c !! 0.
Proof.
  revert i c fds. induction fuel as [|fuel IH]; intros i c fds H Hi; [done|]. simpl in H.
  destruct (n <=? _); [by injection H as <- <- <-|].
  destruct (minChild n i c) as [m|] eqn:Em; [|done]. destruct (at_ c m) as [x|]; [|done].
  destruct (timer_lt x v); [by injection H as <- <- <-|].
  apply IH in H as [Hj ->]; [by rewrite list_lookup_insert_ne by lia|].
  unfold minChild in Em. destruct (_ <? _); [|injection Em as <-; lia]. rinv. destruct (timer_lt _ _); lia.
Qed.

Lemma push_root (x : Timer C) (h h' : t C) r :
  Inv h -> push x h = Ok h' -> abs h !! fd x = None -> c_ h !! 0 = Some r -> timer_lt x r = true -> c_ h' !! 0 = Some r.
Proof.
  intros HI H Hx Hr Hlt. pose proof (lookup_lt_Some _ _ _ Hr) as Hl. pose proof (inv_n _ HI) as Hn. unfold push in H.
  destruct (fds_ h !! fd x) as [i|] eqn:Hf.
  { destruct (Inv_lookup h _ _ HI Hf) as (old & Hold & Hfd & _). unfold abs in Hx.
    rewrite <- Hfd, (absl_lookup _ old) in Hx; [done|apply HI|by eapply list_elem_of_lookup_2]. }
  cbn [n_] in H. rewrite (proj2 (Nat.eqb_neq (S (n_ h)) 1)) in H by lia.
  unfold upAdjust in H. cbn [c_ fds_ n_] in H. rewrite Nat.sub_1_r, Nat.pred_succ, Hn in H. unfold at_ in H. rewrite list_lookup_middle in H by done.
  cbn [of_option] in H. destruct (upLoop (S (length (c_ h))) x _ _ _) as [[[c fds] j]|] eqn:E; [|done]. injection H as <-. cbn.
  apply upLoop_root with (r := r) in E as [Hj E]; [by rewrite list_lookup_insert_ne by lia|lia|by rewrite lookup_app_l|done].
Qed.

Lemma adjust_root (x : Timer C) (h h' : t C) r :
  Inv h -> adjust x h = Ok h' -> c_ h !! 0 = Some r -> fd x <> fd r -> c_ h' !! 0 = Some r.
Proof.
  intros HI H Hr Hne. unfold adjust in H. destruct (fds_ h !! fd x) as [i|] eqn:Hf; [|by injection H as <-].
  destruct (Inv_lookup h _ _ HI Hf) as (old & Hold & Hfd & _).
  assert (0 < i) as Hi by (destruct i; [congruence|lia]).
  rewrite (at_lookup _ _ _ Hold) in H. unfold downAdjust in H. cbn [c_ fds_ n_] in H.
  destruct (at_ _ i) as [v|]; [|done]. destruct (downLoop (S (n_ h)) _ v i _ _) as [[[c fds] j]|] eqn:E; [|done].
  injection H as <-. cbn. apply downLoop_root in E as [Hj E]; [|done].
  by rewrite list_lookup_insert_ne, E, list_lookup_insert_ne by lia.
Qed.

End spec.
End TimerHeap.

(** ** Refinement of the priority map

    The abstract state maps a key to its expiry time and callback. *)
Section refinement.
Context {C : Type}.
Notation pmap := (gmap Z (TimeStamp.t * option C)).

Inductive heap_op :=
  | HPush (x : Timer C)
  | HAdjust (x : Timer C)
  | HPop.

Definition run_heap_op (op : heap_op) (h : TimerHeap.t C) : result (TimerHeap.t C) :=
  match op with
  | HPush x => TimerHeap.push x h
  | HAdjust x => TimerHeap.adjust x h
  | HPop => TimerHeap.pop h
  end.

(** [k] expires first in [m]. *)
Definition expires_first (m : pmap) (k : Z) (v : TimeStamp.t * option C) : Prop :=
  m !! k = Some v
  /\ forall k' v', m !! k' = Some v' -> (TimeStamp.microsecond_ v.1 <= TimeStamp.microsecond_ v'.1)%Z.

Definition spec_step (op : heap_op) (m m' : pmap) : Prop :=
  match op with
  | HPush x => m' = <[fd x := (timestamp x, callback x)]> m
  | HAdjust x => m' = alter (fun e => (timestamp x, e.2)) (fd x) m
  | HPop => exists k v, expires_first m k v /\ m' = delete k m
  end.

(** When an operation may be called: [adjust] only postpones, [pop] needs a timer. *)
Definition enabled (op : heap_op) (m : pmap) : Prop :=
  match op with
  | HPush _ => True
  | HAdjust x => forall ts cb, m !! fd x = Some (ts, cb) ->
      (TimeStamp.microsecond_ ts <= TimeStamp.microsecond_ (timestamp x))%Z
  | HPop => m <> ∅
  end.

Lemma abs_elem (h : TimerHeap.t C) k v :
  TimerHeap.Inv h -> TimerHeap.abs h !! k = Some v ->
  exists x, x ∈ TimerHeap.c_ h /\ fd x = k /\ v = (timestamp x, callback x).
Proof.
  intros HI Hk. unfold TimerHeap.abs, TimerHeap.absl in Hk.
  apply elem_of_list_to_map in Hk; [|rewrite TimerHeap.fst_entry; apply HI].
  apply list_elem_of_fmap in Hk as (x & Heq & Hx). injection Heq as -> ->. by exists x.
Qed.

Lemma heap_root_expires_first (h : TimerHeap.t C) r :
  TimerHeap.Inv h -> TimerHeap.c_ h !! 0 = Some r ->
  expires_first (TimerHeap.abs h) (fd r) (timestamp r, callback r).
Proof.
  intros HI Hr. split.
  - apply TimerHeap.absl_lookup; [apply HI|by eapply list_elem_of_lookup_2].
  - intros k' v' Hk'. destruct (abs_elem h k' v' HI Hk') as (x & Hx & _ & ->).
    destruct (TimerHeap.top_spec h HI) as (r' & _ & Hr' & Hmin).
    { rewrite (TimerHeap.inv_n _ HI). by eapply lookup_lt_Some. }
    rewrite Hr in Hr'. injection Hr' as <-. by apply Hmin.
Qed.

Lemma abs_nonempty (h : TimerHeap.t C) :
  TimerHeap.Inv h -> TimerHeap.abs h <> ∅ -> exists r, TimerHeap.c_ h !! 0 = Some r.
Proof.
  intros HI Hne. destruct (TimerHeap.c_ h) as [|r c] eqn:E; [|by exists r].
  exfalso. apply Hne. unfold TimerHeap.abs. by rewrite E.
Qed.

(** C20: the heap implements the priority map: from a well-formed heap every
    enabled operation returns (no access out of range, no loop that runs out),
    keeps the heap order, the index map and the element count consistent, and
    changes the abstract map as the operation specifies; [pop] removes a timer
    that expires first. *)
Theorem timer_heap_refines_priority_map (h : TimerHeap.t C) (op : heap_op) :
  TimerHeap.Inv h -> enabled op (TimerHeap.abs h) ->
  exists h', run_heap_op op h = Ok h' /\ TimerHeap.Inv h'
    /\ spec_step op (TimerHeap.abs h) (TimerHeap.abs h').
Proof.
  intros HI Hen. destruct op as [x|x|]; simpl in *.
  - by apply TimerHeap.push_spec.
  - by apply TimerHeap.adjust_spec.
  - destruct (abs_nonempty h HI Hen) as [r Hr].
    destruct (TimerHeap.pop_spec h r HI Hr) as (h' & Hrun & HI' & Hp).
    exists h'. split; [done|]. split; [done|].
    destruct (TimerHeap.pop_abs h h' r HI Hp) as [_ Habs].
    exists (fd r), (timestamp r, callback r). split; [by apply heap_root_expires_first|done].
Qed.

End refinement.

(** A concrete heap with three timers, for the witnesses. *)
Definition demo_timer (k ms : Z) : Timer nat := mkTimer k (TimeStamp.Make ms) (Some (Z.to_nat k)).
Definition demo_heap : TimerHeap.t nat :=
  match (let* h := TimerHeap.push (demo_timer 7 300) TimerHeap.empty_heap in
         let* h := TimerHeap.push (demo_timer 8 100) h in
         TimerHeap.push (demo_timer 9 200) h)
  with Ok h => h | Err _ => TimerHeap.empty_heap end.

Lemma push_Inv {C} (x : Timer C) h h' :
  TimerHeap.Inv h -> TimerHeap.push x h = Ok h' -> TimerHeap.Inv h'.
Proof.
  intros HI Hrun. destruct (TimerHeap.push_spec x h HI) as (h1 & Hrun1 & HI1 & _). congruence.
Qed.

Lemma demo_heap_Inv : TimerHeap.Inv demo_heap.
Proof.
  unfold demo_heap. rinv.
  destruct (TimerHeap.push (demo_timer 7 300) _) as [h1|] eqn:E1; [|apply TimerHeap.Inv_empty].
  pose proof (push_Inv _ _ _ TimerHeap.Inv_empty E1) as H1.
  destruct (TimerHeap.push (demo_timer 8 100) _) as [h2|] eqn:E2; [|apply TimerHeap.Inv_empty].
  pose proof (push_Inv _ _ _ H1 E2) as H2.
  destruct (TimerHeap.push (demo_timer 9 200) _) as [h3|] eqn:E3; [|apply TimerHeap.Inv_empty].
  exact (push_Inv _ _ _ H2 E3).
Qed.

Lemma timer_heap_refines_priority_map_witness :
  exists h', run_heap_op HPop demo_heap = Ok h' /\ TimerHeap.Inv h'
    /\ spec_step HPop (TimerHeap.abs demo_heap) (TimerHeap.abs h').
Proof.
  apply (timer_heap_refines_priority_map demo_heap HPop demo_heap_Inv).
  simpl. intros H. apply (f_equal (fun m => m !! 8%Z)) in H. vm_compute in H. discriminate H.
Defined.

Definition adjusted_earlier : result (TimerHeap.t nat) :=
  TimerHeap.adjust (demo_timer 7 50) demo_heap.

(** [adjust] to an earlier time is not a priority-map update: it only tries
    to move the timer down, so the timer with the earliest expiry is not at the
    root, and [top] returns another one.  The code computes expiry times from
    [gettimeofday], which can step back. *)
Theorem adjust_earlier_breaks_order :
  exists h r, adjusted_earlier = Ok h /\ TimerHeap.top h = Ok r
    /\ TimerHeap.abs h !! 7%Z = Some (TimeStamp.Make 50, Some 7)
    /\ timestamp r = TimeStamp.Make 100.
Proof. eexists _, _. split; [vm_compute; reflexivity|]. repeat split. Qed.

(** [clear] leaves the element count as it was, so on a cleared non-empty
    heap the next [push] of a new timer addresses past the vector, and [top]
    reads an element that is gone. *)
Theorem clear_then_push_undefined {C} (h : TimerHeap.t C) (x : Timer C) :
  TimerHeap.Inv h -> 0 < TimerHeap.n_ h ->
  TimerHeap.push x (TimerHeap.clear h) = Err Undefined
  /\ TimerHeap.top (TimerHeap.clear h) = Err Undefined
  /\ TimerHeap.empty (TimerHeap.clear h) = false.
Proof.
  intros HI Hn. unfold TimerHeap.push, TimerHeap.clear, TimerHeap.top, TimerHeap.empty. simpl.
  rewrite lookup_empty. destruct (TimerHeap.n_ h) as [|n] eqn:E; [lia|]. done.
Qed.

Lemma clear_then_push_undefined_witness :
  TimerHeap.push (demo_timer 1 1) (TimerHeap.clear demo_heap) = Err Undefined
  /\ TimerHeap.top (TimerHeap.clear demo_heap) = Err Undefined
  /\ TimerHeap.empty (TimerHeap.clear demo_heap) = false.
Proof. apply (clear_then_push_undefined demo_heap (demo_timer 1 1) demo_heap_Inv). vm_compute. lia. Defined.
