(* ===== verification/TimerQueue.v ===== *)
(** * TimerQueue: the timer descriptor and the expiry loop

    Models [soc/net/src/TimerQueue.cc] and [soc/net/include/TimerQueue.h].
    The kernel timer is represented by the last argument of [timerfd_settime];
    the clocks the code reads are arguments.  Callbacks act on a state [W] of
    the rest of the server and do not touch the queue they are called from. *)
From S2P Require Import Prelude CStr TimeStamp TimerHeap.

Record itimerspec := ItimerSpec {
  it_value_sec : Z; it_value_nsec : Z; it_interval_sec : Z; it_interval_nsec : Z }.

(** The kernel's range for the [tv_nsec] fields: outside it [timerfd_settime]
    fails with [EINVAL] and the timer keeps its previous setting. *)
Definition valid_nsec (z : Z) : bool := ((0 <=? z) && (z <? 1000000000))%Z.
Definition settime_accepts (its : itimerspec) : bool :=
  valid_nsec (it_value_nsec its) && valid_nsec (it_interval_nsec its).

Module TimerQueue.

Record t (C : Type) := Make { tmfd_ : option itimerspec; timer_heap_ : TimerHeap.t C }.
Arguments Make {C} tmfd_ timer_heap_.
Arguments tmfd_ {C} _.
Arguments timer_heap_ {C} _.

Section ops.
Context {C W : Type}.
(** What calling a callback does. *)
Context (call : C -> W -> W).

Definition new : t C := Make None TimerHeap.empty_heap.

(** [t.second()] and [(t.microsecond() - t.second() * 1000000) * 100]. *)
Definition split_second (ts : TimeStamp.t) : Z := TimeStamp.get_second ts.
Definition split_nanosecond (ts : TimeStamp.t) : Z :=
  u64 ((TimeStamp.get_microsecond ts - TimeStamp.get_second ts * 1000000) * 100).

Definition once_spec (now_sec now_nsec : Z) (ts : TimeStamp.t) : itimerspec :=
  ItimerSpec (now_sec + split_second ts) (now_nsec + split_nanosecond ts) 0 0.
Definition every_spec (now_sec now_nsec : Z) (ts : TimeStamp.t) : itimerspec :=
  ItimerSpec (now_sec + split_second ts) (now_nsec + split_nanosecond ts)
    (split_second ts) (split_nanosecond ts).

(** [timerfd_settime]: its result is not looked at. *)
Definition settime (its : itimerspec) (q : t C) : t C :=
  if settime_accepts its then Make (Some its) (timer_heap_ q) else q.

Definition runOnce (now_sec now_nsec : Z) (ts : TimeStamp.t) (q : t C) : t C :=
  settime (once_spec now_sec now_nsec ts) q.
Definition runEvery (now_sec now_nsec : Z) (ts : TimeStamp.t) (q : t C) : t C :=
  settime (every_spec now_sec now_nsec ts) q.

Definition getExpiredTimer (q : t C) : result (Timer C) := TimerHeap.top (timer_heap_ q).

Definition add (x : Timer C) (q : t C) : result (t C) :=
  let* h := TimerHeap.push x (timer_heap_ q) in Ok (Make (tmfd_ q) h).
Definition adjust (x : Timer C) (q : t C) : result (t C) :=
  let* h := TimerHeap.adjust x (timer_heap_ q) in Ok (Make (tmfd_ q) h).

(** The loop of [handleTimeout]. *)
Fixpoint timeoutLoop (fuel : nat) (now : TimeStamp.t) (h : TimerHeap.t C) (s : W)
    : result (TimerHeap.t C * W) :=
  match fuel with
  | 0 => Err OutOfFuel
  | S fuel =>
      if TimerHeap.empty h then Ok (h, s)
      else
        let* expired := TimerHeap.top h in
        if TimeStamp.leb (timestamp expired) now then
          let* cb := of_option BadFunctionCall (callback expired) in
          let s := call cb s in
          let* h := TimerHeap.pop h in
          timeoutLoop fuel now h s
        else Ok (h, s)
  end.

Definition handleTimeout (now : TimeStamp.t) (q : t C) (s : W) : result (t C * W) :=
  let* (h, s) := timeoutLoop (1 + TimerHeap.size (timer_heap_ q)) now (timer_heap_ q) s in
  Ok (Make (tmfd_ q) h, s).

(** ** The expiry loop fires what has expired, in order *)
Definition before (a b : Timer C) : Prop :=
  (TimeStamp.microsecond_ (timestamp a) <= TimeStamp.microsecond_ (timestamp b))%Z.
Definition expired (now : TimeStamp.t) (x : Timer C) : Prop :=
  (TimeStamp.microsecond_ (timestamp x) <= TimeStamp.microsecond_ now)%Z.
#[global] Instance expired_dec now x : Decision (expired now x).
Proof. unfold expired. apply _. Defined.

Definition call_timer (s : W) (x : Timer C) : W :=
  match callback x with Some cb => call cb s | None => s end.

Lemma timeoutLoop_spec fuel now (h : TimerHeap.t C) (s : W) :
  TimerHeap.n_ h < fuel -> TimerHeap.Inv h ->
  Forall (fun x => is_Some (callback x)) (TimerHeap.c_ h) ->
  exists h' fired, timeoutLoop fuel now h s = Ok (h', fold_left call_timer fired s)
    /\ TimerHeap.Inv h' /\ fired ++ TimerHeap.c_ h' ≡ₚ TimerHeap.c_ h
    /\ Forall (expired now) fired /\ Forall (fun x => ~ expired now x) (TimerHeap.c_ h')
    /\ StronglySorted before fired.
Proof.
  revert h s. induction fuel as [|fuel IH]; intros h s Hf HI Hcb; [lia|]. simpl. unfold TimerHeap.empty.
  pose proof (TimerHeap.inv_n _ HI) as Hn.
  destruct (Nat.eqb_spec (TimerHeap.n_ h) 0) as [H0|H0].
  { exists h, []. split; [done|]. split; [done|]. split; [done|]. split; [constructor|].
    assert (TimerHeap.c_ h = []) as -> by (apply nil_length_inv; lia). split; constructor. }
  destruct (TimerHeap.top_spec h HI ltac:(lia)) as (r & -> & Hr & Hmin).
  destruct (TimeStamp.leb (timestamp r) now) eqn:Hle.
  - apply TimeStamp.leb_spec in Hle.
    destruct (TimerHeap.pop_spec h r HI Hr) as (h1 & Hpop & HI1 & Hp1).
    rewrite <- Hp1 in Hcb. apply Forall_cons in Hcb as [[cb Hcb] Hcb1].
    rewrite Hcb. cbn [of_option]. rewrite Hpop.
    assert (TimerHeap.n_ h1 < fuel) as Hf1.
    { rewrite (TimerHeap.inv_n _ HI1). apply Permutation_length in Hp1. simpl in Hp1. lia. }
    destruct (IH h1 (call cb s) Hf1 HI1 Hcb1) as (h' & fired & Hrun & HI' & Hp & Hexp & Hrem & Hsort).
    exists h', (r :: fired). rewrite Hrun. cbn [fold_left].
    replace (call_timer s r) with (call cb s) by (unfold call_timer; by rewrite Hcb).
    split; [done|]. split; [done|]. split; [simpl; by rewrite Hp|].
    split; [by constructor|]. split; [done|]. constructor; [done|].
    apply Forall_forall. intros x Hx. apply Hmin. rewrite <- Hp1, <- Hp.
    right. apply list_elem_of_In, in_or_app. left. by apply list_elem_of_In.
  - apply TimeStamp.leb_false in Hle. exists h, [].
    split; [done|]. split; [done|]. split; [done|]. split; [constructor|].
    split; [|constructor]. apply Forall_forall. intros x Hx He.
    specialize (Hmin x Hx). unfold expired in He. lia.
Qed.

End ops.
End TimerQueue.

(** [handleTimeout] terminates, calls the callback of every timer whose time
    has come, once each and in order of expiry, and of no other, and leaves in
    the queue exactly the timers that have not expired. *)
Theorem handleTimeout_fires_expired {C W} (call : C -> W -> W) (now : TimeStamp.t)
    (q : TimerQueue.t C) (s : W) :
  TimerHeap.Inv (TimerQueue.timer_heap_ q) ->
  Forall (fun x => is_Some (callback x)) (TimerHeap.c_ (TimerQueue.timer_heap_ q)) ->
  exists q' fired,
    TimerQueue.handleTimeout call now q s = Ok (q', fold_left (TimerQueue.call_timer call) fired s)
    /\ TimerHeap.Inv (TimerQueue.timer_heap_ q')
    /\ fired ≡ₚ filter (TimerQueue.expired now) (TimerHeap.c_ (TimerQueue.timer_heap_ q))
    /\ StronglySorted TimerQueue.before fired
    /\ TimerHeap.c_ (TimerQueue.timer_heap_ q')
       ≡ₚ filter (fun x => ~ TimerQueue.expired now x) (TimerHeap.c_ (TimerQueue.timer_heap_ q)).
Proof.
  intros HI Hcb. unfold TimerQueue.handleTimeout.
  destruct (TimerQueue.timeoutLoop_spec call (1 + TimerHeap.size (TimerQueue.timer_heap_ q)) now
    (TimerQueue.timer_heap_ q) s) as (h' & fired & -> & HI' & Hp & Hexp & Hrem & Hsort);
    [unfold TimerHeap.size; lia|done|done|].
  exists (TimerQueue.Make (TimerQueue.tmfd_ q) h'), fired.
  split; [done|]. split; [done|]. simpl.
  assert (Hnn : Forall (fun x => ~ ~ TimerQueue.expired now x) fired).
  { eapply Forall_impl; [exact Hexp|]. intros x Hx Hn. by apply Hn. }
  assert (Hfired : filter (TimerQueue.expired now) (fired ++ TimerHeap.c_ h') = fired).
  { by rewrite filter_app, filter_all, filter_none, app_nil_r. }
  assert (Hleft : filter (fun x => ~ TimerQueue.expired now x) (fired ++ TimerHeap.c_ h') = TimerHeap.c_ h').
  { by rewrite filter_app, filter_none, filter_all. }
  split; [by rewrite <- Hp, Hfired|]. split; [done|by rewrite <- Hp, Hleft].
Qed.

Lemma handleTimeout_fires_expired_witness :
  exists q' fired,
    TimerQueue.handleTimeout (fun k l => l ++ [k]) (TimeStamp.Make 250) (TimerQueue.Make None demo_heap) []
      = Ok (q', fold_left (TimerQueue.call_timer (fun k l => l ++ [k])) fired [])
    /\ TimerHeap.Inv (TimerQueue.timer_heap_ q')
    /\ fired ≡ₚ filter (TimerQueue.expired (TimeStamp.Make 250)) (TimerHeap.c_ demo_heap)
    /\ StronglySorted TimerQueue.before fired
    /\ TimerHeap.c_ (TimerQueue.timer_heap_ q')
       ≡ₚ filter (fun x => ~ TimerQueue.expired (TimeStamp.Make 250) x) (TimerHeap.c_ demo_heap).
Proof.
  apply (handleTimeout_fires_expired (fun k l => l ++ [k]) (TimeStamp.Make 250)
    (TimerQueue.Make None demo_heap) [] demo_heap_Inv).
  vm_compute. repeat constructor; eauto.
Defined.

Example handleTimeout_order :
  (let* (_, s) := TimerQueue.handleTimeout (fun k l => l ++ [k]) (TimeStamp.Make 250)
     (TimerQueue.Make None demo_heap) [] in Ok s) = Ok [8; 9].
Proof. vm_compute. reflexivity. Qed.

(** The sub-second part of a period is programmed ten times too short: the
    microseconds left after the seconds are multiplied by 100, not by 1000.  A
    period that is a whole number of seconds is programmed exactly. *)
Theorem runEvery_period (sec : Z) (usec : Z) :
  (0 <= sec < 2 ^ 32 -> 0 <= usec < 1000000 ->
   let its := TimerQueue.every_spec 0 0 (TimeStamp.Make (sec * 1000000 + usec)) in
   it_interval_sec its = sec /\ it_interval_nsec its = usec * 100
   /\ (it_interval_nsec its = usec * 1000 <-> usec = 0))%Z.
Proof.
  intros Hs Hu. simpl. unfold TimerQueue.split_second, TimerQueue.split_nanosecond.
  unfold TimeStamp.get_second, TimeStamp.get_microsecond. simpl.
  replace ((sec * 1000000 + usec) / 1000000)%Z with sec.
  - rewrite u64_small by lia. split; [done|]. lia.
  - symmetry. rewrite Z.add_comm, Z.div_add by lia. rewrite Z.div_small by lia. done.
Qed.

Lemma runEvery_period_witness :
  (let its := TimerQueue.every_spec 0 0 (TimeStamp.Make (0 * 1000000 + 500000)) in
   it_interval_sec its = 0 /\ it_interval_nsec its = 500000 * 100
   /\ (it_interval_nsec its = 500000 * 1000 <-> 500000 = 0))%Z.
Proof. apply (runEvery_period 0 500000); lia. Defined.
