(* ===== verification/EncodeUtil.v ===== *)
(** * EncodeUtil: URL coding, case conversion, MD5 comparison, MurmurHash2

    Models [soc/utility/src/EncodeUtil.cc], except [gzipCompress] and
    [md5HashFile], which are in [EncodeStream], and the base64 wrappers, which are
    in [Base64].  MD5 itself is OpenSSL's and a
    parameter. *)
From S2P Require Import Prelude CStr.

Module EncodeUtil.

(** ** Hexadecimal digits *)
Definition hex2dec (c : ascii) : Z :=
  if isdigit c then u8 (char_s c - char_s "0")
  else if islower c then u8 (char_s c - char_s "a" + 10)
  else if isupper c then u8 (char_s c - char_s "A" + 10)
  else char_u c.

Definition dec2hex (c : Z) : ascii :=
  if ((0 <=? c) && (c <=? 9))%Z then chr (c + char_s "0")
  else if ((10 <=? c) && (c <=? 15))%Z then chr (c - 10 + char_s "A")
  else chr c.

(** ** URL coding *)
Definition merge_hex (a b : ascii) : ascii := chr (Z.lor (Z.shiftl (hex2dec a) 4) (hex2dec b)).

(** The loop over [value]: [%XX] needs two more characters, both hexadecimal. *)
Fixpoint urlDecode (value : bytes) : bytes :=
  match value with
  | [] => []
  | c :: rest =>
      match rest with
      | a :: b :: rest' =>
          if bool_decide (c = "%"%char) && isxdigit a && isxdigit b
          then merge_hex a b :: urlDecode rest'
          else c :: urlDecode rest
      | _ => c :: urlDecode rest
      end
  end.

Definition unreserved (c : ascii) : bool :=
  isalnum c || bool_decide (c = "-"%char) || bool_decide (c = "_"%char)
  || bool_decide (c = "."%char) || bool_decide (c = "~"%char).

Definition encode_byte (c : ascii) : bytes :=
  if unreserved c then [c]
  else ["%"%char; toupper (dec2hex (Z.shiftr (char_u c) 4)); toupper (dec2hex (Z.land (char_u c) 15))].

Fixpoint urlEncode (value : bytes) : bytes :=
  match value with
  | [] => []
  | c :: rest => encode_byte c ++ urlEncode rest
  end.

(** ** Case conversion, byte by byte *)
Definition toLowers (s : bytes) : bytes := (fun c => if isupper c then tolower c else c) <$> s.
Definition toUppers (s : bytes) : bytes := (fun c => if islower c then toupper c else c) <$> s.

(** ** MD5 *)
Section md5.
(** OpenSSL's [MD5]: the 16-byte digest. *)
Context (MD5 : bytes -> bytes).

(** [sprintf("%02x")] *)
Definition hex_digit (z : Z) : ascii := if (z <? 10)%Z then chr (48 + z) else chr (87 + z).
Definition hex_byte (c : ascii) : bytes :=
  [hex_digit (Z.shiftr (char_u c) 4); hex_digit (Z.land (char_u c) 15)].

Definition md5Hash (data : bytes) : bytes := mjoin (hex_byte <$> MD5 data).

(** [memcmp(hashv2.data(), hashv.data(), hashv2.size()) == 0].  [hashv] is
    followed by the terminating NUL of its string; reading further is undefined. *)
Definition md5HashEqual (data hashv : bytes) : result bool :=
  let hashv2 := md5Hash data in
  if length (hashv ++ [NUL]) <? length hashv2 then Err Undefined
  else Ok (bool_decide (take (length hashv2) (hashv ++ [NUL]) = hashv2)).
End md5.

(** ** MurmurHash2 on 32-bit unsigned integers *)
Definition murmur_m : Z := 0x5bd1e995.
Definition murmur_seed : Z := 0xEE6B27EB.

Definition le32 (a b c d : ascii) : Z :=
  (char_u a + Z.shiftl (char_u b) 8 + Z.shiftl (char_u c) 16 + Z.shiftl (char_u d) 24)%Z.

Definition mix_k (k : Z) : Z :=
  let k := u32 (k * murmur_m) in
  let k := Z.lxor k (Z.shiftr k 24) in
  u32 (k * murmur_m).

Definition mix_h (h k : Z) : Z := Z.lxor (u32 (h * murmur_m)) (mix_k k).

(** The word loop: the hash so far and the bytes that are left. *)
Fixpoint murmur_loop (h : Z) (data : bytes) : Z * bytes :=
  match data with
  | a :: b :: c :: d :: rest => murmur_loop (mix_h h (le32 a b c d)) rest
  | _ => (h, data)
  end.

(** The [switch] with its fall-through cases. *)
Definition murmur_tail (h : Z) (data : bytes) : Z :=
  let case1 h a := u32 (Z.lxor h (char_u a) * murmur_m) in
  let case2 h a b := case1 (Z.lxor h (Z.shiftl (char_u b) 8)) a in
  let case3 h a b c := case2 (Z.lxor h (Z.shiftl (char_u c) 16)) a b in
  match data with
  | [a] => case1 h a
  | [a; b] => case2 h a b
  | [a; b; c] => case3 h a b c
  | _ => h
  end.

Definition murmur_final (h : Z) : Z :=
  let h := Z.lxor h (Z.shiftr h 13) in
  let h := u32 (h * murmur_m) in
  Z.lxor h (Z.shiftr h 15).

Definition murmurHash2 (s : bytes) : Z :=
  let h := u32 (Z.lxor murmur_seed (Z.of_nat (length s))) in
  let (h, rest) := murmur_loop h s in
  murmur_final (murmur_tail h rest).

(** [genRandromStr]: [N] characters of the alphabet, [r] the values of [rand]. *)
Definition alpha : bytes := bs "0123456789abcdefghijklmnopqrstuvwxyzABCDEFGHIJKLMNOPQRSTUVWXYZ".
Definition genRandromStr (r : list nat) : bytes := (fun x => alpha !!! (x mod 62)) <$> r.

(** ** Facts: URL coding *)
Lemma encode_byte_cases c :
  (unreserved c = true /\ encode_byte c = [c] /\ c <> "%"%char)
  \/ exists a b, encode_byte c = ["%"%char; a; b] /\ isxdigit a = true /\ isxdigit b = true
       /\ merge_hex a b = c.
Proof.
  unfold encode_byte. destruct (unreserved c) eqn:E.
  - left. split; [done|]. split; [done|]. intros ->. discriminate E.
  - right. clear E. eexists _, _. split; [done|].
    assert (isxdigit (toupper (dec2hex (Z.shiftr (char_u c) 4))) = true
      /\ isxdigit (toupper (dec2hex (Z.land (char_u c) 15))) = true
      /\ merge_hex (toupper (dec2hex (Z.shiftr (char_u c) 4)))
           (toupper (dec2hex (Z.land (char_u c) 15))) = c) as H by (by_bytes c). exact H.
Qed.

Lemma urlDecode_cons c rest : c <> "%"%char -> urlDecode (c :: rest) = c :: urlDecode rest.
Proof.
  intros Hc. simpl. destruct rest as [|a [|b rest]]; try done.
  by rewrite bool_decide_false.
Qed.

Lemma urlDecode_hex a b rest :
  isxdigit a = true -> isxdigit b = true ->
  urlDecode ("%"%char :: a :: b :: rest) = merge_hex a b :: urlDecode rest.
Proof. intros Ha Hb. simpl. by rewrite Ha, Hb. Qed.

Lemma urlDecode_encode_byte c rest : urlDecode (encode_byte c ++ rest) = c :: urlDecode rest.
Proof.
  destruct (encode_byte_cases c) as [(_ & -> & Hne)|(a & b & -> & Ha & Hb & Hm)].
  - by apply urlDecode_cons.
  - simpl app. by rewrite urlDecode_hex, Hm.
Qed.

Lemma urlDecode_urlEncode s rest : urlDecode (urlEncode s ++ rest) = s ++ urlDecode rest.
Proof.
  induction s as [|c s IH]; [done|]. simpl urlEncode. rewrite <- app_assoc, urlDecode_encode_byte.
  by rewrite IH.
Qed.

Lemma urlDecode_no_percent s : "%"%char ∉ s -> urlDecode s = s.
Proof.
  induction s as [|c s IH]; intros H; [done|]. apply not_elem_of_cons in H as [Hc Hs].
  rewrite urlDecode_cons by congruence. by rewrite IH.
Qed.

Lemma length_hex (d : bytes) : length (mjoin (hex_byte <$> d)) = 2 * length d.
Proof. 
  induction d as [|c d IH]; [done|].
  change (length (hex_byte c ++ mjoin (hex_byte <$> d)) = 2 * S (length d)).
  rewrite length_app, IH. simpl. lia.
 Qed.

(** ** Facts: case conversion *)
Lemma toLowers_idemp s : toLowers (toLowers s) = toLowers s.
Proof.
  unfold toLowers. rewrite <- list_fmap_compose. apply list_fmap_ext. intros _ c _. simpl. by_bytes c.
Qed.

Lemma toLowers_app s t : toLowers (s ++ t) = toLowers s ++ toLowers t.
Proof. apply fmap_app. Qed.

Lemma length_toLowers s : length (toLowers s) = length s.
Proof. apply length_fmap. Qed.

End EncodeUtil.

(** ** Facts: the mixing steps are injective on 32-bit words *)
Section murmur_injective.
Local Open Scope Z_scope.
Import EncodeUtil.

Definition word (z : Z) : Prop := 0 <= z < 2 ^ 32.

Lemma u32_word z : word (u32 z).
Proof. apply u32_range. Qed.

Lemma word_testbit z i : word z -> 32 <= i -> Z.testbit z i = false.
Proof.
  intros Hz Hi. rewrite <- (u32_small z Hz). unfold u32. by apply Z.mod_pow2_bits_high.
Qed.

Lemma word_of_testbit z : 0 <= z -> (forall i, 32 <= i -> Z.testbit z i = false) -> word z.
Proof.
  intros H0 H. split; [done|]. destruct (Z.eq_dec z 0) as [->|Hne]; [lia|].
  apply Z.log2_lt_pow2; [lia|]. destruct (Z.lt_ge_cases (Z.log2 z) 32) as [|Hge]; [done|].
  specialize (H _ Hge). rewrite Z.bit_log2 in H by lia. done.
Qed.

Lemma word_lxor a b : word a -> word b -> word (Z.lxor a b).
Proof.
  intros Ha Hb. apply word_of_testbit.
  - apply Z.lxor_nonneg. unfold word in *. lia.
  - intros i Hi. by rewrite Z.lxor_spec, !word_testbit.
Qed.

Lemma word_shiftr a n : word a -> 0 <= n -> word (Z.shiftr a n).
Proof.
  intros Ha Hn. apply word_of_testbit.
  - apply Z.shiftr_nonneg. apply Ha.
  - intros i Hi. rewrite Z.shiftr_spec by lia. apply word_testbit; [done|lia].
Qed.

Lemma lxor_inj a b c : Z.lxor a b = Z.lxor a c -> b = c.
Proof.
  intros H. rewrite <- (Z.lxor_0_l b), <- (Z.lxor_0_l c), <- (Z.lxor_nilpotent a).
  by rewrite !Z.lxor_assoc, H.
Qed.

Lemma lxor_inj_r a b c : Z.lxor b a = Z.lxor c a -> b = c.
Proof. rewrite !(Z.lxor_comm _ a). apply lxor_inj. Qed.

(** The multiplier is odd, so it has an inverse modulo [2 ^ 32]. *)
Lemma mul_m_inj a b : word a -> word b -> u32 (a * murmur_m) = u32 (b * murmur_m) -> a = b.
Proof.
  intros Ha Hb H. rewrite <- (u32_small a Ha), <- (u32_small b Hb). unfold u32 in *.
  assert (Hinv : forall x, x mod 2 ^ 32 = ((x * murmur_m) mod 2 ^ 32 * 3852147133) mod 2 ^ 32).
  { intros x. rewrite Z.mul_mod_idemp_l by done.
    replace (x * murmur_m * 3852147133) with (x + (x * 1381656390) * 2 ^ 32)
      by (unfold murmur_m; ring).
    by rewrite Z.mod_add by done. }
  by rewrite (Hinv a), (Hinv b), H.
Qed.

(** [x ^= x >> r] determines the bits of [x] from the top down. *)
Lemma xorshift_inj a b r :
  word a -> word b -> 0 < r -> Z.lxor a (Z.shiftr a r) = Z.lxor b (Z.shiftr b r) -> a = b.
Proof.
  intros Ha Hb Hr H.
  assert (Hbits : forall k : nat, forall i, 0 <= i -> 32 - Z.of_nat k <= i -> Z.testbit a i = Z.testbit b i).
  { induction k as [|k IH]; intros i H0 Hi.
    - rewrite !word_testbit by (done || lia). done.
    - pose proof (f_equal (fun z => Z.testbit z i) H) as Hi'. simpl in Hi'.
      rewrite !Z.lxor_spec, !Z.shiftr_spec in Hi' by lia.
      rewrite (IH (i + r)) in Hi' by lia.
      destruct (Z.testbit a i), (Z.testbit b i), (Z.testbit b (i + r)); done. }
  apply Z.bits_inj'. intros i Hi. apply (Hbits 32%nat); lia.
Qed.

Lemma mix_k_inj a b : word a -> word b -> mix_k a = mix_k b -> a = b.
Proof.
  intros Ha Hb H. unfold mix_k in H. cbv zeta in H.
  apply mul_m_inj in H; [|apply word_lxor; [apply u32_word|apply word_shiftr; [apply u32_word|lia]]..].
  apply xorshift_inj in H; [|apply u32_word|apply u32_word|lia].
  by apply mul_m_inj in H.
Qed.

Lemma mix_h_word h k : word (mix_h h k).
Proof. apply word_lxor; apply u32_word. Qed.

Lemma mix_h_inj_k h a b : word a -> word b -> mix_h h a = mix_h h b -> a = b.
Proof. intros Ha Hb H. apply lxor_inj in H. by apply mix_k_inj. Qed.

Lemma mix_h_inj_h h h' k : word h -> word h' -> mix_h h k = mix_h h' k -> h = h'.
Proof. intros Ha Hb H. apply lxor_inj_r in H. by apply mul_m_inj. Qed.

Lemma char_word c : word (char_u c).
Proof. pose proof (char_u_range c). unfold word. lia. Qed.

Lemma char_shift_word c n : 0 <= n <= 24 -> word (Z.shiftl (char_u c) n).
Proof.
  intros Hn. pose proof (char_u_range c). unfold word. rewrite Z.shiftl_mul_pow2 by lia.
  pose proof (Z.pow_pos_nonneg 2 n ltac:(lia) ltac:(lia)).
  pose proof (Z.pow_le_mono_r 2 n 24 ltac:(lia) ltac:(lia)). nia.
Qed.

Lemma le32_inj a b c d a' b' c' d' :
  le32 a b c d = le32 a' b' c' d' -> [a; b; c; d] = [a'; b'; c'; d'].
Proof.
  unfold le32. rewrite !Z.shiftl_mul_pow2 by lia.
  pose proof (char_u_range a). pose proof (char_u_range b). pose proof (char_u_range c).
  pose proof (char_u_range d). pose proof (char_u_range a'). pose proof (char_u_range b').
  pose proof (char_u_range c'). pose proof (char_u_range d'). intros H'.
  assert (char_u a = char_u a' /\ char_u b = char_u b' /\ char_u c = char_u c' /\ char_u d = char_u d')
    as (Ea & Eb & Ec & Ed) by lia.
  by rewrite (char_u_inj _ _ Ea), (char_u_inj _ _ Eb), (char_u_inj _ _ Ec), (char_u_inj _ _ Ed).
Qed.

Lemma le32_word a b c d : word (le32 a b c d).
Proof.
  unfold le32, word. rewrite !Z.shiftl_mul_pow2 by lia.
  pose proof (char_u_range a). pose proof (char_u_range b). pose proof (char_u_range c).
  pose proof (char_u_range d). lia.
Qed.

Lemma murmur_loop_word h s : word h -> word (murmur_loop h s).1.
Proof.
  revert h. induction s as [s IH] using (induction_ltof1 _ length). intros h Hh.
  destruct s as [|a [|b [|c [|d s]]]]; try done. simpl. apply IH; [unfold ltof; simpl; lia|apply mix_h_word].
Qed.

Lemma murmur_loop_inj h h' s :
  word h -> word h' -> (murmur_loop h s).1 = (murmur_loop h' s).1 -> h = h'.
Proof.
  revert h h'. induction s as [s IH] using (induction_ltof1 _ length). intros h h' Hh Hh'.
  destruct s as [|a [|b [|c [|d s]]]]; try done. simpl. intros H.
  apply IH in H; [by apply mix_h_inj_h in H|unfold ltof; simpl; lia|apply mix_h_word|apply mix_h_word].
Qed.

Lemma murmur_loop_rest h h' s : (murmur_loop h s).2 = (murmur_loop h' s).2.
Proof.
  revert h h'. induction s as [s IH] using (induction_ltof1 _ length). intros h h'.
  destruct s as [|a [|b [|c [|d s]]]]; try done. simpl. apply IH. unfold ltof. simpl. lia.
Qed.

Lemma murmur_tail_word h s : word h -> word (murmur_tail h s).
Proof. intros Hh. destruct s as [|a [|b [|c [|d s]]]]; simpl; [done|apply u32_word..|done]. Qed.

Lemma murmur_tail_inj h h' s :
  word h -> word h' -> murmur_tail h s = murmur_tail h' s -> h = h'.
Proof.
  intros Hh Hh'.
  assert (Hx : forall x y n c, word x -> word y -> 0 <= n <= 24 ->
    word (Z.lxor x (Z.shiftl (char_u c) n)) /\ word (Z.lxor y (Z.shiftl (char_u c) n))).
  { intros. split; apply word_lxor; try done; by apply char_shift_word. }
  destruct s as [|a [|b [|c [|d s]]]]; simpl; try done; intros H.
  - apply mul_m_inj in H; [by apply lxor_inj_r in H|apply word_lxor; [done|apply char_word]..].
  - destruct (Hx h h' 8 b) as [H1 H2]; [done|done|lia|].
    apply mul_m_inj in H; [|apply word_lxor; [done|apply char_word]..].
    by apply lxor_inj_r, lxor_inj_r in H.
  - destruct (Hx h h' 16 c) as [H1 H2]; [done|done|lia|].
    destruct (Hx _ _ 8 b H1 H2) as [H3 H4]; [lia|].
    apply mul_m_inj in H; [|apply word_lxor; [done|apply char_word]..].
    by apply lxor_inj_r, lxor_inj_r, lxor_inj_r in H.
Qed.

Lemma murmur_final_inj h h' : word h -> word h' -> murmur_final h = murmur_final h' -> h = h'.
Proof.
  intros Hh Hh' H. unfold murmur_final in H. cbv zeta in H.
  apply xorshift_inj in H; [|apply u32_word|apply u32_word|lia].
  apply mul_m_inj in H; [|apply word_lxor; [done|apply word_shiftr; [done|lia]]..].
  apply xorshift_inj in H; [done|done|done|lia].
Qed.

Lemma murmur_loop_app h p w q :
  Nat.modulo (length p) 4 = 0%nat -> length w = 4%nat ->
  exists k a b c d, w = [a; b; c; d] /\ k = (murmur_loop h p).1
    /\ murmur_loop h (p ++ w ++ q) = murmur_loop (mix_h k (le32 a b c d)) q.
Proof.
  revert h. induction p as [p IH] using (induction_ltof1 _ length). intros h Hp Hw.
  destruct p as [|x [|y [|z [|t p]]]]; try done.
  - destruct w as [|a [|b [|c [|d [|]]]]]; try done. exists h, a, b, c, d. done.
  - assert (Hp4 : Nat.modulo (length p) 4 = 0%nat).
    { rewrite <- (Nat.Div0.mod_add (length p) 1 4).
      by replace (length p + 1 * 4)%nat with (length (x :: y :: z :: t :: p)) by (simpl; lia). }
    apply (IH p ltac:(unfold ltof; simpl; lia) (mix_h h (le32 x y z t)) Hp4 Hw).
Qed.
End murmur_injective.

(** ** Properties *)

Lemma urlEncode_unreserved s :
  Forall (fun c => EncodeUtil.unreserved c = true \/ c = "%"%char) (EncodeUtil.urlEncode s).
Proof.
  induction s as [|c s IH]; [constructor|]. simpl. apply Forall_app. split; [|done].
  assert (forallb (fun x => EncodeUtil.unreserved x || bool_decide (x = "%"%char)) (EncodeUtil.encode_byte c) = true)
    as H by (by_bytes c).
  apply Forall_forall. intros x Hx. rewrite forallb_forall in H.
  specialize (H x (proj1 (list_elem_of_In _ _) Hx)). apply orb_true_iff in H as [H|H]; [by left|right].
  by apply bool_decide_eq_true in H.
Qed.

(** C32: [urlDecode] inverts [urlEncode] on every byte string, also as a prefix of
    a longer text, and [urlEncode] emits only unreserved characters and
    percent triples. *)
Theorem urlDecode_inverts_urlEncode (s rest : bytes) :
  EncodeUtil.urlDecode (EncodeUtil.urlEncode s ++ rest) = s ++ EncodeUtil.urlDecode rest
  /\ Forall (fun c => EncodeUtil.unreserved c = true \/ c = "%"%char) (EncodeUtil.urlEncode s).
Proof.
  split; [apply EncodeUtil.urlDecode_urlEncode|apply urlEncode_unreserved].
Qed.

(** Two byte strings of the same length that differ in one aligned 4-byte
    word have different MurmurHash2 values: each mixing step is injective in the
    word and in the running hash. *)
Theorem murmurHash2_separates_words (p w w' q : bytes) :
  Nat.modulo (length p) 4 = 0 -> length w = 4 -> length w' = 4 -> w <> w' ->
  EncodeUtil.murmurHash2 (p ++ w ++ q) <> EncodeUtil.murmurHash2 (p ++ w' ++ q).
Proof.
  intros Hp Hw Hw' Hne H. apply Hne. unfold EncodeUtil.murmurHash2 in H.
  replace (length (p ++ w' ++ q)) with (length (p ++ w ++ q)) in H by (rewrite !length_app; lia).
  set (h0 := u32 _) in H. assert (Hh0 : word h0) by apply u32_word.
  destruct (murmur_loop_app h0 p w q Hp Hw) as (k & a & b & c & d & -> & Hk & E1).
  destruct (murmur_loop_app h0 p w' q Hp Hw') as (k' & a' & b' & c' & d' & -> & Hk' & E2).
  rewrite E1, E2, Hk, Hk' in H.
  set (g := EncodeUtil.mix_h _ (EncodeUtil.le32 a b c d)) in H.
  set (g' := EncodeUtil.mix_h _ (EncodeUtil.le32 a' b' c' d')) in H.
  pose proof (murmur_loop_rest g g' q) as Hrest.
  pose proof (murmur_loop_word g q (mix_h_word _ _)) as Hg.
  pose proof (murmur_loop_word g' q (mix_h_word _ _)) as Hg'.
  destruct (EncodeUtil.murmur_loop g q) as [r1 t1] eqn:F1.
  destruct (EncodeUtil.murmur_loop g' q) as [r2 t2] eqn:F2. simpl in Hrest, Hg, Hg'. subst t2.
  apply murmur_final_inj in H; [|by apply murmur_tail_word..].
  apply murmur_tail_inj in H; [|done|done]. subst r2.
  assert (g = g') as Heq.
  { apply (murmur_loop_inj g g' q); [apply mix_h_word|apply mix_h_word|by rewrite F1, F2]. }
  apply mix_h_inj_k in Heq; [|apply le32_word..]. by apply le32_inj.
Qed.

Lemma murmurHash2_separates_words_witness :
  EncodeUtil.murmurHash2 (bs "SESS" ++ bs "abcd" ++ bs "xy")
  <> EncodeUtil.murmurHash2 (bs "SESS" ++ bs "abce" ++ bs "xy").
Proof. apply murmurHash2_separates_words; [reflexivity..|]. intros H. discriminate H. Defined.

Lemma md5HashEqual_spec (MD5 : bytes -> bytes) (data hashv : bytes) :
  length (MD5 data) = 16 ->
  EncodeUtil.md5HashEqual MD5 data hashv
  = if length hashv <? 31 then Err Undefined
    else Ok (starts_with hashv (EncodeUtil.md5Hash MD5 data)).
Proof.
  intros Hlen. unfold EncodeUtil.md5HashEqual. set (h := EncodeUtil.md5Hash MD5 data).
  assert (Hh : length h = 32 /\ NUL ∉ h).
  { unfold h, EncodeUtil.md5Hash. split.
    - rewrite EncodeUtil.length_hex. lia.
    - intros Hin. apply list_elem_of_join in Hin as (l & Hl & Hin).
      apply list_elem_of_fmap in Hin as (c & -> & _). revert Hl.
      assert (NUL ∉ EncodeUtil.hex_byte c) as H by (by_bytes c). exact H. }
  destruct Hh as [H32 HNUL]. rewrite length_app, H32. simpl length.
  destruct (Nat.ltb_spec (length hashv + 1) 32), (Nat.ltb_spec (length hashv) 31); try lia; [done|].
  f_equal. destruct (starts_with hashv h) eqn:E.
  - apply starts_with_spec in E as [t ->]. apply bool_decide_true.
    rewrite <- app_assoc. by apply take_app_length'.
  - apply bool_decide_false. intros Ht. destruct (decide (length hashv = 31)) as [H31|].
    + rewrite take_ge in Ht by (rewrite length_app; simpl; lia). apply HNUL. rewrite <- Ht.
      apply list_elem_of_In, in_or_app. right. by left.
    + rewrite take_app_le in Ht by lia.
      assert (starts_with hashv h = true); [|congruence].
      apply starts_with_spec. exists (drop 32 hashv). by rewrite <- Ht, take_drop.
Qed.

(** [md5HashEqual] accepts exactly the strings that start with the 32
    hexadecimal digits of the hash: text after them is not looked at, and a
    string shorter than 31 characters is read past its end. *)
Theorem md5HashEqual_is_prefix_test (MD5 : bytes -> bytes) (data hashv : bytes) :
  length (MD5 data) = 16 ->
  EncodeUtil.md5HashEqual MD5 data hashv
  = if length hashv <? 31 then Err Undefined
    else Ok (starts_with hashv (EncodeUtil.md5Hash MD5 data)).
Proof. apply md5HashEqual_spec. Qed.

Lemma md5HashEqual_is_prefix_test_witness :
  EncodeUtil.md5HashEqual (fun _ => replicate 16 NUL) (bs "a") (replicate 40 "0"%char)
  = if length (replicate 40 "0"%char) <? 31 then Err Undefined
    else Ok (starts_with (replicate 40 "0"%char) (EncodeUtil.md5Hash (fun _ => replicate 16 NUL) (bs "a"))).
Proof. apply (md5HashEqual_is_prefix_test (fun _ => replicate 16 NUL)). reflexivity. Defined.
