(* ===== verification/EncodeStream.v ===== *)
(** * EncodeStream: compression and the digest of a file, piece by piece

    Models [gzipCompress] and [md5HashFile] of [soc/utility/src/EncodeUtil.cc].
    The streams of zlib and OpenSSL are classes of operations; their laws say
    what the two libraries document. *)
From S2P Require Import Prelude CStr EncodeUtil.

(** ** zlib *)
(** A deflate stream: made of its input, with the format of [deflateInit2]; a
    call with [Z_FINISH] puts at most [avail_out] bytes. *)
Class Deflate (Str : Type) := {
  deflateInit : bytes -> Str;
  deflate : nat -> Str -> bytes * Str;
}.
(** Called until room is left, it puts all of the compressed input: each call
    as much of what is pending as fits. *)
Class DeflateLaws (Str : Type) {D : Deflate Str} (gzip : bytes -> bytes) := {
  pending : Str -> bytes;
  pending_init s : pending (deflateInit s) = gzip s;
  deflate_fills n x : (deflate n x).1 = take n (pending x) /\ pending (deflate n x).2 = drop n (pending x);
}.

Section gzip.
Context `{D : Deflate Str}.

(** [unsigned int] of a [size_t]. *)
Definition uint (n : nat) : nat := Z.to_nat (u32 (Z.of_nat n)).

(** [deflate] writes behind [next_out], which points into [output]. *)
Definition write_out (at_ : nat) (out output : bytes) : result bytes :=
  if at_ + length out <=? length output then Ok (take at_ output ++ out ++ drop (at_ + length out) output) else Err Undefined.

(** The [do] loop. *)
Fixpoint gzip_loop (fuel size size_compressed : nat) (strm : Str) (output : bytes) : result bytes :=
  match fuel with
  | 0 => Err OutOfFuel
  | S fuel =>
      let increase := size / 2 + 1024 in
      let output := if length output <? size_compressed + increase then resize (size_compressed + increase) NUL output else output in
      let '(out, strm) := deflate (uint increase) strm in
      let* output := write_out size_compressed out output in
      let avail_out := uint increase - length out in
      let size_compressed := size_compressed + (increase - avail_out) in
      if avail_out =? 0 then gzip_loop fuel size size_compressed strm output
      else Ok (resize size_compressed NUL output)
  end.

(** [avail_in] is an [unsigned int]. *)
Definition gzipCompress (fuel : nat) (buf output : bytes) : result bytes :=
  gzip_loop fuel (length buf) 0 (deflateInit (take (uint (length buf)) buf)) output.

(** *** It puts the whole stream into the vector *)
Context {gzip : bytes -> bytes} {DL : DeflateLaws Str gzip}.

Lemma uint_small n : (Z.of_nat n < 2 ^ 32)%Z -> uint n = n.
Proof. intros H. unfold uint. rewrite u32_small by lia. lia. Qed.

Lemma write_out_spec (done_ out output : bytes) :
  take (length done_) output = done_ -> length done_ + length out <= length output ->
  exists output', write_out (length done_) out output = Ok output' /\ take (length done_ + length out) output' = done_ ++ out
    /\ length output' = length output.
Proof.
  intros Hd Hl. unfold write_out. rewrite (proj2 (Nat.leb_le _ _)) by done. eexists. split; [reflexivity|]. rewrite Hd. split.
  - rewrite app_assoc. by rewrite take_app_length' by by rewrite length_app.
  - rewrite !length_app, length_drop. lia.
Qed.

(** [done_] is what is in the vector. *)
Lemma gzip_loop_spec fuel size (done_ : bytes) (strm : Str) (output : bytes) :
  (Z.of_nat (size / 2 + 1024) < 2 ^ 32)%Z -> take (length done_) output = done_ -> length done_ <= length output ->
  length (pending (gzip := gzip) strm) < fuel -> gzip_loop fuel size (length done_) strm output = Ok (done_ ++ pending strm).
Proof.
  intros Hs. revert done_ strm output. induction fuel as [|fuel IH]; intros done_ strm output Hd Hl Hf; [lia|]. cbn [gzip_loop].
  set (n := size / 2 + 1024) in *. rewrite uint_small by done.
  assert (0 < n) as Hn by (unfold n; lia). clearbody n.
  set (output1 := if length output <? length done_ + n then resize (length done_ + n) NUL output else output).
  assert (take (length done_) output1 = done_ /\ length done_ + n <= length output1) as [Hd1 Hl1].
  { unfold output1. destruct (Nat.ltb_spec (length output) (length done_ + n)) as [H|H]; [|done].
    rewrite length_resize, resize_ge by lia. rewrite take_app_le by done. done. }
  clearbody output1. destruct (deflate_fills n strm) as [Ho Hrest]. destruct (deflate n strm) as [out strm']. cbn [fst snd] in *.
  assert (length out = n `min` length (pending strm)) as Hout by (rewrite Ho; apply length_take).
  destruct (write_out_spec done_ out output1) as (output2 & -> & Hd2 & Hl2); [done|lia|].
  destruct (Nat.eqb_spec (n - length out) 0) as [E|E].
  - replace (length done_ + (n - (n - length out))) with (length (done_ ++ out)) by (rewrite length_app; lia).
    rewrite IH; [|by rewrite length_app|rewrite length_app; lia|].
    + rewrite Hrest, Ho, <- app_assoc. by rewrite take_drop.
    + rewrite Hrest, length_drop. lia.
  - replace (length done_ + (n - (n - length out))) with (length done_ + length out) by lia.
    rewrite resize_le by lia. rewrite Hd2, Ho, take_ge by lia. done.
Qed.

(** When the room does not fit the [unsigned int], no room is offered, and the loop makes more for ever. *)
Lemma gzip_loop_stuck fuel size n (strm : Str) (output : bytes) :
  Z.of_nat (size / 2 + 1024) = (2 ^ 32)%Z -> gzip_loop fuel size n strm output = Err OutOfFuel.
Proof.
  intros Hs. revert n strm output. induction fuel as [|fuel IH]; intros n strm output; [done|]. cbn [gzip_loop].
  set (k := size / 2 + 1024) in *. assert (uint k = 0) as -> by (unfold uint; rewrite Hs; reflexivity). clearbody k.
  destruct (deflate_fills 0 strm) as [Ho _]. destruct (deflate 0 strm) as [out strm']. cbn [fst] in Ho. rewrite take_0 in Ho. subst out.
  unfold write_out. rewrite (proj2 (Nat.leb_le _ _)); [apply IH|].
  cbn [length]. destruct (Nat.ltb_spec (length output) (n + k)); [rewrite length_resize|]; lia.
Qed.
End gzip.

(** ** The digest of a file *)
(** [MD5_CTX]: what was given to it, piece by piece, counts as a whole. *)
Class Md5 (Ctx : Type) := { MD5_Init : Ctx; MD5_Update : Ctx -> bytes -> Ctx; MD5_Final : Ctx -> bytes }.
Class Md5Laws (Ctx : Type) {M : Md5 Ctx} (MD5 : bytes -> bytes) := {
  md5_final chunks : MD5_Final (foldl MD5_Update MD5_Init chunks) = MD5 (mjoin chunks);
}.

Section file.
Context `{M : Md5 Ctx}.

(** [fread] of 1024 bytes, until nothing is left; [fp] is what is left. *)
Fixpoint read_loop (fuel : nat) (ctx : Ctx) (fp : bytes) : result Ctx :=
  match fuel with
  | 0 => Err OutOfFuel
  | S fuel =>
      let buffer := take 1024 fp in
      if 0 <? length buffer then read_loop fuel (MD5_Update ctx buffer) (drop 1024 fp) else Ok ctx
  end.

(** [file] is the contents of the file, if it opens. *)
Definition md5HashFile (file : option bytes) : result bytes :=
  match file with
  | None => Ok []
  | Some fp =>
      let* ctx := read_loop (S (length fp)) MD5_Init fp in
      Ok (mjoin (EncodeUtil.hex_byte <$> MD5_Final ctx))
  end.

Lemma md5_read_loop_spec fuel chunks (fp : bytes) :
  length fp < fuel -> exists chunks', read_loop fuel (foldl MD5_Update MD5_Init chunks) fp = Ok (foldl MD5_Update MD5_Init (chunks ++ chunks'))
    /\ mjoin chunks' = fp.
Proof.
  revert chunks fp. induction fuel as [|fuel IH]; intros chunks fp Hf; [lia|]. cbn [read_loop].
  destruct (Nat.ltb_spec 0 (length (take 1024 fp))) as [H|H]; rewrite length_take in H.
  - destruct (IH (chunks ++ [take 1024 fp]) (drop 1024 fp)) as (chunks' & E & Hj); [rewrite length_drop; lia|].
    exists (take 1024 fp :: chunks'). rewrite foldl_app in E. cbn [foldl] in E. rewrite E, <- app_assoc. split; [done|].
    change (take 1024 fp ++ mjoin chunks' = fp). rewrite Hj. apply take_drop.
  - exists []. rewrite app_nil_r. split; [done|]. destruct fp; [done|]. cbn in H. lia.
Qed.

(** The digest of a file is that of its contents. *)
Lemma md5HashFile_contents (MD5 : bytes -> bytes) {ML : Md5Laws Ctx MD5} (fp : bytes) :
  md5HashFile (Some fp) = Ok (EncodeUtil.md5Hash MD5 fp).
Proof.
  unfold md5HashFile. destruct (md5_read_loop_spec (S (length fp)) [] fp) as (chunks & E & Hj); [lia|]. cbn [foldl] in E. rewrite E.
  cbn [app]. by rewrite md5_final, Hj.
Qed.
End file.

(** C28: [gzipCompress] of less than 2^33 - 2048 bytes ends and leaves in the
    vector exactly what zlib makes of its input, whatever the vector held before:
    no call of [deflate] writes past it, however often the loop makes room.  The
    length goes through an [unsigned int]: of four gigabytes or more only the
    remainder is compressed.  And the bound is sharp: at 2^33 - 2048 bytes the
    room goes through an [unsigned int] too, is 0 there, and the loop never ends. *)
Theorem gzipCompress_whole `{D : Deflate Str} {gzip : bytes -> bytes} {DL : DeflateLaws Str gzip} (buf output : bytes) (fuel : nat) :
  let len := Z.of_nat (length buf) in
  let taken := take (uint (length buf)) buf in
  ((len < 2 ^ 33 - 2048)%Z -> length (gzip taken) < fuel -> gzipCompress (Str := Str) fuel buf output = Ok (gzip taken))
  /\ ((len < 2 ^ 32)%Z -> taken = buf)
  /\ ((2 ^ 32 <= len < 2 ^ 33)%Z -> Z.of_nat (length taken) = (len - 2 ^ 32)%Z)
  /\ ((len = 2 ^ 33 - 2048)%Z -> gzipCompress (Str := Str) fuel buf output = Err OutOfFuel).
Proof.
  cbv zeta. split; [|split; [|split]].
  - intros Hb Hf. unfold gzipCompress. rewrite (gzip_loop_spec fuel (length buf) [] _ output); [by rewrite pending_init| |done|simpl; lia|by rewrite pending_init].
    rewrite Nat2Z.inj_add, Nat2Z.inj_div. change (Z.of_nat 2) with 2%Z. change (Z.of_nat 1024) with 1024%Z.
    pose proof (Z.mul_div_le (Z.of_nat (length buf)) 2 ltac:(lia)). lia.
  - intros H. rewrite uint_small by done. by rewrite firstn_all.
  - intros H. unfold uint, u32. rewrite length_take. rewrite <- (Z_mod_plus_full _ (-1)), Z.mod_small by lia. lia.
  - intros H. unfold gzipCompress. apply (gzip_loop_stuck (gzip := gzip)).
    rewrite Nat2Z.inj_add, Nat2Z.inj_div, H. reflexivity.
Qed.

(** A stream that stores its input. *)
#[local] Instance store_deflate : Deflate bytes := {| deflateInit := id; deflate := fun n x => (take n x, drop n x) |}.
#[local] Instance store_laws : DeflateLaws bytes id := {| pending := id; pending_init := fun _ => eq_refl; deflate_fills := fun _ _ => conj eq_refl eq_refl |}.

Lemma gzipCompress_whole_witness :
  gzipCompress (Str := bytes) 3000 (replicate 2500 "a"%char) (bs "old") = Ok (replicate 2500 "a"%char).
Proof.
  assert (take (uint 2500) (replicate 2500 "a"%char) = replicate 2500 "a"%char) as E by (vm_compute; reflexivity).
  destruct (gzipCompress_whole (Str := bytes) (gzip := id) (replicate 2500 "a"%char) (bs "old") 3000) as [H _].
  rewrite length_replicate, E in H. apply H; [lia|]. unfold id. rewrite length_replicate. lia.
Defined.
