(* ===== verification/Base64.v ===== *)
(** * Base64: the coder behind [Authorization: Basic] and the digest nonces

    Models [soc/modules/base64/include/Base64.h] and the two wrappers of
    [EncodeUtil].  The decoder writes into a string that was sized by
    [decoded_size], so a write past it is a fault of the model. *)
From S2P Require Import Prelude CStr.
Local Open Scope Z_scope.

Module Base64.

Definition get_alphabet : bytes :=
  bs "ABCDEFGHIJKLMNOPQRSTUVWXYZabcdefghijklmnopqrstuvwxyz0123456789+/".

Definition get_inverse : list Z :=
  [-1; -1; -1; -1; -1; -1; -1; -1; -1; -1; -1; -1; -1; -1; -1; -1;
   -1; -1; -1; -1; -1; -1; -1; -1; -1; -1; -1; -1; -1; -1; -1; -1;
   -1; -1; -1; -1; -1; -1; -1; -1; -1; -1; -1; 62; -1; -1; -1; 63;
   52; 53; 54; 55; 56; 57; 58; 59; 60; 61; -1; -1; -1; -1; -1; -1;
   -1; 0; 1; 2; 3; 4; 5; 6; 7; 8; 9; 10; 11; 12; 13; 14;
   15; 16; 17; 18; 19; 20; 21; 22; 23; 24; 25; -1; -1; -1; -1; -1;
   -1; 26; 27; 28; 29; 30; 31; 32; 33; 34; 35; 36; 37; 38; 39; 40;
   41; 42; 43; 44; 45; 46; 47; 48; 49; 50; 51; -1; -1; -1; -1; -1;
   -1; -1; -1; -1; -1; -1; -1; -1; -1; -1; -1; -1; -1; -1; -1; -1;
   -1; -1; -1; -1; -1; -1; -1; -1; -1; -1; -1; -1; -1; -1; -1; -1;
   -1; -1; -1; -1; -1; -1; -1; -1; -1; -1; -1; -1; -1; -1; -1; -1;
   -1; -1; -1; -1; -1; -1; -1; -1; -1; -1; -1; -1; -1; -1; -1; -1;
   -1; -1; -1; -1; -1; -1; -1; -1; -1; -1; -1; -1; -1; -1; -1; -1;
   -1; -1; -1; -1; -1; -1; -1; -1; -1; -1; -1; -1; -1; -1; -1; -1;
   -1; -1; -1; -1; -1; -1; -1; -1; -1; -1; -1; -1; -1; -1; -1; -1;
   -1; -1; -1; -1; -1; -1; -1; -1; -1; -1; -1; -1; -1; -1; -1; -1].

Definition encoded_size (n : nat) : nat := 4 * ((n + 2) / 3).
Definition decoded_size (n : nat) : nat := n / 4 * 3.

Definition tab (i : Z) : ascii := get_alphabet !!! Z.to_nat i.
Definition inverse (c : ascii) : Z := get_inverse !!! Z.to_nat (char_u c).

(** ** Encoding *)

(** The four index expressions of the encoder, on [char] (signed) inputs. *)
Definition sextet0 (a : Z) : Z := Z.shiftr (Z.land a 0xfc) 2.
Definition sextet1 (a b : Z) : Z := Z.shiftl (Z.land a 0x03) 4 + Z.shiftr (Z.land b 0xf0) 4.
Definition sextet2 (b c : Z) : Z := Z.shiftr (Z.land c 0xc0) 6 + Z.shiftl (Z.land b 0x0f) 2.
Definition sextet3 (c : Z) : Z := Z.land c 0x3f.

Fixpoint encode (src : bytes) : bytes :=
  match src with
  | a :: b :: c :: rest =>
      let a := char_s a in let b := char_s b in let c := char_s c in
      tab (sextet0 a) :: tab (sextet1 a b) :: tab (sextet2 b c) :: tab (sextet3 c) :: encode rest
  | [a; b] =>
      let a := char_s a in let b := char_s b in
      [tab (sextet0 a); tab (sextet1 a b); tab (Z.shiftl (Z.land b 0x0f) 2); "="%char]
  | [a] =>
      let a := char_s a in
      [tab (sextet0 a); tab (Z.shiftl (Z.land a 0x03) 4); "="%char; "="%char]
  | [] => []
  end.

(** ** Decoding *)

(** [c3] from [c4]; an entry of [c4] that was not set is read as 0, and only
    reaches bytes that are not emitted. *)
Definition octets (c4 : list Z) : bytes :=
  let n i := nth i c4 0 in
  [chr (Z.shiftl (n 0%nat) 2 + Z.shiftr (Z.land (n 1%nat) 0x30) 4);
   chr (Z.shiftl (Z.land (n 1%nat) 0xf) 4 + Z.shiftr (Z.land (n 2%nat) 0x3c) 2);
   chr (Z.shiftl (Z.land (n 2%nat) 0x3) 6 + n 3%nat)].

(** The loop, then the partial group: the octets written and the characters read. *)
Fixpoint decode_loop (src : bytes) (c4 : list Z) (out : bytes) (n : nat) : bytes * nat :=
  let stop := (out ++ take (length c4 - 1) (octets c4), n) in
  match src with
  | [] => stop
  | c :: src =>
      if bool_decide (c = "="%char) then stop
      else
        let v := inverse c in
        if v =? -1 then stop
        else
          let c4 := c4 ++ [v] in
          if bool_decide (length c4 = 4%nat) then decode_loop src [] (out ++ octets c4) (S n)
          else decode_loop src c4 out (S n)
  end.

Definition decode (src : bytes) : bytes * nat := decode_loop src [] [] 0.

Definition base64_encode (s : bytes) : bytes := encode s.

(** [dest] has [decoded_size] bytes when [decode] writes into it. *)
Definition base64_decode (data : bytes) : result bytes :=
  let (out, _) := decode data in
  if (decoded_size (length data) <? length out)%nat then Err Undefined else Ok out.

(** ** The tables are inverse to each other *)
Definition sextet (z : Z) : Prop := 0 <= z < 64.

Lemma inverse_tab z : sextet z -> inverse (tab z) = z /\ tab z <> "="%char.
Proof.
  intros Hz. replace z with (Z.of_nat (Z.to_nat z)) by (unfold sextet in Hz; lia).
  set (n := Z.to_nat z). assert (Hn : n ∈ seq 0 64) by (apply elem_of_seq; unfold sextet in *; lia).
  assert (forallb (fun n => bool_decide (inverse (tab (Z.of_nat n)) = Z.of_nat n /\ tab (Z.of_nat n) <> "="%char))
    (seq 0 64) = true) as H by (vm_compute; reflexivity).
  rewrite forallb_forall in H. by apply (proj1 (bool_decide_eq_true _)), H, list_elem_of_In.
Qed.

Lemma inverse_range c : inverse c = -1 \/ sextet (inverse c).
Proof. unfold sextet. by_bytes c. Qed.

(** The bit fields of one byte that the index expressions are made of. *)
Lemma byte_fields a :
  0 <= Z.land (char_s a) 0x03 < 4 /\ 0 <= Z.shiftr (Z.land (char_s a) 0xf0) 4 < 16
  /\ 0 <= Z.shiftr (Z.land (char_s a) 0xc0) 6 < 4 /\ 0 <= Z.land (char_s a) 0x0f < 16
  /\ sextet (sextet0 (char_s a)) /\ sextet (sextet3 (char_s a))
  /\ sextet (Z.shiftl (Z.land (char_s a) 0x0f) 2) /\ sextet (Z.shiftl (Z.land (char_s a) 0x03) 4).
Proof. unfold sextet. by_bytes a. Qed.

(** Two bits and four bits, exhaustively. *)
Lemma forall_fields (f : Z -> Z -> bool) :
  forallb (fun p => forallb (fun q => f (Z.of_nat p) (Z.of_nat q)) (seq 0 16)) (seq 0 4) = true ->
  forall p q, 0 <= p < 4 -> 0 <= q < 16 -> f p q = true.
Proof.
  intros H p q Hp Hq. rewrite forallb_forall in H.
  specialize (H (Z.to_nat p) ltac:(apply in_seq; lia)). rewrite forallb_forall in H.
  specialize (H (Z.to_nat q) ltac:(apply in_seq; lia)). rewrite !Z2Nat.id in H by lia. exact H.
Qed.

Lemma fields_1 p q :
  0 <= p < 4 -> 0 <= q < 16 ->
  sextet (Z.shiftl p 4 + q)
  /\ Z.shiftr (Z.land (Z.shiftl p 4 + q) 0x30) 4 = p /\ Z.land (Z.shiftl p 4 + q) 0xf = q.
Proof.
  unfold sextet. intros Hp Hq. apply (proj1 (bool_decide_eq_true _)). revert p q Hp Hq.
  apply forall_fields. vm_compute. reflexivity.
Qed.

Lemma fields_2 p q :
  0 <= p < 4 -> 0 <= q < 16 ->
  sextet (p + Z.shiftl q 2)
  /\ Z.land (p + Z.shiftl q 2) 0x3 = p /\ Z.shiftr (Z.land (p + Z.shiftl q 2) 0x3c) 2 = q.
Proof.
  unfold sextet. intros Hp Hq. apply (proj1 (bool_decide_eq_true _)). revert p q Hp Hq.
  apply forall_fields. vm_compute. reflexivity.
Qed.

Lemma byte_joins a :
  chr (Z.shiftl (sextet0 (char_s a)) 2 + Z.land (char_s a) 0x03) = a
  /\ chr (Z.shiftl (Z.shiftr (Z.land (char_s a) 0xc0) 6) 6 + sextet3 (char_s a)) = a.
Proof. by_bytes a. Qed.

Lemma sextet_ranges a b :
  sextet (sextet0 (char_s a)) /\ sextet (sextet1 (char_s a) (char_s b))
  /\ sextet (sextet2 (char_s a) (char_s b)) /\ sextet (sextet3 (char_s a))
  /\ sextet (Z.shiftl (Z.land (char_s a) 0x0f) 2) /\ sextet (Z.shiftl (Z.land (char_s a) 0x03) 4).
Proof.
  destruct (byte_fields a) as (? & _ & _ & ? & ? & ? & ? & ?). destruct (byte_fields b) as (_ & ? & ? & _).
  split; [done|]. split; [by apply fields_1|]. split; [by apply fields_2|]. done.
Qed.

(** What the masks of the decoder recover from two neighbouring bytes. *)
Lemma sextet_masks a b :
  (chr (Z.shiftl (sextet0 (char_s a)) 2 + Z.shiftr (Z.land (sextet1 (char_s a) (char_s b)) 0x30) 4) = a)
  /\ Z.land (sextet1 (char_s a) (char_s b)) 0xf = Z.shiftr (Z.land (char_s b) 0xf0) 4
  /\ Z.shiftr (Z.land (sextet2 (char_s a) (char_s b)) 0x3c) 2 = Z.land (char_s a) 0x0f
  /\ chr (Z.shiftl (Z.land (sextet2 (char_s a) (char_s b)) 0x3) 6 + sextet3 (char_s b)) = b.
Proof.
  destruct (byte_fields a) as (Ha3 & _ & _ & Haf & _). destruct (byte_fields b) as (_ & Hbf & Hbc & _).
  destruct (fields_1 _ _ Ha3 Hbf) as (_ & E1 & E2). destruct (fields_2 _ _ Hbc Haf) as (_ & E3 & E4).
  unfold sextet1, sextet2. rewrite E1, E2, E3, E4.
  split; [apply byte_joins|]. split; [done|]. split; [done|apply byte_joins].
Qed.

Lemma nibbles b :
  chr (Z.shiftl (Z.shiftr (Z.land (char_s b) 0xf0) 4) 4 + Z.land (char_s b) 0x0f) = b
  /\ Z.shiftr (Z.land (Z.shiftl (Z.land (char_s b) 0x0f) 2) 0x3c) 2 = Z.land (char_s b) 0x0f
  /\ chr (Z.shiftl (sextet0 (char_s b)) 2 + Z.shiftr (Z.land (Z.shiftl (Z.land (char_s b) 0x03) 4) 0x30) 4) = b.
Proof. by_bytes b. Qed.

(** ** Decoding what was encoded *)
Lemma decode_loop_step z src c4 out n :
  sextet z -> length c4 <> 3%nat ->
  decode_loop (tab z :: src) c4 out n = decode_loop src (c4 ++ [z]) out (S n).
Proof.
  intros Hz Hl. destruct (inverse_tab z Hz) as [Hi He]. simpl.
  rewrite bool_decide_false by done. rewrite Hi.
  replace (z =? -1) with false by (symmetry; apply Z.eqb_neq; unfold sextet in Hz; lia).
  rewrite bool_decide_false; [done|]. rewrite length_app. simpl. lia.
Qed.

Lemma decode_loop_group z0 z1 z2 z3 src out n :
  sextet z0 -> sextet z1 -> sextet z2 -> sextet z3 ->
  decode_loop (tab z0 :: tab z1 :: tab z2 :: tab z3 :: src) [] out n
  = decode_loop src [] (out ++ octets [z0; z1; z2; z3]) (S (S (S (S n)))).
Proof.
  intros H0 H1 H2 H3. rewrite !decode_loop_step by (done || simpl; lia).
  destruct (inverse_tab z3 H3) as [Hi He]. cbn [decode_loop].
  rewrite bool_decide_false by done. rewrite Hi.
  replace (z3 =? -1) with false by (symmetry; apply Z.eqb_neq; unfold sextet in H3; lia).
  by rewrite bool_decide_true.
Qed.

Lemma octets_group a b c :
  octets [sextet0 (char_s a); sextet1 (char_s a) (char_s b); sextet2 (char_s b) (char_s c); sextet3 (char_s c)]
  = [a; b; c].
Proof.
  destruct (sextet_masks a b) as (E1 & E2 & _ & _). destruct (sextet_masks b c) as (_ & _ & E3 & E4).
  unfold octets. cbn [nth]. rewrite E1, E2, E3, E4. by rewrite (proj1 (nibbles b)).
Qed.

(** Induction by groups of three octets. *)
Lemma groups_ind (P : bytes -> Prop) :
  P [] -> (forall a, P [a]) -> (forall a b, P [a; b]) ->
  (forall a b c s, P s -> P (a :: b :: c :: s)) -> forall s, P s.
Proof.
  intros H0 H1 H2 H3. cut (forall n s, length s <= n -> P s)%nat; [eauto|].
  induction n as [|n IH]; intros s Hs; destruct s as [|a [|b [|c s]]]; simpl in *; try done; try lia.
  apply H3, IH. lia.
Qed.

Lemma decode_loop_stop src c4 out n :
  decode_loop ("="%char :: src) c4 out n = (out ++ take (length c4 - 1) (octets c4), n).
Proof. done. Qed.

Lemma decode_loop_encode s out n : (decode_loop (encode s) [] out n).1 = out ++ s.
Proof.
  revert out n. induction s as [|a|a b|a b c s IH] using groups_ind; intros out n.
  - cbn. by rewrite !app_nil_r.
  - destruct (sextet_ranges a a) as (H0 & _ & _ & _ & _ & H1).
    cbn [encode]. rewrite !decode_loop_step by (done || simpl; lia).
    rewrite decode_loop_stop. cbn [app length Nat.sub take octets fst nth].
    by rewrite (proj2 (proj2 (nibbles a))).
  - destruct (sextet_ranges a b) as (H0 & H1 & _).
    destruct (sextet_ranges b b) as (_ & _ & _ & _ & H2 & _).
    cbn [encode]. rewrite !decode_loop_step by (done || simpl; lia).
    rewrite decode_loop_stop. cbn [app length Nat.sub take octets fst nth].
    destruct (sextet_masks a b) as (-> & -> & _ & _). destruct (nibbles b) as (Hn & -> & _). by rewrite Hn.
  - destruct (sextet_ranges a b) as (H0 & H1 & _).
    destruct (sextet_ranges b c) as (_ & _ & H2 & _).
    destruct (sextet_ranges c c) as (_ & _ & _ & H3 & _).
    cbn [encode]. rewrite decode_loop_group by done. rewrite IH, octets_group. by rewrite <- app_assoc.
Qed.

Lemma encoded_size_add n : encoded_size (3 + n) = (4 + encoded_size n)%nat.
Proof.
  unfold encoded_size. replace (3 + n + 2)%nat with ((n + 2) + 1 * 3)%nat by lia.
  rewrite Nat.div_add by lia. lia.
Qed.

Lemma length_encode s : length (encode s) = encoded_size (length s).
Proof.
  induction s as [|a|a b|a b c s IH] using groups_ind; try done.
  cbn [encode length]. rewrite IH. change (S (S (S (length s)))) with (3 + length s)%nat.
  rewrite encoded_size_add. lia.
Qed.

(** ** How much the decoder writes *)

(** The length of the prefix the decoder reads. *)
Fixpoint valid_prefix (s : bytes) : nat :=
  match s with
  | [] => 0
  | c :: s => if bool_decide (c = "="%char) then 0 else if inverse c =? -1 then 0 else S (valid_prefix s)
  end.

Definition written (k : nat) : nat := (k / 4 * 3 + (k mod 4 - 1))%nat.

Lemma valid_prefix_le s : (valid_prefix s <= length s)%nat.
Proof. induction s as [|c s IH]; simpl; [done|]. case_bool_decide; [lia|]. destruct (_ =? _); lia. Qed.

Lemma written_small k : (k < 4)%nat -> written k = (k - 1)%nat.
Proof. intros H. unfold written. rewrite Nat.div_small, Nat.mod_small by done. lia. Qed.

Lemma written_add k : written (4 + k) = (3 + written k)%nat.
Proof.
  unfold written. replace (4 + k)%nat with (k + 1 * 4)%nat by lia.
  rewrite Nat.div_add, Nat.Div0.mod_add by lia. lia.
Qed.

Lemma decode_loop_written src c4 out n :
  (length c4 < 4)%nat ->
  length (decode_loop src c4 out n).1 = (length out + written (valid_prefix src + length c4))%nat.
Proof.
  revert c4 out n. induction src as [|c src IH]; intros c4 out n Hl.
  all: assert (length (out ++ take (length c4 - 1) (octets c4)) = (length out + written (length c4))%nat) as Hstop
    by (rewrite length_app, length_take, written_small by done; simpl; lia).
  { exact Hstop. }
  cbn [decode_loop valid_prefix]. case_bool_decide as He; [exact Hstop|].
  destruct (inverse c =? -1) eqn:Hi; [exact Hstop|].
  rewrite length_app. cbn [length]. case_bool_decide as H4.
  - rewrite IH by (simpl; lia). rewrite length_app. cbn [length].
    replace (S (valid_prefix src) + length c4)%nat with (4 + (valid_prefix src + 0))%nat by lia.
    rewrite written_add. simpl. lia.
  - rewrite IH by (rewrite length_app; simpl; lia). rewrite length_app. cbn [length]. do 2 f_equal. lia.
Qed.

Lemma decode_written s : length (decode s).1 = written (valid_prefix s).
Proof. unfold decode. rewrite decode_loop_written by (simpl; lia). cbn [length Nat.add]. by rewrite Nat.add_0_r. Qed.

(** ** The coder of RFC 4648, section 4 *)

(** The octets as bits, the most significant first; groups of six, the last one
    filled with zeros; the number a group denotes; the table; the padding. *)
Definition octet_bits (a : ascii) : list bool := map (fun i => Z.testbit (char_u a) i) [7; 6; 5; 4; 3; 2; 1; 0].
Fixpoint sixes (l : list bool) : list (list bool) :=
  match l with
  | b5 :: b4 :: b3 :: b2 :: b1 :: b0 :: l => [b5; b4; b3; b2; b1; b0] :: sixes l
  | [] => []
  | _ => [take 6 (l ++ repeat false 6)]
  end.
Definition value (l : list bool) : Z := foldl (fun v b => 2 * v + Z.b2z b) 0 l.
Definition letter (z : Z) : ascii :=
  if z <? 26 then chr (char_u "A" + z) else if z <? 52 then chr (char_u "a" + (z - 26))
  else if z <? 62 then chr (char_u "0" + (z - 52)) else if z =? 62 then "+"%char else "/"%char.
Definition rfc4648 (s : bytes) : bytes :=
  map (fun l => letter (value l)) (sixes (concat (map octet_bits s)))
  ++ repeat "="%char ((3 - length s mod 3) mod 3).

Lemma tab_letter z : sextet z -> tab z = letter z.
Proof.
  intros Hz. replace z with (Z.of_nat (Z.to_nat z)) by (unfold sextet in Hz; lia).
  assert (forallb (fun n => bool_decide (tab (Z.of_nat n) = letter (Z.of_nat n))) (seq 0 64) = true) as H
    by (vm_compute; reflexivity).
  rewrite forallb_forall in H. apply (proj1 (bool_decide_eq_true _)), H, in_seq. unfold sextet in Hz. lia.
Qed.

(** The fields of a byte as groups of its bits. *)
Lemma field_values a :
  value (take 6 (octet_bits a)) = sextet0 (char_s a) /\ value (drop 6 (octet_bits a)) = Z.land (char_s a) 0x03
  /\ value (take 4 (octet_bits a)) = Z.shiftr (Z.land (char_s a) 0xf0) 4 /\ value (drop 4 (octet_bits a)) = Z.land (char_s a) 0x0f
  /\ value (take 2 (octet_bits a)) = Z.shiftr (Z.land (char_s a) 0xc0) 6 /\ value (drop 2 (octet_bits a)) = sextet3 (char_s a).
Proof. by_bytes a. Qed.

Lemma value_app l l' : value (l ++ l') = Z.shiftl (value l) (Z.of_nat (length l')) + value l'.
Proof.
  unfold value. rewrite foldl_app. generalize (foldl (fun v b => 2 * v + Z.b2z b) 0 l) as z.
  assert (forall z, foldl (fun v b => 2 * v + Z.b2z b) z l' = z * 2 ^ Z.of_nat (length l') + foldl (fun v b => 2 * v + Z.b2z b) 0 l') as H.
  { induction l' as [|b l' IH]; intros z; cbn [foldl length]; [cbn; lia|]. rewrite IH, (IH (2 * 0 + _)).
    rewrite Nat2Z.inj_succ, Z.pow_succ_r by lia. lia. }
  intros z. by rewrite H, Z.shiftl_mul_pow2 by lia.
Qed.

Lemma group_values a b :
  value (take 6 (octet_bits a)) = sextet0 (char_s a)
  /\ value (drop 6 (octet_bits a) ++ take 4 (octet_bits b)) = sextet1 (char_s a) (char_s b)
  /\ value (drop 4 (octet_bits a) ++ take 2 (octet_bits b)) = sextet2 (char_s a) (char_s b)
  /\ value (drop 2 (octet_bits a)) = sextet3 (char_s a)
  /\ value (drop 4 (octet_bits a) ++ [false; false]) = Z.shiftl (Z.land (char_s a) 0x0f) 2
  /\ value (drop 6 (octet_bits a) ++ [false; false; false; false]) = Z.shiftl (Z.land (char_s a) 0x03) 4.
Proof.
  destruct (field_values a) as (A0 & A1 & _ & A3 & _ & A5). destruct (field_values b) as (_ & _ & B2 & _ & B4 & _).
  rewrite !value_app, A0, A1, A3, A5, B2, B4. unfold sextet2. rewrite (Z.add_comm (Z.shiftr _ 6)).
  split_and!; try done; apply Z.add_0_r.
Qed.

Lemma sixes_group a b c l :
  sixes (octet_bits a ++ octet_bits b ++ octet_bits c ++ l)
  = take 6 (octet_bits a) :: (drop 6 (octet_bits a) ++ take 4 (octet_bits b))
    :: (drop 4 (octet_bits b) ++ take 2 (octet_bits c)) :: drop 2 (octet_bits c) :: sixes l.
Proof. done. Qed.

Lemma rfc4648_group a b c s :
  rfc4648 (a :: b :: c :: s)
  = letter (sextet0 (char_s a)) :: letter (sextet1 (char_s a) (char_s b))
    :: letter (sextet2 (char_s b) (char_s c)) :: letter (sextet3 (char_s c)) :: rfc4648 s.
Proof.
  destruct (group_values a b) as (E0 & E1 & _). destruct (group_values b c) as (_ & _ & E2 & _).
  destruct (group_values c c) as (_ & _ & _ & E3 & _).
  unfold rfc4648. cbn [map concat]. rewrite sixes_group. cbn [map app]. rewrite E0, E1, E2, E3.
  do 5 f_equal. change (length (a :: b :: c :: s)) with (3 + length s)%nat.
  replace (3 + length s)%nat with (length s + 1 * 3)%nat by lia. by rewrite Nat.Div0.mod_add.
Qed.

End Base64.
Import Base64.

(** C29: The encoder, with its shifts and masks on signed characters, its groups of
    three and its two special endings, computes the base 64 encoding of RFC
    4648: the bits of the octets in groups of six, each written with the letter
    of its value, filled up with the padding character. *)
Theorem base64_encode_rfc4648 s : base64_encode s = rfc4648 s.
Proof.
  unfold base64_encode. induction s as [|a|a b|a b c s IH] using groups_ind; [done|..].
  - destruct (sextet_ranges a a) as (H0 & _ & _ & _ & _ & H1). destruct (group_values a a) as (E0 & _ & _ & _ & _ & E1).
    cbn [encode]. rewrite !tab_letter, <- E0, <- E1 by done. done.
  - destruct (sextet_ranges a b) as (H0 & H1 & _). destruct (sextet_ranges b b) as (_ & _ & _ & _ & H2 & _).
    destruct (group_values a b) as (E0 & E1 & _). destruct (group_values b b) as (_ & _ & _ & _ & E2 & _).
    cbn [encode]. rewrite !tab_letter, <- E0, <- E1, <- E2 by done. done.
  - destruct (sextet_ranges a b) as (H0 & H1 & _). destruct (sextet_ranges b c) as (_ & _ & H2 & _).
    destruct (sextet_ranges c c) as (_ & _ & _ & H3 & _).
    cbn [encode]. rewrite rfc4648_group, IH, !tab_letter by done. done.
Qed.

(** C31: Decoding inverts encoding: for every byte string the decoder, writing
    into a string of [decoded_size] bytes, stays inside it and returns the
    original; and the encoder writes exactly [encoded_size] characters, the
    size of the string it was given. *)
Theorem base64_roundtrip s :
  base64_decode (base64_encode s) = Ok s
  /\ length (base64_encode s) = encoded_size (length s).
Proof.
  split; [|apply length_encode]. unfold base64_decode, base64_encode, decode.
  pose proof (decode_loop_encode s [] 0) as H. destruct (decode_loop _ _ _ _) as [out k]. simpl in H. subst out.
  rewrite length_encode. unfold decoded_size, encoded_size.
  rewrite (proj2 (Nat.ltb_ge _ _)); [done|].
  rewrite (Nat.mul_comm 4), Nat.div_mul by lia.
  pose proof (Nat.div_mod_eq (length s + 2) 3). pose proof (Nat.mod_upper_bound (length s + 2) 3 ltac:(lia)). lia.
Qed.

(** C38: Exactly which inputs make [base64_decode] write past the string it
    sized with [decoded_size]: those whose valid prefix fills every whole group
    of four and leaves two or three characters of a last group, that is an
    unpadded encoding.  Input whose length is a multiple of four never does. *)
Theorem base64_decode_overflow s :
  (base64_decode s = Err Undefined
   <-> (valid_prefix s / 4 = length s / 4 /\ 2 <= valid_prefix s mod 4)%nat)
  /\ ((length s mod 4 = 0)%nat -> is_Ok (base64_decode s) = true)
  /\ base64_decode (bs "QUI") = Err Undefined.
Proof.
  pose proof (valid_prefix_le s) as Hv.
  assert (base64_decode s = if (decoded_size (length s) <? written (valid_prefix s))%nat
    then Err Undefined else Ok (decode s).1) as Hd.
  { unfold base64_decode. rewrite <- decode_written. by destruct (decode s). }
  rewrite Hd. unfold decoded_size, written.
  pose proof (Nat.div_mod_eq (length s) 4). pose proof (Nat.mod_upper_bound (length s) 4 ltac:(lia)).
  pose proof (Nat.div_mod_eq (valid_prefix s) 4). pose proof (Nat.mod_upper_bound (valid_prefix s) 4 ltac:(lia)).
  split; [|split; [|done]]; destruct (Nat.ltb_spec (length s / 4 * 3) (valid_prefix s / 4 * 3 + (valid_prefix s mod 4 - 1))); try done.
  - split; [intros _; lia|done].
  - split; [done|lia].
  - intros H4. lia.
Qed.
