(* ===== verification/HttpUtil.v ===== *)
(** * HttpUtil: status codes, mime types and the hash of file extensions

    Models [soc/http/include/HttpUtil.h] and [HttpServer::mappingMimeType]. *)
From S2P Require Import Prelude CStr.

(** ** Enumerations *)
Inductive HttpMethod := GET | POST | HEAD.
Inductive HttpVersion := HTTP_1_0 | HTTP_1_1 | HTTP_2_0.

#[export] Instance HttpMethod_eq_dec : EqDecision HttpMethod.
Proof. solve_decision. Defined.
#[export] Instance HttpVersion_eq_dec : EqDecision HttpVersion.
Proof. solve_decision. Defined.

Module HttpStatus.
Definition CONTINUE : Z := 100.
Definition OK : Z := 200.
Definition PARTIAL_CONTENT : Z := 206.
Definition MOVED_PERMANENTLY : Z := 301.
Definition FOUND : Z := 302.
Definition NOT_MODIFIED : Z := 304.
Definition TEMPORARY_REDIRECT : Z := 307.
Definition BAD_REQUEST : Z := 400.
Definition UNAUTHORIZED : Z := 401.
Definition FORBIDDEN : Z := 403.
Definition NOT_FOUND : Z := 404.
Definition METHOD_NOT_ALLOWED : Z := 405.
Definition RANGE_NOT_SATISFIABLE : Z := 416.
Definition INTERNAL_SERVER_ERROR : Z := 500.
Definition SERVICE_UNAVAILABLE : Z := 503.
Definition HTTP_VERSION_NOT_SUPPORTED : Z := 505.
End HttpStatus.

(** Lookup in a table built by an initializer list: the first entry of a key
    is the one that is inserted. *)
Fixpoint assoc {K V} `{EqDecision K} (k : K) (l : list (K * V)) : option V :=
  match l with
  | [] => None
  | (k', v) :: l => if decide (k = k') then Some v else assoc k l
  end.

Definition Status_Code : list (Z * bytes) :=
  [(HttpStatus.CONTINUE, bs "Continue"); (HttpStatus.OK, bs "OK");
   (HttpStatus.PARTIAL_CONTENT, bs "Partial Content"); (HttpStatus.MOVED_PERMANENTLY, bs "Moved Permanently");
   (HttpStatus.FOUND, bs "Found"); (HttpStatus.NOT_MODIFIED, bs "Not Modified");
   (HttpStatus.TEMPORARY_REDIRECT, bs "Temporary Redirect"); (HttpStatus.BAD_REQUEST, bs "Bad Request");
   (HttpStatus.UNAUTHORIZED, bs "Unauthorized"); (HttpStatus.FORBIDDEN, bs "Forbidden");
   (HttpStatus.NOT_FOUND, bs "Not Found"); (HttpStatus.METHOD_NOT_ALLOWED, bs "Method Not Allowed");
   (HttpStatus.RANGE_NOT_SATISFIABLE, bs "Range Not Satisfiable");
   (HttpStatus.INTERNAL_SERVER_ERROR, bs "Internal Server Error");
   (HttpStatus.SERVICE_UNAVAILABLE, bs "Service Unavailable");
   (HttpStatus.HTTP_VERSION_NOT_SUPPORTED, bs "HTTP Version Not Suppported")].

(** [Status_Code.at(code)]: the key type is [short], so the [int] argument is
    reduced to 16 bits first. *)
Definition short (z : Z) : Z := ((z + 32768) mod 65536 - 32768)%Z.
Definition status_at (code : Z) : result bytes := of_option OutOfRange (assoc (short code) Status_Code).

(** ** The hash of an extension: [h * 31 + c] on 64 bits, [c] a signed [char] *)
Fixpoint hashExt_from (s : bytes) (h : Z) : Z :=
  match s with
  | [] => h
  | c :: s => hashExt_from s (u64 (h * 31 + char_s c))
  end.
Definition hashExt (s : bytes) : Z := hashExt_from s 0.

Definition mime_types : list (bytes * bytes) :=
  [(bs "html", bs "text/html"); (bs "htm", bs "text/html"); (bs "css", bs "text/css");
   (bs "csv", bs "text/csv"); (bs "txt", bs "text/plain");
   (bs "woff", bs "font/woff"); (bs "woff2", bs "font/woff2"); (bs "ttf", bs "font/ttf");
   (bs "otf", bs "font/otf");
   (bs "bmp", bs "image/x-ms-bmp"); (bs "svg", bs "image/svg+xml"); (bs "svgz", bs "image/svg+xml");
   (bs "gif", bs "image/gif"); (bs "jpg", bs "image/jpeg"); (bs "jpeg", bs "image/jpeg");
   (bs "webp", bs "image/webp"); (bs "png", bs "image/png"); (bs "ico", bs "image/x-icon");
   (bs "wav", bs "audio/wav"); (bs "weba", bs "audio/webm"); (bs "mp3", bs "audio/mpeg");
   (bs "oga", bs "audio/ogg");
   (bs "ogv", bs "video/ogg"); (bs "mpeg", bs "video/mpeg"); (bs "mp4", bs "video/mp4");
   (bs "avi", bs "video/x-msvideo"); (bs "wmv", bs "video/x-ms-wmv"); (bs "webm", bs "video/webm");
   (bs "flv", bs "video/x-flv"); (bs "m4v", bs "video/x-m4v");
   (bs "7z", bs "application/x-7z-compressed"); (bs "rar", bs "application/x-rar-compressed");
   (bs "sh", bs "application/x-sh"); (bs "rss", bs "application/rss+xml"); (bs "tar", bs "application/x-tar");
   (bs "jar", bs "application/java-archive"); (bs "gz", bs "application/gzip"); (bs "zip", bs "application/zip");
   (bs "xhtml", bs "application/xhtml+xml"); (bs "xml", bs "application/xml");
   (bs "js", bs "application/javascript"); (bs "pdf", bs "application/pdf"); (bs "doc", bs "application/msword");
   (bs "xls", bs "application/vnd.ms-excel"); (bs "ppt", bs "application/vnd.ms-powerpoint");
   (bs "eot", bs "application/vnd.ms-fontobject"); (bs "json", bs "application/json");
   (bs "bin", bs "application/octet-stream"); (bs "exe", bs "application/octet-stream");
   (bs "dll", bs "application/octet-stream"); (bs "deb", bs "application/octet-stream");
   (bs "iso", bs "application/octet-stream"); (bs "img", bs "application/octet-stream");
   (bs "dmg", bs "application/octet-stream");
   (bs "docx", bs "application/vnd.openxmlformats-officedocument.wordprocessingml.document");
   (bs "xlsx", bs "application/vnd.openxmlformats-officedocument.spreadsheetml.sheet");
   (bs "pptx", bs "application/vnd.openxmlformats-officedocument.presentationml.presentation")].

Definition Content_Type : list (Z * bytes) := (fun p => (hashExt p.1, p.2)) <$> mime_types.

(** ** [HttpServer::mappingMimeType] *)

(** [find_last_of(".")]: what follows the last dot. *)
Fixpoint after_last_dot (s : bytes) : option bytes :=
  match s with
  | [] => None
  | c :: s =>
      match after_last_dot s with
      | Some t => Some t
      | None => if bool_decide (c = "."%char) then Some s else None
      end
  end.

(** The types that get a charset, and that may be compressed. *)
Definition texty (type : bytes) : bool :=
  starts_with type (bs "text") || ends_with type (bs "xml")
  || ends_with type (bs "javascript") || ends_with type (bs "json").

Definition octet_stream : bytes := bs "application/octet-stream".

Definition mappingMimeType (url : bytes) : bytes :=
  match after_last_dot url with
  | None => octet_stream
  | Some ext =>
      let type := default octet_stream (assoc (hashExt ext) Content_Type) in
      if texty type then type ++ bs " ;charset=utf-8" else type
  end.

(** ** Properties *)
Lemma hashExt_from_range s h : (0 <= h < 2 ^ 64)%Z -> (0 <= hashExt_from s h < 2 ^ 64)%Z.
Proof.
  revert h. induction s as [|c s IH]; intros h Hh; [done|].
  apply IH, Z.mod_pos_bound. lia.
Qed.

Lemma after_last_dot_spec p e : "."%char ∉ e -> after_last_dot (p ++ "."%char :: e) = Some e.
Proof.
  intros He. assert (after_last_dot e = None) as Hn.
  { induction e as [|c e IH]; [done|]. apply not_elem_of_cons in He as [Hc He]. simpl.
    rewrite IH by done. by rewrite bool_decide_false by congruence. }
  induction p as [|c p IH]; simpl; [by rewrite Hn|]. by rewrite IH.
Qed.

Lemma assoc_elem_of {K V} `{EqDecision K} (l : list (K * V)) k v :
  NoDup l.*1 -> (k, v) ∈ l -> assoc k l = Some v.
Proof.
  induction l as [|[k' v'] l IH]; simpl; intros Hnd Hin; [by apply elem_of_nil in Hin|].
  apply NoDup_cons in Hnd as [Hk Hnd]. apply elem_of_cons in Hin as [[= -> ->]|Hin].
  - by rewrite decide_True.
  - rewrite decide_False; [by apply IH|]. intros ->. apply Hk, list_elem_of_fmap. by exists (k', v).
Qed.

Lemma assoc_None {K V} `{EqDecision K} (l : list (K * V)) k : k ∉ l.*1 -> assoc k l = None.
Proof.
  induction l as [|[k' v'] l IH]; simpl; [done|]. intros H. apply not_elem_of_cons in H as [H1 H2].
  rewrite decide_False by done. by apply IH.
Qed.

(** The table has no two extensions with one hash. *)
Lemma Content_Type_NoDup : NoDup Content_Type.*1.
Proof. apply (proj1 (bool_decide_eq_true _)). vm_compute. reflexivity. Qed.

(** What [mappingMimeType] promises: the type listed for the extension. *)
Definition listed_type (e : bytes) : bytes :=
  let type := default octet_stream (assoc e mime_types) in
  if texty type then type ++ bs " ;charset=utf-8" else type.

(** Every extension of the table is served with its own type, text types
    with a charset: no two listed extensions share a 64-bit hash.  An extension
    that is not listed gets application/octet-stream unless its hash is a listed
    one, which is possible: "kT" is served as javascript. *)
Theorem mappingMimeType_listed (p e t : bytes) :
  "."%char ∉ e ->
  ((e, t) ∈ mime_types -> mappingMimeType (p ++ "."%char :: e) = if texty t then t ++ bs " ;charset=utf-8" else t)
  /\ (hashExt e ∉ Content_Type.*1 -> mappingMimeType (p ++ "."%char :: e) = octet_stream)
  /\ mappingMimeType (bs "a.kT") = listed_type (bs "js")
  /\ "."%char ∉ bs "kT" /\ bs "kT" ∉ mime_types.*1.
Proof.
  intros He. unfold mappingMimeType. rewrite after_last_dot_spec by done.
  split; [|split; [|split; [by vm_compute|split; apply (bool_decide_unpack _); by vm_compute]]].
  - intros Hin. rewrite (assoc_elem_of Content_Type _ t); [done|apply Content_Type_NoDup|].
    apply list_elem_of_fmap. by exists (e, t).
  - intros Hn. by rewrite (assoc_None _ _ Hn).
Qed.

Lemma mappingMimeType_listed_witness :
  mappingMimeType (bs "/a/b.html") = bs "text/html ;charset=utf-8"
  /\ mappingMimeType (bs "/a/b.unknown") = octet_stream.
Proof.
  split.
  - refine (proj1 (mappingMimeType_listed (bs "/a/b") (bs "html") (bs "text/html") _) _);
      [apply (bool_decide_unpack _); by vm_compute|apply list_elem_of_here].
  - refine (proj1 (proj2 (mappingMimeType_listed (bs "/a/b") (bs "unknown") [] _)) _);
      apply (bool_decide_unpack _); by vm_compute.
Defined.
