(* ===== verification/HttpMap.v ===== *)
(** * HttpMap: the map interface and its unordered implementation

    Models [soc/http/include/HttpMap.h].  [Map] is the abstract class the HTTP
    containers implement; its laws are stated up to a normalisation of keys
    and for the keys that hold a single value, so that both [HttpMap] (below)
    and [HttpHeader] (in its own file) satisfy them.  The locks make each
    operation atomic and have no other content here. *)
From S2P Require Import Prelude CStr.

(** ** [class Map<Key, Value>] *)
Class Map (M V : Type) := {
  map_wf : M -> Prop;
  map_add : bytes -> V -> M -> M;
  map_remove : bytes -> M -> M;
  map_get : bytes -> M -> option V;
  map_contain : bytes -> M -> bool;
  map_size : M -> nat;
  map_empty : M -> bool;
  map_clear : M -> M;
}.

Class MapLaws (M V : Type) `{Map M V} := {
  map_norm : bytes -> bytes;
  map_single : bytes -> Prop;
  map_norm_single k k' : map_norm k = map_norm k' -> map_single k -> map_single k';
  map_clear_wf m : map_wf (map_clear m);
  map_add_wf k v m : map_wf m -> map_wf (map_add k v m);
  map_remove_wf k m : map_wf m -> map_wf (map_remove k m);
  map_get_clear k m : map_get k (map_clear m) = None;
  map_get_norm k k' m : map_norm k = map_norm k' -> map_get k m = map_get k' m;
  map_get_add k v m : map_wf m -> map_single k -> map_get k (map_add k v m) = Some v;
  map_get_add_ne k k' v m :
    map_wf m -> map_norm k <> map_norm k' -> map_get k' (map_add k v m) = map_get k' m;
  map_get_remove k m : map_wf m -> map_get k (map_remove k m) = None;
  map_get_remove_ne k k' m :
    map_wf m -> map_norm k <> map_norm k' -> map_get k' (map_remove k m) = map_get k' m;
  map_contain_get k m : map_contain k m = bool_decide (is_Some (map_get k m));
  map_empty_size m : map_empty m = bool_decide (map_size m = 0);
}.

(** ** [class HttpMap] *)
Module HttpMap.

Abbreviation t V := (gmap bytes V).

Definition new {V} : t V := ∅.
Definition add {V} (key : bytes) (value : V) (m : t V) : t V := <[key := value]> m.
Definition remove {V} (key : bytes) (m : t V) : t V := delete key m.
Definition get {V} (key : bytes) (m : t V) : option V := m !! key.
Definition contain {V} (key : bytes) (m : t V) : bool := bool_decide (is_Some (m !! key)).
Definition size {V} (m : t V) : nat := base.size m.
Definition empty {V} (m : t V) : bool := bool_decide (size m = 0).
Definition clear {V} (_ : t V) : t V := ∅.

(** [operator[]]: a missing key is inserted with a default value. *)
Definition at_ref {V} (dflt : V) (key : bytes) (m : t V) : V * t V :=
  match m !! key with Some v => (v, m) | None => (dflt, <[key := dflt]> m) end.

(** The iteration order of the hash table is not specified: a traversal is
    over some listing of the entries. *)
Definition listing {V} (m : t V) (l : list (bytes * V)) : Prop := l ≡ₚ map_to_list m.

(** [each]: stop at the first entry whose callback returns true; the callback
    threads the state it captures by reference. *)
Fixpoint each {V S} (callback : bytes -> V -> S -> result (bool * S)) (l : list (bytes * V)) (s : S) : result S :=
  match l with
  | [] => Ok s
  | (k, v) :: l =>
      let* (stop, s) := callback k v s in
      if stop then Ok s else each callback l s
  end.

Fixpoint forEach {V S} (callback : bytes -> V -> S -> S) (l : list (bytes * V)) (s : S) : S :=
  match l with [] => s | (k, v) :: l => forEach callback l (callback k v s) end.

(** An [each] runs the callbacks of a prefix that did not stop, then of the
    entry that did. *)
Lemma each_Ok {V S} (cb : bytes -> V -> S -> result (bool * S)) l s s' :
  each cb l s = Ok s' ->
  (exists l1 k v l2 s1, l = l1 ++ (k, v) :: l2
     /\ each (fun k v s => let* r := cb k v s in Ok (false, r.2)) l1 s = Ok s1
     /\ cb k v s1 = Ok (true, s'))
  \/ each (fun k v s => let* r := cb k v s in Ok (false, r.2)) l s = Ok s'.
Proof.
  revert s. induction l as [|[k v] l IH]; intros s H; simpl in *; [by right|].
  destruct (cb k v s) as [[stop s1]|e] eqn:E; [|done].
  destruct stop.
  - injection H as ->. left. by exists [], k, v, l, s.
  - destruct (IH _ H) as [(l1 & k1 & v1 & l2 & s2 & -> & E1 & E2)|H1].
    + left. exists ((k, v) :: l1), k1, v1, l2, s2. simpl. by rewrite E.
    + right. exact H1.
Qed.

#[export] Instance Map_HttpMap V : Map (t V) V := {
  map_wf _ := True;
  map_add := add; map_remove := remove; map_get := get; map_contain := contain;
  map_size := size; map_empty := empty; map_clear := clear;
}.

#[export] Instance MapLaws_HttpMap V : MapLaws (t V) V.
Proof.
  refine {| map_norm k := k; map_single _ := True |}; simpl; try done.
  all: unfold get, add, remove, clear in *; intros.
  - congruence.
  - apply lookup_insert_eq.
  - by apply lookup_insert_ne.
  - apply lookup_delete_eq.
  - by apply lookup_delete_ne.
Defined.

End HttpMap.
