(* ===== verification/HttpHeader.v ===== *)
(** * HttpHeader: the header fields of a message

    Models [soc/http/include/HttpHeader.h] and [soc/http/src/HttpHeader.cc].
    The [std::multimap] is the list of its entries in iteration order: sorted
    by key (bytewise), equal keys in order of insertion. *)
From S2P Require Import Prelude CStr Buffer EncodeUtil HttpMap.
Import EncodeUtil.

Module HttpHeader.

Abbreviation t := (list (bytes * bytes)).

(** [std::string::operator<]: lexicographic on unsigned bytes. *)
Fixpoint bytes_ltb (a b : bytes) : bool :=
  match a, b with
  | _, [] => false
  | [], _ :: _ => true
  | x :: a, y :: b =>
      if (char_u x <? char_u y)%Z then true
      else if (char_u y <? char_u x)%Z then false else bytes_ltb a b
  end.

(** ** The multimap *)
(** [find] returns the first entry of a key, as in the GNU library. *)
Fixpoint find_key (k : bytes) (h : t) : option bytes :=
  match h with
  | [] => None
  | (k', v) :: h => if decide (k' = k) then Some v else find_key k h
  end.

(** [emplace]: at the upper bound of the equal range. *)
Fixpoint emplace (k v : bytes) (h : t) : t :=
  match h with
  | [] => [(k, v)]
  | (k', v') :: h' => if bytes_ltb k k' then (k, v) :: h else (k', v') :: emplace k v h'
  end.

(** [lower_bound(k)->second = value], for a key that is present. *)
Fixpoint set_first (k v : bytes) (h : t) : t :=
  match h with
  | [] => []
  | (k', v') :: h => if decide (k' = k) then (k', v) :: h else (k', v') :: set_first k v h
  end.

(** ** Operations *)
Definition set_cookie : bytes := bs "set-cookie".

Definition add0 (key value : bytes) (h : t) : t :=
  let k := toLowers key in
  if negb (starts_with k set_cookie) && bool_decide (is_Some (find_key k h))
  then set_first k value h
  else emplace k value h.

Definition add (key value : bytes) (h : t) : t := add0 key value h.
Definition add_all (header h : t) : t := foldl (fun h e => add0 e.1 e.2 h) h header.

Definition remove (key : bytes) (h : t) : t :=
  let k := toLowers key in
  if decide (is_Some (find_key k h)) then filter (fun e => e.1 <> k) h else h.

Definition get (key : bytes) (h : t) : option bytes := find_key (toLowers key) h.
Definition contain (key : bytes) (h : t) : bool := bool_decide (is_Some (find_key (toLowers key) h)).
Definition size (h : t) : nat := length h.
Definition empty (h : t) : bool := bool_decide (size h = 0).
Definition clear (_ : t) : t := [].

Definition line (e : bytes * bytes) : bytes := e.1 ++ bs ": " ++ e.2 ++ CRLF.
Definition toString (h : t) : bytes := mjoin (line <$> h).

(** [store(sender)] appends the lines one by one. *)
Fixpoint store `{ByteQueue Q} (h : t) (sender : Q) : result Q :=
  match h with
  | [] => Ok sender
  | e :: h => let* sender := bq_append (line e) sender in store h sender
  end.

(** ** [parse] *)

(** [while (line_header[pos2 + 1] == ' ') pos2++]: the view is read past its
    end, in the text it is a part of. *)
Fixpoint skip_spaces (mem : bytes) : result nat :=
  match mem with
  | [] => Err Undefined
  | c :: mem => if bool_decide (c = " "%char) then let* n := skip_spaces mem in Ok (S n) else Ok 0
  end.

Fixpoint parse_loop (fuel : nat) (header : bytes) (index : nat) (h : t) : result (t * nat) :=
  match fuel with
  | 0 => Err OutOfFuel
  | S fuel =>
      if starts_with header CRLF then Ok (h, index + 2)
      else
        match find CRLF header with
        | None => Ok (h, index)
        | Some pos =>
            let* line_header := substr header 0 (Some pos) in
            match find_char ":" line_header with
            | None => Ok (h, index)
            | Some pos2 =>
                let* key := substr line_header 0 (Some pos2) in
                let* n := skip_spaces (drop (pos2 + 1) header) in
                let pos2 := pos2 + n + 1 in
                let* value := substr line_header pos2 (Some (pos - pos2)) in
                let h := add0 key value h in
                let* header := remove_prefix header (pos + 2) in
                parse_loop fuel header (index + (pos + 2)) h
            end
        end
  end.

Definition parse (header : bytes) (h : t) : result (t * nat) :=
  parse_loop (S (length header)) header 0 h.

(** ** Order lemmas *)
Lemma bytes_ltb_irrefl a : bytes_ltb a a = false.
Proof. induction a as [|x a IH]; simpl; [done|]. by rewrite Z.ltb_irrefl. Qed.

Lemma bytes_ltb_antisym a b : bytes_ltb a b = false -> bytes_ltb b a = false -> a = b.
Proof.
  revert b. induction a as [|x a IH]; intros [|y b]; simpl; try done.
  destruct (Z.ltb_spec (char_u x) (char_u y)), (Z.ltb_spec (char_u y) (char_u x)); try done.
  intros H1 H2. f_equal; [apply char_u_inj; lia|by apply IH].
Qed.

Lemma bytes_ltb_trans a b c : bytes_ltb a b = true -> bytes_ltb b c = true -> bytes_ltb a c = true.
Proof.
  revert b c. induction a as [|x a IH]; intros [|y b] [|z c]; simpl; try done.
  repeat match goal with |- context[(?u <? ?v)%Z] => destruct (Z.ltb_spec u v) end; try done; try lia.
  apply IH.
Qed.

Lemma bytes_ltb_asym a b : bytes_ltb a b = true -> bytes_ltb b a = false.
Proof.
  intros H. destruct (bytes_ltb b a) eqn:E; [|done].
  pose proof (bytes_ltb_trans _ _ _ H E) as F. by rewrite bytes_ltb_irrefl in F.
Qed.

(** [key_le a b]: [b]'s key is not below [a]'s. *)
Definition key_le (a b : bytes * bytes) : Prop := bytes_ltb b.1 a.1 = false.

Lemma bytes_le_trans a b c : bytes_ltb b a = false -> bytes_ltb c b = false -> bytes_ltb c a = false.
Proof.
  intros H1 H2. destruct (bytes_ltb c a) eqn:E; [|done].
  destruct (bytes_ltb b c) eqn:F.
  - pose proof (bytes_ltb_trans _ _ _ F E). congruence.
  - pose proof (bytes_ltb_antisym _ _ F H2). congruence.
Qed.

(** ** Well-formedness *)
Definition single (k : bytes) : Prop := starts_with (toLowers k) set_cookie = false.
#[export] Instance single_dec k : Decision (single k).
Proof. unfold single. apply _. Defined.

Definition lower (k : bytes) : Prop := toLowers k = k.

Definition wf (h : t) : Prop :=
  StronglySorted key_le h /\ Forall (fun e => lower e.1) h /\ NoDup (filter single h.*1).

Lemma toLowers_lower k : lower (toLowers k).
Proof.
  unfold lower, toLowers. rewrite <- list_fmap_compose. apply list_fmap_ext. intros _ c _. simpl.
  by_bytes c.
Qed.

Lemma single_lower k : single (toLowers k) <-> single k.
Proof. unfold single. by rewrite toLowers_lower. Qed.

Lemma find_key_None k h : find_key k h = None <-> k ∉ h.*1.
Proof.
  induction h as [|[k' v] h IH]; simpl; [split; [set_solver|done]|].
  destruct (decide (k' = k)) as [->|]; [split; [done|set_solver]|]. rewrite IH. set_solver.
Qed.

(** *** [emplace] *)
Lemma emplace_keys k v h : (emplace k v h).*1 ≡ₚ k :: h.*1.
Proof.
  induction h as [|[k' v'] h IH]; simpl; [done|].
  destruct (bytes_ltb k k'); [done|]. rewrite !fmap_cons, IH. simpl. by rewrite Permutation_swap.
Qed.

Lemma emplace_perm k v h : emplace k v h ≡ₚ (k, v) :: h.
Proof.
  induction h as [|[k' v'] h IH]; simpl; [done|].
  destruct (bytes_ltb k k'); [done|]. rewrite IH. by rewrite Permutation_swap.
Qed.

Lemma emplace_sorted k v h : StronglySorted key_le h -> StronglySorted key_le (emplace k v h).
Proof.
  induction 1 as [|[k' v'] h Hs IH Hall]; simpl; [repeat constructor|].
  destruct (bytes_ltb k k') eqn:E.
  - constructor; [by constructor|]. constructor; [by apply bytes_ltb_asym|].
    eapply Forall_impl; [exact Hall|]. intros e He.
    eapply bytes_le_trans; [|exact He]. by apply bytes_ltb_asym.
  - constructor; [done|]. rewrite emplace_perm. by constructor.
Qed.

Lemma find_key_emplace_ne k k' v h : k <> k' -> find_key k' (emplace k v h) = find_key k' h.
Proof.
  intros Hk. induction h as [|[k1 v1] h IH]; simpl; [by rewrite decide_False|].
  destruct (bytes_ltb k k1); simpl; [by rewrite decide_False|]. by rewrite IH.
Qed.

Lemma find_key_emplace k v h : find_key k h = None -> find_key k (emplace k v h) = Some v.
Proof.
  induction h as [|[k1 v1] h IH]; simpl; [by rewrite decide_True|].
  destruct (decide (k1 = k)) as [|Hk]; [done|]. intros H.
  destruct (bytes_ltb k k1); simpl; [by rewrite decide_True|]. rewrite decide_False by done. by apply IH.
Qed.

(** *** [set_first] *)
Lemma set_first_keys k v h : (set_first k v h).*1 = h.*1.
Proof.
  induction h as [|[k' v'] h IH]; simpl; [done|].
  destruct (decide (k' = k)); simpl; [done|]. f_equal. exact IH.
Qed.

Lemma find_key_set_first k v h : is_Some (find_key k h) -> find_key k (set_first k v h) = Some v.
Proof.
  induction h as [|[k' v'] h IH]; simpl; [by intros [? ?]|].
  destruct (decide (k' = k)); simpl; [by rewrite decide_True|]. rewrite decide_False by done. exact IH.
Qed.

Lemma find_key_set_first_ne k k' v h : k <> k' -> find_key k' (set_first k v h) = find_key k' h.
Proof.
  intros Hk. induction h as [|[k1 v1] h IH]; simpl; [done|].
  destruct (decide (k1 = k)) as [->|]; simpl; [by rewrite !decide_False|]. by rewrite IH.
Qed.

(** Sortedness only reads the keys. *)
Lemma sorted_keys (h h' : t) : h.*1 = h'.*1 -> StronglySorted key_le h -> StronglySorted key_le h'.
Proof.
  revert h'. induction h as [|[k v] h IH]; intros [|[k' v'] h'] Hk Hs; try done.
  simpl in Hk. injection Hk as -> Hk. apply StronglySorted_inv in Hs as [Hs Hall].
  constructor; [by apply IH|]. apply Forall_forall. intros e He.
  assert (e.1 ∈ h.*1) as Hin by (change (e.1 ∈ list_fmap _ _ fst h); rewrite Hk; apply list_elem_of_fmap; by exists e).
  apply list_elem_of_fmap in Hin as (e' & He' & Hin). rewrite Forall_forall in Hall.
  specialize (Hall _ Hin). unfold key_le in *. simpl in *. by rewrite He'.
Qed.

Lemma lower_keys (h : t) : Forall (fun e => lower e.1) h <-> Forall lower h.*1.
Proof. by rewrite Forall_fmap. Qed.

(** ** The operations preserve well-formedness *)
Lemma add0_wf k v h : wf h -> wf (add0 k v h).
Proof.
  intros (Hs & Hl & Hn). unfold add0.
  destruct (negb _ && _) eqn:E.
  - assert ((set_first (toLowers k) v h).*1 = h.*1) as Hk by apply set_first_keys.
    split; [by apply sorted_keys with h|]. split; [|by rewrite Hk].
    apply lower_keys. rewrite Hk. by apply lower_keys.
  - split; [by apply emplace_sorted|]. split.
    + apply lower_keys. rewrite emplace_keys. constructor; [apply toLowers_lower|by apply lower_keys].
    + rewrite emplace_keys, filter_cons. destruct (decide (single (toLowers k))) as [Hsi|]; [|done].
      constructor; [|done]. unfold single in Hsi. rewrite toLowers_lower in Hsi. rewrite Hsi in E. simpl in E.
      apply bool_decide_eq_false, eq_None_not_Some, find_key_None in E.
      rewrite list_elem_of_filter. tauto.
Qed.

Lemma filter_keys_ne k h : (filter (fun e : bytes * bytes => e.1 <> k) h).*1 = filter (fun k' => k' <> k) h.*1.
Proof. 
  induction h as [|[k' v'] h IH]; [done|]. rewrite fmap_cons, !filter_cons.
  change ((k', v').1) with k'. destruct (decide (k' <> k)); [rewrite fmap_cons|]; by rewrite IH.
Qed.

Lemma filter_sorted `{P : bytes * bytes -> Prop, !forall x, Decision (P x)} h :
  StronglySorted key_le h -> StronglySorted key_le (filter P h).
Proof.
  induction 1 as [|e h Hs IH Hall]; [constructor|]. rewrite filter_cons. destruct (decide (P e)); [|done].
  constructor; [done|]. by apply Forall_filter_keep.
Qed.

Lemma remove_wf k h : wf h -> wf (remove k h).
Proof.
  intros (Hs & Hl & Hn). unfold remove. destruct (decide _); [|done].
  split; [by apply filter_sorted|]. split; [by apply Forall_filter_keep|].
  rewrite filter_keys_ne. by apply NoDup_filter_filter.
Qed.

Lemma add_all_wf header h : wf h -> wf (add_all header h).
Proof.
  unfold add_all. revert h. induction header as [|[k v] l IH]; intros h H; [done|].
  apply IH. by apply add0_wf.
Qed.

(** ** [HttpHeader] is a [Map], up to the case of keys *)
Lemma find_key_filter k h : find_key k (filter (fun e => e.1 <> k) h) = None.
Proof.
  apply find_key_None. rewrite filter_keys_ne. rewrite list_elem_of_filter. naive_solver.
Qed.

Lemma find_key_filter_ne k k' h : k <> k' -> find_key k' (filter (fun e => e.1 <> k) h) = find_key k' h.
Proof.
  intros Hk. induction h as [|[k1 v1] h IH]; [done|]. rewrite filter_cons. simpl.
  destruct (decide (k1 <> k)) as [H1|H1]; simpl; [by rewrite IH|].
  apply dec_stable in H1 as ->. by rewrite decide_False.
Qed.

Lemma get_add k v h : single k -> get k (add0 k v h) = Some v.
Proof.
  intros Hk. unfold get, add0. rewrite Hk. simpl. case_bool_decide as Hf.
  - by apply find_key_set_first.
  - apply find_key_emplace. by apply eq_None_not_Some.
Qed.

Lemma get_add_ne k k' v h : toLowers k <> toLowers k' -> get k' (add0 k v h) = get k' h.
Proof.
  intros Hk. unfold get, add0. destruct (negb _ && _).
  - by apply find_key_set_first_ne.
  - by apply find_key_emplace_ne.
Qed.

Lemma get_remove k h : get k (remove k h) = None.
Proof.
  unfold get, remove. destruct (decide _) as [|Hn]; [apply find_key_filter|by apply eq_None_not_Some].
Qed.

Lemma get_remove_ne k k' h : toLowers k <> toLowers k' -> get k' (remove k h) = get k' h.
Proof. intros Hk. unfold get, remove. destruct (decide _); [by apply find_key_filter_ne|done]. Qed.

#[export] Instance Map_HttpHeader : Map t bytes := {
  map_wf := wf;
  map_add := add; map_remove := remove; map_get := get; map_contain := contain;
  map_size := size; map_empty := empty; map_clear := clear;
}.

#[export] Instance MapLaws_HttpHeader : MapLaws t bytes.
Proof.
  refine {| map_norm := toLowers; map_single := single |}; simpl; try done.
  - intros k k' Hk H. unfold single in *. by rewrite <- Hk.
  - repeat split; constructor.
  - intros. by apply add0_wf.
  - intros. by apply remove_wf.
  - intros k k' m Hk. unfold get. by rewrite Hk.
  - intros. by apply get_add.
  - intros. by apply get_add_ne.
  - intros. apply get_remove.
  - intros. by apply get_remove_ne.
Defined.

(** ** Printing and parsing *)
Lemma store_append `{ByteQueueLaws Q} h sender :
  bq_wf sender ->
  exists sender', store h sender = Ok sender' /\ bq_wf sender'
    /\ bq_contents sender' = bq_contents sender ++ toString h.
Proof.
  revert sender. induction h as [|e h IH]; intros q Hq; simpl.
  - exists q. by rewrite app_nil_r.
  - destruct (bq_append_ok (line e) q Hq) as (q1 & -> & Hq1 & E1).
    destruct (IH q1 Hq1) as (q2 & -> & Hq2 & E2). exists q2. split; [done|]. split; [done|].
    rewrite E2, E1. unfold toString. simpl. by rewrite app_assoc.
Qed.

(** Appending the largest key. *)
Lemma emplace_last k v h :
  Forall (fun e => bytes_ltb k e.1 = false) h -> emplace k v h = h ++ [(k, v)].
Proof.
  induction 1 as [|[k' v'] h Hk Hall IH]; simpl; [done|]. simpl in Hk. rewrite Hk. by rewrite IH.
Qed.

Lemma add0_last h k v :
  wf (h ++ [(k, v)]) -> add0 k v h = h ++ [(k, v)].
Proof.
  intros (Hs & Hl & Hn). apply Forall_app in Hl as [_ Hl]. apply Forall_cons in Hl as [Hk _]. simpl in Hk.
  unfold add0. rewrite Hk.
  rewrite fmap_app, filter_app in Hn. apply NoDup_app in Hn as (_ & Hn & _). simpl in Hn.
  assert (Forall (fun e => bytes_ltb k e.1 = false) h) as Hall.
  { apply Forall_forall. intros e He.
    apply (StronglySorted_app_1_elem_of key_le h [(k, v)] e (k, v)) in Hs; [done..|apply list_elem_of_here]. }
  destruct (starts_with k set_cookie) eqn:E; simpl; [by apply emplace_last|].
  case_bool_decide as Hf; [|by apply emplace_last].
  exfalso. destruct (find_key k h) eqn:F; [|by destruct Hf].
  apply (Hn k).
  - apply list_elem_of_filter. split; [unfold single; by rewrite Hk|].
    destruct (decide (k ∈ h.*1)) as [|Hni]; [done|]. apply find_key_None in Hni. congruence.
  - rewrite filter_cons_True by (unfold single; by rewrite Hk). apply list_elem_of_here.
Qed.

(** What a printed entry must look like to be read back. *)
Definition clean (e : bytes * bytes) : Prop :=
  ":"%char ∉ e.1 /\ CR ∉ e.1 /\ CR ∉ e.2 /\ head e.2 <> Some " "%char.

Lemma skip_spaces_one v t : head v <> Some " "%char -> skip_spaces (" "%char :: v ++ CR :: t) = Ok 1.
Proof.
  intros Hv. simpl. destruct v as [|c v]; simpl; [done|].
  rewrite bool_decide_false; [done|]. intros ->. done.
Qed.

Lemma line_app e rest : line e ++ rest = (e.1 ++ ":"%char :: " "%char :: e.2) ++ CRLF ++ rest.
Proof. unfold line. simpl. rewrite <- !app_assoc. simpl. rewrite <- !app_assoc. done. Qed.

Lemma length_line e : length (line e) = length e.1 + 2 + length e.2 + 2.
Proof. unfold line. rewrite !length_app. simpl. lia. Qed.

Lemma starts_with_line e rest : CR ∉ e.1 -> starts_with (line e ++ rest) CRLF = false.
Proof.
  intros H. unfold line. destruct e as [[|c k] v]; simpl in *; [done|].
  rewrite bool_decide_false; [done|]. set_solver.
Qed.

(** One line of [parse] and of [HttpRequest::parseRequestHeader]. *)
Lemma parse_line e rest :
  clean e ->
  find CRLF (line e ++ rest) = Some (length e.1 + 2 + length e.2)
  /\ find_char ":" (take (length e.1 + 2 + length e.2) (line e ++ rest)) = Some (length e.1)
  /\ take (length e.1 + 2 + length e.2) (line e ++ rest) = e.1 ++ ":"%char :: " "%char :: e.2
  /\ drop (length e.1 + 2 + length e.2 + 2) (line e ++ rest) = rest.
Proof.
  intros (H1 & H2 & H3 & H4). set (b := e.1 ++ ":"%char :: " "%char :: e.2).
  assert (length b = length e.1 + 2 + length e.2) as Hb by (unfold b; rewrite length_app; simpl; lia).
  rewrite line_app. fold b. rewrite <- Hb. split.
  - apply find_CRLF. unfold b. rewrite elem_of_app, !elem_of_cons.
    intros [?|[Hc|[Hc|?]]]; done.
  - rewrite take_app_length. split; [by apply find_char_app|]. split; [done|].
    rewrite app_assoc. apply drop_app_length'. rewrite length_app. simpl. lia.
Qed.

Lemma parse_loop_line fuel e rest index h :
  clean e ->
  parse_loop (S fuel) (line e ++ rest) index h
  = parse_loop fuel rest (index + length (line e)) (add0 e.1 e.2 h).
Proof.
  intros Hc. pose proof Hc as (H1 & H2 & H3 & H4). destruct (parse_line e rest Hc) as (F & G & T & D).
  cbn [parse_loop]. rewrite starts_with_line by done. rewrite F.
  rewrite substr_Ok by lia. rewrite drop_0, G.
  rewrite substr_Ok by lia. rewrite drop_0, T.
  replace (drop (length e.1 + 1) (line e ++ rest)) with (" "%char :: e.2 ++ CR :: LF :: rest).
  2:{ rewrite line_app. rewrite <- app_assoc. rewrite drop_app_ge by lia.
      by replace (length e.1 + 1 - length e.1) with 1 by lia. }
  rewrite skip_spaces_one by done.
  rewrite substr_Ok by (rewrite length_app; simpl; lia).
  rewrite take_app_length.
  replace (length e.1 + 1 + 1) with (length (e.1 ++ [":"%char; " "%char])) by (rewrite length_app; simpl; lia).
  replace (e.1 ++ ":"%char :: " "%char :: e.2) with ((e.1 ++ [":"%char; " "%char]) ++ e.2) by (by rewrite <- app_assoc).
  rewrite drop_app_length. rewrite take_ge by (rewrite length_app; simpl; lia).
  rewrite remove_prefix_Ok by (rewrite length_app, length_line; lia). rewrite D.
  f_equal. rewrite length_line. lia.
Qed.

(** Enough fuel is the length of the text. *)
Lemma parse_loop_toString h0 h index rest fuel :
  wf (h0 ++ h) -> Forall clean h -> length h < fuel ->
  parse_loop fuel (toString h ++ CRLF ++ rest) index h0
  = Ok (h0 ++ h, index + length (toString h) + 2).
Proof.
  revert h0 index fuel. induction h as [|e h IH]; intros h0 index fuel Hwf Hc Hf.
  - destruct fuel; [simpl in Hf; lia|]. simpl. rewrite app_nil_r. by rewrite Nat.add_0_r.
  - apply Forall_cons in Hc as [He Hc]. destruct fuel as [|fuel]; [simpl in Hf; lia|].
    unfold toString. rewrite fmap_cons. cbn [mjoin list_join]. rewrite <- app_assoc.
    rewrite parse_loop_line by done. change (mjoin (line <$> h)) with (toString h).
    rewrite add0_last.
    + destruct e as [k v]. rewrite IH; [| |done|simpl in Hf; lia]; rewrite <- app_assoc; [|done].
      simpl. do 2 f_equal. rewrite length_app. unfold toString. lia.
    + destruct e as [k v]. replace (h0 ++ (k, v) :: h) with ((h0 ++ [(k, v)]) ++ h) in Hwf by (by rewrite <- app_assoc).
      destruct Hwf as (Hs & Hl & Hn). split; [by apply StronglySorted_app_1_l in Hs|].
      split; [by apply Forall_app in Hl as [? _]|].
      rewrite fmap_app, filter_app in Hn. apply NoDup_app in Hn as [Hn _]. exact Hn.
Qed.

Lemma toString_cons e h : toString (e :: h) = line e ++ toString h.
Proof. done. Qed.

Lemma length_toString h : length h <= length (toString h).
Proof.
  induction h as [|e h IH]; [done|]. rewrite toString_cons, length_app, length_line. simpl. lia.
Qed.

Lemma skip_spaces_CR s t : exists n, skip_spaces (s ++ CR :: t) = Ok n /\ n <= length s.
Proof.
  induction s as [|c s (n & E & Hn)]; [by exists 0|]. cbn [app skip_spaces length].
  case_bool_decide; [exists (S n); by rewrite E; split; [|lia]|exists 0; split; [done|lia]].
Qed.

Lemma parse_loop_total fuel header index h :
  length header < fuel -> wf h ->
  exists h' n, parse_loop fuel header index h = Ok (h', index + n) /\ n <= length header /\ wf h'.
Proof.
  revert header index h. induction fuel as [|fuel IH]; intros header index h Hl Hwf; [lia|].
  cbn [parse_loop]. destruct (starts_with header CRLF) eqn:Est.
  { apply starts_with_spec in Est as [t ->]. exists h, 2. split; [done|]. simpl. split; [lia|done]. }
  assert (exists h' n, Ok (h, index) = Ok (h', index + n) /\ n <= length header /\ wf h') as Hstop
    by (exists h, 0; rewrite Nat.add_0_r; split; [done|]; split; [lia|done]).
  destruct (find CRLF header) as [pos|] eqn:Ef; [|exact Hstop].
  destruct (find_CRLF_split _ _ Ef) as [Hs Hpos].
  rewrite substr_Ok by lia. rewrite drop_0.
  destruct (find_char ":" (take pos header)) as [pos2|] eqn:Ec; [|exact Hstop].
  apply find_char_Some in Ec as (t & Ht & _ & Hp2). rewrite length_take in Hp2.
  rewrite substr_Ok by lia.
  assert (exists n, skip_spaces (drop (pos2 + 1) header) = Ok n /\ n <= pos - (pos2 + 1)) as (n & -> & Hn).
  { rewrite Hs, drop_app_le by (rewrite length_take; lia).
    destruct (skip_spaces_CR (drop (pos2 + 1) (take pos header)) (LF :: drop (pos + 2) header)) as (n & Hn & Hle).
    exists n. split; [done|]. rewrite length_drop, length_take in Hle. lia. }
  rewrite substr_Ok by (rewrite length_take; lia).
  rewrite remove_prefix_Ok by lia.
  match goal with |- context[parse_loop fuel _ _ ?h1] =>
    destruct (IH (drop (pos + 2) header) (index + (pos + 2)) h1) as (h' & m & -> & Hm & Hwf') end.
  - rewrite length_drop. lia.
  - by apply add0_wf.
  - exists h', (pos + 2 + m). split; [do 2 f_equal; lia|]. split; [|done]. rewrite length_drop in Hm. lia.
Qed.

End HttpHeader.
Import HttpHeader.

(** ** Any sequence of operations *)
Inductive op := Add (key value : bytes) | AddAll (header : t) | Remove (key : bytes) | Clear.
Definition step (h : t) (o : op) : t :=
  match o with Add k v => add k v h | AddAll l => add_all l h | Remove k => remove k h | Clear => clear h end.
Definition run (ops : list op) : t := foldl step (clear []) ops.

(** What a map of lists does: a value of a set-cookie key comes after the others
    of its key, every other value replaces them; the case of keys is ignored. *)
Definition put (k : bytes) (l : list bytes) (e : bytes * bytes) : list bytes :=
  if decide (toLowers e.1 = toLowers k) then if decide (single k) then [e.2] else l ++ [e.2] else l.
Definition spec_step (k : bytes) (l : list bytes) (o : op) : list bytes :=
  match o with
  | Add k' v => put k l (k', v)
  | AddAll h => foldl (put k) l h
  | Remove k' => if decide (toLowers k' = toLowers k) then [] else l
  | Clear => []
  end.
Definition spec_values (k : bytes) (ops : list op) : list bytes := foldl (spec_step k) [] ops.

(** The values of a key, in the order of the multimap. *)
Definition values (k : bytes) (h : t) : list bytes := (filter (fun e => e.1 = toLowers k) h).*2.

Lemma values_cons k e h : values k (e :: h) = (if decide (e.1 = toLowers k) then [e.2] else []) ++ values k h.
Proof. unfold values. rewrite filter_cons. by destruct (decide _). Qed.

Lemma get_values k h : get k h = head (values k h).
Proof. unfold get. induction h as [|[k' v] h IH]; [done|]. rewrite values_cons. simpl. by destruct (decide _). Qed.

Lemma values_nil k h : find_key (toLowers k) h = None -> values k h = [].
Proof. change (get k h = None -> values k h = []). rewrite get_values. by destruct (values k h). Qed.

Lemma values_emplace k v h : StronglySorted key_le h -> values k (emplace (toLowers k) v h) = values k h ++ [v].
Proof.
  induction 1 as [|[k' v'] h Hs IH Hall]; cbn [emplace]; [by rewrite values_cons, decide_True|].
  destruct (bytes_ltb (toLowers k) k') eqn:E; [|rewrite !values_cons, IH; by rewrite app_assoc].
  assert (values k ((k', v') :: h) = []) as Hn.
  { apply values_nil, find_key_None. rewrite fmap_cons. apply not_elem_of_cons. split; [cbn [fst]; intros Hf; rewrite <- Hf, bytes_ltb_irrefl in E; done|].
    intros Hin. apply list_elem_of_fmap in Hin as (e & He & Hin). rewrite Forall_forall in Hall. specialize (Hall _ Hin).
    unfold key_le in Hall. simpl in Hall. rewrite <- He in Hall. congruence. }
  rewrite values_cons, decide_True by done. by rewrite Hn.
Qed.

Lemma values_emplace_ne k k' v h : k' <> toLowers k -> values k (emplace k' v h) = values k h.
Proof.
  intros Hk. induction h as [|[k1 v1] h IH]; cbn [emplace]; [by rewrite values_cons, decide_False|].
  destruct (bytes_ltb k' k1); rewrite !values_cons; [by rewrite decide_False|]. by rewrite IH.
Qed.

Lemma values_set_first_ne k k' v h : k' <> toLowers k -> values k (set_first k' v h) = values k h.
Proof.
  intros Hk. induction h as [|[k1 v1] h IH]; cbn [set_first]; [done|].
  destruct (decide (k1 = k')) as [->|]; rewrite !values_cons; [by rewrite !decide_False|]. by rewrite IH.
Qed.

(** A key that is not a set-cookie occurs once. *)
Lemma values_set_first k v h :
  single k -> NoDup (filter single h.*1) -> is_Some (find_key (toLowers k) h) -> values k (set_first (toLowers k) v h) = [v].
Proof.
  intros Hk. induction h as [|[k' v'] h IH]; [by intros _ [? ?]|]. cbn [set_first find_key]. rewrite fmap_cons, filter_cons. cbn [fst].
  destruct (decide (k' = toLowers k)) as [->|Hn]; rewrite values_cons; cbn [fst snd].
  - rewrite decide_True by (by apply single_lower). intros [Hni _]%NoDup_cons _. rewrite decide_True by done. cbn [app]. f_equal.
    apply values_nil, find_key_None. rewrite list_elem_of_filter in Hni. intros Hin. apply Hni. by split; [apply single_lower|].
  - rewrite (decide_False (P := k' = toLowers k)) by done. cbn [app]. intros Hd. apply IH. destruct (decide _); [|done]. by apply NoDup_cons in Hd as [_ Hd].
Qed.

Lemma values_add k e h : wf h -> values k (add0 e.1 e.2 h) = put k (values k h) e.
Proof.
  intros (Hs & _ & Hn). unfold put, add0. destruct (decide (toLowers e.1 = toLowers k)) as [He|He].
  - rewrite He. destruct (decide (single k)) as [Hk|Hk]; [pose proof Hk as Hs'|apply not_false_is_true in Hk as Hs'];
      unfold single in Hs'; rewrite Hs'; cbn [negb andb];
      [|by apply values_emplace].
    case_bool_decide as Hf; [by apply values_set_first|]. rewrite values_emplace by done.
    by rewrite values_nil by (by apply eq_None_not_Some).
  - destruct (_ && _); [by apply values_set_first_ne|by apply values_emplace_ne].
Qed.

Lemma values_add_all k l h : wf h -> values k (add_all l h) = foldl (put k) (values k h) l.
Proof.
  unfold add_all. revert h. induction l as [|e l IH]; intros h Hw; [done|]. cbn [foldl].
  rewrite IH by by apply add0_wf. by rewrite values_add.
Qed.

Lemma values_remove k k' h : values k (remove k' h) = if decide (toLowers k' = toLowers k) then [] else values k h.
Proof.
  destruct (decide (toLowers k' = toLowers k)) as [He|He].
  - apply values_nil. rewrite <- He. apply get_remove.
  - unfold remove. destruct (decide _); [|done]. unfold values. f_equal. rewrite list_filter_filter.
    apply list_filter_iff. intros x. split; [by intros [? ?]|]. intros ->. by split.
Qed.

Lemma step_spec k h o : wf h -> wf (step h o) /\ values k (step h o) = spec_step k (values k h) o.
Proof.
  intros Hw. destruct o as [k' v|l|k'|]; cbn [step spec_step].
  - split; [by apply add0_wf|]. by apply (values_add k (k', v)).
  - split; [by apply add_all_wf|by apply values_add_all].
  - split; [by apply remove_wf|apply values_remove].
  - split; [|done]. repeat split; constructor.
Qed.

Lemma run_spec k ops h : wf h -> wf (foldl step h ops) /\ values k (foldl step h ops) = foldl (spec_step k) (values k h) ops.
Proof.
  revert h. induction ops as [|o ops IH]; intros h Hw; [done|]. cbn [foldl].
  destruct (step_spec k h o Hw) as [Hw' <-]. by apply IH.
Qed.

(** C26: [HttpHeader] is a case-insensitive map with many values per set-cookie
    key.  After any sequence of [add] of a field or of a header, [remove] and
    [clear], in any order, its multimap is sorted, in lower case and has one
    entry per key other than set-cookie, and for every key the values in it are
    those of the sequence: for a key that does not begin with set-cookie the last
    one added since it was last removed, for one that does all of those, in
    order.  [get] returns the first of them, and [contain] says whether there is
    one; a removed key has none. *)
Theorem header_case_insensitive_map (ops : list op) (k : bytes) :
  wf (run ops) /\ values k (run ops) = spec_values k ops
  /\ get k (run ops) = head (spec_values k ops)
  /\ contain k (run ops) = bool_decide (spec_values k ops <> [])
  /\ (single k -> length (spec_values k ops) <= 1)
  /\ get k (run (ops ++ [Remove k])) = None.
Proof.
  destruct (run_spec k ops []) as [Hw Hv]; [repeat split; constructor|]. change (foldl step [] ops) with (run ops) in *.
  change (foldl (spec_step k) (values k []) ops) with (spec_values k ops) in Hv.
  assert (get k (run ops) = head (spec_values k ops)) as Hg by (by rewrite get_values, Hv).
  do 3 (split; [done|]). split; [|split].
  - unfold contain. change (find_key _ _) with (get k (run ops)). rewrite Hg. apply bool_decide_ext. destruct (spec_values k ops); [split; [by intros [? ?]|done]|split; [done|by eexists]].
  - intros Hk. rewrite <- Hv. destruct Hw as (_ & _ & Hn). revert Hn. clear Hv Hg. induction (run ops) as [|[k' v] h IH]; [simpl; lia|].
    rewrite values_cons, length_app, fmap_cons, filter_cons. cbn [fst]. destruct (decide (k' = toLowers k)) as [->|Hne].
    + rewrite decide_True by (by apply single_lower). intros [Hni _]%NoDup_cons. rewrite values_nil; [simpl; lia|].
      apply find_key_None. rewrite list_elem_of_filter in Hni. intros Hin. apply Hni. by split; [apply single_lower|].
    + intros Hd. apply IH. destruct (decide _); [|done]. by apply NoDup_cons in Hd as [_ Hd].
  - unfold run. rewrite foldl_app. apply get_remove.
Qed.

(** Printing a well-formed header into any byte queue and parsing what was
    written, up to the empty line, gives the header back and the number of bytes
    it took, whatever follows; and [parse] of any text at all returns, having
    read no more than the text. *)
Theorem header_roundtrip `{ByteQueueLaws Q} (h : t) (sender : Q) (rest text : bytes) :
  wf h -> Forall clean h -> bq_wf sender -> bq_contents sender = [] ->
  (exists sender', store h sender = Ok sender' /\ bq_contents sender' = toString h)
  /\ parse (toString h ++ CRLF ++ rest) [] = Ok (h, length (toString h) + 2)
  /\ (exists h' n, parse text h = Ok (h', n) /\ n <= length text /\ wf h').
Proof.
  intros Hwf Hc Hq Hnil. split; [|split].
  - destruct (store_append h sender Hq) as (q & -> & _ & E). exists q. rewrite E, Hnil. done.
  - unfold parse. rewrite parse_loop_toString; [done|done|done|].
    rewrite length_app. pose proof (length_toString h). lia.
  - destruct (parse_loop_total (S (length text)) text 0 h) as (h' & n & E & Hn & Hw); [lia|done|].
    exists h', n. done.
Qed.

Lemma header_roundtrip_witness :
  parse (bs "a: x" ++ CRLF ++ bs "b: y z" ++ CRLF ++ CRLF ++ bs "body") [] = Ok ([(bs "a", bs "x"); (bs "b", bs "y z")], 16).
Proof.
  refine (proj1 (proj2 (header_roundtrip [(bs "a", bs "x"); (bs "b", bs "y z")] (Buffer.new 8) (bs "body") [] _ _ _ _))).
  - split; [|split].
    + repeat constructor.
    + repeat constructor.
    + apply (bool_decide_unpack _). vm_compute. exact I.
  - repeat constructor; simpl; try (apply (bool_decide_unpack _); vm_compute; exact I).
  - apply (bool_decide_unpack _). vm_compute. exact I.
  - reflexivity.
Defined.
