(* ===== verification/HttpMultiPart.v ===== *)
(** * HttpMultiPart: the multipart/form-data parser

    Models [soc/http/include/HttpMultiPart.h] and [soc/http/src/HttpMultiPart.cc].
    [step] is one iteration of the parser's loop.  The comparisons with the
    boundary read the memory that follows the body: [after] is that memory. *)
From S2P Require Import Prelude CStr HttpMap.

Module HttpMultiPart.

Record Part := MakePart { part_name : bytes; file_name : bytes; file_type : bytes; data : bytes }.

Inductive State :=
  | start_body | start_boundary | end_boundary
  | start_content_disposition | end_content_disposition
  | start_content_type | end_content_type
  | start_content_data | end_content_data | end_body.

#[export] Instance State_eq_dec : EqDecision State.
Proof. solve_decision. Defined.
#[export] Instance Part_eq_dec : EqDecision Part.
Proof. solve_decision. Defined.

(** The object. *)
Record t := Make { bd_ : bytes; form_ : HttpMap.t bytes; files_ : HttpMap.t (list Part) }.

Definition new : t := Make [] ∅ ∅.
Definition setBoundary (boundary : bytes) (o : t) : t := Make boundary (form_ o) (files_ o).
Definition getBoundary (o : t) : bytes := bd_ o.
Definition getValue (name : bytes) (o : t) : option bytes := HttpMap.get name (form_ o).
Definition getFile (name : bytes) (index : nat) (o : t) : option Part :=
  if HttpMap.contain name (files_ o) then
    let files := default [] (HttpMap.get name (files_ o)) in
    if length files <=? index then None else files !! index
  else None.

(** The locals of [parse]. *)
Record locals := Locals {
  i : nat; name : bytes; filename : bytes; type : bytes; form_file_data : bytes;
  file_mark : bool; state : State }.

Definition start : locals := Locals 0 [] [] [] [] false start_body.

(** ** Reading *)

(** [::strncmp(mem, b, b.size()) == 0], which stops at a NUL and reads past the
    end of what is known of the memory as undefined; [eqc] compares characters. *)
Fixpoint strn_eq (eqc : ascii -> ascii -> bool) (mem b : bytes) {struct b} : result bool :=
  match b with
  | [] => Ok true
  | c :: b =>
      match mem with
      | [] => Err Undefined
      | d :: mem =>
          if eqc d c then if bool_decide (c = NUL) then Ok true else strn_eq eqc mem b
          else Ok false
      end
  end.
Definition strncmp_eq : bytes -> bytes -> result bool := strn_eq (fun a b => bool_decide (a = b)).
Definition strncasecmp_eq : bytes -> bytes -> result bool :=
  strn_eq (fun a b => bool_decide (tolower a = tolower b)).

(** [i + 1 < len && body[i] == a && body[i + 1] == b] *)
Definition two (s : bytes) (a b : ascii) : bool :=
  match s with x :: y :: _ => bool_decide (x = a) && bool_decide (y = b) | _ => false end.

(** ** The inner loops, on what is left of the body *)

(** Content-Disposition: the names between quotes.  Returns the bytes read and
    whether the end of the line was met. *)
Fixpoint disposition_loop (s : bytes) (n : nat) (start_name_filename is_name : bool) (name filename : bytes)
    : nat * bool * bytes * bytes :=
  match s with
  | [] => (n, false, name, filename)
  | c :: s1 =>
      let other :=
        if bool_decide (c = DQUOTE) then disposition_loop s1 (n + 1) false (negb is_name) name filename
        else if start_name_filename then
          if is_name then disposition_loop s1 (n + 1) start_name_filename is_name (name ++ [c]) filename
          else disposition_loop s1 (n + 1) start_name_filename is_name name (filename ++ [c])
        else disposition_loop s1 (n + 1) start_name_filename is_name name filename in
      match s1 with
      | d :: s2 =>
          if bool_decide (c = CR) && bool_decide (d = LF) then (n + 2, true, name, filename)
          else if bool_decide (c = "="%char) && bool_decide (d = DQUOTE) then
            disposition_loop s2 (n + 2) true is_name name filename
          else other
      | [] => other
      end
  end.

(** Content-Type: up to the end of the line. *)
Fixpoint type_loop (s : bytes) (n : nat) (type : bytes) : nat * bool * bytes :=
  match s with
  | [] => (n, false, type)
  | c :: s1 => if two s CR LF then (n + 2, true, type) else type_loop s1 (n + 1) (type ++ [c])
  end.

Definition buf_size : nat := 4096.

(** The content: copied through a buffer of [buf_size] bytes, of which [buffer]
    are the [k] in use, until CR LF "--" boundary.  [n] is [i - pi]. *)
Fixpoint data_loop (bd after : bytes) (s : bytes) (n : nat) (buffer form_file_data : bytes)
    : result (nat * bool * bytes) :=
  match s with
  | [] => Ok (n, false, form_file_data)
  | c :: s1 =>
      let* stop :=
        (if (4 <? length s) && two s CR LF && two (drop 2 s) "-" "-"
         then strncmp_eq (drop 4 s ++ after) bd else Ok false) in
      if stop then
        let form_file_data := if bool_decide (length buffer = 0) then form_file_data else form_file_data ++ buffer in
        Ok (n + 2, true, resize n NUL form_file_data)
      else
        let buffer := buffer ++ [c] in
        if buf_size <=? length buffer then data_loop bd after s1 (n + 1) [] (form_file_data ++ buffer)
        else data_loop bd after s1 (n + 1) buffer form_file_data
  end.

(** ** One iteration *)
Definition goto (st : State) (n : nat) (l : locals) : locals :=
  Locals (i l + n) (name l) (filename l) (type l) (form_file_data l) (file_mark l) st.
Definition set_mark (b : bool) (l : locals) : locals :=
  Locals (i l) (name l) (filename l) (type l) (form_file_data l) b (state l).

(** [end_content_data]: [files_.get(name)] is a copy, so what is appended to it
    does not reach the map. *)
Definition finish (o : t) (l : locals) : t :=
  if negb (file_mark l) then Make (bd_ o) (HttpMap.add (name l) (form_file_data l) (form_ o)) (files_ o)
  else
    match HttpMap.get (name l) (files_ o) with
    | Some x => let _ := x ++ [MakePart (name l) (filename l) (type l) (form_file_data l)] in o
    | None => Make (bd_ o) (form_ o)
        (HttpMap.add (name l) [MakePart (name l) (filename l) (type l) (form_file_data l)] (files_ o))
    end.

Definition step (body after : bytes) (o : t) (l : locals) : result (t * locals) :=
  let s := drop (i l) body in
  let bl := length (bd_ o) in
  match state l with
  | start_body =>
      if two s "-" "-" then Ok (o, goto start_boundary 2 l) else Ok (o, l)
  | start_boundary =>
      let* eq := strncmp_eq (s ++ after) (bd_ o) in
      if eq then
        let s := drop (i l + bl) body in
        if two s CR LF then Ok (o, goto end_boundary (bl + 2) l)
        else if two s "-" "-" then Ok (o, goto end_body (bl + 2) l)
        else Ok (o, goto start_boundary bl l)
      else Ok (o, l)
  | end_boundary =>
      let* eq := strncasecmp_eq (s ++ after) (bs "Content-Disposition") in
      if eq then Ok (o, goto start_content_disposition 19 l) else Ok (o, l)
  | start_content_disposition =>
      let '(n, fin, nm, fnm) := disposition_loop (drop (i l + 13) body) 13 false true (name l) (filename l) in
      Ok (o, Locals (i l + n) nm fnm (type l) (form_file_data l) (file_mark l)
               (if fin then end_content_disposition else start_content_disposition))
  | end_content_disposition =>
      if two s CR LF then Ok (o, set_mark false (goto start_content_data 2 l))
      else
        let* eq := strncasecmp_eq (s ++ after) (bs "Content-Type") in
        if eq then Ok (o, set_mark true (goto start_content_type 14 l)) else Ok (o, l)
  | start_content_type =>
      let '(n, fin, ty) := type_loop s 0 (type l) in
      Ok (o, Locals (i l + n) (name l) (filename l) ty (form_file_data l) (file_mark l)
               (if fin then end_content_type else start_content_type))
  | end_content_type =>
      if two s CR LF then Ok (o, goto start_content_data 2 l) else Ok (o, l)
  | start_content_data =>
      let* (n, fin, d) := data_loop (bd_ o) after s 0 [] (form_file_data l) in
      Ok (o, Locals (i l + n) (name l) (filename l) (type l) d (file_mark l)
               (if fin then end_content_data else start_content_data))
  | end_content_data =>
      Ok (finish o l, Locals (i l) [] [] [] [] false start_body)
  | end_body => Ok (o, goto end_body 2 l)
  end.

Fixpoint loop (fuel : nat) (body after : bytes) (o : t) (l : locals) : result t :=
  if i l <? length body then
    match fuel with
    | 0 => Err OutOfFuel
    | S fuel => let* (o, l) := step body after o l in loop fuel body after o l
    end
  else Ok o.

(** Enough iterations for every run that ends ([parse_complete] below). *)
Definition parse_fuel (body : bytes) : nat := 2 * length body + 2.
Definition parse (body after : bytes) (o : t) : result t := loop (parse_fuel body) body after o start.

(** ** A run that makes no progress makes none ever *)
Definition measure (body : bytes) (l : locals) : nat :=
  2 * (length body - i l) + (if decide (state l = end_content_data) then 1 else 0).

Lemma disposition_loop_ge s n b1 b2 nm fnm : n <= (disposition_loop s n b1 b2 nm fnm).1.1.1.
Proof.
  revert n b1 b2 nm fnm.
  cut (forall k s, length s <= k -> forall n b1 b2 nm fnm, n <= (disposition_loop s n b1 b2 nm fnm).1.1.1); [eauto|].
  clear s. induction k as [|k IH]; intros s Hs n b1 b2 nm fnm; (destruct s as [|c s1]; [done|]); simpl in Hs; [lia|].
  assert (forall b1 b2 nm fnm, n <= (disposition_loop s1 (n + 1) b1 b2 nm fnm).1.1.1) as H1
    by (intros; etrans; [|apply IH; lia]; lia).
  cbn [disposition_loop]. destruct s1 as [|d s2].
  - destruct (bool_decide _), b1, b2; apply H1.
  - destruct (_ && _); [simpl; lia|]. destruct (_ && _).
    + etrans; [|apply IH; simpl in Hs; lia]. lia.
    + destruct (bool_decide _), b1, b2; apply H1.
Qed.

Lemma type_loop_ge s n ty : n <= (type_loop s n ty).1.1 /\ (s <> [] -> n < (type_loop s n ty).1.1).
Proof.
  revert n ty. induction s as [|c s IH]; intros n ty; [done|]. cbn [type_loop].
  destruct (two _ _ _); [simpl; lia|]. destruct (IH (n + 1) (ty ++ [c])) as [H _]. lia.
Qed.

Lemma data_loop_ge bd after s n b d k fin d' :
  data_loop bd after s n b d = Ok (k, fin, d') -> n <= k /\ (s <> [] -> n < k).
Proof.
  revert n b d. induction s as [|c s IH]; intros n b d; cbn [data_loop]; [intros [= <- _ _]; done|].
  intros H. inv_result H. destruct a; [injection H as <- _ _; lia|].
  destruct (buf_size <=? _); apply IH in H; lia.
Qed.

(** Every iteration that changes anything decreases the measure, except that a
    boundary may be empty. *)
Lemma step_progress body after o l o' l' :
  i l < length body -> step body after o l = Ok (o', l') ->
  (o', l') = (o, l) \/ measure body l' < measure body l.
Proof.
  intros Hi. assert (drop (i l) body <> []) as Hne.
  { intros E. apply (f_equal length) in E. rewrite length_drop in E. simpl in E. lia. }
  destruct l as [il nm fnm ty fd mk st]. unfold step, measure, goto, set_mark. simpl in *.
  destruct st; simpl; intros H.
  - destruct (two _ _ _); injection H as <- <-; [right; simpl; lia|by left].
  - inv_result H. destruct a; [|injection H as <- <-; by left].
    repeat (destruct (two _ _ _)); injection H as <- <-; simpl; try (right; lia).
    destruct (bd_ o); [left; simpl; by rewrite Nat.add_0_r|right; simpl; lia].
  - inv_result H. destruct a; injection H as <- <-; [right; simpl; lia|by left].
  - pose proof (disposition_loop_ge (drop (il + 13) body) 13 false true nm fnm) as Hge.
    destruct (disposition_loop _ _ _ _ _ _) as [[[n fin] nm'] fnm']. simpl in Hge.
    injection H as <- <-. right. destruct fin; simpl; lia.
  - destruct (two _ _ _); [injection H as <- <-; right; simpl; lia|].
    inv_result H. destruct a; injection H as <- <-; [right; simpl; lia|by left].
  - destruct (type_loop_ge (drop il body) 0 ty) as [_ Hlt]. specialize (Hlt Hne).
    destruct (type_loop _ _ _) as [[n fin] ty']. injection H as <- <-. simpl in Hlt. right. destruct fin; simpl; lia.
  - destruct (two _ _ _); injection H as <- <-; [right; simpl; lia|by left].
  - inv_result H. destruct a as [[n fin] d]. apply data_loop_ge in E as [_ Hlt]. specialize (Hlt Hne).
    injection H as <- <-. right. destruct fin; simpl; lia.
  - injection H as <- <-. right. simpl. lia.
  - injection H as <- <-. right. simpl. lia.
Qed.

Lemma loop_stuck body after o l :
  i l < length body -> step body after o l = Ok (o, l) -> forall fuel, loop fuel body after o l = Err OutOfFuel.
Proof.
  intros Hi Hs. apply Nat.ltb_lt in Hi. induction fuel as [|fuel IH]; simpl; rewrite Hi; [done|].
  by rewrite Hs.
Qed.

Lemma loop_complete fuel body after o l :
  measure body l < fuel ->
  loop fuel body after o l = Err OutOfFuel -> forall fuel', loop fuel' body after o l = Err OutOfFuel.
Proof.
  revert o l. induction fuel as [|fuel IH]; intros o l Hm; [lia|]. cbn [loop].
  destruct (i l <? length body) eqn:Hi; [|done].
  destruct (step body after o l) as [[o' l']|e] eqn:Hs.
  - apply Nat.ltb_lt in Hi. intros H fuel'.
    destruct (step_progress _ _ _ _ _ _ Hi Hs) as [[= -> ->]|Hlt]; [by apply loop_stuck|].
    apply Nat.ltb_lt in Hi. destruct fuel'; cbn [loop]; rewrite Hi; [done|]. rewrite Hs. apply IH; [lia|done].
  - intros [= ->]. intros [|fuel']; cbn [loop]; rewrite Hi; [done|]. by rewrite Hs.
Qed.

(** If [parse] runs out of its iterations, no number of them is enough. *)
Lemma parse_complete body after o :
  parse body after o = Err OutOfFuel -> forall fuel, loop fuel body after o start = Err OutOfFuel.
Proof. apply loop_complete. unfold measure, parse_fuel. simpl. lia. Qed.

Lemma step_not_OutOfFuel body after o l : step body after o l <> Err OutOfFuel.
Proof.
  assert (forall eqc m b, strn_eq eqc m b <> Err OutOfFuel) as Hs.
  { intros eqc m b. revert m. induction b as [|c b IH]; intros [|d m]; simpl; try done.
    destruct (eqc d c); [|done]. by case_bool_decide. }
  assert (forall bd s n b d, data_loop bd after s n b d <> Err OutOfFuel) as Hd.
  { intros bd s. induction s as [|c s IH]; intros n b d; cbn [data_loop]; [done|].
    match goal with |- context[if ?g then strncmp_eq ?m ?b else _] =>
      destruct g; [pose proof (Hs (fun a b => bool_decide (a = b)) m b) as Hm; fold strncmp_eq in Hm; destruct (strncmp_eq m b) as [[]|]|] end;
    try done; try congruence; (destruct (buf_size <=? _)); apply IH. }
  unfold step. destruct (state l); try done.
  - by destruct (two _ _ _).
  - pose proof (Hs (fun a b => bool_decide (a = b)) (drop (i l) body ++ after) (bd_ o)) as H. fold strncmp_eq in H.
    destruct (strncmp_eq _ _) as [[]|]; [|done|congruence]. by repeat destruct (two _ _ _).
  - pose proof (Hs (fun a b => bool_decide (tolower a = tolower b)) (drop (i l) body ++ after) (bs "Content-Disposition")) as H.
    fold strncasecmp_eq in H. destruct (strncasecmp_eq _ _) as [[]|]; congruence.
  - by destruct (disposition_loop _ _ _ _ _ _) as [[[]]].
  - destruct (two _ _ _); [done|].
    pose proof (Hs (fun a b => bool_decide (tolower a = tolower b)) (drop (i l) body ++ after) (bs "Content-Type")) as H.
    fold strncasecmp_eq in H. destruct (strncasecmp_eq _ _) as [[]|]; congruence.
  - by destruct (type_loop _ _ _) as [[]].
  - by destruct (two _ _ _).
  - pose proof (Hd (bd_ o) (drop (i l) body) 0 [] (form_file_data l)) as H.
    destruct (data_loop _ _ _ _ _ _) as [[[]]|]; congruence.
Qed.

(** ** Terminating runs, without fuel *)
Inductive runs (body after : bytes) : t -> locals -> t -> Prop :=
  | run_done o l : length body <= i l -> runs body after o l o
  | run_step o l o1 l1 o' :
      i l < length body -> step body after o l = Ok (o1, l1) ->
      runs body after o1 l1 o' -> runs body after o l o'.

Lemma runs_loop body after o l o' : runs body after o l o' -> exists fuel, loop fuel body after o l = Ok o'.
Proof.
  induction 1 as [o l H|o l o1 l1 o' Hi Hs _ [fuel IH]].
  - exists 0. simpl. by rewrite (proj2 (Nat.ltb_ge _ _) H).
  - exists (S fuel). cbn [loop]. apply Nat.ltb_lt in Hi. by rewrite Hi, Hs.
Qed.

Lemma loop_det f1 f2 body after o l r :
  loop f1 body after o l = Ok r -> loop f2 body after o l <> Err OutOfFuel -> loop f2 body after o l = Ok r.
Proof.
  revert f2 o l. induction f1 as [|f1 IH]; intros f2 o l; destruct f2 as [|f2]; cbn [loop];
    destruct (i l <? length body); try done.
  destruct (step body after o l) as [[o1 l1]|e]; [|done]. apply IH.
Qed.

Lemma runs_parse body after o o' : runs body after o start o' -> parse body after o = Ok o'.
Proof.
  intros H. destruct (runs_loop _ _ _ _ _ H) as [f Hf]. apply (loop_det f); [done|].
  intros E. pose proof (parse_complete _ _ _ E f). congruence.
Qed.

(** ** What a client sends *)
Record item := Item { it_name : bytes; it_file : option (bytes * bytes); it_data : bytes }.

Definition quoted (s : bytes) : bytes := DQUOTE :: s ++ [DQUOTE].
Definition render_file (f : option (bytes * bytes)) : bytes :=
  match f with
  | None => CRLF
  | Some (fn, ty) => bs "; filename=" ++ quoted fn ++ CRLF ++ bs "Content-Type: " ++ ty ++ CRLF
  end.
Definition render_item (bd : bytes) (it : item) : bytes :=
  bs "--" ++ bd ++ CRLF ++ bs "Content-Disposition" ++ bs ": form-data; name=" ++ quoted (it_name it)
  ++ render_file (it_file it) ++ CRLF ++ it_data it ++ CRLF.
Definition render (bd : bytes) (items : list item) : bytes :=
  mjoin (render_item bd <$> items) ++ bs "--" ++ bd ++ bs "--" ++ CRLF.

(** What the parser makes of it: a form value replaces the previous one, a
    second file of one name is dropped. *)
Definition store_item (o : t) (it : item) : t :=
  match it_file it with
  | None => Make (bd_ o) (HttpMap.add (it_name it) (it_data it) (form_ o)) (files_ o)
  | Some (fn, ty) =>
      if HttpMap.contain (it_name it) (files_ o) then o
      else Make (bd_ o) (form_ o) (HttpMap.add (it_name it) [MakePart (it_name it) fn ty (it_data it)] (files_ o))
  end.

Definition delim (bd : bytes) : bytes := CRLF ++ bs "--" ++ bd.

Definition quote_ok (s : bytes) : Prop := DQUOTE ∉ s /\ CR ∉ s /\ last s <> Some "="%char.
Definition no_delim (bd d : bytes) : Prop :=
  Forall (fun j => starts_with (drop j (d ++ delim bd)) (delim bd) = false) (seq 0 (length d)).
Definition item_ok (bd : bytes) (it : item) : Prop :=
  quote_ok (it_name it) /\ no_delim bd (it_data it)
  /\ match it_file it with None => True | Some (fn, ty) => quote_ok fn /\ CR ∉ ty end.

#[export] Instance quote_ok_dec s : Decision (quote_ok s).
Proof. unfold quote_ok. apply _. Defined.
#[export] Instance item_ok_dec bd it : Decision (item_ok bd it).
Proof. unfold item_ok, no_delim. destruct (it_file it) as [[]|]; apply _. Defined.

(** ** The inner loops on rendered text *)
Lemma strncmp_starts mem b :
  NUL ∉ b -> length b <= length mem -> strncmp_eq mem b = Ok (starts_with mem b).
Proof.
  unfold strncmp_eq. revert mem. induction b as [|c b IH]; intros [|d mem] Hb Hl; simpl in *; try done; try lia.
  apply not_elem_of_cons in Hb as [Hc Hb]. destruct (decide (c = d)) as [->|Hd].
  - rewrite !(bool_decide_true (d = d)) by done. rewrite bool_decide_false by congruence. apply IH; [done|lia].
  - by rewrite !bool_decide_false by congruence.
Qed.

Lemma strncmp_refl b t : NUL ∉ b -> strncmp_eq (b ++ t) b = Ok true.
Proof. intros H. rewrite strncmp_starts, starts_with_app; [done..|]. rewrite length_app. lia. Qed.

Lemma strncasecmp_refl b t : NUL ∉ b -> strncasecmp_eq (b ++ t) b = Ok true.
Proof.
  unfold strncasecmp_eq. induction b as [|c b IH]; intros H; [done|].
  apply not_elem_of_cons in H as [Hc H]. cbn [app strn_eq].
  rewrite (bool_decide_true (tolower c = tolower c)), (bool_decide_false (c = NUL)) by congruence. by apply IH.
Qed.

Lemma disposition_skip p s n is_name nm fnm :
  DQUOTE ∉ p -> CR ∉ p -> "="%char ∉ p ->
  disposition_loop (p ++ s) n false is_name nm fnm = disposition_loop s (n + length p) false is_name nm fnm.
Proof.
  revert n. induction p as [|c p IH]; intros n H1 H2 H3; simpl; [by rewrite Nat.add_0_r|].
  apply not_elem_of_cons in H1 as [Hq H1], H2 as [Hr H2], H3 as [He H3].
  rewrite (bool_decide_false (c = DQUOTE)) by congruence.
  rewrite (bool_decide_false (c = CR)), (bool_decide_false (c = "="%char)) by congruence. simpl.
  replace (n + S (length p)) with (n + 1 + length p) by lia. rewrite <- IH by done. by destruct (p ++ s).
Qed.

(** A quoted string, after its [=]: appended to the name or to the file name. *)
Lemma disposition_chars p s n is_name nm fnm :
  quote_ok p ->
  disposition_loop (p ++ DQUOTE :: s) n true is_name nm fnm
  = disposition_loop (DQUOTE :: s) (n + length p) true is_name
      (if is_name then nm ++ p else nm) (if is_name then fnm else fnm ++ p).
Proof.
  revert n nm fnm. induction p as [|c p IH]; intros n nm fnm (H1 & H2 & H3).
  { rewrite Nat.add_0_r, !app_nil_r. by destruct is_name. }
  apply not_elem_of_cons in H1 as [Hq H1], H2 as [Hr H2].
  assert (quote_ok p) as Hp.
  { split; [done|]. split; [done|]. destruct p; [done|]. exact H3. }
  assert (disposition_loop ((c :: p) ++ DQUOTE :: s) n true is_name nm fnm
    = disposition_loop (p ++ DQUOTE :: s) (n + 1) true is_name
        (if is_name then nm ++ [c] else nm) (if is_name then fnm else fnm ++ [c])) as ->.
  { cbn [app disposition_loop].
    rewrite (bool_decide_false (c = CR)), (bool_decide_false (c = DQUOTE)) by congruence.
    destruct p as [|d p]; cbn [app andb].
    - rewrite (bool_decide_false (c = "="%char)) by (intros ->; done). by destruct is_name.
    - rewrite (bool_decide_false (d = DQUOTE)) by set_solver. rewrite andb_false_r. by destruct is_name. }
  rewrite IH by done. cbn [length]. replace (n + S (length p)) with (n + 1 + length p) by lia.
  destruct is_name; by rewrite <- app_assoc.
Qed.

Lemma disposition_quoted p s n is_name nm fnm :
  quote_ok p ->
  disposition_loop ("="%char :: quoted p ++ s) n false is_name nm fnm
  = disposition_loop s (n + length p + 3) false (negb is_name)
      (if is_name then nm ++ p else nm) (if is_name then fnm else fnm ++ p).
Proof.
  intros Hp. unfold quoted. cbn [app].
  transitivity (disposition_loop (p ++ DQUOTE :: s) (n + 2) true is_name nm fnm).
  { rewrite <- app_assoc. cbn [app disposition_loop]. done. }
  rewrite disposition_chars by done. cbn [disposition_loop].
  replace (n + length p + 3) with (n + 2 + length p + 1) by lia. by destruct s.
Qed.

Lemma type_loop_line p s n ty :
  CR ∉ p -> type_loop (p ++ CRLF ++ s) n ty = (n + length p + 2, true, ty ++ p).
Proof.
  revert n ty. induction p as [|c p IH]; intros n ty H.
  - simpl. by rewrite app_nil_r, Nat.add_0_r.
  - apply not_elem_of_cons in H as [Hc H]. cbn [app type_loop].
    replace (two (c :: p ++ CRLF ++ s) CR LF) with false.
    + rewrite IH by done. rewrite <- app_assoc. simpl. do 2 f_equal. lia.
    + unfold two. rewrite (bool_decide_false (c = CR)) by congruence. by destruct (p ++ CRLF ++ s).
Qed.

Lemma no_delim_cons bd c d : no_delim bd (c :: d) -> starts_with ((c :: d) ++ delim bd) (delim bd) = false /\ no_delim bd d.
Proof.
  unfold no_delim. simpl. intros H. apply Forall_cons in H as [H0 H]. split; [done|].
  rewrite <- fmap_S_seq, Forall_fmap in H. exact H.
Qed.

Lemma two_two s t : two s CR LF && two (drop 2 s) "-" "-" = starts_with s (CRLF ++ bs "--")
  /\ (starts_with s (CRLF ++ bs "--") = true -> starts_with s (CRLF ++ bs "--" ++ t) = starts_with (drop 4 s) t).
Proof.
  destruct s as [|a [|b [|c [|d s]]]]; simpl; repeat case_bool_decide; subst; try done; by rewrite ?andb_false_r, ?andb_true_r.
Qed.

Lemma data_loop_delim bd after d X n buf ffd :
  NUL ∉ bd -> 0 < length X -> no_delim bd d -> length buf < buf_size ->
  data_loop bd after (d ++ delim bd ++ X) n buf ffd
  = Ok (n + length d + 2, true, resize (n + length d) NUL (ffd ++ buf ++ d)).
Proof.
  intros Hbd HX. revert n buf ffd. induction d as [|c d IH]; intros n buf ffd Hd Hb.
  - change ([] ++ delim bd ++ X) with (CR :: LF :: "-"%char :: "-"%char :: bd ++ X). cbn [data_loop].
    match goal with |- context[let* stop := ?e in _] => assert (e = Ok true) as -> end.
    { replace (4 <? _) with true by (symmetry; apply Nat.ltb_lt; simpl; rewrite length_app; lia).
      cbn [drop]. rewrite drop_0, <- app_assoc. by rewrite strncmp_refl. }
    cbn [length]. rewrite Nat.add_0_r, app_nil_r. case_bool_decide as Hz; [|done].
    by rewrite (nil_length_inv buf Hz), app_nil_r.
  - apply no_delim_cons in Hd as [H0 Hd]. cbn [app data_loop].
    match goal with |- context[let* stop := ?e in _] => assert (e = Ok false) as -> end.
    { set (s := c :: d ++ delim bd ++ X).
      assert (length s = S (length d + (4 + length bd + length X))) as Hs
        by (unfold s; cbn [length]; rewrite !length_app; done).
      destruct (4 <? length s); [|done].
      destruct (two_two s bd) as [E1 E2]. cbn [andb]. rewrite E1.
      destruct (starts_with s (CRLF ++ bs "--")) eqn:E; [|done].
      rewrite strncmp_starts; [|done|].
      - rewrite starts_with_longer.
        + rewrite <- E2 by done. change (CRLF ++ bs "--" ++ bd) with (delim bd).
          replace s with (((c :: d) ++ delim bd) ++ X) by (unfold s; simpl; by rewrite <- app_assoc).
          rewrite starts_with_longer by (rewrite length_app; lia). by rewrite H0.
        + rewrite length_drop. lia.
      - rewrite length_app, length_drop. lia. }
    destruct (Nat.leb_spec buf_size (length (buf ++ [c]))) as [Hle|Hlt].
    + rewrite IH; [|done|unfold buf_size; simpl; lia]. simpl. rewrite <- !app_assoc. simpl.
      by replace (n + 1 + length d) with (n + S (length d)) by lia.
    + rewrite IH by done. rewrite <- !app_assoc. simpl.
      by replace (n + 1 + length d) with (n + S (length d)) by lia.
Qed.

(** ** Running over one item *)
Lemma drop_next {A} (body p s : list A) k m :
  drop k body = p ++ s -> m = k + length p -> drop m body = s.
Proof. intros H ->. rewrite <- drop_drop, H. apply drop_app_length. Qed.

Lemma drop_lt {A} (body s : list A) k : drop k body = s -> s <> [] -> k < length body.
Proof.
  intros H Hs. destruct (Nat.lt_ge_cases k (length body)) as [|Hge]; [done|].
  rewrite drop_ge in H by done. congruence.
Qed.

(** Restates the position of the run in the goal. *)
Ltac reindex k := unfold goto, set_mark; cbn [i name filename type form_file_data file_mark state]; match goal with |- runs _ _ _ (Locals ?n _ _ _ _ _ _) _ => replace n with k by (cbn [bs length]; lia) end.

Section item.
Context (body after : bytes) (o o' : t).

Local Abbreviation run st := (fun k nm fnm ty d mk => runs body after o (Locals k nm fnm ty d mk st) o').

Lemma run_boundary k s (H : drop k body = bs "--" ++ bd_ o ++ CRLF ++ s) :
  NUL ∉ bd_ o ->
  run end_boundary (k + (2 + length (bd_ o) + 2)) [] [] [] [] false -> runs body after o (Locals k [] [] [] [] false start_body) o'.
Proof.
  intros Hb Hr. eapply run_step; [by eapply drop_lt|unfold step; simpl; rewrite H; reflexivity|].
  assert (drop (k + 2) body = bd_ o ++ CRLF ++ s) as H2 by (by eapply drop_next).
  eapply run_step; [eapply drop_lt; [exact H2|by destruct (bd_ o)]|unfold step; simpl; rewrite H2|].
  { rewrite <- app_assoc, strncmp_refl by done.
    rewrite (drop_next body (bd_ o) (CRLF ++ s) (k + 2)) by done. reflexivity. }
  reindex (k + (2 + length (bd_ o) + 2)). exact Hr.
Qed.

Lemma run_disposition_header k s (H : drop k body = bs "Content-Disposition" ++ s) :
  run start_content_disposition (k + 19) [] [] [] [] false -> run end_boundary k [] [] [] [] false.
Proof.
  intros Hr. eapply run_step; [by eapply drop_lt|unfold step; cbn [state i]; rewrite H|].
  { rewrite <- app_assoc, strncasecmp_refl by (apply (bool_decide_unpack _); vm_compute; exact I). reflexivity. }
  exact Hr.
Qed.

Lemma run_disposition_form k name s (H : drop k body = bs ": form-data; name=" ++ quoted name ++ CRLF ++ s) :
  quote_ok name ->
  run end_content_disposition (k + (20 + length name + 2)) name [] [] [] false ->
  run start_content_disposition k [] [] [] [] false.
Proof.
  intros Hn Hr. eapply run_step; [by eapply drop_lt|unfold step; cbn [state i HttpMultiPart.name filename]|].
  { rewrite (drop_next body (bs ": form-data; ") (bs "name" ++ "="%char :: quoted name ++ CRLF ++ s) k (k + 13) H eq_refl).
    rewrite disposition_skip by (apply (bool_decide_unpack _); vm_compute; exact I).
    rewrite disposition_quoted by done. reflexivity. }
  reindex (k + (20 + length name + 2)). exact Hr.
Qed.

Lemma run_disposition_file k name fn s
  (H : drop k body = bs ": form-data; name=" ++ quoted name ++ bs "; filename=" ++ quoted fn ++ CRLF ++ s) :
  quote_ok name -> quote_ok fn ->
  run end_content_disposition (k + (20 + length name + (13 + length fn) + 2)) name fn [] [] false ->
  run start_content_disposition k [] [] [] [] false.
Proof.
  intros Hn Hf Hr. eapply run_step; [by eapply drop_lt|unfold step; cbn [state i HttpMultiPart.name filename]|].
  { rewrite (drop_next body (bs ": form-data; ")
      (bs "name" ++ "="%char :: quoted name ++ bs "; filename" ++ "="%char :: quoted fn ++ CRLF ++ s) k (k + 13) H eq_refl).
    rewrite disposition_skip by (apply (bool_decide_unpack _); vm_compute; exact I).
    rewrite disposition_quoted by done.
    rewrite disposition_skip by (apply (bool_decide_unpack _); vm_compute; exact I).
    rewrite disposition_quoted by done. reflexivity. }
  reindex (k + (20 + length name + (13 + length fn) + 2)). exact Hr.
Qed.

Lemma run_no_type k nm fnm s (H : drop k body = CRLF ++ s) :
  run start_content_data (k + 2) nm fnm [] [] false -> run end_content_disposition k nm fnm [] [] false.
Proof.
  intros Hr. eapply run_step; [by eapply drop_lt|unfold step; simpl; rewrite H; reflexivity|]. exact Hr.
Qed.

Lemma run_type k nm fnm ty s (H : drop k body = bs "Content-Type: " ++ ty ++ CRLF ++ CRLF ++ s) :
  CR ∉ ty ->
  run start_content_data (k + (14 + length ty + 2) + 2) nm fnm ty [] true -> run end_content_disposition k nm fnm [] [] false.
Proof.
  intros Ht Hr. eapply run_step; [by eapply drop_lt|unfold step; cbn [state i]; rewrite H|].
  { change (bs "Content-Type: " ++ ?x) with (bs "Content-Type" ++ bs ": " ++ x).
    rewrite <- app_assoc, strncasecmp_refl by (apply (bool_decide_unpack _); vm_compute; exact I).
    rewrite (proj2 (andb_false_iff _ _) (or_introl eq_refl)) || idtac. reflexivity. }
  assert (drop (k + 14) body = ty ++ CRLF ++ CRLF ++ s) as H1 by (eapply drop_next; [exact H|done]).
  eapply run_step; [eapply drop_lt; [exact H1|by destruct ty]|unfold step; cbn; rewrite H1, type_loop_line by done; reflexivity|].
  assert (drop (k + (14 + length ty + 2)) body = CRLF ++ s) as H2.
  { replace (k + (14 + length ty + 2)) with (k + 14 + length (ty ++ CRLF)) by (rewrite length_app; simpl; lia).
    eapply drop_next; [|done]. rewrite H1. by rewrite <- app_assoc. }
  reindex (k + (14 + length ty + 2)).
  eapply run_step; [by eapply drop_lt|unfold step; cbn [state i]; rewrite H2; reflexivity|]. exact Hr.
Qed.

Lemma run_data k nm fnm ty mk d X (H : drop k body = d ++ delim (bd_ o) ++ X) :
  NUL ∉ bd_ o -> 0 < length X -> no_delim (bd_ o) d ->
  runs body after (finish o (Locals 0 nm fnm ty d mk end_content_data)) (Locals (k + (length d + 2)) [] [] [] [] false start_body) o' ->
  run start_content_data k nm fnm ty [] mk.
Proof.
  intros Hb HX Hd Hr.
  eapply run_step; [eapply drop_lt; [exact H|by destruct d]|unfold step; cbn; rewrite H, data_loop_delim by (done || unfold buf_size; simpl; lia); reflexivity|].
  assert (drop (k + (length d + 2)) body = bs "--" ++ bd_ o ++ X) as H1.
  { eapply (drop_next _ (d ++ CRLF)); [rewrite H; unfold delim; by rewrite <- !app_assoc|rewrite length_app; done]. }
  cbn. rewrite resize_all.
  eapply run_step; [by eapply drop_lt|reflexivity|]. exact Hr.
Qed.

End item.

Lemma finish_store o it :
  finish o (match it_file it with
            | None => Locals 0 (it_name it) [] [] (it_data it) false end_content_data
            | Some (fn, ty) => Locals 0 (it_name it) fn ty (it_data it) true end_content_data end)
  = store_item o it.
Proof.
  unfold finish, store_item, HttpMap.contain, HttpMap.get. destruct (it_file it) as [[fn ty]|]; simpl; [|done].
  destruct (files_ o !! it_name it); [by rewrite bool_decide_true|by rewrite bool_decide_false by (by intros [? ?])].
Qed.

Lemma store_first o n fn ty d :
  files_ o !! n = None ->
  store_item o (Item n (Some (fn, ty)) d) = Make (bd_ o) (form_ o) (<[n := [MakePart n fn ty d]]> (files_ o)).
Proof.
  intros H. unfold store_item, HttpMap.contain. cbn [it_file it_name it_data].
  by rewrite H, bool_decide_false by (by intros [? ?]).
Qed.

Lemma store_again o n fn ty d ps :
  files_ o !! n = Some ps -> store_item o (Item n (Some (fn, ty)) d) = o.
Proof.
  intros H. unfold store_item, HttpMap.contain. cbn [it_file it_name it_data].
  by rewrite H, bool_decide_true by (by eexists).
Qed.

Lemma store_item_bd o it : bd_ (store_item o it) = bd_ o.
Proof. unfold store_item. destruct (it_file it) as [[]|]; [|done]. by destruct (HttpMap.contain _ _). Qed.

(** [at_after H p] proves [drop (k + n) body = s] from [H : drop k body = p ++ s]. *)
Ltac assoc_refl :=
  unfold render_file, quoted, delim, CRLF; cbn [app bs];
  repeat (rewrite <- app_assoc; cbn [app]); reflexivity.
Ltac lengths := unfold render_file, quoted, delim; repeat (rewrite ?length_app; cbn [length bs app CRLF]); lia.
Ltac at_after H p := eapply (drop_next _ p); [rewrite H; assoc_refl|lengths].

(** From the start of a rendered item to the start of what follows it. *)
Lemma run_item body after o o' it k X :
  drop k body = render_item (bd_ o) it ++ bs "--" ++ bd_ o ++ X ->
  NUL ∉ bd_ o -> 0 < length X -> item_ok (bd_ o) it ->
  runs body after (store_item o it) (Locals (k + length (render_item (bd_ o) it)) [] [] [] [] false start_body) o' ->
  runs body after o (Locals k [] [] [] [] false start_body) o'.
Proof.
  intros H Hb HX (Hn & Hd & Hf) Hr. rewrite <- finish_store in Hr. destruct it as [nm f d].
  unfold render_item in H, Hr. cbn [it_name it_file it_data] in *.
  set (tl := render_file f ++ CRLF ++ d ++ delim (bd_ o) ++ X).
  assert (drop (k + (2 + length (bd_ o) + 2)) body
    = bs "Content-Disposition" ++ bs ": form-data; name=" ++ quoted nm ++ tl) as H1
    by (unfold tl; at_after H (bs "--" ++ bd_ o ++ CRLF)).
  assert (drop (k + (2 + length (bd_ o) + 2) + 19) body = bs ": form-data; name=" ++ quoted nm ++ tl) as H2
    by at_after H1 (bs "Content-Disposition").
  eapply (run_boundary _ _ _ _ _ (bs "Content-Disposition" ++ bs ": form-data; name=" ++ quoted nm ++ tl));
    [rewrite H; unfold tl; assoc_refl|done|].
  eapply run_disposition_header; [exact H1|].
  set (k2 := k + (2 + length (bd_ o) + 2) + 19) in *. unfold tl in H2. clear tl H1.
  destruct f as [[fn ty]|].
  - destruct Hf as [Hfn Hty].
    eapply (run_disposition_file _ _ _ _ _ nm fn (bs "Content-Type: " ++ ty ++ CRLF ++ CRLF ++ d ++ delim (bd_ o) ++ X));
      [rewrite H2; assoc_refl|done|done|].
    eapply (run_type _ _ _ _ _ _ _ ty (d ++ delim (bd_ o) ++ X));
      [at_after H2 (bs ": form-data; name=" ++ quoted nm ++ bs "; filename=" ++ quoted fn ++ CRLF)|done|].
    eapply (run_data _ _ _ _ _ _ _ _ _ d X); [|done|done|done|].
    + at_after H2 (bs ": form-data; name=" ++ quoted nm ++ render_file (Some (fn, ty)) ++ CRLF).
    + match type of Hr with runs _ _ _ (Locals ?n _ _ _ _ _ _) _ => match goal with |- runs _ _ _ (Locals ?m _ _ _ _ _ _) _ =>
        replace m with n by (unfold k2; lengths) end end. exact Hr.
  - eapply (run_disposition_form _ _ _ _ _ nm (CRLF ++ d ++ delim (bd_ o) ++ X));
      [rewrite H2; assoc_refl|done|].
    eapply (run_no_type _ _ _ _ _ _ _ (d ++ delim (bd_ o) ++ X));
      [at_after H2 (bs ": form-data; name=" ++ quoted nm ++ CRLF)|].
    eapply (run_data _ _ _ _ _ _ _ _ _ d X); [|done|done|done|].
    + at_after H2 (bs ": form-data; name=" ++ quoted nm ++ CRLF ++ CRLF).
    + match type of Hr with runs _ _ _ (Locals ?n _ _ _ _ _ _) _ => match goal with |- runs _ _ _ (Locals ?m _ _ _ _ _ _) _ =>
        replace m with n by (unfold k2; lengths) end end. exact Hr.
Qed.

Lemma run_items body after o items k :
  drop k body = render (bd_ o) items -> NUL ∉ bd_ o -> Forall (item_ok (bd_ o)) items ->
  runs body after o (Locals k [] [] [] [] false start_body) (foldl store_item o items).
Proof.
  revert o k. induction items as [|it items IH]; intros o k H Hb Hok.
  - unfold render in H. cbn [fmap list_fmap mjoin list_join app] in H.
    eapply run_step; [by eapply drop_lt|unfold step; cbn [state i]; rewrite H; reflexivity|].
    assert (drop (k + 2) body = bd_ o ++ bs "--" ++ CRLF) as H2 by at_after H (bs "--").
    eapply run_step; [eapply drop_lt; [exact H2|by destruct (bd_ o)]|unfold step; cbn [state i goto]; rewrite H2|].
    { rewrite <- app_assoc, strncmp_refl by done.
      rewrite (drop_next body (bd_ o) (bs "--" ++ CRLF) (k + 2)) by done. reflexivity. }
    assert (drop (k + 2 + (length (bd_ o) + 2)) body = CRLF) as H3 by at_after H2 (bd_ o ++ bs "--").
    eapply run_step; [eapply drop_lt; [exact H3|done]|reflexivity|].
    apply run_done. apply (f_equal length) in H3. rewrite length_drop in H3. simpl in *. lia.
  - apply Forall_cons in Hok as [Hit Hok].
    assert (drop (k + length (render_item (bd_ o) it)) body = render (bd_ o) items) as H1
      by (eapply drop_next; [rewrite H; unfold render; rewrite fmap_cons; cbn [mjoin list_join]; by rewrite <- app_assoc|done]).
    assert (exists X, render (bd_ o) items = bs "--" ++ bd_ o ++ X /\ 0 < length X) as (X & HX & HXl).
    { unfold render. destruct items as [|it' items].
      { exists (bs "--" ++ CRLF). split; [done|]. simpl. lia. }
      rewrite fmap_cons. cbn [mjoin list_join]. unfold render_item. eexists.
      split; [rewrite <- !app_assoc; reflexivity|]. rewrite length_app. simpl. lia. }
    apply (run_item _ _ _ _ it k X); [|done..|].
    + rewrite H. unfold render. rewrite fmap_cons. cbn [mjoin list_join]. rewrite <- app_assoc.
      f_equal. exact HX.
    + cbn [foldl]. apply IH; by rewrite store_item_bd.
Qed.

End HttpMultiPart.
Import HttpMultiPart.

(** C19: Parsing what a client renders: for any boundary without a NUL and any
    list of form values and files whose names need no quoting, whose types have
    no CR and whose contents do not contain the delimiter, the parser returns,
    whatever memory follows the body, with every form value stored (the last of
    a name wins) and the first file of each name stored with its exact
    contents. *)
Theorem multipart_roundtrip (o : t) (items : list item) (after : bytes) :
  NUL ∉ bd_ o -> Forall (item_ok (bd_ o)) items ->
  parse (render (bd_ o) items) after o = Ok (foldl store_item o items).
Proof. intros Hb Hok. apply runs_parse. by apply run_items. Qed.

Definition demo_items : list item :=
  [Item (bs "user") None (bs "mike"); Item (bs "f") (Some (bs "a.txt", bs "text/plain")) (bs "x" ++ CRLF ++ bs "--y");
   Item (bs "f") (Some (bs "b.txt", bs "text/plain")) (bs "second")].
Definition demo_object : t := setBoundary (bs "AaB03x") new.

Lemma multipart_roundtrip_witness :
  parse (render (bs "AaB03x") demo_items) [] demo_object = Ok (foldl store_item demo_object demo_items).
Proof. apply (multipart_roundtrip demo_object demo_items []); apply (bool_decide_unpack _); vm_compute; exact I. Defined.

(** Two files under one name: the second is appended to the copy that
    [files_.get] returned and is lost. *)
Theorem second_file_is_lost (o : t) (n fn ty d fn' ty' d' : bytes) :
  getFile n 1 (store_item (store_item (Make (bd_ o) (form_ o) ∅) (Item n (Some (fn, ty)) d)) (Item n (Some (fn', ty')) d')) = None
  /\ getFile n 0 (store_item (store_item (Make (bd_ o) (form_ o) ∅) (Item n (Some (fn, ty)) d)) (Item n (Some (fn', ty')) d'))
     = Some (MakePart n fn ty d).
Proof.
  rewrite (store_first (Make (bd_ o) (form_ o) ∅)) by apply lookup_empty.
  rewrite (store_again _ _ _ _ _ [MakePart n fn ty d]) by apply lookup_insert_eq.
  unfold getFile, HttpMap.contain, HttpMap.get. cbn [files_].
  by rewrite lookup_insert_eq, bool_decide_true by (by eexists).
Qed.

(** C37: The parser of a multipart body either returns or never does: if it is
    not done after twice the length of the body plus two iterations then it
    makes no progress and loops for ever.  It does so on every body that does
    not begin with two dashes, though such a body passes the only check made
    before parsing, that it ends with the closing boundary. *)
Theorem multipart_returns_or_loops (body after : bytes) (o : t) :
  (parse body after o = Err OutOfFuel <-> forall fuel, loop fuel body after o start = Err OutOfFuel)
  /\ (body <> [] -> starts_with body (bs "--") = false -> forall fuel, loop fuel body after o start = Err OutOfFuel)
  /\ (let b := bs "x--" ++ bs "b" ++ bs "--" ++ CRLF in
      ends_with b (bs "--b--" ++ CRLF) = true /\ forall fuel, loop fuel b after (setBoundary (bs "b") o) start = Err OutOfFuel).
Proof.
  assert (forall body o, body <> [] -> starts_with body (bs "--") = false ->
    forall fuel, loop fuel body after o start = Err OutOfFuel) as Hstuck.
  { clear. intros body o Hne Hst. apply loop_stuck; [destruct body; simpl; [done|lia]|].
    unfold step, start. cbn [state i]. rewrite drop_0.
    replace (two body "-" "-") with false; [done|].
    destruct body as [|a [|b s]]; simpl in *; try done.
    repeat case_bool_decide; subst; done. }
  split; [|split; [by apply Hstuck|split; [by vm_compute|by apply Hstuck]]].
  split; [apply parse_complete|]. intros H. apply H.
Qed.
