(* ===== verification/HttpAuth.v ===== *)
(** * HttpAuth: the password store, Basic and Digest authentication

    Models [soc/http/include/HttpPassStore.h], [soc/http/include/HttpAuth.h] and
    the reader of [soc/utility/src/FileUtil.cc].  OpenSSL's MD5 is a parameter; the realm is the
    configured one. *)
From S2P Require Import Prelude CStr EncodeUtil HttpMap.
Import EncodeUtil.

(** A C string: what [strlen], [strcat] and [%s] see of the bytes at a pointer. *)
Fixpoint c_str (s : bytes) : bytes :=
  match s with
  | [] => []
  | c :: s => if bool_decide (c = NUL) then [] else c :: c_str s
  end.

Lemma c_str_no_NUL s : NUL ∉ c_str s.
Proof. induction s as [|c s IH]; simpl; [set_solver|]. case_bool_decide; set_solver. Qed.

Lemma c_str_id s : NUL ∉ s -> c_str s = s.
Proof.
  induction s as [|c s IH]; [done|]. intros H. apply not_elem_of_cons in H as [Hc H]. simpl.
  rewrite bool_decide_false by congruence. by rewrite IH.
Qed.

Lemma c_str_app (a b : bytes) : NUL ∉ a -> c_str (a ++ b) = a ++ c_str b.
Proof.
  induction a as [|c a IH]; [done|]. intros [Hc Ha]%not_elem_of_cons. cbn [app c_str].
  rewrite bool_decide_false by congruence. by rewrite IH.
Qed.

Module FileUtil.
(** An open stream: what is left to read, and the end-of-file flag. *)
Record t := Stream { rest : bytes; eof : bool }.

(** [fgets(s, n, fp)]: at most [n - 1] bytes, up to and with a line feed. *)
Fixpoint fgets (n : nat) (s : bytes) : bytes * bytes * bool :=
  match n, s with
  | 0, _ | 1, _ => ([], s, false)
  | S n, [] => ([], [], true)
  | S n, c :: s =>
      if bool_decide (c = LF) then ([c], s, false)
      else let '(l, r, e) := fgets n s in (c :: l, r, e)
  end.

(** The line is cut at the first line feed or NUL. *)
Fixpoint cut_line (s : bytes) : bytes :=
  match s with
  | [] => []
  | c :: s => if bool_decide (c = LF) || bool_decide (c = NUL) then [] else c :: cut_line s
  end.

Definition readLine (f : t) : option (bytes * t) :=
  if eof f then None
  else
    let '(l, r, e) := fgets 1024 (rest f) in
    if bool_decide (l = []) then None else Some (cut_line l, Stream r e).

(** The object: [fp_], null until a file was loaded; [contents] is the file that
    [fopen] finds. *)
Definition load (contents : option bytes) (fp : option t) : bool * option t :=
  match fp with Some _ => (false, fp) | None => (true, (fun c => Stream c false) <$> contents) end.
Definition new (contents : option bytes) : option t := (load contents None).2.
Definition isOpen (fp : option t) : bool := bool_decide (is_Some fp).

Lemma fgets_app n s : (fgets n s).1.1 ++ (fgets n s).1.2 = s.
Proof.
  revert s. induction n as [|n IH]; intros s; [done|]. destruct n as [|n]; [done|].
  destruct s as [|c s]; [done|].
  change (fgets (S (S n)) (c :: s))
    with (if bool_decide (c = LF) then ([c], s, false) else let '(l, r, e) := fgets (S n) s in (c :: l, r, e)).
  case_bool_decide; [done|]. specialize (IH s). destruct (fgets (S n) s) as [[l r] e]. simpl in *. by rewrite IH.
Qed.

Lemma readLine_shorter f l f' : readLine f = Some (l, f') -> length (rest f') < length (rest f).
Proof.
  unfold readLine. destruct (eof f); [done|]. pose proof (fgets_app 1024 (rest f)) as H.
  destruct (fgets 1024 (rest f)) as [[l1 r] e]. simpl in H.
  case_bool_decide as Hl; [done|]. intros [= _ <-]. simpl. rewrite <- H, length_app.
  destruct l1; [done|]. simpl. lia.
Qed.
End FileUtil.

Module HttpPassStore.

Record t := Make { user_pass_ : HttpMap.t bytes; realm_ : bytes }.

Definition fetch (user : bytes) (s : t) : option bytes := HttpMap.get user (user_pass_ s).
Definition getRealm (s : t) : bytes := realm_ s.

(** One line of the file: [user:hash]; [npos + 1] is 0, so a line without a
    colon is its own hash. *)
Definition add_line (line : bytes) (m : HttpMap.t bytes) : HttpMap.t bytes :=
  match find_char ":" line with
  | Some pos => HttpMap.add (take pos line) (drop (pos + 1) line) m
  | None => HttpMap.add line line m
  end.

Fixpoint load_loop (fuel : nat) (f : FileUtil.t) (m : HttpMap.t bytes) : result (HttpMap.t bytes) :=
  match fuel with
  | 0 => Err OutOfFuel
  | S fuel =>
      match FileUtil.readLine f with
      | Some (line, f) => load_loop fuel f (add_line line m)
      | None => Ok m
      end
  end.

(** The constructor; [file] is the contents of the file, if it opens. *)
Definition load (realm : bytes) (file : option bytes) : result t :=
  match FileUtil.new file with
  | None => Ok (Make HttpMap.new realm)
  | Some loader =>
      let* m := load_loop (S (length (FileUtil.rest loader))) loader HttpMap.new in Ok (Make m realm)
  end.

(** A file of [user:hash] lines. *)
Definition print_line (e : bytes * bytes) : bytes := e.1 ++ ":"%char :: e.2 ++ [LF].
Definition print_file (l : list (bytes * bytes)) : bytes := mjoin (print_line <$> l).

Definition entry_ok (e : bytes * bytes) : Prop :=
  ":"%char ∉ e.1 /\ NUL ∉ e.1 ++ e.2 /\ LF ∉ e.1 ++ e.2 /\ length e.1 + length e.2 + 2 < 1024.

Lemma fgets_line n l s :
  LF ∉ l -> length l + 1 < n -> FileUtil.fgets n (l ++ LF :: s) = (l ++ [LF], s, false).
Proof.
  revert n. induction l as [|c l IH]; intros n H Hn; (destruct n as [|[|n]]; [simpl in Hn; lia..|]); [done|].
  apply not_elem_of_cons in H as [Hc H]. simpl in Hn.
  change (FileUtil.fgets (S (S n)) ((c :: l) ++ LF :: s))
    with (if bool_decide (c = LF) then ([c], l ++ LF :: s, false)
          else let '(l, r, e) := FileUtil.fgets (S n) (l ++ LF :: s) in (c :: l, r, e)).
  rewrite bool_decide_false by congruence. rewrite IH by (done || lia). done.
Qed.

Lemma cut_line_LF l : LF ∉ l -> NUL ∉ l -> FileUtil.cut_line (l ++ [LF]) = l.
Proof.
  induction l as [|c l IH]; intros H1 H2; [done|].
  apply not_elem_of_cons in H1 as [? H1], H2 as [? H2]. simpl.
  rewrite !bool_decide_false by congruence. simpl. by rewrite IH.
Qed.

Lemma readLine_line e s :
  entry_ok e -> FileUtil.readLine (FileUtil.Stream (print_line e ++ s) false)
  = Some (e.1 ++ ":"%char :: e.2, FileUtil.Stream s false).
Proof.
  intros (H1 & H2 & H3 & H4). unfold FileUtil.readLine. cbn [FileUtil.eof FileUtil.rest].
  assert (LF ∉ e.1 ++ ":"%char :: e.2 /\ NUL ∉ e.1 ++ ":"%char :: e.2) as [HL HN].
  { rewrite elem_of_app in H2, H3. rewrite !elem_of_app, !elem_of_cons.
    split; (intros [?|[Hc|?]]; [tauto|discriminate Hc|tauto]). }
  replace (print_line e ++ s) with ((e.1 ++ ":"%char :: e.2) ++ LF :: s)
    by (unfold print_line; rewrite <- !app_assoc; simpl; by rewrite <- app_assoc).
  rewrite fgets_line by (done || rewrite length_app; simpl; lia).
  rewrite bool_decide_false by (destruct e.1; done). by rewrite cut_line_LF.
Qed.

Lemma load_loop_print fuel l m :
  Forall entry_ok l -> length l < fuel ->
  load_loop fuel (FileUtil.Stream (print_file l) false) m = Ok (foldl (fun m e => HttpMap.add e.1 e.2 m) m l).
Proof.
  revert fuel m. induction l as [|e l IH]; intros fuel m Hok Hf; (destruct fuel as [|fuel]; [simpl in Hf; lia|]); [done|].
  apply Forall_cons in Hok as [He Hok]. cbn [load_loop].
  change (print_file (e :: l)) with (print_line e ++ print_file l).
  rewrite readLine_line by done. unfold add_line. rewrite find_char_app by apply He.
  rewrite take_app_length, IH by (done || simpl in Hf; lia). cbn [foldl]. do 3 f_equal.
  replace (length e.1 + 1) with (length (e.1 ++ [":"%char])) by (rewrite length_app; done).
  replace (e.1 ++ ":"%char :: e.2) with ((e.1 ++ [":"%char]) ++ e.2) by (by rewrite <- app_assoc).
  apply drop_app_length.
Qed.

Lemma length_print_file l : length l <= length (print_file l).
Proof.
  induction l as [|e l IH]; [done|]. change (print_file (e :: l)) with (print_line e ++ print_file l).
  unfold print_line. rewrite !length_app. simpl. rewrite length_app. simpl. lia.
Qed.

Lemma load_loop_total fuel f m : length (FileUtil.rest f) < fuel -> is_Ok (load_loop fuel f m) = true.
Proof.
  revert f m. induction fuel as [|fuel IH]; intros f m H; [lia|]. cbn [load_loop].
  destruct (FileUtil.readLine f) as [[line f']|] eqn:E; [|done].
  apply FileUtil.readLine_shorter in E. apply IH. lia.
Qed.

End HttpPassStore.

(** ** Verification of credentials *)
Inductive HttpAuthType := Basic | Digest.

(** An [HttpAuth] object: [HttpBasicAuth] or [HttpDigestAuth]. *)
Inductive HttpAuth :=
  | HttpBasicAuth (user_ pass_ : bytes) (verify_successed_ : bool)
  | HttpDigestAuth (digest_info_ : bytes) (verify_successed_ : bool).

Definition verify (a : HttpAuth) : bool :=
  match a with HttpBasicAuth _ _ v | HttpDigestAuth _ v => v end.
Definition getAuthType (a : HttpAuth) : HttpAuthType :=
  match a with HttpBasicAuth _ _ _ => Basic | HttpDigestAuth _ _ => Digest end.

Section auth.
Context (MD5 : bytes -> bytes) (store : HttpPassStore.t).

Definition newBasicAuth (user pass : bytes) : result HttpAuth :=
  match HttpPassStore.fetch user store with
  | None => Ok (HttpBasicAuth user pass false)
  | Some x =>
      let hashv := user ++ bs ":" ++ HttpPassStore.getRealm store ++ bs ":" ++ pass in
      let* v := md5HashEqual MD5 hashv x in
      Ok (HttpBasicAuth user pass v)
  end.

(** [char buffer[128]] as the C string it holds; the terminating NUL counts. *)
Definition strcat (buffer src : bytes) : result bytes :=
  let b := buffer ++ c_str src in
  if 128 <=? length b then Err Undefined else Ok b.

Definition strcat_opt (buffer : bytes) (o : option bytes) : result bytes :=
  match o with
  | None => Ok buffer
  | Some v => let* b := strcat buffer (bs ":") in strcat b v
  end.

(** [md5HashEqual(buffer, response)] views both as C strings. *)
Definition newDigestAuth (digest_info : bytes) (da : HttpMap.t bytes) : result HttpAuth :=
  match HttpMap.get (bs "username") da with
  | None => Ok (HttpDigestAuth digest_info false)
  | Some username =>
      match HttpPassStore.fetch username store with
      | None => Ok (HttpDigestAuth digest_info false)
      | Some h1 =>
          let* meth := of_option BadOptionalAccess (HttpMap.get (bs "method") da) in
          let* uri := of_option BadOptionalAccess (HttpMap.get (bs "uri") da) in
          let h2 := md5Hash MD5 (take 127 (c_str meth ++ bs ":" ++ c_str uri)) in
          let* b := strcat [] h1 in
          let* b := strcat_opt b (HttpMap.get (bs "nonce") da) in
          let* b := strcat_opt b (HttpMap.get (bs "nc") da) in
          let* b := strcat_opt b (HttpMap.get (bs "cnonce") da) in
          let* b := strcat_opt b (HttpMap.get (bs "qop") da) in
          let* b := strcat b (bs ":") in
          let* b := strcat b h2 in
          let* response := of_option BadOptionalAccess (HttpMap.get (bs "response") da) in
          let* v := md5HashEqual MD5 b (c_str response) in
          Ok (HttpDigestAuth digest_info v)
      end
  end.

(** ** What the digest should be *)

Definition joined (o : option bytes) : bytes := match o with None => [] | Some v => ":"%char :: v end.

(** The request digest of RFC 2617, with the fields that are present. *)
Definition digest_input (da : HttpMap.t bytes) (h1 meth uri : bytes) : bytes :=
  h1 ++ joined (HttpMap.get (bs "nonce") da) ++ joined (HttpMap.get (bs "nc") da)
  ++ joined (HttpMap.get (bs "cnonce") da) ++ joined (HttpMap.get (bs "qop") da)
  ++ bs ":" ++ md5Hash MD5 (meth ++ bs ":" ++ uri).

(** A bounded append: what a chain of [strcat]s amounts to. *)
Definition cat (b v : bytes) : result bytes := if 128 <=? length (b ++ v) then Err Undefined else Ok (b ++ v).

Lemma cat_bind {A} b v w (k : bytes -> result A) :
  (let* b1 := cat b v in let* b2 := cat b1 w in k b2) = let* b2 := cat b (v ++ w) in k b2.
Proof.
  unfold cat. destruct (Nat.leb_spec 128 (length (b ++ v))) as [H|H].
  - rewrite (proj2 (Nat.leb_le _ _)); [done|]. rewrite !length_app in *. lia.
  - by rewrite <- app_assoc.
Qed.

Lemma strcat_cat b v : NUL ∉ v -> strcat b v = cat b v.
Proof. intros H. unfold strcat, cat. by rewrite c_str_id. Qed.

Lemma strcat_opt_cat b o :
  (forall v, o = Some v -> NUL ∉ v) -> length b < 128 -> strcat_opt b o = cat b (joined o).
Proof.
  intros Ho Hb. destruct o as [v|]; cbn [strcat_opt joined].
  - rewrite strcat_cat by (apply (bool_decide_unpack _); vm_compute; exact I).
    transitivity (let* b2 := cat b (bs ":" ++ v) in Ok b2); [|by destruct (cat b (bs ":" ++ v)) eqn:E; rewrite <- E].
    rewrite <- cat_bind. destruct (cat b (bs ":")) as [b1|]; [|done]. rewrite strcat_cat by by apply Ho.
    by destruct (cat b1 v).
  - unfold cat. rewrite app_nil_r. by rewrite (proj2 (Nat.leb_gt _ _) Hb).
Qed.

Lemma strcat_bind {A} b v w (k : bytes -> result A) :
  NUL ∉ w -> (let* b1 := cat b v in let* b2 := strcat b1 w in k b2) = let* b2 := cat b (v ++ w) in k b2.
Proof. intros H. rewrite <- cat_bind. destruct (cat b v); [|done]. by rewrite strcat_cat. Qed.

Lemma strcat_opt_bind {A} b v o (k : bytes -> result A) :
  (forall v, o = Some v -> NUL ∉ v) ->
  (let* b1 := cat b v in let* b2 := strcat_opt b1 o in k b2) = let* b2 := cat b (v ++ joined o) in k b2.
Proof.
  intros H. rewrite <- cat_bind. destruct (cat b v) eqn:E; [|done]. rewrite strcat_opt_cat; [done|done|].
  unfold cat in E. destruct (Nat.leb_spec 128 (length (b ++ v))); [done|]. by injection E as <-.
Qed.

Lemma md5Hash_no_NUL d : NUL ∉ md5Hash MD5 d.
Proof.
  unfold md5Hash. intros Hin. apply list_elem_of_join in Hin as (l & Hl & Hin).
  apply list_elem_of_fmap in Hin as (c & -> & _). revert Hl.
  assert (NUL ∉ hex_byte c) as H by (by_bytes c). exact H.
Qed.

End auth.

(** Loading a file of [user:hash] lines, each shorter than the 1024 byte
    line buffer, stores exactly its entries, the last of a user winning; and
    loading any file returns. *)
Theorem passStore_load (realm : bytes) (l : list (bytes * bytes)) (file : option bytes) :
  Forall HttpPassStore.entry_ok l ->
  HttpPassStore.load realm (Some (HttpPassStore.print_file l))
  = Ok (HttpPassStore.Make (foldl (fun m e => HttpMap.add e.1 e.2 m) HttpMap.new l) realm)
  /\ is_Ok (HttpPassStore.load realm file) = true.
Proof.
  intros Hok. split.
  - unfold HttpPassStore.load. cbn [FileUtil.new FileUtil.load snd fmap option_fmap option_map FileUtil.rest].
    rewrite HttpPassStore.load_loop_print; [done|done|].
    pose proof (HttpPassStore.length_print_file l). lia.
  - destruct file as [content|]; [|done]. unfold HttpPassStore.load. cbn [FileUtil.new FileUtil.load snd fmap option_fmap option_map FileUtil.rest].
    pose proof (HttpPassStore.load_loop_total (S (length content)) (FileUtil.Stream content false) HttpMap.new) as H.
    destruct (HttpPassStore.load_loop _ _ _); [done|]. by apply H; simpl; lia.
Qed.

Lemma passStore_load_witness :
  HttpPassStore.load (bs "r") (Some (HttpPassStore.print_file [(bs "a", bs "1"); (bs "b", bs "2")]))
  = Ok (HttpPassStore.Make (foldl (fun m e => HttpMap.add e.1 e.2 m) HttpMap.new
    [(bs "a", bs "1"); (bs "b", bs "2")]) (bs "r")).
Proof.
  refine (proj1 (passStore_load (bs "r") [(bs "a", bs "1"); (bs "b", bs "2")] None _)).
  repeat constructor; simpl; try lia; apply (bool_decide_unpack _); vm_compute; exact I.
Defined.

(** Basic authentication succeeds exactly when the stored hash starts with
    the hexadecimal MD5 of user:realm:password, and fails for an unknown user. *)
Theorem basicAuth_verifies (MD5 : bytes -> bytes) (store : HttpPassStore.t) (user pass h : bytes) :
  (forall d, length (MD5 d) = 16) -> HttpPassStore.fetch user store = Some h -> 31 <= length h ->
  (exists a, newBasicAuth MD5 store user pass = Ok a
    /\ verify a = starts_with h (md5Hash MD5 (user ++ bs ":" ++ HttpPassStore.getRealm store ++ bs ":" ++ pass)))
  /\ (forall user', HttpPassStore.fetch user' store = None ->
      exists a, newBasicAuth MD5 store user' pass = Ok a /\ verify a = false).
Proof.
  intros Hmd Hf Hl. split.
  - unfold newBasicAuth. rewrite Hf, md5HashEqual_spec by done.
    rewrite (proj2 (Nat.ltb_ge _ _)) by lia. by eexists.
  - intros user' Hn. unfold newBasicAuth. rewrite Hn. by eexists.
Qed.

Definition demo_md5 (d : bytes) : bytes := replicate 16 (chr (Z.of_nat (length d))).
Definition demo_store : HttpPassStore.t :=
  HttpPassStore.Make {[ bs "mike" := md5Hash demo_md5 (bs "mike:r:secret") ]} (bs "r").

Lemma basicAuth_verifies_witness :
  (exists a, newBasicAuth demo_md5 demo_store (bs "mike") (bs "secret") = Ok a /\ verify a = true).
Proof.
  destruct (proj1 (basicAuth_verifies demo_md5 demo_store (bs "mike") (bs "secret") (md5Hash demo_md5 (bs "mike:r:secret"))
    (fun d => length_replicate 16 _) ltac:(vm_compute; reflexivity) ltac:(vm_compute; lia))) as (a & E & V).
  exists a. split; [exact E|]. rewrite V. vm_compute. reflexivity.
Defined.

(** C33: Digest authentication, for a user that is stored, with fields that hold
    no NUL, a method and address that take at most 127 characters with the colon
    between them ([snprintf] cuts what is longer, and the digest is then another)
    and a response of at least 31 characters (with fewer the comparison reads past
    its end).  The response is then accepted exactly if it begins with the RFC 2617
    digest of the stored hash and the fields sent, as long as that text is below
    128 bytes, the size of the buffer it is assembled in; when it is not, the
    buffer overflows.  Only the first 32 characters are compared: what follows
    them in the response is ignored.  The fields are the client's: a 44 character
    cnonce is enough to overflow. *)
Theorem digestAuth_verifies (MD5 : bytes -> bytes) (store : HttpPassStore.t) (info : bytes) (da : HttpMap.t bytes)
    (user h1 meth uri response : bytes) :
  (forall d, length (MD5 d) = 16) ->
  HttpMap.get (bs "username") da = Some user -> HttpPassStore.fetch user store = Some h1 ->
  HttpMap.get (bs "method") da = Some meth -> HttpMap.get (bs "uri") da = Some uri ->
  HttpMap.get (bs "response") da = Some response ->
  (forall k v, HttpMap.get k da = Some v -> NUL ∉ v) -> NUL ∉ h1 ->
  length (meth ++ bs ":" ++ uri) <= 127 -> 31 <= length response ->
  (exists v, newDigestAuth MD5 store info da
   = (if 128 <=? length (digest_input MD5 da h1 meth uri) then Err Undefined else Ok (HttpDigestAuth info v))
   /\ v = starts_with response (md5Hash MD5 (digest_input MD5 da h1 meth uri))).
Proof.
  intros Hmd Hu Hf Hm Huri Hr Hnul Hh1 Hlen Hresp. eexists. split; [|reflexivity].
  unfold newDigestAuth. rewrite Hu, Hf, Hm, Huri. cbn [of_option].
  rewrite !c_str_id by (eapply Hnul; eassumption). rewrite take_ge by done.
  set (h2 := md5Hash MD5 (meth ++ bs ":" ++ uri)).
  unfold digest_input. fold h2.
  set (on := HttpMap.get (bs "nonce") da). set (oc := HttpMap.get (bs "nc") da).
  set (ocn := HttpMap.get (bs "cnonce") da). set (oq := HttpMap.get (bs "qop") da).
  rewrite strcat_cat by done.
  rewrite !strcat_opt_bind by (intros v; apply Hnul).
  rewrite !strcat_bind by (apply md5Hash_no_NUL || (apply (bool_decide_unpack _); vm_compute; exact I)).
  rewrite <- !app_assoc, Hr. cbn [of_option]. unfold cat. rewrite app_nil_l.
  destruct (128 <=? _); [done|]. rewrite md5HashEqual_spec by done.
  rewrite c_str_id by (eapply Hnul; eassumption). by rewrite (proj2 (Nat.ltb_ge _ _)) by lia.
Qed.

Definition demo_da (cnonce response : bytes) : HttpMap.t bytes :=
  {[ bs "username" := bs "mike"; bs "method" := bs "GET"; bs "uri" := bs "/"; bs "response" := response;
     bs "nonce" := replicate 24 "n"%char; bs "nc" := bs "00000001"; bs "qop" := bs "auth"; bs "cnonce" := cnonce ]}.

Lemma demo_da_no_NUL cnonce response k v :
  NUL ∉ cnonce -> NUL ∉ response -> HttpMap.get k (demo_da cnonce response) = Some v -> NUL ∉ v.
Proof.
  intros Hc Hr. unfold demo_da, HttpMap.get. rewrite !lookup_insert_Some, lookup_singleton_Some.
  intros H. repeat destruct H as [[_ <-]|[_ H]]; try destruct H as [_ <-]; try done;
    apply (bool_decide_unpack _); vm_compute; exact I.
Qed.

(** With a 16 character cnonce the text fits; with 44 characters it does not. *)
Lemma digestAuth_verifies_witness :
  (let da := demo_da (replicate 16 "c"%char) (replicate 32 "0"%char) in
   exists v, newDigestAuth demo_md5 demo_store [] da = Ok (HttpDigestAuth [] v))
  /\ newDigestAuth demo_md5 demo_store [] (demo_da (replicate 44 "c"%char) (replicate 32 "0"%char)) = Err Undefined.
Proof.
  assert (forall n, NUL ∉ replicate n "c"%char) as Hc
    by (intros n H; apply elem_of_replicate in H as [H _]; discriminate H).
  split.
  - destruct (digestAuth_verifies demo_md5 demo_store [] (demo_da (replicate 16 "c"%char) (replicate 32 "0"%char))
      (bs "mike") (md5Hash demo_md5 (bs "mike:r:secret")) (bs "GET") (bs "/") (replicate 32 "0"%char)) as (v & E & _);
      try reflexivity; try (vm_compute; lia).
    + intros k v. apply demo_da_no_NUL; [apply Hc|apply (bool_decide_unpack _); vm_compute; exact I].
    + apply md5Hash_no_NUL.
    + exists v. rewrite E. reflexivity.
  - destruct (digestAuth_verifies demo_md5 demo_store [] (demo_da (replicate 44 "c"%char) (replicate 32 "0"%char))
      (bs "mike") (md5Hash demo_md5 (bs "mike:r:secret")) (bs "GET") (bs "/") (replicate 32 "0"%char)) as (v & E & _);
      try reflexivity; try (vm_compute; lia).
    + intros k v. apply demo_da_no_NUL; [apply Hc|apply (bool_decide_unpack _); vm_compute; exact I].
    + apply md5Hash_no_NUL.
Defined.
