(* ===== verification/Logger.v ===== *)
(** * Logger: lines of diagnostics

    Models [soc/utility/include/Logger.h].  What [snprintf] makes of the format
    and its arguments is the argument [msg]; the time is a parameter, as
    [strftime] prints it.  No other file of the repository logs. *)
From S2P Require Import Prelude CStr HttpMap HttpAuth.

Module Logger.

(** Levels, colours and styles, as the macros choose them. *)
Inductive level := LV_INFO | LV_WARN | LV_DEBUG | LV_ERROR.
Definition F_None : Z := 0.
Definition F_Red : Z := 31.
Definition F_Green : Z := 32.
Definition F_Orange : Z := 33.
Definition C_None : Z := 0.
Definition C_Highlight : Z := 1.

Definition kMaxLineBuffer : nat := 512.
Definition ESC : ascii := "027"%char.

Definition level_text (lv : level) : bytes :=
  match lv with LV_INFO => bs "INFO" | LV_WARN => bs "WARN" | LV_DEBUG => bs "DEBUG" | LV_ERROR => bs "ERROR" end.

(** [snprintf(buffer, len + 1, ...)] of a message of [len] bytes puts all of it,
    and its zero, into [char buffer[kMaxLineBuffer]]. *)
Definition line_buffer (msg : bytes) : result bytes :=
  if length msg + 1 <=? kMaxLineBuffer then Ok (c_str msg) else Err Undefined.

(** What is written to the standard output. *)
Definition format (times : bytes) (fc cc : Z) (lv : level) (LINE : Z) (FILE_NAME msg : bytes) : result bytes :=
  let* buffer := line_buffer msg in
  let field s := bs "[" ++ s ++ bs "]" in
  let line := field (level_text lv) ++ bs ":" ++ field times ++ bs ":" ++ field (to_string LINE) ++ bs ":" ++ field FILE_NAME ++ bs " " ++ buffer in
  Ok (if negb (fc =? F_None)%Z && negb (cc =? C_None)%Z then
        [ESC] ++ bs "[" ++ to_string fc ++ bs ";" ++ to_string cc ++ bs "m" ++ line ++ [ESC] ++ bs "[0m" ++ [LF]
      else if (fc =? F_None)%Z && (cc =? C_None)%Z then line ++ [LF]
      else [ESC] ++ bs "[" ++ to_string (if (fc =? 0)%Z then cc else fc) ++ bs "m" ++ line ++ [ESC] ++ bs "[0m" ++ [LF]).

(** The four macros. *)
Section macros.
Context (times : bytes).
Definition LOG_INFO := format times F_Green C_Highlight LV_INFO.
Definition LOG_WARN := format times F_Orange C_Highlight LV_WARN.
Definition LOG_DEBUG := format times F_None C_Highlight LV_DEBUG.
Definition LOG_ERROR := format times F_Red C_Highlight LV_ERROR.
End macros.

(** A message of 512 bytes or more is written past the buffer. *)
Lemma format_overflow times fc cc lv LINE FILE_NAME msg :
  format times fc cc lv LINE FILE_NAME msg = Err Undefined <-> 512 <= length msg.
Proof.
  unfold format, line_buffer, kMaxLineBuffer. destruct (Nat.leb_spec (length msg + 1) 512) as [H|H].
  - split; [|lia]. cbv zeta. discriminate.
  - split; [lia|done].
Qed.

Example log_line :
  LOG_DEBUG (bs "2024-01-01 00:00:00") 7 (bs "a.cc") (bs "hi") = Ok ([ESC] ++ bs "[1m[DEBUG]:[2024-01-01 00:00:00]:[7]:[a.cc] hi" ++ [ESC] ++ bs "[0m" ++ [LF]).
Proof. reflexivity. Qed.

End Logger.
