(* ===== verification/HttpRequest.v ===== *)
(** * HttpRequest: the incremental request parser

    Models [soc/http/include/HttpRequest.h] and [soc/http/src/HttpRequest.cc].
    The receive buffer is any [ByteQueue].  A view read past its end sees the
    memory that follows: for a view of a [std::string] its terminating NUL, for
    a view of the receive buffer the stale bytes behind the readable ones. *)
From S2P Require Import Prelude CStr Buffer EncodeUtil Base64 HttpUtil HttpMap HttpHeader HttpMultiPart HttpAuth.
Import EncodeUtil.

Module HttpRequest.

Inductive RetCode :=
  | NO_REQUEST
  | REQUEST_LINE_DONE | REQUEST_HEADER_DONE | REQUEST_CONTENT_DONE
  | BAD_REQUEST
  | AGAIN_HEADER | AGAIN_CONTENT.

#[export] Instance RetCode_eq_dec : EqDecision RetCode.
Proof. solve_decision. Defined.

(** [method_] and [version_] have no initial value. *)
Record t := Make {
  req_url_ : bytes; url_ : bytes; query_s_ : bytes; post_data_ : bytes;
  method_ : option HttpMethod; version_ : option HttpVersion;
  header_ : HttpHeader.t; multipart_ : HttpMultiPart.t; ret_code_ : RetCode;
  cookies_ : HttpMap.t bytes;
  keepalive_ : bool; compressed_ : bool; has_multipart_ : bool; has_cookies_ : bool;
  auth_ : option HttpAuth;
  query_ : HttpMap.t bytes; form_ : HttpMap.t bytes; da_ : HttpMap.t bytes }.

Definition new : t :=
  Make [] [] [] [] None None [] HttpMultiPart.new NO_REQUEST ∅ false false false false None ∅ ∅ ∅.

(** Field updates. *)
Definition set_ret (c : RetCode) (r : t) : t :=
  Make (req_url_ r) (url_ r) (query_s_ r) (post_data_ r) (method_ r) (version_ r) (header_ r) (multipart_ r) c
    (cookies_ r) (keepalive_ r) (compressed_ r) (has_multipart_ r) (has_cookies_ r) (auth_ r) (query_ r) (form_ r) (da_ r).
Definition set_line (m : option HttpMethod) (u : bytes) (v : option HttpVersion) (r : t) : t :=
  Make u (url_ r) (query_s_ r) (post_data_ r) m v (header_ r) (multipart_ r) (ret_code_ r)
    (cookies_ r) (keepalive_ r) (compressed_ r) (has_multipart_ r) (has_cookies_ r) (auth_ r) (query_ r) (form_ r) (da_ r).
Definition set_header_ (h : HttpHeader.t) (r : t) : t :=
  Make (req_url_ r) (url_ r) (query_s_ r) (post_data_ r) (method_ r) (version_ r) h (multipart_ r) (ret_code_ r)
    (cookies_ r) (keepalive_ r) (compressed_ r) (has_multipart_ r) (has_cookies_ r) (auth_ r) (query_ r) (form_ r) (da_ r).
Definition set_content (p : bytes) (m : HttpMultiPart.t) (f : HttpMap.t bytes) (r : t) : t :=
  Make (req_url_ r) (url_ r) (query_s_ r) p (method_ r) (version_ r) (header_ r) m (ret_code_ r)
    (cookies_ r) (keepalive_ r) (compressed_ r) (has_multipart_ r) (has_cookies_ r) (auth_ r) (query_ r) f (da_ r).
Definition set_query (u qs : bytes) (q : HttpMap.t bytes) (r : t) : t :=
  Make (req_url_ r) u qs (post_data_ r) (method_ r) (version_ r) (header_ r) (multipart_ r) (ret_code_ r)
    (cookies_ r) (keepalive_ r) (compressed_ r) (has_multipart_ r) (has_cookies_ r) (auth_ r) q (form_ r) (da_ r).
Definition set_cookies (b : bool) (c : HttpMap.t bytes) (r : t) : t :=
  Make (req_url_ r) (url_ r) (query_s_ r) (post_data_ r) (method_ r) (version_ r) (header_ r) (multipart_ r) (ret_code_ r)
    c (keepalive_ r) (compressed_ r) (has_multipart_ r) b (auth_ r) (query_ r) (form_ r) (da_ r).
Definition set_flags (k c : bool) (r : t) : t :=
  Make (req_url_ r) (url_ r) (query_s_ r) (post_data_ r) (method_ r) (version_ r) (header_ r) (multipart_ r) (ret_code_ r)
    (cookies_ r) k c (has_multipart_ r) (has_cookies_ r) (auth_ r) (query_ r) (form_ r) (da_ r).
Definition set_multipart (b : bool) (m : HttpMultiPart.t) (r : t) : t :=
  Make (req_url_ r) (url_ r) (query_s_ r) (post_data_ r) (method_ r) (version_ r) (header_ r) m (ret_code_ r)
    (cookies_ r) (keepalive_ r) (compressed_ r) b (has_cookies_ r) (auth_ r) (query_ r) (form_ r) (da_ r).
Definition set_auth (a : option HttpAuth) (d : HttpMap.t bytes) (r : t) : t :=
  Make (req_url_ r) (url_ r) (query_s_ r) (post_data_ r) (method_ r) (version_ r) (header_ r) (multipart_ r) (ret_code_ r)
    (cookies_ r) (keepalive_ r) (compressed_ r) (has_multipart_ r) (has_cookies_ r) a (query_ r) (form_ r) d.

Definition reset (r : t) : t := set_ret NO_REQUEST r.
Definition setHeader (key value : bytes) (r : t) : t := set_header_ (HttpHeader.add key value (header_ r)) r.
Definition getHeaderValue (key : bytes) (r : t) : option bytes := HttpHeader.get key (header_ r).
Definition hasQueryString (r : t) : bool := negb (HttpMap.empty (query_ r)).
Definition hasForm (r : t) : bool := negb (HttpMap.empty (form_ r)).

(** ** [parseKeyValue] *)

(** One pair of [kv]: without a separator, [npos + s1.size()] wraps to
    [s1.size() - 1], which is 0 for the one-character separators in use, so the
    value is all of [kv]. *)
Definition parse_pair (kv s1 : bytes) : result (bytes * bytes) :=
  match find s1 kv with
  | Some pos2 =>
      let* k := substr kv 0 (Some pos2) in
      let* v := substr kv (pos2 + length s1) None in
      Ok (urlDecode k, urlDecode v)
  | None =>
      let* k := substr kv 0 None in
      let* v := substr kv (length s1 - 1) None in
      Ok (urlDecode k, urlDecode v)
  end.

Fixpoint parseKeyValue_loop (fuel : nat) (s after s1 s2 : bytes) (c : HttpMap.t bytes) : result (HttpMap.t bytes) :=
  match s with
  | [] => Ok c
  | _ :: _ =>
      match fuel with
      | 0 => Err OutOfFuel
      | S fuel =>
          match find s2 s with
          | None =>
              let* (k, v) := parse_pair s s1 in
              let* s := remove_prefix s (length s) in
              parseKeyValue_loop fuel s after s1 s2 (HttpMap.add k v c)
          | Some pos =>
              let* kv := substr s 0 (Some pos) in
              let* (k, v) := parse_pair kv s1 in
              let* n := HttpHeader.skip_spaces (drop (pos + 1) (s ++ after)) in
              let* s := remove_prefix s (pos + n + length s2) in
              parseKeyValue_loop fuel s after s1 s2 (HttpMap.add k v c)
          end
      end
  end.

Definition parseKeyValue (s after s1 s2 : bytes) (c : HttpMap.t bytes) : result (HttpMap.t bytes) :=
  parseKeyValue_loop (length s) s after s1 s2 c.

(** ** The parts of a request that only read its fields *)
Definition parseUrlQuery (r : t) : result t :=
  let uls := req_url_ r in
  match find_char "?" uls with
  | Some pos =>
      let* qs := substr uls (pos + 1) None in
      let* uls := remove_prefix uls (pos + 1) in
      let* q := parseKeyValue uls [NUL] (bs "=") (bs "&") (query_ r) in
      Ok (set_query (urlDecode (take pos (req_url_ r))) qs q r)
  | None => Ok (set_query (urlDecode (req_url_ r)) (query_s_ r) (query_ r) r)
  end.

Definition parseCookie (r : t) : result t :=
  match HttpHeader.get (bs "Cookie") (header_ r) with
  | Some v =>
      let* c := parseKeyValue v [NUL] (bs "=") (bs ";") (cookies_ r) in
      Ok (set_cookies true c r)
  | None => Ok r
  end.

Definition parseMultiPartData (r : t) : result t :=
  match HttpHeader.get (bs "Content-Type") (header_ r) with
  | Some value =>
      if starts_with value (bs "multipart/form-data") then
        let* value := remove_prefix value 21 in
        if starts_with value (bs "boundary") then
          let* value := remove_prefix value 9 in
          Ok (set_multipart true (HttpMultiPart.setBoundary value (multipart_ r)) r)
        else Ok (set_multipart true (multipart_ r) r)
      else Ok r
  | None => Ok r
  end.

(** *** The fields of a Digest header *)

(** [buffer[k] = c] in the 128 byte array. *)
Definition put (buffer : bytes) (k : nat) (c : ascii) : result bytes :=
  if k <? 128 then Ok (<[k := c]> buffer) else Err Undefined.

(** State 0: the key, up to and with [=]. *)
Fixpoint key_loop (s : bytes) (n k : nat) (buffer : bytes) : result (nat * nat * bool * bytes) :=
  match s with
  | [] => Ok (n, k, false, buffer)
  | c :: s =>
      if bool_decide (c = "="%char) then Ok (n + 1, k, true, buffer)
      else let* buffer := put buffer k c in key_loop s (n + 1) (k + 1) buffer
  end.

(** State 1: the value, up to a comma or with a closing quote. *)
Fixpoint value_loop (s : bytes) (n v : nat) (buffer : bytes) : result (nat * nat * bytes) :=
  match s with
  | [] => Ok (n, v, buffer)
  | c :: s =>
      if bool_decide (c = ","%char) then Ok (n, v, buffer)
      else if bool_decide (c = DQUOTE) then Ok (n + 1, v, buffer)
      else let* buffer := put buffer v c in value_loop s (n + 1) (v + 1) buffer
  end.

Record digest := DigestState { d_state : nat; d_i : nat; d_k : nat; d_v : nat; d_buffer : bytes; d_da : HttpMap.t bytes }.

Definition digest_step (auth : bytes) (d : digest) : result digest :=
  let s := drop (d_i d) auth in
  match d_state d with
  | 0 =>
      let* (n, k, eq, buffer) := key_loop s 0 (d_k d) (d_buffer d) in
      Ok (DigestState (if eq then 1 else 0) (d_i d + n) k (if eq then k else d_v d) buffer (d_da d))
  | 1 =>
      let q := match s with c :: _ => if bool_decide (c = DQUOTE) then 1 else 0 | [] => 0 end in
      let* (n, v, buffer) := value_loop (drop q s) q (d_v d) (d_buffer d) in
      Ok (DigestState 2 (d_i d + n) 0 0 buffer
            (HttpMap.add (take (d_k d) buffer) (take (v - d_k d) (drop (d_k d) buffer)) (d_da d)))
  | _ =>
      if starts_with s (bs ", ") then Ok (DigestState 0 (d_i d + 2) (d_k d) (d_v d) (d_buffer d) (d_da d))
      else Ok d
  end.

Fixpoint digest_loop (fuel : nat) (auth : bytes) (d : digest) : result (HttpMap.t bytes) :=
  if d_i d <? length auth then
    match fuel with
    | 0 => Err OutOfFuel
    | S fuel => let* d := digest_step auth d in digest_loop fuel auth d
    end
  else Ok (d_da d).

(** A run that ends does so within three times the length plus two iterations
    ([digest_complete] below). *)
Definition parse_digest (auth : bytes) (da : HttpMap.t bytes) : result (HttpMap.t bytes) :=
  digest_loop (3 * length auth + 2) auth (DigestState 0 0 0 0 (replicate 128 NUL) da).

Definition method_name (m : HttpMethod) : bytes :=
  match m with GET => bs "GET" | POST => bs "POST" | HEAD => bs "HEAD" end.

Section parser.
Context (MD5 : bytes -> bytes) (store : HttpPassStore.t).
(** What a [string_view] of a destroyed temporary string reads back as; the
    [Connection] header is looked at through one. *)
Context (dangling : bytes -> bytes).
Context `{HQ : ByteQueue Q}.

Definition parseAuthorization (r : t) : result t :=
  match HttpHeader.get (bs "Authorization") (header_ r) with
  | Some x =>
      if starts_with x (bs "Basic") then
        let* auth := remove_prefix x 6 in
        let* user_pass := Base64.base64_decode auth in
        let* (user, pass) :=
          (match find_char ":" user_pass with
           | Some pos => let* u := substr user_pass 0 (Some pos) in let* p := substr user_pass (pos + 1) None in Ok (u, p)
           | None => let* u := substr user_pass 0 None in let* p := substr user_pass 0 None in Ok (u, p)
           end) in
        let* a := newBasicAuth MD5 store user pass in
        Ok (set_auth (Some a) (da_ r) r)
      else if starts_with x (bs "Digest") then
        let* auth := remove_prefix x 7 in
        let* da := parse_digest auth (da_ r) in
        let* m := of_option Undefined (method_ r) in
        let da := HttpMap.add (bs "method") (method_name m) da in
        let* a := newDigestAuth MD5 store x da in
        Ok (set_auth (Some a) da r)
      else Ok r
  | None => Ok r
  end.

(** ** The parts that consume the receive buffer *)
(** After the method, whose name and space are [i] bytes. *)
Definition parseTarget (m : HttpMethod) (i : nat) (recver : Q) (r : t) : result (Q * t) :=
  let bad r := Ok (recver, set_ret BAD_REQUEST r) in
  let r := set_line (Some m) (req_url_ r) (version_ r) r in
  let* line := remove_prefix (bq_contents recver) i in
  match find_char " " line with
  | None => bad r
  | Some pos =>
      let r := set_line (Some m) (take pos line) (version_ r) r in
      let* line := remove_prefix line (pos + 1) in
      let i := i + (pos + 1) in
      let fin v :=
        let* _ := remove_prefix line 10 in
        Ok (bq_retired (i + 10) recver, set_ret REQUEST_LINE_DONE (set_line (Some m) (req_url_ r) (Some v) r)) in
      if starts_with line (bs "HTTP/1.0") then fin HTTP_1_0
      else if starts_with line (bs "HTTP/1.1") then fin HTTP_1_1
      else if starts_with line (bs "HTTP/2.0") then fin HTTP_2_0
      else bad r
  end.

Definition parseRequestLine (recver : Q) (r : t) : result (Q * t) :=
  let line := bq_contents recver in
  if starts_with line (bs "GET") then parseTarget GET 4 recver r
  else if starts_with line (bs "POST") then parseTarget POST 5 recver r
  else if starts_with line (bs "HEAD") then parseTarget HEAD 5 recver r
  else Ok (recver, set_ret BAD_REQUEST r).

Fixpoint parseRequestHeader_loop (fuel : nat) (header : bytes) (recver : Q) (r : t) : result (Q * t) :=
  match fuel with
  | 0 => Err OutOfFuel
  | S fuel =>
      if starts_with header CRLF then Ok (bq_retired 2 recver, set_ret REQUEST_HEADER_DONE r)
      else
        match find CRLF header with
        | None => Ok (recver, set_ret AGAIN_HEADER r)
        | Some pos =>
            let* line_header := substr header 0 (Some pos) in
            match find_char ":" line_header with
            | None => Ok (recver, set_ret BAD_REQUEST r)
            | Some pos2 =>
                let* key := substr line_header 0 (Some pos2) in
                let* value := substr line_header (pos2 + 2) (Some (pos - pos2 - 2)) in
                let r := set_header_ (HttpHeader.add key value (header_ r)) r in
                let* header := remove_prefix header (pos + 2) in
                parseRequestHeader_loop fuel header (bq_retired (pos + 2) recver) r
            end
        end
  end.

Definition parseRequestHeader (recver : Q) (r : t) : result (Q * t) :=
  let header := bq_contents recver in
  parseRequestHeader_loop (S (length header)) header recver r.

Definition eob (boundary : bytes) : bytes := bs "--" ++ boundary ++ bs "--" ++ CRLF.

Definition parseRequestContent (recver : Q) (r : t) : result (Q * t) :=
  let content := bq_contents recver in
  let after := drop (bq_readable recver) (bq_memory recver) in
  let r := set_content (post_data_ r ++ content) (multipart_ r) (form_ r) r in
  if has_multipart_ r then
    if negb (ends_with content (eob (HttpMultiPart.getBoundary (multipart_ r)))) then
      Ok (recver, set_ret AGAIN_CONTENT r)
    else
      let* m := HttpMultiPart.parse content after (multipart_ r) in
      Ok (bq_retiredAll recver, set_ret REQUEST_CONTENT_DONE (set_content (post_data_ r) m (form_ r) r))
  else
    let* f := parseKeyValue content after (bs "=") (bs "&") (form_ r) in
    Ok (bq_retiredAll recver, set_ret REQUEST_CONTENT_DONE (set_content (post_data_ r) (multipart_ r) f r)).

(** Connection and Accept-Encoding, for a request of version [v]. *)
Definition read_flags (v : HttpVersion) (r : t) : t :=
  let k := if decide (v <> HTTP_1_0) then true else keepalive_ r in
  let k :=
    match HttpHeader.get (bs "Connection") (header_ r) with
    | Some conn =>
        let c := dangling (toLowers conn) in
        if bool_decide (v = HTTP_1_0) && starts_with c (bs "keep-alive") then true
        else if starts_with c (bs "close") then false else k
    | None => k
    end in
  let z :=
    match HttpHeader.get (bs "Accept-Encoding") (header_ r) with
    | Some enc => bool_decide (is_Some (find (bs "gzip") enc))
    | None => compressed_ r
    end in
  set_flags k z r.

(** ** [parseRequest] *)
Fixpoint parseRequest_loop (fuel : nat) (recver : Q) (r : t) : result (Q * t * RetCode) :=
  match fuel with
  | 0 => Err OutOfFuel
  | S fuel =>
      match ret_code_ r with
      | NO_REQUEST => let* (recver, r) := parseRequestLine recver r in parseRequest_loop fuel recver r
      | REQUEST_LINE_DONE | AGAIN_HEADER =>
          let* (recver, r) := parseRequestHeader recver r in
          if decide (ret_code_ r = AGAIN_HEADER) then Ok (recver, r, AGAIN_HEADER) else parseRequest_loop fuel recver r
      | REQUEST_HEADER_DONE =>
          let* r := parseUrlQuery r in
          let* v := of_option Undefined (version_ r) in
          if HttpHeader.empty (header_ r) && bool_decide (v <> HTTP_1_0) then
            Ok (recver, set_flags true (compressed_ r) r, REQUEST_CONTENT_DONE)
          else
            let r := read_flags v r in
            let* r := parseCookie r in
            let* r := parseMultiPartData r in
            let* r := parseAuthorization r in
            let* (recver, r) := parseRequestContent recver r in
            if decide (ret_code_ r = AGAIN_CONTENT) then Ok (recver, r, AGAIN_CONTENT) else parseRequest_loop fuel recver r
      | AGAIN_CONTENT =>
          let* (recver, r) := parseRequestContent recver r in
          if decide (ret_code_ r = AGAIN_CONTENT) then Ok (recver, r, AGAIN_CONTENT) else parseRequest_loop fuel recver r
      | BAD_REQUEST | REQUEST_CONTENT_DONE => Ok (recver, r, ret_code_ r)
      end
  end.

(** Four iterations: line, header, content, return. *)
Definition parseRequest (recver : Q) (r : t) : result (Q * t * RetCode) := parseRequest_loop 4 recver r.

End parser.
(** ** [parseKeyValue] on rendered pairs *)
Definition render_pair (e : bytes * bytes) : bytes := urlEncode e.1 ++ "="%char :: urlEncode e.2.

(** Pairs separated by [sep] and [n] spaces. *)
Fixpoint render_pairs (sep : ascii) (n : nat) (l : list (bytes * bytes)) : bytes :=
  match l with
  | [] => []
  | e :: l =>
      match l with
      | [] => render_pair e
      | _ :: _ => render_pair e ++ sep :: replicate n " "%char ++ render_pairs sep n l
      end
  end.

Definition add_pairs (l : list (bytes * bytes)) (c : HttpMap.t bytes) : HttpMap.t bytes :=
  foldl (fun c e => HttpMap.add e.1 e.2 c) c l.

(** Characters that an encoded text does not contain. *)
Definition reserved (c : ascii) : bool := negb (unreserved c) && negb (bool_decide (c = "%"%char)).

Lemma urlEncode_not_in c s : reserved c = true -> c ∉ urlEncode s.
Proof.
  intros H Hin. pose proof (urlEncode_unreserved s) as Hall. rewrite Forall_forall in Hall.
  unfold reserved in H. apply andb_true_iff in H as [H1 H2].
  destruct (Hall _ Hin) as [E| ->]; [by rewrite E in H1|done].
Qed.

Lemma render_pair_not_in c e : reserved c = true -> c <> "="%char -> c ∉ render_pair e.
Proof.
  intros H Hne. unfold render_pair. rewrite elem_of_app, elem_of_cons.
  intros [Hin|[Heq|Hin]]; [|done|]; by eapply urlEncode_not_in.
Qed.

Lemma parse_pair_render e : parse_pair (render_pair e) (bs "=") = Ok e.
Proof.
  unfold parse_pair, render_pair. rewrite (find_single "="), find_char_app by by apply urlEncode_not_in.
  rewrite !substr_Ok by (rewrite length_app; simpl; lia). rewrite drop_0, take_app_length.
  replace (length (urlEncode e.1) + length (bs "=")) with (length (urlEncode e.1 ++ ["="%char]))
    by (rewrite length_app; done).
  replace (urlEncode e.1 ++ "="%char :: urlEncode e.2) with ((urlEncode e.1 ++ ["="%char]) ++ urlEncode e.2)
    by (by rewrite <- app_assoc).
  rewrite drop_app_length. pose proof (urlDecode_urlEncode e.1 []) as H1. pose proof (urlDecode_urlEncode e.2 []) as H2.
  rewrite !app_nil_r in H1, H2. rewrite H1, H2. by destruct e.
Qed.

Lemma skip_spaces_replicate n c s :
  c <> " "%char -> HttpHeader.skip_spaces (replicate n " "%char ++ c :: s) = Ok n.
Proof.
  intros Hc. induction n as [|n IH]; [cbn; by rewrite bool_decide_false|].
  cbn [replicate app HttpHeader.skip_spaces]. by rewrite bool_decide_true, IH.
Qed.

Lemma render_pair_cons e : exists c s, render_pair e = c :: s /\ c <> " "%char.
Proof.
  unfold render_pair. pose proof (urlEncode_not_in " " e.1 eq_refl) as H.
  destruct (urlEncode e.1) as [|c s]; [by eexists _, _|]. exists c, (s ++ "="%char :: urlEncode e.2).
  split; [done|]. set_solver.
Qed.

Lemma render_pairs_cons sep n e l : exists c s, render_pairs sep n (e :: l) = c :: s /\ c <> " "%char.
Proof.
  destruct (render_pair_cons e) as (c & s & E & Hc). cbn [render_pairs]. rewrite E.
  destruct l; eexists _, _; (split; [reflexivity|done]).
Qed.

Lemma parseKeyValue_loop_render sep n l after c fuel :
  reserved sep = true -> sep <> "="%char -> length l <= fuel ->
  parseKeyValue_loop fuel (render_pairs sep n l) after (bs "=") [sep] c = Ok (add_pairs l c).
Proof.
  intros Hs Hne. revert c fuel. induction l as [|e l IH]; intros c fuel Hf; [by destruct fuel|].
  destruct fuel as [|fuel]; [simpl in Hf; lia|].
  destruct (render_pairs_cons sep n e l) as (c0 & s0 & E0 & _).
  cbn [parseKeyValue_loop]. rewrite E0. rewrite <- E0. clear E0 c0 s0.
  rewrite find_single. cbn [render_pairs]. destruct l as [|e' l].
  - rewrite (proj2 (find_char_None _ _)) by by apply render_pair_not_in.
    rewrite parse_pair_render. destruct e as [k v]. rewrite remove_prefix_Ok, drop_all by lia.
    by destruct fuel.
  - rewrite find_char_app by by apply render_pair_not_in.
    rewrite substr_Ok by (rewrite length_app; lia). rewrite drop_0, take_app_length, parse_pair_render.
    destruct e as [k v]. destruct (render_pairs_cons sep n e' l) as (c1 & s1 & E1 & Hc1).
    set (X := render_pairs sep n (e' :: l)) in *.
    replace (length (render_pair (k, v)) + 1) with (length (render_pair (k, v) ++ [sep])) by (rewrite length_app; done).
    replace ((render_pair (k, v) ++ sep :: replicate n " "%char ++ X) ++ after)
      with ((render_pair (k, v) ++ [sep]) ++ replicate n " "%char ++ c1 :: s1 ++ after)
      by (rewrite E1, <- !app_assoc; simpl; by rewrite <- !app_assoc).
    rewrite drop_app_length, skip_spaces_replicate by done.
    replace (render_pair (k, v) ++ sep :: replicate n " "%char ++ X)
      with ((render_pair (k, v) ++ sep :: replicate n " "%char) ++ X) by (by rewrite <- app_assoc).
    rewrite remove_prefix_app by (rewrite length_app; cbn [length]; rewrite length_replicate; lia).
    rewrite IH by (cbn [length] in *; lia). done.
Qed.

Lemma length_render_pairs sep n l : length l <= length (render_pairs sep n l).
Proof.
  induction l as [|e l IH]; [done|]. cbn [render_pairs]. unfold render_pair. destruct l.
  - rewrite length_app. simpl. lia.
  - rewrite !length_app. cbn [length] in *. rewrite length_app. lia.
Qed.

Lemma parseKeyValue_render sep n l after c :
  reserved sep = true -> sep <> "="%char ->
  parseKeyValue (render_pairs sep n l) after (bs "=") [sep] c = Ok (add_pairs l c).
Proof. intros Hs Hne. apply parseKeyValue_loop_render; [done..|apply length_render_pairs]. Qed.

(** ** Totality of [parseKeyValue] *)
Lemma parse_pair_total kv : exists e, parse_pair kv (bs "=") = Ok e.
Proof.
  unfold parse_pair. rewrite (find_single "="). destruct (find_char "=" kv) as [pos|] eqn:E.
  - apply find_char_Some in E as (_ & _ & _ & Hl). rewrite !substr_Ok by (simpl; lia). by eexists.
  - rewrite !substr_Ok by (simpl; lia). by eexists.
Qed.

Lemma skip_spaces_not_OutOfFuel s : HttpHeader.skip_spaces s <> Err OutOfFuel.
Proof. induction s as [|c s IH]; simpl; [done|]. case_bool_decide; [|done]. by destruct (HttpHeader.skip_spaces s); [|congruence]. Qed.

(** Each turn removes the separator at least, so the length is enough fuel. *)
Lemma parseKeyValue_loop_fuel fuel s after sep c :
  length s <= fuel -> parseKeyValue_loop fuel s after (bs "=") [sep] c <> Err OutOfFuel.
Proof.
  revert s c. induction fuel as [|fuel IH]; intros s c Hf; destruct s as [|x s]; try done; [simpl in Hf; lia|].
  cbn [parseKeyValue_loop]. set (l := x :: s) in *. clearbody l. rewrite find_single.
  destruct (find_char sep l) as [pos|] eqn:E.
  - apply find_char_Some in E as (_ & _ & _ & Hl). rewrite substr_Ok by lia.
    destruct (parse_pair_total (take pos (drop 0 l))) as [[k v] ->].
    pose proof (skip_spaces_not_OutOfFuel (drop (pos + 1) (l ++ after))) as Hn.
    destruct (HttpHeader.skip_spaces (drop (pos + 1) (l ++ after))) as [n|]; [|congruence].
    unfold remove_prefix. destruct (length l <? _); [done|]. apply IH. rewrite length_drop. simpl. lia.
  - destruct (parse_pair_total l) as [[k v] ->]. rewrite remove_prefix_Ok, drop_all by lia. by destruct fuel.
Qed.

Lemma parseKeyValue_fuel s after sep c : parseKeyValue s after (bs "=") [sep] c <> Err OutOfFuel.
Proof. by apply parseKeyValue_loop_fuel. Qed.

(** ** The header parser as a function of the text *)

(** What [parseRequestHeader] does to the contents of the buffer: the rest of
    the text and the request. *)
Fixpoint header_text (fuel : nat) (s : bytes) (r : t) : result (bytes * t) :=
  match fuel with
  | 0 => Err OutOfFuel
  | S fuel =>
      if starts_with s CRLF then Ok (drop 2 s, set_ret REQUEST_HEADER_DONE r)
      else
        match find CRLF s with
        | None => Ok (s, set_ret AGAIN_HEADER r)
        | Some pos =>
            match find_char ":" (take pos s) with
            | None => Ok (s, set_ret BAD_REQUEST r)
            | Some pos2 =>
                if pos <? pos2 + 2 then Err OutOfRange
                else
                  header_text fuel (drop (pos + 2) s)
                    (set_header_ (HttpHeader.add (take pos2 s) (take (pos - pos2 - 2) (drop (pos2 + 2) s)) (header_ r)) r)
            end
        end
  end.

(** A result over a queue agrees with a result over its contents. *)
Definition agrees `{ByteQueue Q} (x : result (Q * t)) (y : result (bytes * t)) : Prop :=
  match x, y with
  | Ok (q, r), Ok (s, r') => bq_wf q /\ bq_contents q = s /\ r = r'
  | Err e, Err e' => e = e'
  | _, _ => False
  end.

Lemma take_drop_take {A} (l : list A) p k : take (p - k) (drop k (take p l)) = take (p - k) (drop k l).
Proof.
  rewrite skipn_firstn_comm, take_take. by rewrite Nat.min_id.
Qed.

Lemma header_loop_agrees `{ByteQueueLaws Q} fuel (q : Q) s r :
  bq_wf q -> bq_contents q = s -> agrees (parseRequestHeader_loop fuel s q r) (header_text fuel s r).
Proof.
  revert q s r. induction fuel as [|fuel IH]; intros q s r Hq Hs; [done|].
  cbn [parseRequestHeader_loop header_text].
  destruct (starts_with s CRLF) eqn:Est.
  { simpl. split; [by apply bq_retired_wf|]. by rewrite bq_retired_contents, Hs. }
  destruct (find CRLF s) as [pos|] eqn:Ef; [|done].
  destruct (find_CRLF_split _ _ Ef) as [_ Hpos].
  rewrite substr_Ok by lia. rewrite drop_0.
  destruct (find_char ":" (take pos s)) as [pos2|] eqn:Ec; [|done].
  apply find_char_Some in Ec as (_ & _ & _ & Hp2). rewrite length_take in Hp2.
  rewrite substr_Ok by (rewrite length_take; lia). rewrite drop_0, take_take.
  replace (pos2 `min` pos) with pos2 by lia.
  unfold substr at 1. rewrite length_take. replace (pos `min` length s) with pos by lia.
  destruct (pos <? pos2 + 2); [done|].
  rewrite remove_prefix_Ok by lia. replace (pos - pos2 - 2) with (pos - (pos2 + 2)) by lia. rewrite take_drop_take.
  apply IH; [by apply bq_retired_wf|]. by rewrite bq_retired_contents, Hs.
Qed.

Lemma header_text_fuel f1 f2 s r :
  length s < f1 -> length s < f2 -> header_text f1 s r = header_text f2 s r.
Proof.
  revert f2 s r. induction f1 as [|f1 IH]; intros f2 s r H1 H2; [lia|]. destruct f2 as [|f2]; [lia|].
  cbn [header_text]. destruct (starts_with s CRLF); [done|].
  destruct (find CRLF s) as [pos|] eqn:Ef; [|done]. apply find_bound in Ef. simpl in Ef.
  destruct (find_char ":" (take pos s)); [|done]. destruct (pos <? _); [done|].
  apply IH; rewrite length_drop; lia.
Qed.

Lemma header_text_set_ret fuel s c r : header_text fuel s (set_ret c r) = header_text fuel s r.
Proof.
  revert s r. induction fuel as [|fuel IH]; intros s r; [done|]. cbn [header_text].
  destruct (starts_with s CRLF); [done|]. destruct (find CRLF s) as [pos|]; [|done].
  destruct (find_char ":" (take pos s)) as [pos2|]; [|done]. destruct (pos <? _); [done|]. cbn [header_ set_ret].
  match goal with |- header_text _ ?s' (set_header_ ?h (set_ret _ _)) = _ =>
    change (set_header_ h (set_ret c r)) with (set_ret c (set_header_ h r)) end.
  apply IH.
Qed.

(** Waiting for more text and then parsing is parsing the whole text. *)
Lemma header_text_chunks fuel s b r s1 r1 f1 f2 :
  header_text fuel s r = Ok (s1, r1) -> ret_code_ r1 = AGAIN_HEADER ->
  length (s ++ b) < f1 -> length (s1 ++ b) < f2 ->
  header_text f1 (s ++ b) r = header_text f2 (s1 ++ b) r1.
Proof.
  revert s r f1. induction fuel as [|fuel IH]; intros s r f1 H Hret H1 H2; [done|].
  cbn [header_text] in H. destruct (starts_with s CRLF) eqn:Est.
  { injection H as _ <-. discriminate Hret. }
  destruct (find CRLF s) as [pos|] eqn:Ef.
  2:{ injection H as <- <-. rewrite header_text_set_ret. by apply header_text_fuel. }
  destruct (find_char ":" (take pos s)) as [pos2|] eqn:Ec; [|injection H as _ <-; discriminate Hret].
  destruct (pos <? pos2 + 2) eqn:Epos; [done|]. apply Nat.ltb_ge in Epos.
  pose proof (find_bound _ _ _ Ef) as Hb. simpl in Hb.
  destruct f1 as [|f1]; [lia|]. cbn [header_text].
  rewrite starts_with_longer, Est by (simpl; lia). rewrite (find_app _ _ _ _ Ef), take_app_le, Ec by lia.
  rewrite (proj2 (Nat.ltb_ge _ _) Epos). rewrite take_app_le, !drop_app_le, take_app_le by (rewrite ?length_drop; lia).
  apply IH; [done|done| |done]. rewrite length_app in *. rewrite length_drop. lia.
Qed.

Lemma header_text_total fuel s r : length s < fuel -> header_text fuel s r <> Err OutOfFuel.
Proof.
  revert s r. induction fuel as [|fuel IH]; intros s r Hf; [lia|]. cbn [header_text].
  destruct (starts_with s CRLF); [done|]. destruct (find CRLF s) as [pos|] eqn:Ef; [|done].
  apply find_bound in Ef. simpl in Ef.
  destruct (find_char ":" (take pos s)); [|done]. destruct (pos <? _); [done|].
  apply IH. rewrite length_drop. lia.
Qed.

(** A printed header is read back. *)
Lemma header_text_line fuel e rest r :
  HttpHeader.clean e ->
  header_text (S fuel) (HttpHeader.line e ++ rest) r
  = header_text fuel rest (set_header_ (HttpHeader.add e.1 e.2 (header_ r)) r).
Proof.
  intros Hc. destruct (HttpHeader.parse_line e rest Hc) as (F & G & T & D). destruct Hc as (H1 & H2 & H3 & H4).
  cbn [header_text]. rewrite HttpHeader.starts_with_line by done. rewrite F, G, D.
  rewrite (proj2 (Nat.ltb_ge _ _)) by lia. f_equal. f_equal. f_equal.
  - rewrite HttpHeader.line_app, <- app_assoc. by apply take_app_length.
  - rewrite HttpHeader.line_app, <- app_assoc.
    replace (length e.1 + 2) with (length (e.1 ++ [":"%char; " "%char])) by (rewrite length_app; done).
    replace (e.1 ++ (":"%char :: " "%char :: e.2) ++ CRLF ++ rest) with ((e.1 ++ [":"%char; " "%char]) ++ e.2 ++ CRLF ++ rest)
      by (by rewrite <- !app_assoc).
    rewrite drop_app_length. rewrite length_app. apply take_app_length'. simpl. lia.
Qed.

Lemma header_text_toString h0 h rest fuel r :
  HttpHeader.wf (h0 ++ h) -> Forall HttpHeader.clean h -> length h < fuel -> header_ r = h0 ->
  header_text fuel (HttpHeader.toString h ++ CRLF ++ rest) r
  = Ok (rest, set_ret REQUEST_HEADER_DONE (set_header_ (h0 ++ h) r)).
Proof.
  revert h0 fuel r. induction h as [|e h IH]; intros h0 fuel r Hwf Hc Hf Hr.
  - destruct fuel; [simpl in Hf; lia|]. simpl. rewrite app_nil_r, <- Hr. by destruct r.
  - apply Forall_cons in Hc as [He Hc]. destruct fuel as [|fuel]; [simpl in Hf; lia|].
    rewrite HttpHeader.toString_cons, <- app_assoc, header_text_line by done.
    assert (h0 ++ e :: h = (h0 ++ [e]) ++ h) as Ha by (by rewrite <- app_assoc). rewrite Ha in Hwf |- *.
    assert (HttpHeader.add e.1 e.2 h0 = h0 ++ [e]) as Hadd.
    { destruct e as [k v]. apply HttpHeader.add0_last. destruct Hwf as (Hs & Hl & Hn).
      split; [by apply StronglySorted_app_1_l in Hs|]. split; [by apply Forall_app in Hl as [? _]|].
      rewrite fmap_app, filter_app in Hn. by apply NoDup_app in Hn as [Hn _]. }
    rewrite Hr, Hadd. rewrite (IH (h0 ++ [e])); [done|done|done|simpl in Hf; lia|done].
Qed.

(** ** The request line *)
Definition version_name (v : HttpVersion) : bytes :=
  match v with HTTP_1_0 => bs "HTTP/1.0" | HTTP_1_1 => bs "HTTP/1.1" | HTTP_2_0 => bs "HTTP/2.0" end.

Definition render_line (m : HttpMethod) (target : bytes) (v : HttpVersion) : bytes :=
  method_name m ++ " "%char :: target ++ " "%char :: version_name v ++ CRLF.

Lemma parseRequestLine_render `{ByteQueueLaws Q} (q : Q) r m target v rest :
  bq_wf q -> bq_contents q = render_line m target v ++ rest -> " "%char ∉ target ->
  exists q', parseRequestLine q r = Ok (q', set_ret REQUEST_LINE_DONE (set_line (Some m) target (Some v) r))
    /\ bq_wf q' /\ bq_contents q' = rest.
Proof.
  intros Hq Hc Ht.
  set (i := length (method_name m) + 1).
  assert (drop i (bq_contents q) = target ++ " "%char :: version_name v ++ CRLF ++ rest) as Hd.
  { rewrite Hc. unfold render_line, i. rewrite <- app_assoc. cbn [app]. rewrite drop_past.
    rewrite <- app_assoc. cbn [app]. by rewrite <- app_assoc. }
  assert (i <= length (bq_contents q)) as Hi.
  { assert (0 < length (drop i (bq_contents q))) as Hp by (rewrite Hd, length_app; simpl; lia).
    rewrite length_drop in Hp. lia. }
  exists (bq_retired (i + (length target + 1) + 10) q).
  assert (bq_contents (bq_retired (i + (length target + 1) + 10) q) = rest) as Hrest.
  { rewrite bq_retired_contents by done.
    rewrite <- (drop_drop _ 10 (i + (length target + 1))), <- (drop_drop _ (length target + 1) i), Hd.
    rewrite drop_past. by destruct v. }
  split; [|split; [by apply bq_retired_wf|done]].
  assert (parseTarget m i q r = Ok (bq_retired (i + (length target + 1) + 10) q,
    set_ret REQUEST_LINE_DONE (set_line (Some m) target (Some v) r))) as Hgo.
  { unfold parseTarget. rewrite remove_prefix_Ok by done. rewrite Hd. rewrite find_char_app by done.
    rewrite take_app_length. rewrite remove_prefix_Ok, drop_past by (rewrite length_app; simpl; lia).
    by destruct v. }
  clear Hd Hi Hrest. unfold parseRequestLine, i in *. rewrite Hc. unfold render_line. destruct m; exact Hgo.
Qed.

Lemma render_pairs_not_in c sep l :
  reserved c = true -> c <> "="%char -> c <> sep -> c ∉ render_pairs sep 0 l.
Proof.
  intros Hr He Hs. induction l as [|e l IH]; [set_solver|]. cbn [render_pairs].
  pose proof (render_pair_not_in c e Hr He). destruct l; [done|].
  rewrite elem_of_app, elem_of_cons. tauto.
Qed.

(** ** The digest fields *)
Definition dmeasure (auth : bytes) (d : digest) : nat :=
  3 * (length auth - d_i d) + (match d_state d with 0 => 0 | 1 => 2 | _ => 1 end).

Lemma key_loop_ge s n k b n' k' eq b' : key_loop s n k b = Ok (n', k', eq, b') -> n <= n' /\ (s <> [] -> n < n').
Proof.
  revert n k b. induction s as [|c s IH]; intros n k b; simpl; [intros [= <- _ _ _]; done|].
  case_bool_decide; [intros [= <- _ _ _]; lia|]. intros E. inv_result E. apply IH in E. lia.
Qed.

Lemma value_loop_ge s n v b n' v' b' : value_loop s n v b = Ok (n', v', b') -> n <= n'.
Proof.
  revert n v b. induction s as [|c s IH]; intros n v b; simpl; [by intros [= <- _ _]|].
  case_bool_decide; [by intros [= <- _ _]|]. case_bool_decide; [intros [= <- _ _]; lia|].
  intros E. inv_result E. apply IH in E. lia.
Qed.

Lemma digest_progress auth d d' :
  d_i d < length auth -> digest_step auth d = Ok d' -> d' = d \/ dmeasure auth d' < dmeasure auth d.
Proof.
  intros Hi. assert (drop (d_i d) auth <> []) as Hne.
  { intros E. apply (f_equal length) in E. rewrite length_drop in E. simpl in E. lia. }
  destruct d as [st i k v b da]. unfold digest_step, dmeasure. cbn [d_state d_i d_k d_v d_buffer d_da] in *.
  destruct st as [|[|st]]; intros H.
  - inv_result H. destruct a as [[[n k'] eq] b']. apply key_loop_ge in E as [_ E]. specialize (E Hne).
    injection H as <-. right. simpl. destruct eq; simpl; lia.
  - inv_result H. destruct a as [[n v'] b']. apply value_loop_ge in E. injection H as <-. right. simpl. lia.
  - destruct (starts_with _ _); injection H as <-; [right; simpl; lia|by left].
Qed.

Lemma digest_stuck auth d :
  d_i d < length auth -> digest_step auth d = Ok d -> forall fuel, digest_loop fuel auth d = Err OutOfFuel.
Proof.
  intros Hi Hs. apply Nat.ltb_lt in Hi. induction fuel as [|fuel IH]; cbn [digest_loop]; rewrite Hi; [done|].
  by rewrite Hs.
Qed.

Lemma digest_complete fuel auth d :
  dmeasure auth d < fuel -> digest_loop fuel auth d = Err OutOfFuel -> forall fuel', digest_loop fuel' auth d = Err OutOfFuel.
Proof.
  revert d. induction fuel as [|fuel IH]; intros d Hm; [lia|]. cbn [digest_loop].
  destruct (d_i d <? length auth) eqn:Hi; [|done].
  destruct (digest_step auth d) as [d'|e] eqn:Hs.
  - intros H fuel'. destruct (digest_progress _ _ _ (proj1 (Nat.ltb_lt _ _) Hi) Hs) as [->|Hlt].
    + apply digest_stuck; [by apply Nat.ltb_lt|done].
    + destruct fuel'; cbn [digest_loop]; rewrite Hi; [done|]. rewrite Hs. apply IH; [lia|done].
  - intros [= ->]. intros [|fuel']; cbn [digest_loop]; rewrite Hi; [done|]. by rewrite Hs.
Qed.

Lemma loops_after auth d d' :
  d_i d < length auth -> digest_step auth d = Ok d' ->
  (forall fuel, digest_loop fuel auth d' = Err OutOfFuel) -> forall fuel, digest_loop fuel auth d = Err OutOfFuel.
Proof.
  intros Hi Hs Hl fuel. apply Nat.ltb_lt in Hi. destruct fuel; cbn [digest_loop]; rewrite Hi; [done|].
  by rewrite Hs.
Qed.

(** ** Where [parseRequest] fails to return *)
Section hangs.
Context (MD5 : bytes -> bytes) (store : HttpPassStore.t) (dangling : bytes -> bytes).
Context `{HQ : ByteQueue Q}.

(** The multipart body that has arrived is one its parser never leaves. *)
Definition body_hangs (q : Q) (r : t) : Prop :=
  has_multipart_ r = true /\ ends_with (bq_contents q) (eob (HttpMultiPart.getBoundary (multipart_ r))) = true
  /\ forall fuel, HttpMultiPart.loop fuel (bq_contents q) (drop (bq_readable q) (bq_memory q)) (multipart_ r) HttpMultiPart.start
      = Err OutOfFuel.

(** The request has a Digest header whose fields are never left. *)
Definition digest_hangs (r : t) : Prop :=
  exists x auth, HttpHeader.get (bs "Authorization") (header_ r) = Some x
    /\ starts_with x (bs "Digest") = true /\ remove_prefix x 7 = Ok auth
    /\ forall fuel, digest_loop fuel auth (DigestState 0 0 0 0 (replicate 128 NUL) (da_ r)) = Err OutOfFuel.

(** What a request whose header is complete is when its Authorization is read. *)
Definition prepare (r : t) : result t :=
  let* r := parseUrlQuery r in
  let* v := of_option Undefined (version_ r) in
  let* r := parseCookie (read_flags dangling v r) in
  parseMultiPartData r.
Definition has_content (r : t) : Prop := HttpHeader.empty (header_ r) && bool_decide (version_ r <> Some HTTP_1_0) = false.

(** The turns that lead to such a body or header. *)
Inductive hangs : Q -> t -> Prop :=
  | hangs_line q r q' r' :
      ret_code_ r = NO_REQUEST -> parseRequestLine q r = Ok (q', r') -> hangs q' r' -> hangs q r
  | hangs_header q r q' r' :
      ret_code_ r = REQUEST_LINE_DONE \/ ret_code_ r = AGAIN_HEADER ->
      parseRequestHeader q r = Ok (q', r') -> ret_code_ r' <> AGAIN_HEADER -> hangs q' r' -> hangs q r
  | hangs_digest q r r' :
      ret_code_ r = REQUEST_HEADER_DONE -> has_content r -> prepare r = Ok r' -> digest_hangs r' -> hangs q r
  | hangs_body q r r' r'' :
      ret_code_ r = REQUEST_HEADER_DONE -> has_content r -> prepare r = Ok r' -> parseAuthorization MD5 store r' = Ok r'' ->
      body_hangs q r'' -> hangs q r
  | hangs_again q r :
      ret_code_ r = AGAIN_CONTENT -> body_hangs q r -> hangs q r.
End hangs.

End HttpRequest.
Import HttpRequest.

(** ** Interface to the connection: the queue is any lawful byte queue *)
Section properties.
Context `{ByteQueueLaws Q} (MD5 : bytes -> bytes) (store : HttpPassStore.t) (dangling : bytes -> bytes).

Lemma parseRequestHeader_agrees (q : Q) r :
  bq_wf q -> agrees (parseRequestHeader q r) (header_text (S (length (bq_contents q))) (bq_contents q) r).
Proof. intros Hq. by apply header_loop_agrees. Qed.

Lemma parseRequestContent_form (q : Q) r pairs :
  bq_wf q -> has_multipart_ r = false -> bq_contents q = render_pairs "&" 0 pairs ->
  exists q', parseRequestContent q r
    = Ok (q', set_ret REQUEST_CONTENT_DONE
        (set_content (post_data_ r ++ bq_contents q) (multipart_ r) (add_pairs pairs (form_ r)) r))
  /\ bq_wf q' /\ bq_contents q' = [].
Proof.
  intros Hq Hm Hc. exists (bq_retiredAll q).
  split; [|split; [by apply bq_retiredAll_wf|by apply bq_retiredAll_contents]].
  unfold parseRequestContent. cbn [has_multipart_ set_content form_]. rewrite Hm, Hc.
  by rewrite (parseKeyValue_render "&").
Qed.

Lemma parseUrlQuery_render r path pairs :
  "?"%char ∉ path -> req_url_ r = path ++ "?"%char :: render_pairs "&" 0 pairs ->
  parseUrlQuery r = Ok (set_query (urlDecode path) (render_pairs "&" 0 pairs) (add_pairs pairs (query_ r)) r).
Proof.
  intros Hp Hu. unfold parseUrlQuery. rewrite Hu, find_char_app by done.
  rewrite substr_Ok, remove_prefix_Ok by (rewrite length_app; simpl; lia).
  rewrite drop_past, take_app_length. by rewrite (parseKeyValue_render "&").
Qed.

Lemma parseCookie_render r ck :
  HttpHeader.get (bs "Cookie") (header_ r) = render_pairs ";" 1 <$> ck -> cookies_ r = ∅ ->
  exists b, parseCookie r = Ok (set_cookies b (default ∅ ((fun l => add_pairs l ∅) <$> ck)) r).
Proof.
  intros Hg Hc. unfold parseCookie. rewrite Hg. destruct ck as [l|]; simpl.
  - rewrite (parseKeyValue_render ";") by done. rewrite Hc. by eexists.
  - exists (has_cookies_ r). rewrite <- Hc. by destruct r.
Qed.

Lemma parseMultiPartData_none r :
  starts_with (default [] (HttpHeader.get (bs "Content-Type") (header_ r))) (bs "multipart/form-data") = false ->
  parseMultiPartData r = Ok r.
Proof. unfold parseMultiPartData. destruct (HttpHeader.get _ _) as [v|]; [|done]. simpl default. by intros ->. Qed.

Lemma parseAuthorization_none r :
  HttpHeader.get (bs "Authorization") (header_ r) = None -> parseAuthorization MD5 store r = Ok r.
Proof. unfold parseAuthorization. by intros ->. Qed.

(** A request with pairs in its query, its cookies and its body. *)
Record plain := Plain {
  p_method : HttpMethod; p_path : bytes; p_query : list (bytes * bytes); p_version : HttpVersion;
  p_header : HttpHeader.t; p_cookies : option (list (bytes * bytes)); p_form : list (bytes * bytes) }.

Definition plain_target (p : plain) : bytes := p_path p ++ "?"%char :: render_pairs "&" 0 (p_query p).
Definition plain_text (p : plain) : bytes :=
  render_line (p_method p) (plain_target p) (p_version p)
  ++ HttpHeader.toString (p_header p) ++ CRLF ++ render_pairs "&" 0 (p_form p).

Definition plain_ok (p : plain) : Prop :=
  " "%char ∉ p_path p /\ "?"%char ∉ p_path p
  /\ HttpHeader.wf (p_header p) /\ Forall HttpHeader.clean (p_header p) /\ p_header p <> []
  /\ HttpHeader.get (bs "Cookie") (p_header p) = render_pairs ";" 1 <$> p_cookies p
  /\ HttpHeader.get (bs "Authorization") (p_header p) = None
  /\ starts_with (default [] (HttpHeader.get (bs "Content-Type") (p_header p))) (bs "multipart/form-data") = false.

(** Whether the connection is kept, as version and header say. *)
Definition plain_keepalive (p : plain) : bool :=
  keepalive_ (read_flags dangling (p_version p) (set_header_ (p_header p) new)).

(** The request that is made of it: what comes from its head, and all of it. *)
Definition read_head (p : plain) (r : t) : Prop :=
  method_ r = Some (p_method p) /\ version_ r = Some (p_version p)
  /\ url_ r = urlDecode (p_path p) /\ query_ r = add_pairs (p_query p) ∅ /\ header_ r = p_header p
  /\ cookies_ r = default ∅ ((fun l => add_pairs l ∅) <$> p_cookies p)
  /\ keepalive_ r = plain_keepalive p.
Definition read_as (p : plain) (r : t) : Prop :=
  read_head p r /\ form_ r = add_pairs (p_form p) ∅ /\ post_data_ r = render_pairs "&" 0 (p_form p).

(** The request when its line, and when its header is read. *)
Definition plain_line (p : plain) : t :=
  set_ret REQUEST_LINE_DONE (set_line (Some (p_method p)) (plain_target p) (Some (p_version p)) new).
Definition plain_head (p : plain) : t := set_ret REQUEST_HEADER_DONE (set_header_ (p_header p) (plain_line p)).

Lemma plain_target_no_space p : plain_ok p -> " "%char ∉ plain_target p.
Proof.
  intros (Hsp & _). unfold plain_target. rewrite elem_of_app, elem_of_cons.
  pose proof (render_pairs_not_in " " "&" (p_query p) eq_refl ltac:(done) ltac:(done)). naive_solver.
Qed.

(** From the header on: all that has arrived is the body. *)
Lemma head_body fuel (q : Q) p f :
  plain_ok p -> bq_contents q = f ->
  exists after r, parseRequest_loop MD5 store dangling (S (S fuel)) q (plain_head p)
      = (let* form := parseKeyValue f after (bs "=") (bs "&") ∅ in Ok (bq_retiredAll q, r form, REQUEST_CONTENT_DONE))
    /\ forall form, read_head p (r form) /\ form_ (r form) = form /\ post_data_ (r form) = f.
Proof.
  intros (_ & Hqm & Hwf & Hcl & Hne & Hck & Hau & Hmp) Hc.
  cbn [parseRequest_loop plain_head ret_code_ set_ret].
  erewrite parseUrlQuery_render; [|exact Hqm|reflexivity].
  cbn [of_option version_ set_query set_ret set_header_ set_line plain_head plain_line].
  replace (HttpHeader.empty _ && _) with false.
  2:{ unfold HttpHeader.empty, HttpHeader.size. simpl. destruct (p_header p); [done|by rewrite bool_decide_false]. }
  match goal with |- context[parseCookie ?r3] => destruct (parseCookie_render r3 (p_cookies p)) as [b ->]; [exact Hck|done|] end.
  rewrite parseMultiPartData_none by exact Hmp. rewrite parseAuthorization_none by exact Hau.
  match goal with |- context[parseRequestContent q ?r5] => set (r0 := r5) end.
  exists (drop (bq_readable q) (bq_memory q)),
    (fun form => set_ret REQUEST_CONTENT_DONE (set_content f (multipart_ r0) form r0)).
  split; [|by repeat split].
  assert (has_multipart_ r0 = false /\ form_ r0 = ∅ /\ post_data_ r0 = []) as (H1 & H2 & H3) by done. clearbody r0.
  unfold parseRequestContent. cbn [has_multipart_ set_content form_ multipart_ post_data_]. rewrite H1, H2, H3, Hc. cbn [app].
  by destruct (parseKeyValue f _ _ _ ∅).
Qed.

Lemma plain_body fuel (q : Q) p :
  bq_wf q -> plain_ok p -> bq_contents q = render_pairs "&" 0 (p_form p) ->
  exists q' r', parseRequest_loop MD5 store dangling (S (S fuel)) q (plain_head p) = Ok (q', r', REQUEST_CONTENT_DONE)
    /\ bq_wf q' /\ bq_contents q' = [] /\ read_as p r'.
Proof.
  intros Hq Hp Hc. destruct (head_body fuel q p _ Hp Hc) as (after & r & -> & Hr).
  rewrite (parseKeyValue_render "&") by done. eexists _, _. split; [reflexivity|].
  split; [by apply bq_retiredAll_wf|]. split; [by apply bq_retiredAll_contents|]. apply Hr.
Qed.

Lemma parseRequest_plain (q : Q) p :
  bq_wf q -> plain_ok p -> bq_contents q = plain_text p ->
  exists q' r', parseRequest MD5 store dangling q new = Ok (q', r', REQUEST_CONTENT_DONE)
    /\ bq_wf q' /\ bq_contents q' = [] /\ read_as p r'.
Proof.
  intros Hq Hp Hc. pose proof Hp as (_ & _ & Hwf & Hcl & _).
  destruct (parseRequestLine_render q new _ _ _ _ Hq Hc (plain_target_no_space _ Hp)) as (q1 & E1 & Hq1 & C1).
  unfold parseRequest. cbn [parseRequest_loop ret_code_ new]. rewrite E1. fold (plain_line p). cbn [ret_code_ set_ret plain_line].
  pose proof (parseRequestHeader_agrees q1 (plain_line p) Hq1) as Hag. rewrite C1 in Hag.
  rewrite (header_text_toString [] (p_header p)) in Hag;
    [|done|done|rewrite length_app; pose proof (HttpHeader.length_toString (p_header p)); lia|done].
  change (set_header_ ([] ++ p_header p)) with (set_header_ (p_header p)) in Hag. fold (plain_head p) in Hag.
  destruct (parseRequestHeader q1 (plain_line p)) as [[q2 r2]|]; [|done]. destruct Hag as (Hq2 & C2 & ->).
  rewrite decide_False by done. by apply (plain_body 0).
Qed.

(** [parseRequest] itself makes at most four turns; what keeps it from returning
    is a multipart body or a Digest header. *)
Lemma parseRequestHeader_fuel (q : Q) r : bq_wf q -> parseRequestHeader q r <> Err OutOfFuel.
Proof.
  intros Hq E. pose proof (parseRequestHeader_agrees q r Hq) as Hag. rewrite E in Hag.
  destruct (header_text _ _ _) eqn:F; [done|]. simpl in Hag. subst e.
  by apply (header_text_total (S (length (bq_contents q))) (bq_contents q) r) in F; [|lia].
Qed.

Lemma parseRequestContent_fuel (q : Q) r : parseRequestContent q r = Err OutOfFuel <-> body_hangs q r.
Proof.
  unfold parseRequestContent, body_hangs. cbn [has_multipart_ set_content multipart_ form_ post_data_].
  destruct (has_multipart_ r).
  - destruct (ends_with _ _); cbn [negb]; [|split; [done|by intros (_ & ? & _)]].
    match goal with |- context[HttpMultiPart.parse ?c ?a ?m] =>
      pose proof (HttpMultiPart.parse_complete c a m) as Hc; destruct (HttpMultiPart.parse c a m) eqn:E end.
    + split; [done|]. intros (_ & _ & Hl). unfold HttpMultiPart.parse in E. congruence.
    + split; [intros [= ->]; by split; [|split; [|apply Hc]]|]. intros (_ & _ & Hl). unfold HttpMultiPart.parse in E. congruence.
  - split; [|by intros (? & _)].
    match goal with |- context[parseKeyValue ?s ?a _ _ ?c] => pose proof (parseKeyValue_fuel s a "&" c) as Hn;
      change ["&"%char] with (bs "&") in Hn; destruct (parseKeyValue s a (bs "=") (bs "&") c) as [|e]; [done|congruence] end.
Qed.

Lemma parseRequestContent_wf (q q' : Q) r r' : bq_wf q -> parseRequestContent q r = Ok (q', r') -> bq_wf q'.
Proof.
  intros Hq. unfold parseRequestContent. cbn [has_multipart_ set_content multipart_ form_ post_data_].
  destruct (has_multipart_ r); [destruct (negb _)|]; intros E; rinv; [done|..]; by apply bq_retiredAll_wf.
Qed.

Lemma parseKeyValue_total_err s after c (sep : ascii) :
  parseKeyValue s after (bs "=") [sep] c <> Err OutOfFuel.
Proof. apply parseKeyValue_fuel. Qed.

Lemma parseAuthorization_fuel r : parseAuthorization MD5 store r = Err OutOfFuel -> digest_hangs r.
Proof.
  unfold parseAuthorization, digest_hangs. cbv zeta. destruct (HttpHeader.get _ _) as [x|]; [|done].
  assert (forall a b, md5HashEqual MD5 a b <> Err OutOfFuel) as Hmd
    by (intros a b; unfold md5HashEqual; by destruct (_ <? _)).
  assert (forall u p, newBasicAuth MD5 store u p <> Err OutOfFuel) as Hba.
  { intros u p. unfold newBasicAuth. cbv zeta. destruct (HttpPassStore.fetch u store) as [h|]; [|done].
    match goal with |- context[md5HashEqual MD5 ?a ?b] => specialize (Hmd a b); destruct (md5HashEqual MD5 a b) end; congruence. }
  assert (forall b v, strcat b v <> Err OutOfFuel) as Hcat by (intros b v; unfold strcat; by destruct (_ <=? _)).
  assert (forall b o, strcat_opt b o <> Err OutOfFuel) as Hopt.
  { intros b [v|]; [|done]. cbn [strcat_opt]. destruct (strcat b (bs ":")) eqn:E; [apply Hcat|congruence]. }
  assert (forall i d, newDigestAuth MD5 store i d <> Err OutOfFuel) as Hda.
  { intros i d. unfold newDigestAuth. cbv zeta. repeat (match goal with
      | |- context[match ?o with Some _ => _ | None => _ end] => destruct o
      | |- context[match of_option ?e ?o with _ => _ end] => destruct o; simpl of_option
      | |- context[match strcat ?b ?v with _ => _ end] => pose proof (Hcat b v); destruct (strcat b v)
      | |- context[match strcat_opt ?b ?v with _ => _ end] => pose proof (Hopt b v); destruct (strcat_opt b v)
      | |- context[match md5HashEqual MD5 ?b ?v with _ => _ end] => pose proof (Hmd b v); destruct (md5HashEqual MD5 b v)
      end; try congruence). }
  destruct (starts_with x (bs "Basic")).
  - unfold remove_prefix. destruct (_ <? _); [done|]. unfold Base64.base64_decode.
    destruct (Base64.decode _) as [up k]. destruct (_ <? _)%nat; [done|].
    unfold substr. destruct (find_char _ _) as [pos|]; repeat destruct (_ <? _); try done;
      match goal with |- context[newBasicAuth MD5 store ?u ?p] => pose proof (Hba u p); destruct (newBasicAuth MD5 store u p); congruence end.
  - destruct (starts_with x (bs "Digest")) eqn:Ed; [|done].
    unfold remove_prefix at 1. destruct (_ <? _) eqn:El; [done|].
    match goal with |- context[parse_digest ?a ?d] => destruct (parse_digest a d) as [da|e] eqn:E end.
    + destruct (method_ r); [|done]. cbn [of_option]. cbv beta iota.
      match goal with |- context[newDigestAuth MD5 store ?u ?p] => pose proof (Hda u p); destruct (newDigestAuth MD5 store u p); congruence end.
    + intros [= ->]. eexists _, _. split; [done|]. split; [done|]. unfold remove_prefix. rewrite El. split; [done|].
      eapply digest_complete; [|exact E]. unfold dmeasure. cbn [d_i d_state]. lia.
Qed.

Lemma digest_hangs_fuel r : digest_hangs r -> parseAuthorization MD5 store r = Err OutOfFuel.
Proof.
  intros (x & auth & Hx & Hd & Hr & Hl). unfold parseAuthorization. rewrite Hx, Hd, Hr.
  assert (starts_with x (bs "Basic") = false) as -> by (apply starts_with_spec in Hd as [t ->]; reflexivity).
  unfold parse_digest. by rewrite Hl.
Qed.

Lemma remove_prefix_fuel s n : remove_prefix s n <> Err OutOfFuel.
Proof. unfold remove_prefix. by destruct (_ <? _). Qed.

Lemma parseRequestLine_fuel (q : Q) r : parseRequestLine q r <> Err OutOfFuel.
Proof.
  assert (forall m i, parseTarget m i q r <> Err OutOfFuel) as Ht.
  { intros m i. unfold parseTarget. repeat (match goal with
      | |- context[remove_prefix ?s ?n] => pose proof (remove_prefix_fuel s n); destruct (remove_prefix s n)
      | |- context[match find_char ?c ?l with _ => _ end] => destruct (find_char c l)
      | |- context[if starts_with ?s ?p then _ else _] => destruct (starts_with s p)
      end; try congruence). }
  unfold parseRequestLine. repeat destruct (starts_with _ _); done || apply Ht.
Qed.

Lemma parseRequestLine_step (q q' : Q) r r' :
  bq_wf q -> parseRequestLine q r = Ok (q', r') ->
  bq_wf q' /\ (ret_code_ r' = BAD_REQUEST \/ ret_code_ r' = REQUEST_LINE_DONE).
Proof.
  intros Hq. assert (forall m i, parseTarget m i q r = Ok (q', r') ->
    bq_wf q' /\ (ret_code_ r' = BAD_REQUEST \/ ret_code_ r' = REQUEST_LINE_DONE)) as Ht.
  { intros m i. unfold parseTarget. destruct (remove_prefix _ _); [|done]. destruct (find_char _ _).
    - destruct (remove_prefix a (n + 1)); [|done]. repeat destruct (starts_with _ _); intros E; rinv;
        (split; [done || by apply bq_retired_wf|]); first [by left|by right].
    - intros E. rinv. split; [done|by left]. }
  unfold parseRequestLine. repeat destruct (starts_with _ _); try apply Ht. intros E. rinv. split; [done|by left].
Qed.

Lemma header_text_ret fuel s r s' r' :
  header_text fuel s r = Ok (s', r') ->
  ret_code_ r' = BAD_REQUEST \/ ret_code_ r' = REQUEST_HEADER_DONE \/ ret_code_ r' = AGAIN_HEADER.
Proof.
  revert s r. induction fuel as [|fuel IH]; intros s r; cbn [header_text]; [done|].
  destruct (starts_with s CRLF); [intros [= _ <-]; right; by left|].
  destruct (find CRLF s); [|intros [= _ <-]; right; by right].
  destruct (find_char _ _); [|intros [= _ <-]; by left]. destruct (_ <? _); [done|]. apply IH.
Qed.

Lemma parseRequestHeader_step (q q' : Q) r r' :
  bq_wf q -> parseRequestHeader q r = Ok (q', r') ->
  bq_wf q' /\ (ret_code_ r' = BAD_REQUEST \/ ret_code_ r' = REQUEST_HEADER_DONE \/ ret_code_ r' = AGAIN_HEADER).
Proof.
  intros Hq E. pose proof (parseRequestHeader_agrees q r Hq) as Hag. rewrite E in Hag.
  destruct (header_text _ _ _) as [[s r1]|] eqn:F; [|done]. destruct Hag as (Hq' & _ & ->). split; [done|].
  by eapply header_text_ret.
Qed.

Lemma parseRequestContent_step (q q' : Q) r r' :
  parseRequestContent q r = Ok (q', r') -> ret_code_ r' = AGAIN_CONTENT \/ ret_code_ r' = REQUEST_CONTENT_DONE.
Proof.
  unfold parseRequestContent. cbn [has_multipart_ set_content multipart_ form_ post_data_].
  destruct (has_multipart_ r); [destruct (negb _)|]; intros E; rinv; first [by left|by right].
Qed.

(** One content turn, then the returning one. *)
Lemma content_turn fuel (q : Q) r :
  (let* (recver, r) := parseRequestContent q r in
   if decide (ret_code_ r = AGAIN_CONTENT) then Ok (recver, r, AGAIN_CONTENT)
   else parseRequest_loop MD5 store dangling (S fuel) recver r) = Err OutOfFuel -> body_hangs q r.
Proof.
  destruct (parseRequestContent q r) as [[q1 r1]|e] eqn:E.
  - destruct (decide _) as [|Hn]; [done|]. apply parseRequestContent_step in E as [E|E]; [done|].
    cbn [parseRequest_loop]. by rewrite E.
  - intros [= ->]. by apply parseRequestContent_fuel.
Qed.

(** The turn after the header, by what it does before the content. *)
Lemma header_done fuel (q : Q) r :
  ret_code_ r = REQUEST_HEADER_DONE -> has_content r ->
  parseRequest_loop MD5 store dangling (S fuel) q r
  = let* r := prepare dangling r in
    let* r := parseAuthorization MD5 store r in
    let* (recver, r) := parseRequestContent q r in
    if decide (ret_code_ r = AGAIN_CONTENT) then Ok (recver, r, AGAIN_CONTENT) else parseRequest_loop MD5 store dangling fuel recver r.
Proof.
  intros Hr Hc. cbn [parseRequest_loop]. rewrite Hr. unfold prepare, has_content in *.
  destruct (parseUrlQuery r) as [r1|] eqn:Eu; [|done].
  assert (version_ r1 = version_ r /\ header_ r1 = header_ r) as [Ev Eh].
  { unfold parseUrlQuery in Eu. destruct (find_char _ _); [|by injection Eu as <-]. by rinv. }
  rewrite Ev, Eh. destruct (version_ r) as [v|]; [|done]. cbn [of_option].
  rewrite (bool_decide_ext (v <> HTTP_1_0) (Some v <> Some HTTP_1_0)) by naive_solver. rewrite Hc. cbn [andb].
  by destruct (parseCookie _) as [r2|].
Qed.

Lemma prepare_fuel r : prepare dangling r <> Err OutOfFuel.
Proof.
  unfold prepare.
  assert (parseUrlQuery r <> Err OutOfFuel) as Hu.
  { unfold parseUrlQuery. destruct (find_char _ _) as [pos|] eqn:E; [|done].
    unfold substr, remove_prefix. repeat destruct (_ <? _); try done.
    match goal with |- context[parseKeyValue ?s ?a _ _ ?c] => pose proof (parseKeyValue_total_err s a c "&") as Hn;
      change ["&"%char] with (bs "&") in Hn; destruct (parseKeyValue s a (bs "=") (bs "&") c); congruence end. }
  destruct (parseUrlQuery r) as [r1|]; [|congruence]. destruct (version_ r1) as [v|]; [|done]. cbn [of_option].
  set (r2 := read_flags dangling v r1).
  assert (parseCookie r2 <> Err OutOfFuel) as Hc.
  { unfold parseCookie. destruct (HttpHeader.get _ _) as [ck|]; [|done].
    match goal with |- context[parseKeyValue ?s ?a _ _ ?c] => pose proof (parseKeyValue_total_err s a c ";") as Hn;
      change [";"%char] with (bs ";") in Hn; destruct (parseKeyValue s a (bs "=") (bs ";") c); congruence end. }
  destruct (parseCookie r2) as [r3|]; [|congruence].
  unfold parseMultiPartData. destruct (HttpHeader.get _ _); [|done]. destruct (starts_with _ _); [|done].
  match goal with |- context[remove_prefix ?s ?n] => pose proof (remove_prefix_fuel s n); destruct (remove_prefix s n) end; [|congruence].
  destruct (starts_with _ _); [|done].
  match goal with |- context[remove_prefix ?s ?n] => pose proof (remove_prefix_fuel s n); destruct (remove_prefix s n) end; congruence.
Qed.

Lemma header_turn fuel (q : Q) r :
  ret_code_ r = REQUEST_HEADER_DONE ->
  parseRequest_loop MD5 store dangling (S (S fuel)) q r = Err OutOfFuel -> hangs MD5 store dangling q r.
Proof.
  intros Hr Hl. destruct (HttpHeader.empty (header_ r) && bool_decide (version_ r <> Some HTTP_1_0)) eqn:Hc.
  { exfalso. cbn [parseRequest_loop] in Hl. rewrite Hr in Hl.
    assert (parseUrlQuery r <> Err OutOfFuel) as Hu.
    { pose proof (prepare_fuel r) as Hp. unfold prepare in Hp. destruct (parseUrlQuery r); congruence. }
    destruct (parseUrlQuery r) as [r1|] eqn:Eu; [|congruence].
    assert (version_ r1 = version_ r /\ header_ r1 = header_ r) as [Ev Eh].
    { unfold parseUrlQuery in Eu. destruct (find_char _ _); [|by injection Eu as <-]. by rinv. }
    rewrite Ev, Eh in Hl. destruct (version_ r) as [v|]; [|done]. cbn [of_option] in Hl.
    rewrite (bool_decide_ext (v <> HTTP_1_0) (Some v <> Some HTTP_1_0)) in Hl by naive_solver. by rewrite Hc in Hl. }
  rewrite header_done in Hl by done. pose proof (prepare_fuel r) as Hp.
  destruct (prepare dangling r) as [r1|] eqn:E1; [|congruence].
  destruct (parseAuthorization MD5 store r1) as [r2|e] eqn:E2.
  - apply content_turn in Hl. by eapply hangs_body.
  - injection Hl as ->. apply parseAuthorization_fuel in E2. by eapply hangs_digest.
Qed.

Lemma header_iteration fuel (q : Q) r :
  ret_code_ r = REQUEST_LINE_DONE \/ ret_code_ r = AGAIN_HEADER ->
  parseRequest_loop MD5 store dangling (S fuel) q r
  = let* (recver, r) := parseRequestHeader q r in
    if decide (ret_code_ r = AGAIN_HEADER) then Ok (recver, r, AGAIN_HEADER)
    else parseRequest_loop MD5 store dangling fuel recver r.
Proof. intros [E|E]; cbn [parseRequest_loop]; by rewrite E. Qed.

Lemma again_turn fuel (q : Q) r :
  bq_wf q -> ret_code_ r = REQUEST_LINE_DONE \/ ret_code_ r = AGAIN_HEADER ->
  parseRequest_loop MD5 store dangling (S (S (S fuel))) q r = Err OutOfFuel -> hangs MD5 store dangling q r.
Proof.
  intros Hq Hr E'. rewrite header_iteration in E' by done.
  destruct (parseRequestHeader q r) as [[q1 r1]|e] eqn:Eh.
  - pose proof Eh as Eh'. apply parseRequestHeader_step in Eh' as (Hq1 & [Hb|[Hd|Ha]]); [| | |done].
    + rewrite decide_False in E' by congruence. cbn [parseRequest_loop] in E'. by rewrite Hb in E'.
    + rewrite decide_False in E' by congruence. apply header_turn in E'; [|done]. eapply hangs_header; [done|done|congruence|done].
    + by rewrite decide_True in E'.
  - injection E' as ->. by apply parseRequestHeader_fuel in Eh.
Qed.

Lemma parseRequest_returns (q : Q) r :
  bq_wf q -> parseRequest MD5 store dangling q r = Err OutOfFuel -> hangs MD5 store dangling q r.
Proof.
  intros Hq E. unfold parseRequest in E. destruct (ret_code_ r) eqn:Hr.
  - change (parseRequest_loop MD5 store dangling 4 q r) with
      (match ret_code_ r with NO_REQUEST => let* (recver, r) := parseRequestLine q r in parseRequest_loop MD5 store dangling 3 recver r
       | _ => parseRequest_loop MD5 store dangling 4 q r end) in E || (cbn [parseRequest_loop] in E).
    rewrite Hr in E. destruct (parseRequestLine q r) as [[q1 r1]|e] eqn:El.
    + pose proof El as El'. apply parseRequestLine_step in El' as (Hq1 & [Hb|Hd]); [| |done].
      * by rewrite Hb in E.
      * eapply hangs_line; [done|done|]. eapply (again_turn 0 q1 r1); [done|by left|exact E].
    + injection E as ->. by apply parseRequestLine_fuel in El.
  - eapply (again_turn 1); [done|by left|exact E].
  - eapply (header_turn 2); [done|exact E].
  - cbn [parseRequest_loop] in E. by rewrite Hr in E.
  - cbn [parseRequest_loop] in E. by rewrite Hr in E.
  - eapply (again_turn 1); [done|by right|exact E].
  - apply hangs_again; [done|]. eapply (content_turn 2 q r). cbn [parseRequest_loop] in E. by rewrite Hr in E.
Qed.

(** A request that hangs does not return after any number of turns. *)
Lemma hangs_for_ever fuel (q : Q) r : hangs MD5 store dangling q r -> parseRequest_loop MD5 store dangling fuel q r = Err OutOfFuel.
Proof.
  intros Hh'. revert fuel. induction Hh' as [q r q' r' Hr Hl _ IH|q r q' r' Hr Hh Hn _ IH|q r r' Hr Hc Hp Hd|q r r' r'' Hr Hc Hp Ha Hb|q r Hr Hb];
    (intros [|fuel]; [done|]).
  - cbn [parseRequest_loop]. by rewrite Hr, Hl.
  - rewrite header_iteration by done. rewrite Hh, decide_False by done. apply IH.
  - rewrite header_done by done. rewrite Hp. by rewrite digest_hangs_fuel.
  - rewrite header_done by done. rewrite Hp, Ha. apply parseRequestContent_fuel in Hb. by rewrite Hb.
  - cbn [parseRequest_loop]. rewrite Hr. apply parseRequestContent_fuel in Hb. by rewrite Hb.
Qed.

(** A run that has returned is the same with more turns. *)
Lemma parseRequest_loop_more fuel k (q : Q) r :
  parseRequest_loop MD5 store dangling fuel q r <> Err OutOfFuel ->
  parseRequest_loop MD5 store dangling (fuel + k) q r = parseRequest_loop MD5 store dangling fuel q r.
Proof.
  revert q r. induction fuel as [|fuel IH]; intros q r Hl; [done|]. cbn [Nat.add parseRequest_loop] in *.
  repeat match goal with
    | |- context[match ?x with _ => _ end] =>
        lazymatch x with parseRequest_loop _ _ _ _ _ _ => fail | _ => destruct x; try done end
    end; by apply IH.
Qed.

Lemma classify {A} (x : result A) : x = Err OutOfFuel \/ x <> Err OutOfFuel.
Proof. destruct x as [|e]; [by right|]. destruct e; (by left) || (by right). Qed.

Definition bad_or_undefined (q : Q) (x : result (Q * t)) : Prop :=
  x = Err Undefined \/ exists r', x = Ok (q, r') /\ ret_code_ r' = BAD_REQUEST.

Lemma parseTarget_prefix (q : Q) r m target v i j :
  " "%char ∉ target -> i + j = length (bq_contents q) ->
  drop i (bq_contents q) = take j (target ++ " "%char :: version_name v ++ CRLF) -> j < length target + 11 ->
  bad_or_undefined q (parseTarget m i q r).
Proof.
  intros Ht Hi Hd Hj. unfold parseTarget. rewrite remove_prefix_Ok by lia. rewrite Hd.
  destruct (Nat.le_gt_cases j (length target)) as [Hle|Hgt].
  - rewrite take_app_le by done. rewrite (proj2 (find_char_None _ _)).
    + right. by eexists.
    + intros Hin. apply Ht. rewrite <- (take_drop j target). apply elem_of_app. by left.
  - assert (exists k, j = length target + S k /\ k < 10) as (k & -> & Hk) by (exists (j - length target - 1); lia).
    rewrite take_app_add. cbn [take]. rewrite find_char_app by done. rewrite take_app_length.
    rewrite remove_prefix_Ok, drop_past by (rewrite length_app; simpl; lia).
    do 10 (destruct k as [|k]; [destruct v; (by left) || (right; eexists; split; reflexivity)|]). lia.
Qed.

Lemma parseRequestLine_prefix (q : Q) r m target v k :
  " "%char ∉ target -> k < length (render_line m target v) ->
  bq_contents q = take k (render_line m target v) -> bad_or_undefined q (parseRequestLine q r).
Proof.
  intros Ht Hk Hc. set (n := length (method_name m)).
  assert (length (render_line m target v) = n + 1 + (length target + 11)) as HL.
  { unfold render_line, n. rewrite length_app. cbn [length]. rewrite length_app. cbn [length]. rewrite length_app.
    destruct v; simpl; lia. }
  unfold render_line in Hc. destruct (Nat.lt_ge_cases k (S n)) as [Hlt|Hge].
  - assert (bq_contents q = take k (method_name m)) as Hs.
    { rewrite Hc. apply take_app_le. unfold n in Hlt. lia. }
    unfold parseRequestLine, parseTarget. rewrite Hs.
    destruct m; simpl in n; do 5 (destruct k as [|k]; [(by left) || (right; eexists; split; reflexivity)|]); unfold n in Hlt; lia.
  - assert (exists j, k = n + S j) as [j ->] by (exists (k - n - 1); lia).
    unfold n in Hc at 1. rewrite take_app_add in Hc. cbn [take] in Hc.
    assert (bad_or_undefined q (parseTarget m (n + 1) q r)) as Hp.
    { apply (parseTarget_prefix q r m target v (n + 1) j).
      - done.
      - rewrite Hc, length_app. cbn [length]. rewrite length_take. unfold n.
        rewrite length_app. cbn [length]. rewrite length_app. fold n. destruct v; simpl; lia.
      - rewrite Hc. apply drop_past.
      - lia. }
    unfold parseRequestLine. rewrite Hc. destruct m; exact Hp.
Qed.

(** C2: Parsing a request whole.  For any lawful receive buffer holding a
    request line, a printed header and a form body, with url-encoded pairs in
    the query, in the cookies and in the body, [parseRequest] returns
    REQUEST_CONTENT_DONE in one call, consumes the buffer, and leaves the
    method, version, decoded path, header, query, cookies and form that were
    sent. *)
Theorem request_roundtrip (q : Q) (p : plain) :
  bq_wf q -> plain_ok p -> bq_contents q = plain_text p ->
  exists q' r', parseRequest MD5 store dangling q new = Ok (q', r', REQUEST_CONTENT_DONE)
    /\ bq_contents q' = [] /\ method_ r' = Some (p_method p) /\ version_ r' = Some (p_version p)
    /\ url_ r' = urlDecode (p_path p) /\ query_ r' = add_pairs (p_query p) ∅ /\ header_ r' = p_header p
    /\ cookies_ r' = default ∅ ((fun l => add_pairs l ∅) <$> p_cookies p)
    /\ form_ r' = add_pairs (p_form p) ∅ /\ post_data_ r' = render_pairs "&" 0 (p_form p).
Proof.
  intros Hq Hp Hc. destruct (parseRequest_plain q p Hq Hp Hc) as (q' & r' & E & _ & C & Hr). unfold read_as, read_head in Hr.
  exists q', r'. tauto.
Qed.

(** The header may arrive in any pieces: if the parser has consumed the
    complete lines and asks for more, then appending the rest and going on has
    the same outcome (request, remaining bytes, or fault) as having had it all
    from the start. *)
Theorem header_chunks (q q1 qa qb : Q) (r r1 : t) (b : bytes) :
  bq_wf q -> parseRequestHeader q r = Ok (q1, r1) -> ret_code_ r1 = AGAIN_HEADER ->
  bq_append b q = Ok qa -> bq_append b q1 = Ok qb ->
  match parseRequestHeader qa r, parseRequestHeader qb r1 with
  | Ok (x, r2), Ok (y, r3) => bq_contents x = bq_contents y /\ r2 = r3
  | Err e, Err e' => e = e'
  | _, _ => False
  end.
Proof.
  intros Hq E Hret Ea Eb. pose proof (parseRequestHeader_agrees q r Hq) as Hag. rewrite E in Hag.
  destruct (header_text _ _ r) as [[s1 r1']|] eqn:F; [|done]. destruct Hag as (Hq1 & C1 & <-).
  destruct (bq_append_ok b q Hq) as (qa' & Ea' & Hqa & Ca). rewrite Ea in Ea'. injection Ea' as <-.
  destruct (bq_append_ok b q1 Hq1) as (qb' & Eb' & Hqb & Cb). rewrite Eb in Eb'. injection Eb' as <-.
  pose proof (parseRequestHeader_agrees qa r Hqa) as Ha. pose proof (parseRequestHeader_agrees qb r1 Hqb) as Hb.
  rewrite Ca in Ha. rewrite Cb, C1 in Hb.
  rewrite (header_text_chunks _ _ b _ _ _ _ (S (length (s1 ++ b))) F Hret) in Ha by lia.
  destruct (parseRequestHeader qa r) as [[x r2]|e], (parseRequestHeader qb r1) as [[y r3]|e'],
    (header_text _ (s1 ++ b) r1) as [[s2 r4]|e2]; simpl in Ha, Hb; try done.
  - destruct Ha as (_ & -> & ->), Hb as (_ & -> & ->). done.
  - by subst.
Qed.

(** C27: [parseRequest] makes at most four turns of its loop, from any state and
    any buffer: more would change nothing.  And it does not return exactly when
    these turns come to one of two things of this request: a Digest header whose
    fields are never left, or a multipart body, complete up to its closing
    boundary, that the parser of the body never leaves. *)
Theorem parseRequest_terminates (q : Q) (r : t) :
  bq_wf q ->
  (forall k, parseRequest_loop MD5 store dangling (4 + k) q r = parseRequest MD5 store dangling q r)
  /\ (parseRequest MD5 store dangling q r = Err OutOfFuel <-> hangs MD5 store dangling q r).
Proof.
  intros Hq. split; [|split; [by apply parseRequest_returns|apply hangs_for_ever]]. intros k.
  destruct (classify (parseRequest MD5 store dangling q r)) as [E|E]; [|by apply parseRequest_loop_more].
  rewrite E. apply hangs_for_ever. by apply parseRequest_returns.
Qed.

(** The request line does not wait for more input: every proper prefix of a
    request line is answered with BAD_REQUEST or is read past its end. *)
Theorem request_line_not_incremental (q : Q) (r : t) (m : HttpMethod) (target : bytes) (v : HttpVersion) (k : nat) :
  bq_wf q -> " "%char ∉ target -> k < length (render_line m target v) ->
  bq_contents q = take k (render_line m target v) ->
  bad_or_undefined q (parseRequestLine q r).
Proof. intros _. apply parseRequestLine_prefix. Qed.

(** A header line needs a space after its colon.  Without one the first
    character of the value is lost, and a line that ends at its colon raises
    [std::out_of_range], which nothing catches. *)
Theorem header_line_needs_space (q : Q) (r : t) (key v rest : bytes) (c : ascii) :
  bq_wf q -> CR ∉ key -> ":"%char ∉ key -> CR ∉ v -> c <> CR ->
  (bq_contents q = key ++ ":"%char :: CRLF ++ rest -> parseRequestHeader q r = Err OutOfRange)
  /\ (bq_contents q = key ++ ":"%char :: c :: v ++ CRLF ++ CRLF ++ rest ->
      exists q', parseRequestHeader q r
        = Ok (q', set_ret REQUEST_HEADER_DONE (set_header_ (HttpHeader.add key v (header_ r)) r))
        /\ bq_contents q' = rest).
Proof.
  clear MD5 store dangling. intros Hq Hkr Hkc Hv Hc. split; intros Hcont; pose proof (parseRequestHeader_agrees q r Hq) as Hag;
    rewrite Hcont in Hag; cbn [header_text] in Hag.
  - replace (starts_with _ CRLF) with false in Hag
      by (symmetry; destruct key as [|k key]; [done|]; simpl; rewrite bool_decide_false by set_solver; done).
    replace (key ++ ":"%char :: CRLF ++ rest) with ((key ++ [":"%char]) ++ CRLF ++ rest) in Hag by (by rewrite <- app_assoc).
    rewrite find_CRLF, take_app_length in Hag by (rewrite elem_of_app, list_elem_of_singleton; intros [?|?]; done).
    rewrite find_char_app in Hag by done. rewrite length_app in Hag. cbn [length] in Hag.
    rewrite (proj2 (Nat.ltb_lt _ _)) in Hag by lia. simpl in Hag.
    destruct (parseRequestHeader q r) as [[]|e]; [done|]. simpl in Hag. by subst.
  - replace (starts_with _ CRLF) with false in Hag
      by (symmetry; destruct key as [|k key]; [done|]; simpl; rewrite bool_decide_false by set_solver; done).
    replace (key ++ ":"%char :: c :: v ++ CRLF ++ CRLF ++ rest) with ((key ++ ":"%char :: c :: v) ++ CRLF ++ CRLF ++ rest) in Hag
      by (by rewrite <- app_assoc).
    rewrite find_CRLF, take_app_length in Hag by (rewrite elem_of_app, !elem_of_cons; intros [?|[?|[?|?]]]; done).
    rewrite find_char_app in Hag by done.
    rewrite (proj2 (Nat.ltb_ge _ _)) in Hag by (rewrite length_app; simpl; lia).
    replace (length (key ++ ":"%char :: c :: v) + 2) with (length ((key ++ ":"%char :: c :: v) ++ CRLF)) in Hag
      by (rewrite length_app; done).
    rewrite (app_assoc _ CRLF (CRLF ++ rest)), drop_app_length in Hag.
    replace (length key + 2) with (length (key ++ [":"%char; c])) in Hag by (rewrite length_app; done).
    replace (((key ++ ":"%char :: c :: v) ++ CRLF) ++ CRLF ++ rest) with ((key ++ [":"%char; c]) ++ v ++ CRLF ++ CRLF ++ rest) in Hag
      by (by rewrite <- !app_assoc).
    rewrite drop_app_length in Hag.
    replace (take (length key) _) with key in Hag by (rewrite <- app_assoc; by rewrite take_app_length).
    replace (take _ (v ++ _)) with v in Hag by (symmetry; apply take_app_length'; rewrite length_app; simpl; lia).
    rewrite (header_text_fuel _ (S (length (CRLF ++ rest)))) in Hag by (rewrite ?length_app; simpl; lia).
    cbn [header_text] in Hag. rewrite starts_with_app in Hag.
    destruct (parseRequestHeader q r) as [[q' r']|]; [|done]. destruct Hag as (_ & Hc' & ->).
    by exists q'.
Qed.

(** A multipart body that arrives in two pieces is stored as the first
    piece, then the whole body: each attempt appends all that is buffered to the
    post data, and an attempt that has to wait consumes nothing. *)
Theorem post_data_duplicated (q q1 q2 q3 : Q) (r r1 r3 : t) (a b : bytes) :
  bq_wf q -> bq_contents q = a -> parseRequestContent q r = Ok (q1, r1) -> ret_code_ r1 = AGAIN_CONTENT ->
  bq_append b q1 = Ok q2 -> parseRequestContent q2 r1 = Ok (q3, r3) ->
  post_data_ r3 = post_data_ r ++ a ++ (a ++ b).
Proof.
  intros Hq Ha E1 Hret Eb E2.
  assert (q1 = q /\ post_data_ r1 = post_data_ r ++ a) as [-> Hp].
  { unfold parseRequestContent in E1. cbn [has_multipart_ set_content multipart_ form_ post_data_] in E1.
    destruct (has_multipart_ r); [destruct (negb _)|]; rinv; try done; by subst. }
  destruct (bq_append_ok b q Hq) as (q2' & Eb' & _ & C2). rewrite Eb in Eb'. injection Eb' as <-.
  unfold parseRequestContent in E2. cbn [has_multipart_ set_content multipart_ form_ post_data_] in E2.
  rewrite C2, Hp, Ha in E2. rewrite app_assoc.
  destruct (has_multipart_ r1); [destruct (negb _)|]; by rinv.
Qed.

End properties.

Lemma put_ok b k c : k < 128 -> put b k c = Ok (<[k := c]> b).
Proof. intros H. unfold put. by rewrite (proj2 (Nat.ltb_lt _ _) H). Qed.

Lemma key_loop_key key s n k b :
  "="%char ∉ key -> k + length key <= 128 ->
  exists b', key_loop (key ++ "="%char :: s) n k b = Ok (n + length key + 1, k + length key, true, b').
Proof.
  revert n k b. induction key as [|c key IH]; intros n k b H Hl.
  - exists b. simpl. by rewrite !Nat.add_0_r.
  - apply not_elem_of_cons in H as [Hc H]. cbn [app key_loop length] in *.
    rewrite bool_decide_false, put_ok by (congruence || lia).
    destruct (IH (n + 1) (k + 1) (<[k := c]> b) H ltac:(lia)) as [b' ->]. exists b'. do 4 f_equal; lia.
Qed.

Lemma value_loop_value v s n k b :
  ","%char ∉ v -> DQUOTE ∉ v -> k + length v <= 128 ->
  exists b', value_loop (v ++ ","%char :: s) n k b = Ok (n + length v, k + length v, b').
Proof.
  revert n k b. induction v as [|c v IH]; intros n k b H Hq Hl.
  - exists b. simpl. by rewrite !Nat.add_0_r.
  - apply not_elem_of_cons in H as [Hc H], Hq as [Hd Hq]. cbn [app value_loop length] in *.
    rewrite !bool_decide_false, put_ok by (congruence || lia).
    destruct (IH (n + 1) (k + 1) (<[k := c]> b) H Hq ltac:(lia)) as [b' ->]. exists b'. do 3 f_equal; lia.
Qed.

(** A comma inside a quoted Digest value, not followed by a space, stops the
    parser of the header for ever: after the key, the quote, the start of the value and the comma it stays in the state
    that expects a comma and a space.  A request for a path with a comma is
    enough, the client repeats it in the uri field. *)
Theorem digest_comma_hangs (key v rest : bytes) (c : ascii) (da : HttpMap.t bytes) :
  "="%char ∉ key -> ","%char ∉ v -> DQUOTE ∉ v -> c <> " "%char -> length key + length v <= 128 ->
  forall fuel, digest_loop fuel (key ++ "="%char :: DQUOTE :: v ++ ","%char :: c :: rest)
    (DigestState 0 0 0 0 (replicate 128 NUL) da) = Err OutOfFuel.
Proof.
  intros Hk Hv Hq Hc Hl.
  set (auth := key ++ "="%char :: DQUOTE :: v ++ ","%char :: c :: rest).
  destruct (key_loop_key key (DQUOTE :: v ++ ","%char :: c :: rest) 0 0 (replicate 128 NUL)) as (b1 & E1); [done|lia|].
  destruct (value_loop_value v (c :: rest) 1 (length key) b1) as (b2 & E2); [done..|].
  assert (length auth = length key + (length v + (length rest + 4))) as HL
    by (unfold auth; rewrite length_app; cbn [length]; rewrite length_app; simpl; lia).
  apply (loops_after auth _ (DigestState 1 (length key + 1) (length key) (length key) b1 da)).
  { cbn [d_i]. lia. }
  { unfold digest_step. cbn [d_state d_i d_k d_v d_buffer d_da]. rewrite drop_0. unfold auth. by rewrite E1. }
  eapply loops_after.
  { cbn [d_i]. lia. }
  { unfold digest_step. cbn [d_state d_i d_k d_v d_buffer d_da].
    assert (drop (length key + 1) auth = DQUOTE :: v ++ ","%char :: c :: rest) as -> by apply drop_past.
    cbv zeta iota. rewrite bool_decide_true by done. cbn [drop]. rewrite drop_0, E2. reflexivity. }
  apply digest_stuck; [cbn [d_i]; lia|].
  unfold digest_step. cbn [d_state d_i]. unfold auth at 1.
  replace (drop (length key + 1 + (1 + length v)) _) with (","%char :: c :: rest).
  - cbn [starts_with bs]. by rewrite (bool_decide_false (" "%char = c)) by congruence.
  - rewrite <- (drop_drop _ (1 + length v) (length key + 1)), drop_past. cbn [drop Nat.add]. by rewrite drop_app_length.
Qed.

Lemma digest_comma_hangs_witness :
  digest_loop 1000 (bs "uri" ++ "="%char :: DQUOTE :: bs "/a" ++ ","%char :: "b"%char :: [DQUOTE])
    (DigestState 0 0 0 0 (replicate 128 NUL) ∅) = Err OutOfFuel.
Proof.
  refine (digest_comma_hangs (bs "uri") (bs "/a") [DQUOTE] "b" ∅ _ _ _ _ _ 1000);
    apply (bool_decide_unpack _); vm_compute; exact I.
Defined.

(** ** Concrete requests, in a [Buffer] *)

(** A buffer that has just received [s]. *)
Definition received (s : bytes) : Buffer.t := Buffer.Make s 0 (length s).

Lemma received_wf s : bq_wf (received s).
Proof. unfold received. simpl. unfold Buffer.wf. simpl. lia. Qed.

Lemma received_contents s : bq_contents (received s) = s.
Proof. unfold received, bq_contents. simpl. unfold Buffer.memory. simpl. rewrite drop_0. apply take_ge. unfold Buffer.readable. simpl. lia. Qed.

Definition demo_plain : plain :=
  Plain POST (bs "/login") [(bs "next", bs "/a b")] HTTP_1_1
    [(bs "cookie", bs "id=7; t=x"); (bs "host", bs "localhost")]
    (Some [(bs "id", bs "7"); (bs "t", bs "x")]) [(bs "user", bs "mike"); (bs "pass", bs "a&b=c")].

Lemma request_roundtrip_witness :
  exists q' r', parseRequest demo_md5 demo_store id (received (plain_text demo_plain)) new
      = Ok (q', r', REQUEST_CONTENT_DONE)
    /\ HttpMap.get (bs "pass") (form_ r') = Some (bs "a&b=c") /\ HttpMap.get (bs "t") (cookies_ r') = Some (bs "x").
Proof.
  destruct (request_roundtrip demo_md5 demo_store id (received (plain_text demo_plain)) demo_plain
    (received_wf _)) as (q' & r' & E & _ & _ & _ & _ & _ & _ & Ec & Ef & _).
  - repeat split; try (apply (bool_decide_unpack _); vm_compute; exact I).
    all: repeat constructor; simpl; try (apply (bool_decide_unpack _); vm_compute; exact I).
  - apply received_contents.
  - exists q', r'. split; [exact E|]. rewrite Ef, Ec. split; vm_compute; reflexivity.
Defined.

Definition demo_request : t := set_ret REQUEST_LINE_DONE (set_line (Some GET) (bs "/") (Some HTTP_1_1) new).

Lemma header_chunks_witness :
  let q := received (bs "a: 1" ++ CRLF ++ bs "b: ") in
  exists q1 r1 qa qb, parseRequestHeader q demo_request = Ok (q1, r1)
    /\ match parseRequestHeader qa demo_request, parseRequestHeader qb r1 with
       | Ok (x, r2), Ok (y, r3) => bq_contents x = bq_contents y /\ r2 = r3
       | Err e, Err e' => e = e'
       | _, _ => False
       end
    /\ ret_code_ r1 = AGAIN_HEADER /\ bq_contents qb = bs "b: 2" ++ CRLF ++ CRLF.
Proof.
  do 4 eexists. split; [vm_compute; reflexivity|]. split; [|split].
  - eapply (header_chunks (received (bs "a: 1" ++ CRLF ++ bs "b: ")) _ _ _ demo_request _ (bs "2" ++ CRLF ++ CRLF)).
    + apply received_wf.
    + vm_compute. reflexivity.
    + reflexivity.
    + vm_compute. reflexivity.
    + vm_compute. reflexivity.
  - reflexivity.
  - vm_compute. reflexivity.
Defined.

(** A multipart body that the parser of the body never leaves. *)
Lemma parseRequest_terminates_witness :
  let q := received (bs "POST / HTTP/1.1" ++ CRLF ++ bs "Content-Type: multipart/form-data; boundary=b" ++ CRLF ++ CRLF
    ++ bs "x--b--" ++ CRLF) in
  parseRequest demo_md5 demo_store id q new = Err OutOfFuel /\ hangs demo_md5 demo_store id q new.
Proof.
  split; [vm_compute; reflexivity|].
  apply (parseRequest_terminates demo_md5 demo_store id (received (bs "POST / HTTP/1.1" ++ CRLF
    ++ bs "Content-Type: multipart/form-data; boundary=b" ++ CRLF ++ CRLF ++ bs "x--b--" ++ CRLF)) new).
  - apply received_wf.
  - vm_compute. reflexivity.
Defined.

Lemma request_line_not_incremental_witness :
  bad_or_undefined (received (bs "GET /x HTT")) (parseRequestLine (received (bs "GET /x HTT")) new).
Proof.
  apply (request_line_not_incremental (received (bs "GET /x HTT")) new GET (bs "/x") HTTP_1_1 10).
  - apply received_wf.
  - apply (bool_decide_unpack _). vm_compute. exact I.
  - vm_compute. lia.
  - vm_compute. reflexivity.
Defined.

Lemma header_line_needs_space_witness :
  parseRequestHeader (received (bs "Host:" ++ CRLF ++ CRLF)) demo_request = Err OutOfRange.
Proof.
  apply (header_line_needs_space (received (bs "Host:" ++ CRLF ++ CRLF)) demo_request (bs "Host") [] CRLF "x"%char).
  - apply received_wf.
  - apply (bool_decide_unpack _). vm_compute. exact I.
  - apply (bool_decide_unpack _). vm_compute. exact I.
  - apply (bool_decide_unpack _). vm_compute. exact I.
  - discriminate.
  - apply received_contents.
Defined.

Definition demo_upload : t :=
  set_ret AGAIN_CONTENT (set_multipart true (HttpMultiPart.setBoundary (bs "b") HttpMultiPart.new) new).

Lemma post_data_duplicated_witness :
  exists q1 r1 q2 q3 r3, parseRequestContent (received (bs "--b--")) demo_upload = Ok (q1, r1)
    /\ bq_append CRLF q1 = Ok q2 /\ parseRequestContent q2 r1 = Ok (q3, r3)
    /\ post_data_ r3 = bs "--b--" ++ bs "--b--" ++ CRLF.
Proof.
  do 5 eexists. split; [vm_compute; reflexivity|]. split; [vm_compute; reflexivity|].
  split; [vm_compute; reflexivity|].
  eapply (post_data_duplicated (received (bs "--b--")) _ _ _ demo_upload _ _ (bs "--b--") CRLF).
  - apply received_wf.
  - apply received_contents.
  - vm_compute. reflexivity.
  - reflexivity.
  - vm_compute. reflexivity.
  - vm_compute. reflexivity.
Defined.
