(* ===== verification/RequestPieces.v ===== *)
(** * RequestPieces: a request as its bytes arrive

    A connection is read piece by piece, and [onMessage] calls [parseRequest]
    after each with the request it keeps as the context of the connection.  What
    the pieces of one request add up to, and what becomes of a body that does not
    arrive with its header. *)
From S2P Require Import Prelude CStr Buffer EncodeUtil HttpUtil HttpMap HttpHeader HttpAuth HttpRequest.
Import EncodeUtil HttpRequest.
#[local] Existing Instance HttpRequest.RetCode_eq_dec.

(** The codes for which [onMessage] waits for more. *)
Definition waits (c : RetCode) : bool := bool_decide (c <> BAD_REQUEST) && bool_decide (c <> REQUEST_CONTENT_DONE).

Section pieces.
Context `{ByteQueueLaws Q} (MD5 : bytes -> bytes) (store : HttpPassStore.t) (dangling : bytes -> bytes).
Implicit Types (q : Q) (r : t) (p : plain) (s b : bytes).

Notation parseRequest := (parseRequest MD5 store dangling).
Notation parseRequest_loop := (parseRequest_loop MD5 store dangling).

(** The pieces are received and parsed until the request is done or bad; what is
    left are the pieces that come later. *)
Fixpoint feed (pieces : list bytes) q r : result (Q * t * RetCode * list bytes) :=
  match pieces with
  | [] => Ok (q, r, ret_code_ r, [])
  | b :: pieces =>
      let* recver := bq_append b q in
      let* (recver, req, c) := parseRequest recver r in
      if waits c then feed pieces recver req else Ok (recver, req, c, pieces)
  end.

(** The request up to its body. *)
Definition head_text p : bytes :=
  render_line (p_method p) (plain_target p) (p_version p) ++ HttpHeader.toString (p_header p) ++ CRLF.

Lemma plain_text_head p : plain_text p = head_text p ++ render_pairs "&" 0 (p_form p).
Proof. unfold plain_text, head_text. by rewrite <- !app_assoc. Qed.

(** ** A header that is not complete *)
Lemma line_prefix_again (e : bytes * bytes) s b r fuel :
  HttpHeader.clean e -> s ++ b = HttpHeader.line e -> b <> [] ->
  header_text (S fuel) s r = Ok (s, set_ret AGAIN_HEADER r).
Proof.
  intros He E Hb. destruct (HttpHeader.parse_line e [] He) as (F & _). rewrite app_nil_r in F.
  assert (length s < length (HttpHeader.line e)) as Hl by (rewrite <- E, length_app; destruct b; [done|simpl; lia]).
  assert (starts_with s CRLF = false) as Es.
  { destruct (Nat.lt_ge_cases (length s) 2); [apply starts_with_short; simpl; lia|].
    rewrite <- (starts_with_longer s b) by (simpl; lia). rewrite E, <- (app_nil_r (HttpHeader.line e)).
    apply HttpHeader.starts_with_line. by destruct He as (_ & ? & _). }
  cbn [header_text]. rewrite Es. destruct (find CRLF s) as [i|] eqn:Ef; [|done]. exfalso.
  pose proof (find_bound _ _ _ Ef) as Hi. apply (find_app _ _ b) in Ef. rewrite E, F in Ef. injection Ef as <-.
  rewrite HttpHeader.length_line in Hl. simpl in Hi. lia.
Qed.

(** A proper prefix of a printed header waits. *)
Lemma header_prefix_again (h : HttpHeader.t) s b r fuel :
  Forall HttpHeader.clean h -> s ++ b = HttpHeader.toString h ++ CRLF -> b <> [] -> length s < fuel ->
  exists s' r', header_text fuel s r = Ok (s', r') /\ ret_code_ r' = AGAIN_HEADER.
Proof.
  revert s r fuel. induction h as [|e h IH]; intros s r fuel Hc E Hb Hf; (destruct fuel as [|fuel]; [lia|]).
  - assert (length s < 2) as Hl.
    { apply (f_equal length) in E. rewrite length_app in E. simpl in E. destruct b; [done|simpl in E; lia]. }
    cbn [header_text]. rewrite starts_with_short by (simpl; lia). destruct (find CRLF s) eqn:Ef; [|by eexists _, _].
    apply find_bound in Ef. simpl in Ef. lia.
  - apply Forall_cons in Hc as [He Hc]. rewrite HttpHeader.toString_cons, <- app_assoc in E.
    destruct (Nat.lt_ge_cases (length s) (length (HttpHeader.line e))) as [Hl|Hl].
    + rewrite (line_prefix_again e s (drop (length s) (HttpHeader.line e))); [by eexists _, _|done| |].
      * apply (f_equal (take (length (HttpHeader.line e)))) in E. rewrite take_app_length in E.
        rewrite take_app_ge in E by lia. rewrite <- E at 1. rewrite drop_app_length. by rewrite E.
      * intros En. apply (f_equal length) in En. rewrite length_drop in En. simpl in En. lia.
    + assert (s = HttpHeader.line e ++ drop (length (HttpHeader.line e)) s) as Es.
      { rewrite <- (take_drop (length (HttpHeader.line e)) s) at 1. f_equal.
        apply (f_equal (take (length (HttpHeader.line e)))) in E. rewrite take_app_length in E.
        by rewrite take_app_le in E. }
      rewrite Es, header_text_line by done.
      apply IH; [done| |done|rewrite length_drop; pose proof (HttpHeader.length_line e); lia].
      rewrite Es, <- app_assoc in E. by apply app_inv_head in E.
Qed.

(** ** Going on with more bytes *)
(** The parser has read the header bytes [s] and waits for more. *)
Definition waiting_after p s q r : Prop :=
  bq_wf q /\ ret_code_ r = AGAIN_HEADER /\ exists fuel, header_text fuel s (plain_line p) = Ok (bq_contents q, r).

(** The header bytes [s], read before, and [b], just received. *)
Definition now_read p s b q r : Prop := bq_wf q /\ header_text (S (length (bq_contents q))) (bq_contents q) r
  = header_text (S (length (s ++ b))) (s ++ b) (plain_line p).

Lemma waiting_append p s b q q1 r :
  waiting_after p s q r -> bq_wf q1 -> bq_contents q1 = bq_contents q ++ b -> now_read p s b q1 r.
Proof.
  intros (_ & Hr & fuel & F) Hq1 C. split; [done|]. rewrite C. symmetry. by apply (header_text_chunks fuel); [..|lia|lia].
Qed.

(** The header does not touch what the request line says. *)
Lemma header_text_line_kept fuel s r s' r' :
  header_text fuel s r = Ok (s', r') -> method_ r' = method_ r /\ version_ r' = version_ r.
Proof.
  revert s r. induction fuel as [|fuel IH]; intros s r; cbn [header_text]; [done|].
  destruct (starts_with s CRLF); [by intros [= _ <-]|]. destruct (find CRLF s); [|by intros [= _ <-]].
  destruct (find_char _ _); [|by intros [= _ <-]]. destruct (_ <? _); [done|]. intros E. by apply IH in E.
Qed.

(** Still not all of the header. *)
Lemma read_waits p s b t fuel q r :
  plain_ok p -> s ++ b ++ t = HttpHeader.toString (p_header p) ++ CRLF -> t <> [] -> now_read p s b q r ->
  ret_code_ r = REQUEST_LINE_DONE \/ ret_code_ r = AGAIN_HEADER ->
  exists q' r', parseRequest_loop (S fuel) q r = Ok (q', r', AGAIN_HEADER) /\ waiting_after p (s ++ b) q' r'.
Proof.
  intros (_ & _ & _ & Hcl & _) E Ht [Hq F] Hr. rewrite header_iteration by done.
  destruct (header_prefix_again _ (s ++ b) t (plain_line p) (S (length (s ++ b))) Hcl) as (s' & r' & G & Hr'); [by rewrite <- app_assoc|done|lia|].
  pose proof (parseRequestHeader_agrees q r Hq) as Hag. rewrite F, G in Hag.
  destruct (parseRequestHeader q r) as [[q' r1]|]; [|done]. destruct Hag as (Hq' & C & ->).
  rewrite decide_True by done. exists q', r'. split; [done|]. split; [done|]. split; [done|]. rewrite C. by eexists.
Qed.

(** The rest of the header and the bytes [f] behind it. *)
Lemma read_header p s b f fuel q r :
  plain_ok p -> s ++ b = HttpHeader.toString (p_header p) ++ CRLF ++ f -> now_read p s b q r ->
  ret_code_ r = REQUEST_LINE_DONE \/ ret_code_ r = AGAIN_HEADER ->
  exists q', parseRequest_loop (S fuel) q r = parseRequest_loop fuel q' (plain_head p) /\ bq_wf q' /\ bq_contents q' = f.
Proof.
  intros (_ & _ & Hwf & Hcl & _) E [Hq F] Hr. rewrite header_iteration by done.
  pose proof (parseRequestHeader_agrees q r Hq) as Hag. rewrite F, E in Hag.
  rewrite (header_text_toString [] (p_header p)) in Hag;
    [|done|done|rewrite length_app; pose proof (HttpHeader.length_toString (p_header p)); lia|done].
  change (set_header_ ([] ++ p_header p)) with (set_header_ (p_header p)) in Hag. fold (plain_head p) in Hag.
  destruct (parseRequestHeader q r) as [[q' r1]|]; [|done]. destruct Hag as (Hq' & C & ->).
  rewrite decide_False by done. by exists q'.
Qed.

(** The first piece holds the request line. *)
Lemma read_line p b q :
  plain_ok p -> bq_wf q -> bq_contents q = render_line (p_method p) (plain_target p) (p_version p) ++ b ->
  exists q1, parseRequest q new = parseRequest_loop 3 q1 (plain_line p) /\ now_read p [] b q1 (plain_line p).
Proof.
  intros Hp Hq C. destruct (parseRequestLine_render q new _ _ _ _ Hq C (plain_target_no_space _ Hp)) as (q1 & E1 & Hq1 & C1).
  exists q1. unfold HttpRequest.parseRequest. split; [|split; [done|by rewrite C1]].
  change (HttpRequest.parseRequest_loop MD5 store dangling 4 q new)
    with (let* (recver, req) := parseRequestLine q new in parseRequest_loop 3 recver req). by rewrite E1.
Qed.

(** A part that is shorter than [t] leaves some of it. *)
Lemma prefix_rest (s x t y : bytes) : s ++ x = t ++ y -> length s < length t -> exists u, s ++ u = t /\ u <> [].
Proof.
  intros E Hl. exists (drop (length s) t). split.
  - apply (f_equal (take (length s))) in E. rewrite take_app_length, take_app_le in E by lia.
    rewrite E at 1. apply take_drop.
  - intros En. apply (f_equal length) in En. rewrite length_drop in En. simpl in En. lia.
Qed.

(** ** A request of which [s] has arrived *)
Definition line_text p : bytes := render_line (p_method p) (plain_target p) (p_version p).

Inductive arrived p s q r : Prop :=
  | arrived_nothing : s = [] -> r = new -> bq_wf q -> bq_contents q = [] -> arrived p s q r
  | arrived_part s' : s = line_text p ++ s' -> waiting_after p s' q r -> arrived p s q r.

(** The next piece, in the buffer [q1], leaves the header incomplete. *)
Lemma piece_waits p s b t q q1 r :
  plain_ok p -> arrived p s q r -> bq_wf q1 -> bq_contents q1 = bq_contents q ++ b ->
  s ++ b ++ t = plain_text p -> length (line_text p) <= length (s ++ b) < length (head_text p) ->
  exists q' r', parseRequest q1 r = Ok (q', r', AGAIN_HEADER) /\ arrived p (s ++ b) q' r'
    /\ method_ r' = Some (p_method p) /\ version_ r' = Some (p_version p).
Proof.
  intros Hp Ha Hq1 C E Hl.
  assert (exists u, parseRequest q1 r = u /\ forall q' r', u = Ok (q', r', AGAIN_HEADER) ->
    forall s', s ++ b = line_text p ++ s' -> waiting_after p s' q' r' ->
    arrived p (s ++ b) q' r' /\ method_ r' = Some (p_method p) /\ version_ r' = Some (p_version p)) as (u & Eu & Hu).
  { eexists. split; [done|]. intros q' r' _ s' Es Hw. split; [by eapply arrived_part|].
    destruct Hw as (_ & _ & fuel & F). by apply header_text_line_kept in F. }
  rewrite Eu. unfold head_text in Hl. fold (line_text p) in Hl. set (T := HttpHeader.toString (p_header p) ++ CRLF) in *.
  assert (plain_text p = line_text p ++ T ++ render_pairs "&" 0 (p_form p)) as Ept by (unfold plain_text, T; by rewrite <- app_assoc).
  assert (exists s', s ++ b = line_text p ++ s') as [s' Es].
  { rewrite Ept, app_assoc in E. exists (drop (length (line_text p)) (s ++ b)). rewrite <- (take_drop (length (line_text p)) (s ++ b)) at 1.
    f_equal. apply (f_equal (take (length (line_text p)))) in E. by rewrite take_app_length, take_app_le in E by lia. }
  assert (length s' < length T) as Hl' by (rewrite Es, !length_app in Hl; lia).
  rewrite app_assoc, Es, Ept, <- app_assoc in E. apply app_inv_head in E.
  destruct (prefix_rest s' _ T _ E) as (v & Ev & Hv); [done|].
  destruct Ha as [-> -> Hq Cq|s0 -> Hw].
  - rewrite Cq in C. cbn [app] in C, Es. rewrite Es in C.
    destruct (read_line p s' q1 Hp Hq1 C) as (q2 & E2 & Hn).
    destruct (read_waits p [] s' v 2 q2 (plain_line p) Hp) as (q3 & r3 & E3 & Hw3); [done|done|done|by left|].
    exists q3, r3. rewrite <- Eu, E2. split; [done|]. eapply Hu; [by rewrite <- Eu, E2|done|done].
  - rewrite <- app_assoc in Es. apply app_inv_head in Es. subst s'.
    destruct (read_waits p s0 b v 3 q1 r Hp) as (q3 & r3 & E3 & Hw3);
      [by rewrite app_assoc|done|by eapply waiting_append|right; apply Hw|].
    exists q3, r3. split; [by rewrite <- Eu|]. eapply Hu; [by rewrite <- Eu|by rewrite app_assoc|done].
Qed.

(** The last piece. *)
Lemma piece_done p s b q q1 r :
  plain_ok p -> arrived p s q r -> bq_wf q1 -> bq_contents q1 = bq_contents q ++ b -> s ++ b = plain_text p ->
  exists q' r', parseRequest q1 r = Ok (q', r', REQUEST_CONTENT_DONE) /\ bq_wf q' /\ bq_contents q' = [] /\ read_as dangling p r'.
Proof.
  intros Hp Ha Hq1 C E. destruct Ha as [-> -> Hq Cq|s0 -> Hw].
  - apply parseRequest_plain; [done|done|]. by rewrite C, Cq, <- E.
  - unfold plain_text in E. fold (line_text p) in E. rewrite <- app_assoc in E. apply app_inv_head in E.
    pose proof Hw as (_ & Hr & _). destruct (read_header p s0 b (render_pairs "&" 0 (p_form p)) 3 q1 r Hp E) as (q2 & E2 & Hq2 & C2);
      [by eapply waiting_append|by right|].
    unfold HttpRequest.parseRequest. rewrite E2. by apply plain_body.
Qed.

(** ** All pieces *)
Lemma feed_arrived (pieces : list bytes) b p s q r :
  plain_ok p -> arrived p s q r -> s ++ mjoin pieces ++ b = plain_text p -> length (s ++ mjoin pieces) < length (head_text p) ->
  (forall first rest, pieces = first :: rest -> length (line_text p) <= length (s ++ first)) ->
  exists q' r', feed (pieces ++ [b]) q r = Ok (q', r', REQUEST_CONTENT_DONE, []) /\ bq_wf q' /\ bq_contents q' = [] /\ read_as dangling p r'.
Proof.
  intros Hp. revert s q r. induction pieces as [|b1 pieces IH]; intros s q r Ha E Hl Hf; cbn [feed app].
  - assert (bq_wf q) as Hq by (destruct Ha as [| ? ? Hw]; [done|apply Hw]).
    destruct (bq_append_ok b q Hq) as (q1 & -> & Hq1 & C).
    destruct (piece_done p s b q q1 r Hp Ha Hq1 C E) as (q' & r' & -> & H'). by exists q', r'.
  - assert (bq_wf q) as Hq by (destruct Ha as [| ? ? Hw]; [done|apply Hw]).
    destruct (bq_append_ok b1 q Hq) as (q1 & -> & Hq1 & C).
    change (mjoin (b1 :: pieces)) with (b1 ++ mjoin pieces) in E, Hl.
    specialize (Hf b1 pieces eq_refl). rewrite <- app_assoc in E. rewrite app_assoc in Hl.
    destruct (piece_waits p s b1 (mjoin pieces ++ b) q q1 r Hp Ha Hq1 C E) as (q2 & r2 & -> & Ha2 & _); [rewrite length_app in Hl; lia|].
    apply (IH (s ++ b1)); [done|by rewrite <- app_assoc|done|]. intros first rest _. rewrite length_app. lia.
Qed.

(** C13: A request in pieces.  However the bytes of a request with url-encoded
    pairs in its query, its cookies and its body are cut, as long as the request
    line is in the first piece and the end of the header in the last: receiving
    and parsing piece after piece waits at each but the last, where it is done,
    and the request then holds the method, version, decoded path, header, query,
    cookies, form and body that were sent. *)
Theorem request_in_pieces (pieces : list bytes) b p q :
  bq_wf q -> bq_contents q = [] -> plain_ok p -> mjoin pieces ++ b = plain_text p ->
  length (mjoin pieces) < length (head_text p) ->
  (forall first rest, pieces = first :: rest -> length (line_text p) <= length first) ->
  exists q' r', feed (pieces ++ [b]) q new = Ok (q', r', REQUEST_CONTENT_DONE, [])
    /\ bq_contents q' = [] /\ method_ r' = Some (p_method p) /\ version_ r' = Some (p_version p)
    /\ url_ r' = urlDecode (p_path p) /\ query_ r' = add_pairs (p_query p) ∅ /\ header_ r' = p_header p
    /\ cookies_ r' = default ∅ ((fun l => add_pairs l ∅) <$> p_cookies p)
    /\ form_ r' = add_pairs (p_form p) ∅ /\ post_data_ r' = render_pairs "&" 0 (p_form p).
Proof.
  intros Hq C Hp E Hl Hf. destruct (feed_arrived pieces b p [] q new Hp) as (q' & r' & F & _ & C' & Hr); [by apply arrived_nothing|done..|].
  exists q', r'. unfold read_as, read_head in Hr. tauto.
Qed.

(** C36: The length of a body is not looked at.  Whatever the Content-Length of a
    request that is not multipart says, all that the receive buffer holds behind
    the header when the header is complete is its body, and the buffer is
    emptied: it is not waited for the rest of a body, which a fresh request then
    answers with BAD_REQUEST unless it starts with the name of a method, and a
    second request behind the first is part of the body of the first. *)
Theorem content_is_what_arrived (body late : bytes) p q q2 :
  bq_wf q -> plain_ok p -> bq_contents q = head_text p ++ body ->
  (exists after, match parseRequest q new with
   | Ok (q', r', c) => c = REQUEST_CONTENT_DONE /\ bq_contents q' = [] /\ post_data_ r' = body
       /\ parseKeyValue body after (bs "=") (bs "&") ∅ = Ok (form_ r')
   | Err e => parseKeyValue body after (bs "=") (bs "&") ∅ = Err e
   end)
  /\ (bq_contents q2 = late -> Forall (fun m => starts_with late (method_name m) = false) [GET; POST; HEAD] ->
      exists r', parseRequest q2 new = Ok (q2, r', BAD_REQUEST)).
Proof.
  intros Hq Hp C. split.
  - unfold head_text in C. rewrite <- !app_assoc in C. destruct (read_line p _ q Hp Hq C) as (q1 & -> & Hn).
    destruct (read_header p [] _ body 2 q1 (plain_line p) Hp eq_refl Hn) as (q3 & -> & Hq3 & C3); [by left|].
    destruct (head_body MD5 store dangling 0 q3 p body Hp C3) as (after & r & -> & Hr). exists after.
    destruct (parseKeyValue body after _ _ ∅) as [form|e]; [|done]. destruct (Hr form) as (_ & Hfo & Hpo).
    split; [done|]. split; [by apply bq_retiredAll_contents|]. by rewrite Hfo.
  - intros Cl Hm. apply Forall_cons in Hm as [H1 Hm]. apply Forall_cons in Hm as [H2 Hm]. apply Forall_cons in Hm as [H3 _].
    exists (set_ret BAD_REQUEST new). change (parseRequest q2 new)
      with (let* (recver, req) := parseRequestLine q2 new in parseRequest_loop 3 recver req).
    unfold parseRequestLine. rewrite Cl. cbn [method_name] in *. by rewrite H1, H2, H3.
Qed.

End pieces.

(** ** A form in three pieces, and one whose body is late *)
Lemma demo_plain_ok : plain_ok demo_plain.
Proof.
  repeat split; try (apply (bool_decide_unpack _); vm_compute; exact I).
  all: repeat constructor; simpl; try (apply (bool_decide_unpack _); vm_compute; exact I).
Qed.

Definition piece1 : bytes := take 45 (plain_text demo_plain).
Definition piece2 : bytes := take 20 (drop 45 (plain_text demo_plain)).
Definition piece3 : bytes := drop 65 (plain_text demo_plain).

Lemma request_in_pieces_witness :
  exists q' r', feed demo_md5 demo_store id [piece1; piece2; piece3] (received []) new = Ok (q', r', REQUEST_CONTENT_DONE, [])
    /\ HttpMap.get (bs "pass") (form_ r') = Some (bs "a&b=c").
Proof.
  destruct (request_in_pieces demo_md5 demo_store id [piece1; piece2] piece3 demo_plain (received []) (received_wf _))
    as (q' & r' & E & _ & _ & _ & _ & _ & _ & _ & Ef & _).
  - vm_compute. reflexivity.
  - exact demo_plain_ok.
  - vm_compute. reflexivity.
  - vm_compute. lia.
  - intros first rest E. injection E as <- <-. vm_compute. lia.
  - exists q', r'. split; [exact E|]. rewrite Ef. vm_compute. reflexivity.
Defined.

(** Half of the body arrives with the header; the other half is a bad request. *)
Lemma content_is_what_arrived_witness :
  (exists q' r', parseRequest demo_md5 demo_store id (received (head_text demo_plain ++ bs "user=mi")) new = Ok (q', r', REQUEST_CONTENT_DONE)
     /\ post_data_ r' = bs "user=mi" /\ HttpMap.get (bs "user") (form_ r') = Some (bs "mi"))
  /\ exists r', parseRequest demo_md5 demo_store id (received (bs "ke&pass=x")) new = Ok (received (bs "ke&pass=x"), r', BAD_REQUEST).
Proof.
  destruct (content_is_what_arrived demo_md5 demo_store id (bs "user=mi") (bs "ke&pass=x") demo_plain
    (received (head_text demo_plain ++ bs "user=mi")) (received (bs "ke&pass=x")) (received_wf _) demo_plain_ok
    (received_contents _)) as [[after H] H2].
  split.
  - destruct (parseRequest _ _ _ _ _) as [[[q' r'] c]|e] eqn:E; [|vm_compute in E; discriminate E].
    destruct H as (-> & _ & Hp & _). exists q', r'. split; [reflexivity|]. split; [exact Hp|].
    vm_compute in E. injection E as _ <-. vm_compute. reflexivity.
  - apply H2; [vm_compute; reflexivity|]. repeat constructor; vm_compute; reflexivity.
Defined.
