(* ===== verification/ThreadPool.v ===== *)
(** * ThreadPool: the pool the tasks run in

    Models [soc/net/include/ThreadPool.h].  The threads interleave at the
    pool's atomic flag, its mutex and its condition variable: a worker that holds
    the mutex decides to wait ([WillWait]) and only then releases it and sleeps
    ([Waiting]); a call of [add] tests the flag, takes the mutex to push
    ([Pushing]) and notifies without it ([Notifying]); [shutdownAll] clears the
    flag without the mutex and then notifies. *)
From S2P Require Import Prelude.

Module ThreadPool.

Section pool.
Context {Task : Type}.

(** Where a worker is in [run], a call in [add], and [shutdownAll]. *)
Inductive worker := Enter | WillWait | Waiting | Busy (task : Task) | Exited.
Inductive caller := Pushing (task : Task) | Notifying.
Inductive stage := Serving | Stopping | Joining.

Record t := Make {
  tasks_ : list Task; running_ : bool; threads_ : list worker;
  (** the calls of [add] that have not returned, and [shutdownAll] *)
  callers : list caller; stage_ : stage;
  (** the tasks pushed, those of them pushed while [running_] was set, and those
      started and finished, in order *)
  added : list Task; in_time : list Task; started : list Task; finished : list Task }.

Definition new (max_threads : nat) : t := Make [] true (replicate max_threads Enter) [] Serving [] [] [] [].

Definition lock_free (p : t) : Prop := Forall (fun w => w <> WillWait) (threads_ p).

Definition set_threads (l : list worker) (p : t) : t :=
  Make (tasks_ p) (running_ p) l (callers p) (stage_ p) (added p) (in_time p) (started p) (finished p).
Definition set_thread (i : nat) (w : worker) (p : t) : t := set_threads (<[i := w]> (threads_ p)) p.
Definition set_callers (l : list caller) (p : t) : t :=
  Make (tasks_ p) (running_ p) (threads_ p) l (stage_ p) (added p) (in_time p) (started p) (finished p).

(** One turn of [run]'s loop with the mutex held: what the worker does next. *)
Definition check (i : nat) (p : t) : t :=
  match tasks_ p with
  | [] => set_thread i (if running_ p then WillWait else Exited) p
  | task :: rest =>
      Make rest (running_ p) (<[i := Busy task]> (threads_ p)) (callers p) (stage_ p) (added p) (in_time p)
        (started p ++ [task]) (finished p)
  end.

Definition finish (i : nat) (task : Task) (p : t) : t :=
  Make (tasks_ p) (running_ p) (<[i := Enter]> (threads_ p)) (callers p) (stage_ p) (added p) (in_time p)
    (started p) (finished p ++ [task]).

(** [notify_one] wakes some waiting thread, if there is one. *)
Inductive notify_one (p : t) : t -> Prop :=
  | notify_some i : threads_ p !! i = Some Waiting -> notify_one p (set_thread i Enter p)
  | notify_none : Forall (fun w => w <> Waiting) (threads_ p) -> notify_one p p.

Definition wake (w : worker) : worker := match w with Waiting => Enter | w => w end.
Definition notify_all (p : t) : t := set_threads (wake <$> threads_ p) p.

Definition emplace (task : Task) (p : t) : t :=
  Make (tasks_ p ++ [task]) (running_ p) (threads_ p) (callers p) (stage_ p) (added p ++ [task])
    (if running_ p then in_time p ++ [task] else in_time p) (started p) (finished p).

(** [add] tests [running_] without the mutex, pushes with it, and notifies
    after it: a call begins, and the two steps that follow are its own. *)
Definition add (task : Task) (p : t) : t :=
  if negb (running_ p) then p else set_callers (callers p ++ [Pushing task]) p.
Inductive add_step (p : t) : t -> Prop :=
  | add_push l l' task :
      callers p = l ++ Pushing task :: l' -> lock_free p -> add_step p (emplace task (set_callers (l ++ Notifying :: l') p))
  | add_notify l l' p' :
      callers p = l ++ Notifying :: l' -> notify_one (set_callers (l ++ l') p) p' -> add_step p p'.

(** [shutdownAll], which does not take the mutex, before it joins the threads. *)
Definition shutdownAll (p : t) : t :=
  Make (tasks_ p) false (threads_ p) (callers p) Stopping (added p) (in_time p) (started p) (finished p).
Definition shutdown_notify (p : t) : t :=
  notify_all (Make (tasks_ p) (running_ p) (threads_ p) (callers p) Joining (added p) (in_time p) (started p) (finished p)).

(** What a worker does by itself. *)
Inductive run_step (p : t) : t -> Prop :=
  | run_check i : lock_free p -> threads_ p !! i = Some Enter -> run_step p (check i p)
  | run_wait i : threads_ p !! i = Some WillWait -> run_step p (set_thread i Waiting p)
  | run_finish i task : threads_ p !! i = Some (Busy task) -> run_step p (finish i task p).

Inductive step (p : t) : t -> Prop :=
  | step_run p' : run_step p p' -> step p p'
  | step_spurious i : threads_ p !! i = Some Waiting -> step p (set_thread i Enter p)
  | step_call task : step p (add task p)
  | step_add p' : add_step p p' -> step p p'
  | step_shutdown : step p (shutdownAll p)
  | step_shutdown_notify : stage_ p = Stopping -> step p (shutdown_notify p).

(** ** The invariant *)
Definition busy (w : worker) : option Task := match w with Busy x => Some x | _ => None end.
Definition active (w : worker) : Prop := w = Enter \/ exists x, w = Busy x.
Definition exited (w : worker) : Prop := w = Exited.
#[export] Instance exited_dec w : Decision (exited w).
Proof. unfold exited. destruct w; first [by left|by right]. Defined.
#[export] Instance waiting_dec w : Decision (w = Waiting).
Proof. destruct w; first [by left|by right]. Defined.

(** Someone will see to the queue: a worker on its way to it, or in a task after
    which it goes there, or a call that is about to notify. *)
Definition attended (p : t) : Prop := (exists w, w ∈ threads_ p /\ active w) \/ Notifying ∈ callers p.

Record inv (p : t) : Prop := {
  inv_fifo : added p = started p ++ tasks_ p;
  inv_once : started p ≡ₚ finished p ++ omap busy (threads_ p);
  inv_decided : WillWait ∈ threads_ p -> tasks_ p = [];
  inv_serving : running_ p = true -> in_time p = added p;
  inv_in_time : in_time p `prefix_of` added p;
  inv_exited : Exited ∈ threads_ p -> running_ p = false /\ in_time p `prefix_of` started p;
  inv_awake : tasks_ p <> [] -> attended p \/ Forall exited (threads_ p) }.

Lemma omap_insert (l : list worker) i w w' :
  l !! i = Some w -> option_list (busy w) ++ omap busy (<[i := w']> l) ≡ₚ option_list (busy w') ++ omap busy l.
Proof.
  intros H. pose proof (lookup_lt_Some _ _ _ H) as Hl.
  rewrite insert_take_drop by done. rewrite <- (take_drop_middle l i w H) at 3.
  rewrite !omap_app. simpl. destruct (busy w), (busy w'); simpl; solve_Permutation.
Qed.

Lemma elem_of_insert (l : list worker) i w x : x ∈ <[i := w]> l -> x = w \/ x ∈ l.
Proof.
  intros [j H]%list_elem_of_lookup. apply list_lookup_insert_Some in H as [(_ & <- & _)|[_ H]]; [by left|].
  right. by eapply list_elem_of_lookup_2.
Qed.

(** Replacing a worker keeps another one, or it was that worker. *)
Lemma elem_of_insert_keep (l : list worker) i w w' x :
  l !! i = Some w -> x ∈ l -> x = w \/ x ∈ <[i := w']> l.
Proof.
  intros H [j Hj]%list_elem_of_lookup. destruct (decide (i = j)) as [<-|Hne]; [left; congruence|right].
  apply list_elem_of_lookup. exists j. by rewrite list_lookup_insert_ne.
Qed.

Lemma elem_of_insert_new (l : list worker) i w w' : l !! i = Some w -> w' ∈ <[i := w']> l.
Proof.
  intros H. apply list_elem_of_lookup. exists i. apply list_lookup_insert_eq. by eapply lookup_lt_Some.
Qed.

(** A worker that is not busy becomes one that is not, and neither decides to
    wait nor exits. *)
Lemma set_thread_inv i w w' p :
  inv p -> threads_ p !! i = Some w -> busy w = None -> busy w' = None ->
  w' <> WillWait -> w' <> Exited -> (tasks_ p <> [] -> active w' \/ ~ active w /\ w <> Exited) -> inv (set_thread i w' p).
Proof.
  intros [H1 H2 H3 Hs Hp H4 H5] Hi Hw Hw' Hn1 Hn2 Ha. split; simpl; try done.
  - rewrite H2. pose proof (omap_insert _ _ _ w' Hi) as Ho. rewrite Hw, Hw' in Ho. simpl in Ho. by rewrite Ho.
  - intros [?|?]%elem_of_insert; [congruence|by apply H3].
  - intros [?|?]%elem_of_insert; [congruence|by apply H4].
  - intros Hne. left. destruct (Ha Hne) as [Hact|[Hnot Hx]].
    + left. exists w'. split; [by eapply elem_of_insert_new|done].
    + destruct (H5 Hne) as [[(x & Hin & Hax)|Hc]|He]; [| |].
      * left. destruct (elem_of_insert_keep _ _ _ w' _ Hi Hin) as [->|Hin']; [done|]. by exists x.
      * by right.
      * destruct Hx. rewrite Forall_forall in He. apply He. by eapply list_elem_of_lookup_2.
Qed.

Lemma check_inv i p : inv p -> lock_free p -> threads_ p !! i = Some Enter -> inv (check i p).
Proof.
  intros [H1 H2 H3 Hs Hp H4 H5] Hl Hi. unfold check. destruct (tasks_ p) as [|x rest] eqn:E.
  - assert (busy (if running_ p then WillWait else Exited) = None) as Hb by by destruct (running_ p).
    split; simpl; rewrite ?E; try done.
    + rewrite H2. pose proof (omap_insert _ _ _ (if running_ p then WillWait else Exited) Hi) as Ho.
      rewrite Hb in Ho. simpl in Ho. by rewrite Ho.
    + intros [Hx|Hx]%elem_of_insert; [|by apply H4]. destruct (running_ p); [done|]. split; [done|].
      rewrite app_nil_r in H1. by rewrite <- H1.
  - split; simpl; try done.
    + rewrite H1. by rewrite <- app_assoc.
    + rewrite H2. pose proof (omap_insert _ _ _ (Busy x) Hi) as Ho. simpl in Ho. rewrite Ho. solve_Permutation.
    + intros [?|Hx]%elem_of_insert; [congruence|]. by destruct (proj1 (Forall_forall _ _) Hl _ Hx).
    + intros [?|Hx]%elem_of_insert; [congruence|]. destruct (H4 Hx) as [Hr Hf]. split; [done|by apply prefix_app_r].
    + intros _. do 2 left. exists (Busy x). split; [by eapply elem_of_insert_new|right; by eexists].
Qed.

Lemma pool_finish_inv i x p : inv p -> threads_ p !! i = Some (Busy x) -> inv (finish i x p).
Proof.
  intros [H1 H2 H3 Hs Hp H4 H5] Hi. split; simpl; try done.
  - rewrite H2. pose proof (omap_insert _ _ _ Enter Hi) as Ho. simpl in Ho. rewrite <- Ho. solve_Permutation.
  - intros [?|?]%elem_of_insert; [congruence|by apply H3].
  - intros [?|?]%elem_of_insert; [congruence|by apply H4].
  - intros _. do 2 left. exists Enter. split; [by eapply elem_of_insert_new|by left].
Qed.

Lemma push_inv l l' x p :
  inv p -> callers p = l ++ Pushing x :: l' -> lock_free p -> inv (emplace x (set_callers (l ++ Notifying :: l') p)).
Proof.
  intros [H1 H2 H3 Hs Hp H4 H5] Hc Hl. split; simpl.
  - by rewrite H1, <- app_assoc.
  - done.
  - intros Hx. by destruct (proj1 (Forall_forall _ _) Hl _ Hx).
  - intros Hr. rewrite Hr. by rewrite Hs.
  - destruct (running_ p); [rewrite Hs by done; done|by apply prefix_app_r].
  - intros Hx. destruct (H4 Hx) as [Hr Hf]. by rewrite Hr.
  - intros _. left. right. apply elem_of_app. right. by left.
Qed.

(** When nobody waits, somebody is on its way to the queue or all have left. *)
Lemma nobody_waits (l : list worker) :
  Forall (fun w => w <> Waiting) l -> WillWait ∉ l -> (exists w, w ∈ l /\ active w) \/ Forall exited l.
Proof.
  intros Hw Hn. destruct (decide (Forall exited l)) as [He|He]; [by right|left].
  apply not_Forall_Exists in He; [|apply _]. apply Exists_exists in He as (w & Hin & Hx). exists w. split; [done|].
  rewrite Forall_forall in Hw. specialize (Hw _ Hin). destruct w as [| | |x|]; [by left|done|done|right; by eexists|by destruct Hx].
Qed.

Lemma add_notify_inv l l' p p' :
  inv p -> callers p = l ++ Notifying :: l' -> notify_one (set_callers (l ++ l') p) p' -> inv p'.
Proof.
  intros [H1 H2 H3 Hs Hp H4 H5] Hc Hn. destruct Hn as [i Hi|Hw]; simpl in *.
  - split; simpl; try done.
    + rewrite H2. pose proof (omap_insert _ _ _ Enter Hi) as Ho. simpl in Ho. by rewrite Ho.
    + intros [?|?]%elem_of_insert; [congruence|by apply H3].
    + intros [?|?]%elem_of_insert; [congruence|by apply H4].
    + intros _. do 2 left. exists Enter. split; [by eapply elem_of_insert_new|by left].
  - split; simpl; try done. intros Hne. destruct (nobody_waits (threads_ p)) as [Ha|He]; [done|by intros Hx; apply Hne, H3|by do 2 left|by right].
Qed.

Lemma callers_inv l p : inv p -> (forall c, c ∈ callers p -> c ∈ l) -> inv (set_callers l p).
Proof.
  intros [H1 H2 H3 Hs Hp H4 H5] Hc. split; simpl; try done.
  intros Hne. destruct (H5 Hne) as [[Ha|Hn]|He]; [by do 2 left|left; right; by apply Hc|by right].
Qed.

Lemma add_inv x p : inv p -> inv (add x p).
Proof.
  intros H. unfold add. destruct (negb _); [done|]. apply callers_inv; [done|]. intros c Hc. apply elem_of_app. by left.
Qed.

Lemma shutdown_inv p : inv p -> inv (shutdownAll p).
Proof. intros [H1 H2 H3 Hs Hp H4 H5]. split; simpl; try done. intros Hx. by destruct (H4 Hx). Qed.

Lemma elem_of_woken w (l : list worker) : w ∈ wake <$> l -> w = Enter \/ w ∈ l.
Proof. intros (w0 & -> & Hin)%list_elem_of_fmap. destruct w0; first [by left|by right]. Qed.

Lemma shutdown_notify_inv p : inv p -> inv (shutdown_notify p).
Proof.
  intros [H1 H2 H3 Hs Hp H4 H5]. split; simpl; try done.
  - rewrite H2. assert (omap busy (wake <$> threads_ p) = omap busy (threads_ p)) as ->; [|done].
    clear. induction (threads_ p) as [|[] l IH]; csimpl; by rewrite ?IH.
  - intros [?|?]%elem_of_woken; [done|by apply H3].
  - intros [?|Hx]%elem_of_woken; [done|by apply H4].
  - intros Hne. destruct (H5 Hne) as [[(w & Hin & Ha)|Hn]|He]; [left; left| |].
    + exists w. split; [|done]. apply list_elem_of_fmap. exists w. split; [|done]. by destruct Ha as [->|[x ->]].
    + left. by right.
    + right. apply Forall_fmap. eapply Forall_impl; [exact He|]. by intros w ->.
Qed.

Lemma notify_one_threads p p' : notify_one p p' -> length (threads_ p') = length (threads_ p).
Proof. intros [i _|_]; [|done]. simpl. by rewrite length_insert. Qed.

Lemma step_threads p p' : step p p' -> length (threads_ p') = length (threads_ p).
Proof.
  intros [p1 [i _ _|i _|i x _]|i _|x|p1 [l l' x _ _|l l' p2 _ Hn]| |]; simpl; rewrite ?length_insert, ?length_fmap; try done.
  - unfold check. destruct (tasks_ p); simpl; by rewrite length_insert.
  - unfold add. by destruct (negb _).
  - by apply notify_one_threads in Hn.
Qed.

Lemma steps_threads p p' : rtc step p p' -> length (threads_ p') = length (threads_ p).
Proof. induction 1 as [|x y z H _ ->]; [done|]. by apply step_threads. Qed.

Lemma step_inv p p' : inv p -> step p p' -> inv p'.
Proof.
  intros Hinv [p1 [i Hl Hi|i Hi|i x Hi]|i Hi|x|p1 [l l' x Hc Hl|l l' p2 Hc Hn]| |_].
  - by apply check_inv.
  - apply (set_thread_inv i WillWait); try done. intros Ht. destruct Ht. apply (inv_decided _ Hinv).
    by eapply list_elem_of_lookup_2.
  - by apply pool_finish_inv.
  - apply (set_thread_inv i Waiting); try done. intros _. left. by left.
  - by apply add_inv.
  - by apply push_inv.
  - by eapply add_notify_inv.
  - by apply shutdown_inv.
  - by apply shutdown_notify_inv.
Qed.

Lemma steps_inv p p' : inv p -> rtc step p p' -> inv p'.
Proof. intros Hi Hs. induction Hs as [|p1 p2 p3 H _ IH]; [done|]. apply IH. by eapply step_inv. Qed.

Lemma new_inv n : inv (new n).
Proof.
  split; simpl; try done.
  - by induction n.
  - intros [H _]%elem_of_replicate. done.
Qed.

(** Whoever sees to the queue can move. *)
Lemma attended_moves p : inv p -> tasks_ p <> [] -> attended p -> exists p', run_step p p' \/ add_step p p'.
Proof.
  intros Hinv Hne Ha. assert (lock_free p) as Hl.
  { apply Forall_forall. intros w Hw ->. by apply Hne, (inv_decided _ Hinv). }
  destruct Ha as [(w & [i Hi]%list_elem_of_lookup & [->|[x ->]])|(l & l' & Hc)%list_elem_of_split].
  - eexists. left. by eapply run_check.
  - eexists. left. by eapply run_finish.
  - destruct (decide (Forall (fun w => w <> Waiting) (threads_ p))) as [Hw|Hw].
    + eexists. right. eapply add_notify; [exact Hc|]. by apply notify_none.
    + apply not_Forall_Exists in Hw; [|apply _]. apply Exists_exists in Hw as (w & [i Hi]%list_elem_of_lookup & Hn).
      apply dec_stable in Hn as ->. eexists. right. eapply add_notify; [exact Hc|]. by apply (notify_some _ i).
Qed.

(** While the pool runs. *)
Lemma attended_running p :
  inv p -> running_ p = true -> tasks_ p <> [] -> threads_ p <> [] -> attended p /\ exists p', run_step p p' \/ add_step p p'.
Proof.
  intros Hinv Hr Hne Hth. assert (attended p) as Ha; [|by split; [|apply attended_moves]].
  destruct (inv_awake _ Hinv Hne) as [Ha|He]; [done|]. destruct (threads_ p) as [|w ws] eqn:E; [done|].
  apply Forall_cons in He as [-> _]. destruct (inv_exited _ Hinv) as [Hx _]; [rewrite E; left|congruence].
Qed.

End pool.
Arguments worker : clear implicits.
Arguments caller : clear implicits.
Arguments t : clear implicits.
End ThreadPool.

Import ThreadPool.

(** C22: The pool starts every task pushed exactly once, in the order of the
    pushes.  While a task waits, somebody will see to the queue, and can move: a
    worker that is on its way to it or in a task after which it goes there, or the
    call of [add] that is about to notify, unless all threads have exited after
    [shutdownAll].  And when they have, the queue holds at most tasks pushed after
    the flag was cleared: every task pushed before has been run to its end, once,
    and so have those of the others that are no longer in the queue. *)
Theorem pool_runs_everything {Task} (max_threads : nat) (p : ThreadPool.t Task) :
  rtc ThreadPool.step (ThreadPool.new max_threads) p ->
  ThreadPool.added p = ThreadPool.started p ++ ThreadPool.tasks_ p
  /\ ThreadPool.started p ≡ₚ ThreadPool.finished p ++ omap busy (ThreadPool.threads_ p)
  /\ (ThreadPool.tasks_ p <> [] -> ~ Forall exited (ThreadPool.threads_ p) ->
        attended p /\ exists p', run_step p p' \/ add_step p p')
  /\ (Exited ∈ ThreadPool.threads_ p -> ThreadPool.running_ p = false)
  /\ (Forall exited (ThreadPool.threads_ p) -> 0 < max_threads ->
        exists late, ThreadPool.added p = ThreadPool.in_time p ++ late ++ ThreadPool.tasks_ p
          /\ ThreadPool.finished p ≡ₚ ThreadPool.in_time p ++ late).
Proof.
  intros Hs. pose proof (steps_inv _ _ (new_inv max_threads) Hs) as Hinv. pose proof Hinv as [H1 H2 H3 Hr Hp H4 H5].
  split; [done|]. split; [done|]. split; [|split; [intros Hx; by apply H4|]].
  - intros Hne Hex. assert (attended p) as Ha by (by destruct (H5 Hne)). split; [done|]. by apply attended_moves.
  - intros Hex Hn. apply steps_threads in Hs. cbn in Hs. rewrite length_replicate in Hs.
    assert (Exited ∈ ThreadPool.threads_ p) as Hin.
    { destruct (ThreadPool.threads_ p) as [|w ws]; [simpl in Hs; lia|]. apply Forall_cons in Hex as [-> _]. left. }
    destruct (H4 Hin) as [_ [late Hlate]]. exists late.
    assert (omap busy (ThreadPool.threads_ p) = []) as Hb.
    { clear -Hex. induction Hex as [|w ws -> _ IH]; [done|exact IH]. }
    rewrite Hb, app_nil_r in H2. rewrite H1, <- H2, Hlate. split; [by rewrite <- app_assoc|done].
Qed.

Definition demo_pool : ThreadPool.t nat := ThreadPool.Make [8] false [Exited] [] Joining [7; 8] [7] [7] [7].

(** A call of [add] that has looked at the flag before [shutdownAll] clears it,
    and pushes when the only thread has exited. *)
Lemma demo_pool_steps : rtc ThreadPool.step (ThreadPool.new 1) demo_pool.
Proof.
  eapply rtc_l; [apply (step_call _ 7)|].
  eapply rtc_l; [apply step_add, (add_push _ [] [] 7); [reflexivity|by repeat constructor]|].
  eapply rtc_l; [apply step_add, (add_notify _ [] []); [reflexivity|apply notify_none; by repeat constructor]|].
  eapply rtc_l; [apply (step_call _ 8)|].
  eapply rtc_l; [apply step_run, (run_check _ 0); [by repeat constructor|reflexivity]|].
  eapply rtc_l; [apply step_run, (run_finish _ 0 7); reflexivity|].
  eapply rtc_l; [apply step_shutdown|].
  eapply rtc_l; [apply step_run, (run_check _ 0); [by repeat constructor|reflexivity]|].
  eapply rtc_l; [apply step_shutdown_notify; reflexivity|].
  eapply rtc_l; [apply step_add, (add_push _ [] [] 8); [reflexivity|by repeat constructor]|].
  eapply rtc_l; [apply step_add, (add_notify _ [] []); [reflexivity|apply notify_none; by repeat constructor]|apply rtc_refl].
Qed.

Lemma pool_runs_everything_witness :
  exists late, ThreadPool.added demo_pool = ThreadPool.in_time demo_pool ++ late ++ ThreadPool.tasks_ demo_pool
    /\ ThreadPool.finished demo_pool ≡ₚ ThreadPool.in_time demo_pool ++ late.
Proof. apply (pool_runs_everything 1 demo_pool); [exact demo_pool_steps|by repeat constructor|lia]. Defined.

(** [add] looks at the flag before it takes the mutex: a task can be pushed
    when every thread has exited, and is then never run. *)
Theorem add_after_exit :
  exists p : ThreadPool.t nat, rtc ThreadPool.step (ThreadPool.new 1) p
    /\ ThreadPool.tasks_ p = [8] /\ ThreadPool.threads_ p = [Exited] /\ ThreadPool.callers p = []
    /\ forall p', ~ run_step p p'.
Proof.
  exists demo_pool. split; [exact demo_pool_steps|]. do 3 (split; [done|]).
  intros p' [[|i] _ H|[|i] H|[|i] x H]; done.
Qed.

(** C40: The flag is changed without the mutex: a worker that has looked at it
    and decided to wait misses the notification of [shutdownAll], and waits, with
    nothing left that would wake it, while [shutdownAll] joins it. *)
Theorem shutdown_misses_a_worker {Task} :
  exists p : ThreadPool.t Task, rtc ThreadPool.step (ThreadPool.new 1) p
    /\ ThreadPool.running_ p = false /\ ThreadPool.threads_ p = [Waiting]
    /\ ThreadPool.stage_ p = Joining /\ ThreadPool.callers p = []
    /\ forall p', ~ run_step p p'.
Proof.
  exists (ThreadPool.Make [] false [Waiting] [] Joining [] [] [] []). split; [|do 4 (split; [done|])].
  - eapply rtc_l; [apply step_run, (run_check _ 0); [by repeat constructor|reflexivity]|].
    eapply rtc_l; [apply step_shutdown|].
    eapply rtc_l; [apply step_shutdown_notify; reflexivity|].
    eapply rtc_l; [apply step_run, (run_wait _ 0); reflexivity|apply rtc_refl].
  - intros p' [[|i] _ H|[|i] H|[|i] x H]; done.
Qed.
