(* ===== verification/Channel.v ===== *)
(** * Channel: reading and writing a connection, and TcpConnection's loops

    Models [soc/net/include/Channel.h], [soc/net/src/Channel.cc],
    [soc/net/include/TcpConnection.h] and [soc/net/src/TcpConnection.cc].
    The results of the system calls are arguments: [n] bytes accepted, or a
    negative number with an [errno]; what a call hands to the kernel is
    computed by the model, so the bytes on the wire are a prefix of it. *)
From S2P Require Import Prelude CStr Buffer.
Local Open Scope Z_scope.

Inductive ChannelType := Raw | Ssl.
#[export] Instance ChannelType_eq_dec : EqDecision ChannelType.
Proof. solve_decision. Defined.

Module Channel.

(** A mapped file: [addr_] is what is mapped, [None] when [mmap] failed. *)
Record MMap := MakeMMap { addr_ : option bytes; mmap_size_ : nat }.
(** A file to send: the contents behind the descriptor and its file offset. *)
Record SendFile := MakeSendFile { infile : bytes; foffset : nat; size_ : nat }.

Record t (Q : Type) := Make {
  channel_type : ChannelType; sendfile_ : bool;
  mmap_obj_ : option MMap; sfile_obj_ : option SendFile;
  sender_ : Q; recver_ : Q;
  send_bytes_ : Z; remain_bytes_ : Z; wsend_bytes_ : Z }.
Arguments Make {Q}.
Arguments channel_type {Q}. Arguments sendfile_ {Q}. Arguments mmap_obj_ {Q}. Arguments sfile_obj_ {Q}.
Arguments sender_ {Q}. Arguments recver_ {Q}. Arguments send_bytes_ {Q}. Arguments remain_bytes_ {Q}.
Arguments wsend_bytes_ {Q}.

Definition kBufferSize : nat := 4096.

(** [MMap::MMap]: a file of [size] bytes is mapped, unless [mmap] fails. *)
Definition newMMap (mapped : option bytes) (size : nat) : MMap :=
  match mapped with Some m => MakeMMap (Some m) size | None => MakeMMap None 0 end.

Section ops.
Context `{HQ : ByteQueue Q}.
(** [Buffer::reset]. *)
Context (qreset : Q -> Q).

Definition new (ty : ChannelType) (sf : bool) (s r : Q) : t Q :=
  Make ty (match ty with Raw => sf | Ssl => false end) None None s r 0 0 0.

Definition supportSendFile (c : t Q) : bool := sendfile_ c.

Definition createMMapObject (mapped : option bytes) (size : nat) (c : t Q) : t Q :=
  match mmap_obj_ c with
  | Some _ => c
  | None => Make (channel_type c) (sendfile_ c) (Some (newMMap mapped size)) (sfile_obj_ c) (sender_ c) (recver_ c)
              (send_bytes_ c) (remain_bytes_ c) (wsend_bytes_ c)
  end.

Definition createSendFileObject (contents : bytes) (size : nat) (c : t Q) : t Q :=
  if negb (sendfile_ c) then c
  else match sfile_obj_ c with
  | Some _ => c
  | None => Make (channel_type c) (sendfile_ c) (mmap_obj_ c) (Some (MakeSendFile contents 0 size)) (sender_ c) (recver_ c)
              (send_bytes_ c) (remain_bytes_ c) (wsend_bytes_ c)
  end.

Definition removeMMapObject (c : t Q) : t Q :=
  Make (channel_type c) (sendfile_ c) None (sfile_obj_ c) (sender_ c) (recver_ c)
    (send_bytes_ c) (remain_bytes_ c) (wsend_bytes_ c).
Definition removeSendFileObject (c : t Q) : t Q :=
  Make (channel_type c) (sendfile_ c) (mmap_obj_ c) None (sender_ c) (recver_ c)
    (send_bytes_ c) (remain_bytes_ c) (wsend_bytes_ c).

Definition reset (c : t Q) : t Q :=
  removeSendFileObject (removeMMapObject
    (Make (channel_type c) (sendfile_ c) (mmap_obj_ c) (sfile_obj_ c) (qreset (sender_ c)) (qreset (recver_ c)) 0 0 0)).

Definition set_sender (s : Q) (c : t Q) : t Q :=
  Make (channel_type c) (sendfile_ c) (mmap_obj_ c) (sfile_obj_ c) s (recver_ c)
    (send_bytes_ c) (remain_bytes_ c) (wsend_bytes_ c).
Definition set_recver (r : Q) (c : t Q) : t Q :=
  Make (channel_type c) (sendfile_ c) (mmap_obj_ c) (sfile_obj_ c) (sender_ c) r
    (send_bytes_ c) (remain_bytes_ c) (wsend_bytes_ c).

(** [mmap_obj_ && mmap_obj_->getAddress()] *)
Definition mapped (c : t Q) : option (bytes * nat) :=
  match mmap_obj_ c with
  | Some m => match addr_ m with Some a => Some (a, mmap_size_ m) | None => None end
  | None => None
  end.
(** [sfile_obj_ && sfile_obj_->getSize()] *)
Definition sendable (c : t Q) : option SendFile :=
  match sfile_obj_ c with Some f => if bool_decide (size_ f = 0%nat) then None else Some f | None => None end.

Definition readable (c : t Q) : Z := Z.of_nat (bq_readable (sender_ c)).

(** ** Writing *)

(** What one call hands to the kernel, the counters it sets first, and whether
    the call is [sendfile]. *)
Record prepared := Prepared { offered : bytes; p_remain : Z; p_wsend : Z; by_sendfile : bool }.

Definition raw_prepare (c : t Q) : prepared :=
  if send_bytes_ c <? readable c then
    let iov0 := drop (Z.to_nat (send_bytes_ c)) (bq_contents (sender_ c)) in
    let remain := readable c - send_bytes_ c in
    match mapped c with
    | Some (a, size) => Prepared (iov0 ++ take size a) (remain + Z.of_nat size) (wsend_bytes_ c) false
    | None =>
        match sendable c with
        | Some f => Prepared iov0 (remain + Z.of_nat (size_ f)) (wsend_bytes_ c) false
        | None => Prepared iov0 remain (wsend_bytes_ c) false
        end
    end
  else
    match mapped c with
    | Some (a, size) =>
        Prepared (drop (Z.to_nat (send_bytes_ c - readable c)) (take size a)) (remain_bytes_ c) (wsend_bytes_ c) false
    | None =>
        match sendable c with
        | Some f => Prepared (take (size_ f) (drop (foffset f) (infile f))) (remain_bytes_ c) (wsend_bytes_ c) true
        | None => Prepared [] (remain_bytes_ c) (wsend_bytes_ c) false
        end
    end.

Definition ssl_prepare (c : t Q) : prepared :=
  if send_bytes_ c <? readable c then
    let rest := drop (Z.to_nat (send_bytes_ c)) (bq_contents (sender_ c)) in
    let wsend := readable c - send_bytes_ c in
    let remain := match mapped c with Some (_, size) => wsend + Z.of_nat size | None => wsend end in
    Prepared rest remain wsend false
  else
    match mapped c with
    | Some (a, size) =>
        let w := Z.of_nat size - send_bytes_ c + readable c in
        Prepared (drop (Z.to_nat (send_bytes_ c - readable c)) (take size a)) w w false
    | None => Prepared [] (remain_bytes_ c) (wsend_bytes_ c) false
    end.

Definition prepare (c : t Q) : prepared :=
  match channel_type c with Raw => raw_prepare c | Ssl => ssl_prepare c end.

(** After the call returned [n]: the channel, [n] and whether all is sent. *)
Definition account (p : prepared) (n : Z) (c : t Q) : t Q :=
  let send := if 0 <=? n then send_bytes_ c + n else send_bytes_ c in
  let remain := if 0 <=? n then p_remain p - n else p_remain p in
  let sf := if by_sendfile p && (0 <=? n)
    then match sfile_obj_ c with
         | Some f => Some (MakeSendFile (infile f) (foffset f + Z.to_nat n) (size_ f))
         | None => None end
    else sfile_obj_ c in
  Make (channel_type c) (sendfile_ c) (mmap_obj_ c) sf (sender_ c) (recver_ c) send remain (p_wsend p).

Definition write (n : Z) (c : t Q) : t Q * Z * bool :=
  let p := prepare c in
  let c := account p n c in
  (c, n, remain_bytes_ c <=? 0).

(** The bytes the call put on the wire. *)
Definition wired (n : Z) (c : t Q) : bytes := take (Z.to_nat n) (offered (prepare c)).

(** [TcpConnection::write]: the loop over the results [ns] of its calls; it
    stops at an error or when all is sent, and is unfinished at the end of
    [ns]. *)
Record written := Written { w_channel : t Q; w_n : Z; w_completed : bool; w_wire : bytes }.

Fixpoint write_loop (ns : list Z) (wire : bytes) (c : t Q) : result written :=
  match ns with
  | [] => Err OutOfFuel
  | n :: ns =>
      let wire := wire ++ wired n c in
      let '(c, n, cflag) := write n c in
      if n <? 0 then Ok (Written c n cflag wire)
      else if cflag then Ok (Written (reset c) 0 cflag wire)
      else write_loop ns wire c
  end.

(** ** Reading: the chunks that arrived, each at most [kBufferSize] *)
Definition read (chunk : bytes) (c : t Q) : result (t Q) :=
  let* r := bq_append chunk (recver_ c) in Ok (set_recver r c).

Fixpoint read_loop (chunks : list bytes) (c : t Q) : result (t Q) :=
  match chunks with
  | [] => Ok c
  | d :: chunks => let* c := read d c in read_loop chunks c
  end.

(** ** What a channel owns, and its destructors *)
(** The socket, the read buffer of [new char[]], the state of OpenSSL, and the
    objects of a mapped file and of a file to send, whose own destructors unmap
    and close. *)
Inductive resource := Socket | Scratch | SslState | MMapObject | SendFileObject.

Definition mmap_held (c : t Q) : list resource := match mmap_obj_ c with Some _ => [MMapObject] | None => [] end.
Definition sfile_held (c : t Q) : list resource := match sfile_obj_ c with Some _ => [SendFileObject] | None => [] end.
Definition held (c : t Q) : list resource :=
  [Socket; Scratch] ++ match channel_type c with Raw => [] | Ssl => [SslState] end ++ mmap_held c ++ sfile_held c.

(** What the destructors release: that of [Channel] only the read buffer, that of
    [RawChannel] the socket, that of [SslChannel] the state of OpenSSL before. *)
Definition destroy_base : list resource := [Scratch].
Definition raw_close : list resource := [Socket].
Definition ssl_close : list resource := [SslState].
Definition destroy_raw : list resource := raw_close ++ destroy_base.
Definition destroy (c : t Q) : list resource :=
  match channel_type c with Raw => destroy_raw | Ssl => ssl_close ++ destroy_raw end.

End ops.
End Channel.

(** ** [TcpConnection] *)
Module TcpConnection.
Import Channel.

Definition EAGAIN : Z := 11.
Definition SSL_ERROR_WANT_READ : Z := 2.
Definition SSL_ERROR_WANT_WRITE : Z := 3.

Section ops.
Context `{HQ : ByteQueue Q} (qreset : Q -> Q).

(** [writeAgain] returns [{n, err, cflag}]; its caller names the second member
    [again].  [err] is what [getError] returns after the last call. *)
Definition writeAgain (ns : list Z) (err : Z) (c : t Q) : result (t Q * Z * Z * bool * bytes) :=
  let* w := write_loop qreset ns [] c in
  Ok (w_channel w, w_n w, err, w_completed w, w_wire w).

(** [readAgain]: [n] ends the loop, [err] is what [getError] then returns. *)
Definition readAgain (chunks : list bytes) (n err : Z) (c : t Q) : result (t Q * Z * bool) :=
  let* c := read_loop chunks c in
  Ok (c, n, match channel_type c with Raw => err =? EAGAIN | Ssl => err =? SSL_ERROR_WANT_READ end).

End ops.
End TcpConnection.

(** ** What is to be sent *)
Import Channel.

Section correctness.
Context {Q : Type} `{BQ : ByteQueue Q, HQ : !ByteQueueLaws Q} (qreset : Q -> Q).

(** The file that follows the sender's bytes: mapped, or sent by the kernel. *)
Definition tail_bytes (c : t Q) : bytes :=
  match mapped c with
  | Some (a, size) => take size a
  | None => match channel_type c, sendable c with Raw, Some f => infile f | _, _ => [] end
  end.
Definition total (c : t Q) : bytes := bq_contents (sender_ c) ++ tail_bytes c.

(** Sizes are those of the files, and the file offset of a file being sent is
    what was sent of it. *)
Definition file_ok (c : t Q) : Prop :=
  (forall a size, mapped c = Some (a, size) -> length a = size)
  /\ (forall f, sendable c = Some f -> mapped c = None -> size_ f = length (infile f)
        /\ foffset f = (Z.to_nat (send_bytes_ c) - bq_readable (sender_ c))%nat).

(** The state between two calls, once [sent] is on the wire: before the first
    call nothing is, and afterwards [remain_bytes_] is what is left. *)
Definition sending (c : t Q) (sent : bytes) : Prop :=
  bq_wf (sender_ c) /\ file_ok c /\ (0 < bq_readable (sender_ c))%nat
  /\ send_bytes_ c = Z.of_nat (length sent) /\ sent = take (length sent) (total c)
  /\ (sent <> [] -> remain_bytes_ c = Z.of_nat (length (total c)) - send_bytes_ c).

(** The kernel takes no more than it is offered. *)
Definition call_ok (n : Z) (c : t Q) : Prop := n <= Z.of_nat (length (offered (prepare c))).

Lemma contents_len (c : t Q) : bq_wf (sender_ c) -> length (bq_contents (sender_ c)) = bq_readable (sender_ c).
Proof. apply bq_contents_length. Qed.

Lemma length_total (c : t Q) :
  bq_wf (sender_ c) -> length (total c) = (bq_readable (sender_ c) + length (tail_bytes c))%nat.
Proof. intros H. unfold total. by rewrite length_app, contents_len. Qed.

Lemma drop_total_head (c : t Q) k :
  bq_wf (sender_ c) -> (k <= bq_readable (sender_ c))%nat ->
  drop k (total c) = drop k (bq_contents (sender_ c)) ++ tail_bytes c.
Proof. intros Hw Hk. unfold total. rewrite drop_app_le; [done|]. by rewrite contents_len. Qed.

Lemma drop_total_tail (c : t Q) k :
  bq_wf (sender_ c) -> (bq_readable (sender_ c) <= k)%nat ->
  drop k (total c) = drop (k - bq_readable (sender_ c)) (tail_bytes c).
Proof. intros Hw Hk. unfold total. rewrite drop_app_ge; by rewrite contents_len. Qed.

Lemma length_tail (c : t Q) :
  file_ok c ->
  length (tail_bytes c) = match mapped c with
    | Some (_, size) => size
    | None => match channel_type c, sendable c with Raw, Some f => size_ f | _, _ => 0%nat end end.
Proof.
  intros [Hm Hs]. unfold tail_bytes. destruct (mapped c) as [[a size]|] eqn:E.
  - rewrite length_take, (Hm a size eq_refl). lia.
  - destruct (channel_type c); [|done]. destruct (sendable c) as [f|] eqn:F; [|done].
    by destruct (Hs f eq_refl eq_refl) as [-> _].
Qed.

Lemma sent_le (c : t Q) sent : sending c sent -> (length sent <= length (total c))%nat.
Proof. intros (_ & _ & _ & _ & Hs & _). apply (f_equal length) in Hs. rewrite length_take in Hs. lia. Qed.

(** What is offered is the next part of what is left, and the counter is set
    to what is left. *)
Lemma prepare_spec (c : t Q) sent :
  sending c sent ->
  (exists rest, drop (length sent) (total c) = offered (prepare c) ++ rest)
  /\ p_remain (prepare c) = Z.of_nat (length (total c)) - send_bytes_ c
  /\ (by_sendfile (prepare c) = true -> channel_type c = Raw /\ mapped c = None
        /\ (bq_readable (sender_ c) <= length sent)%nat /\ exists f, sendable c = Some f)
  /\ (by_sendfile (prepare c) = false -> mapped c = None -> is_Some (sendable c) ->
      offered (prepare c) = [] \/ (length sent + length (offered (prepare c)) <= bq_readable (sender_ c))%nat)
  /\ (sent <> total c -> offered (prepare c) <> []).
Proof.
  intros (Hw & Hf & Hr & Hsb & Hs & Hrem). pose proof (length_tail c Hf) as Hlt.
  pose proof (length_total c Hw) as HL. destruct Hf as [Hm Hsf].
  assert (sent <> total c -> drop (length sent) (total c) <> []) as Hleft.
  { intros Hne E. apply Hne. rewrite Hs at 1. apply take_ge.
    apply (f_equal length) in E. rewrite length_drop in E. simpl in E. lia. }
  assert ((bq_readable (sender_ c) <= length sent)%nat -> sent <> []) as Hsne by (intros H ->; simpl in H; lia).
  unfold prepare, raw_prepare, ssl_prepare, readable. rewrite Hsb. rewrite Hsb in Hrem. clear Hs.
  destruct (Z.ltb_spec (Z.of_nat (length sent)) (Z.of_nat (bq_readable (sender_ c)))) as [Hlo|Hhi].
  - assert (drop (length sent) (bq_contents (sender_ c)) <> []) as Hne.
    { intros E. apply (f_equal length) in E. rewrite length_drop, contents_len in E by done. simpl in E. lia. }
    rewrite Nat2Z.id. rewrite drop_total_head by (done || lia).
    unfold tail_bytes in *.
    destruct (channel_type c), (mapped c) as [[a size]|] eqn:E; [|destruct (sendable c) as [f|] eqn:F| |];
      cbn [offered p_remain by_sendfile] in *; rewrite HL, Hlt;
      (split; [by eexists|]) || (split; [exists []; by rewrite ?app_nil_r|]) || idtac;
      (split; [lia|]); (split; [done|]); (split; [|intros _; try done]);
      try (by intros _ ? ?); try (intros _ _ _; right; rewrite length_drop, contents_len by done; lia).
    intros Eq. apply app_nil in Eq as [? _]. done.
  - rewrite drop_total_tail in Hleft |- * by (done || lia).
    replace (Z.to_nat (Z.of_nat (length sent) - Z.of_nat (bq_readable (sender_ c))))
      with (length sent - bq_readable (sender_ c))%nat by lia.
    specialize (Hrem (Hsne ltac:(lia))).
    unfold tail_bytes in *.
    destruct (channel_type c) eqn:Ety, (mapped c) as [[a size]|] eqn:E; [|destruct (sendable c) as [f|] eqn:F| |];
      cbn [offered p_remain by_sendfile] in *.
    + split; [exists []; by rewrite app_nil_r|]. split; [lia|]. split; [done|]. split; [by left|exact Hleft].
    + destruct (Hsf f eq_refl eq_refl) as [Esz Eoff]. rewrite Hsb, Nat2Z.id in Eoff. rewrite Esz, Eoff.
      rewrite (take_ge (drop _ (infile f))) by (rewrite length_drop; lia).
      split; [exists []; by rewrite app_nil_r|]. split; [lia|]. split; [|split; [done|exact Hleft]].
      intros _. split; [done|]. split; [done|]. split; [lia|by eexists].
    + split; [exists []; by rewrite drop_nil|]. split; [lia|]. split; [done|]. split; [by left|].
      intros Hx. specialize (Hleft Hx). by rewrite drop_nil in Hleft.
    + split; [exists []; by rewrite app_nil_r|]. split; [lia|]. split; [done|]. split; [by left|exact Hleft].
    + split; [exists []; by rewrite drop_nil|]. split; [lia|]. split; [done|]. split; [by left|].
      intros Hx. specialize (Hleft Hx). by rewrite drop_nil in Hleft.
Qed.

Lemma sendable_sfile (c : t Q) f : sendable c = Some f -> sfile_obj_ c = Some f.
Proof. unfold sendable. destruct (sfile_obj_ c); [|done]. by case_bool_decide. Qed.

(** One call. *)
Lemma write_spec (c : t Q) sent n :
  sending c sent -> sent <> total c -> call_ok n c ->
  let '(c', _, cflag) := write n c in
  total c' = total c /\ sending c' (sent ++ wired n c)
  /\ (cflag = true <-> sent ++ wired n c = total c).
Proof.
  intros Hsd Hne Hok. destruct (prepare_spec c sent Hsd) as ((rest & Hd) & Hrem & Hsf & Hnsf & _).
  destruct Hsd as (Hw & Hf & Hr & Hsb & Hs & _).
  assert (wired n c = [] \/ 0 <= n) as Hn.
  { destruct (Z.le_gt_cases 0 n); [by right|left]. unfold wired. by replace (Z.to_nat n) with 0%nat by lia. }
  assert (sent ++ wired n c = take (length (sent ++ wired n c)) (total c)) as Hpre.
  { assert (total c = sent ++ offered (prepare c) ++ rest) as Ht by (rewrite <- Hd; rewrite Hs at 1; by rewrite take_drop).
    rewrite Ht, <- (take_drop (Z.to_nat n) (offered (prepare c))). fold (wired n c).
    rewrite <- app_assoc, app_assoc. by rewrite take_app_length. }
  unfold write. set (c' := account (prepare c) n c).
  assert (total c' = total c) as Ht.
  { unfold total, tail_bytes, mapped, sendable, c', account. cbn.
    destruct (by_sendfile (prepare c) && (0 <=? n)); [|done].
    destruct (sfile_obj_ c) as [[inf fo sz]|]; [|done]. cbn. by destruct (bool_decide (sz = 0%nat)). }
  assert (send_bytes_ c' = Z.of_nat (length (sent ++ wired n c))) as Hsb'.
  { unfold c', account. cbn. rewrite length_app. destruct (Z.leb_spec 0 n) as [Hp|Hp].
    - unfold wired. rewrite length_take. unfold call_ok in Hok. lia.
    - destruct Hn as [-> |]; [simpl; lia|lia]. }
  assert (remain_bytes_ c' = Z.of_nat (length (total c)) - send_bytes_ c') as Hrem'.
  { unfold c', account in *. cbn in *. destruct (0 <=? n); lia. }
  assert (length (sent ++ wired n c) <= length (total c))%nat as Hle.
  { apply (f_equal length) in Hpre. rewrite length_take in Hpre. lia. }
  split; [done|]. split.
  - split; [exact Hw|]. split; [|split; [exact Hr|split; [done|split; [by rewrite Ht|by rewrite Ht]]]].
    destruct Hf as [Hm Hso]. split; [exact Hm|]. intros f Hfs Hmp.
    change (mapped c') with (mapped c) in Hmp.
    change (sender_ c') with (sender_ c). rewrite Hsb', Nat2Z.id. rewrite length_app.
    unfold sendable, c', account in Hfs. cbn in Hfs. destruct (by_sendfile (prepare c)) eqn:Ebs; cbn in Hfs.
    + destruct (Hsf eq_refl) as (Hty & _ & Hge & f0 & Hf0).
      destruct (Hso f0 Hf0 Hmp) as [E1 E2]. rewrite Hsb, Nat2Z.id in E2.
      rewrite (sendable_sfile c f0 Hf0) in Hfs.
      destruct (Z.leb_spec 0 n) as [Hp|Hp]; cbn in Hfs; (case_bool_decide as Hz; [done|]); injection Hfs as <-; cbn.
      * split; [done|]. rewrite E2. unfold wired. rewrite length_take. unfold call_ok in Hok. lia.
      * split; [done|]. rewrite E2. destruct Hn as [-> |]; [simpl; lia|lia].
    + destruct (Hso f Hfs Hmp) as [E1 E2]. split; [done|]. rewrite E2, Hsb, Nat2Z.id.
      destruct (Hnsf eq_refl Hmp ltac:(by eexists)) as [Ho|Ho]; unfold wired; rewrite length_take; [rewrite Ho; simpl; lia|lia].
  - rewrite Z.leb_le, Hrem', Hsb'. split; [|intros ->; lia].
    intros H0. rewrite Hpre. apply take_ge. lia.
Qed.

(** Every call of the loop, until all is sent, takes no more than it is offered. *)
Fixpoint calls_ok (ns : list Z) (c : t Q) : Prop :=
  match ns with
  | [] => True
  | n :: ns => call_ok n c /\ ((write n c).2 = false -> calls_ok ns (write n c).1.1)
  end.

Lemma write_loop_spec ns sent (c : t Q) w :
  sending c sent -> sent <> total c -> calls_ok ns c -> write_loop qreset ns sent c = Ok w ->
  if w_completed w then w_wire w = total c /\ w_n w = 0 /\ send_bytes_ (w_channel w) = 0
  else w_n w < 0 /\ sending (w_channel w) (w_wire w) /\ total (w_channel w) = total c /\ w_wire w <> total c.
Proof.
  revert sent c. induction ns as [|n ns IH]; intros sent c Hs Hne Hok E; [done|].
  destruct Hok as [Hn Hns]. pose proof (write_spec c sent n Hs Hne Hn) as Hw.
  cbn [write_loop] in E. destruct (write n c) as [[c1 n1] cflag] eqn:Ew. cbn [fst snd] in Hns.
  assert (n1 = n) as -> by (unfold write in Ew; by injection Ew). destruct Hw as (Ht & Hs1 & Hc).
  destruct (Z.ltb_spec n 0) as [Hneg|Hpos].
  - injection E as <-. cbn. assert (wired n c = []) as Hnil by (unfold wired; by replace (Z.to_nat n) with 0%nat by lia).
    rewrite Hnil, app_nil_r in *. destruct cflag; [exfalso; apply Hne, Hc; done|]. done.
  - destruct cflag.
    + injection E as <-. cbn. split; [by apply Hc|done].
    + rewrite <- Ht. apply (IH (sent ++ wired n c) c1); [done| |by apply Hns|done].
      rewrite Ht. intros Heq. by apply Hc in Heq.
Qed.

(** Enough calls that each take something complete the transfer. *)
Lemma write_loop_progress ns sent (c : t Q) :
  sending c sent -> sent <> total c -> calls_ok ns c -> Forall (fun n => 0 < n) ns ->
  (length (total c) <= length sent + length ns)%nat ->
  exists w, write_loop qreset ns sent c = Ok w /\ w_completed w = true.
Proof.
  revert sent c. induction ns as [|n ns IH]; intros sent c Hs Hne Hok Hp Hl.
  { exfalso. pose proof (sent_le c sent Hs) as Hle. apply Hne. destruct Hs as (_ & _ & _ & _ & Hs & _).
    rewrite Hs at 1. apply take_ge. simpl in Hl. lia. }
  destruct Hok as [Hn Hns]. apply Forall_cons in Hp as [Hpn Hp].
  pose proof (write_spec c sent n Hs Hne Hn) as Hw.
  cbn [write_loop]. destruct (write n c) as [[c1 n1] cflag] eqn:Ew. cbn [fst snd] in Hns.
  assert (n1 = n) as -> by (unfold write in Ew; by injection Ew). destruct Hw as (Ht & Hs1 & Hc).
  rewrite (proj2 (Z.ltb_ge _ _)) by lia. destruct cflag; [by eexists|].
  apply (IH (sent ++ wired n c) c1); [done| |by apply Hns|done|].
  - rewrite Ht. intros Heq. by apply Hc in Heq.
  - rewrite Ht, length_app. unfold wired. rewrite length_take. unfold call_ok in Hn. simpl in Hl. lia.
Qed.

(** What is on the wire already does not matter to the loop. *)
Lemma write_loop_wire ns a b (c : t Q) :
  write_loop qreset ns (a ++ b) c
  = (let* w := write_loop qreset ns b c in Ok (Written (w_channel w) (w_n w) (w_completed w) (a ++ w_wire w))).
Proof.
  revert b c. induction ns as [|n ns IH]; intros b c; [done|]. cbn [write_loop]. rewrite <- app_assoc.
  destruct (write n c) as [[c1 n1] cflag]. destruct (n1 <? 0); [done|]. destruct cflag; [done|]. apply IH.
Qed.

(** The type of a channel does not change. *)
Definition same_kind (c c' : t Q) : Prop := channel_type c' = channel_type c /\ sendfile_ c' = sendfile_ c.

Lemma same_kind_trans c1 c2 c3 : same_kind c1 c2 -> same_kind c2 c3 -> same_kind c1 c3.
Proof. unfold same_kind. intros [-> ->] [-> ->]. done. Qed.

(** A loop that is not stopped by an error has reset the channel. *)
Lemma write_loop_kind ns wire (c : t Q) w :
  write_loop qreset ns wire c = Ok w ->
  same_kind c (w_channel w) /\ (w_n w < 0 \/ exists c', w_channel w = reset qreset c' /\ same_kind c c').
Proof.
  revert wire c. induction ns as [|n ns IH]; intros wire c; [done|]. cbn [write_loop].
  assert (same_kind c (write n c).1.1) as Hk by done. destruct (write n c) as [[c1 n1] cflag]. cbn [fst] in Hk.
  destruct (Z.ltb_spec n1 0); [intros [= <-]; split; [done|by left]|].
  destruct cflag; [intros [= <-]; split; [done|right; by exists c1]|].
  intros E. apply IH in E as [H1 H2]. split; [by eapply same_kind_trans|].
  destruct H2 as [H2|(c' & E & H2)]; [by left|right]. exists c'. split; [done|]. by eapply same_kind_trans.
Qed.

(** A loop that an error stops keeps the objects of its files. *)
Lemma write_loop_holds ns wire (c : t Q) w :
  write_loop qreset ns wire c = Ok w -> w_n w < 0 ->
  mmap_held (w_channel w) = mmap_held c /\ sfile_held (w_channel w) = sfile_held c.
Proof.
  revert wire c. induction ns as [|n ns IH]; intros wire c; [done|]. cbn [write_loop].
  assert (mmap_held (write n c).1.1 = mmap_held c /\ sfile_held (write n c).1.1 = sfile_held c) as [Hm Hs].
  { split; [done|]. unfold write, account, sfile_held. cbn. destruct (_ && _); [|done]. by destruct (sfile_obj_ c). }
  destruct (write n c) as [[c1 n1] cflag]. cbn [fst] in Hm, Hs. rewrite <- Hm, <- Hs.
  destruct (Z.ltb_spec n1 0); [by intros [= <-]|].
  destruct cflag; [by intros [= <-]|]. apply IH.
Qed.

(** A response that has just been put in the channel. *)
Definition fresh (c : t Q) : Prop :=
  bq_wf (sender_ c) /\ (0 < bq_readable (sender_ c))%nat /\ send_bytes_ c = 0
  /\ (forall a size, mapped c = Some (a, size) -> length a = size)
  /\ (forall f, sendable c = Some f -> size_ f = length (infile f) /\ foffset f = 0%nat).

Lemma fresh_sending (c : t Q) : fresh c -> sending c [].
Proof.
  intros (Hw & Hr & Hs & Hm & Hf). split; [done|]. split.
  { split; [done|]. intros f Hfs _. destruct (Hf f Hfs) as [E1 E2]. rewrite E2, Hs. split; [done|simpl; lia]. }
  split; [done|]. split; [done|]. split; [done|done].
Qed.

Lemma total_not_nil (c : t Q) : fresh c -> [] <> total c.
Proof.
  intros (Hw & Hr & _) E. pose proof (length_total c Hw) as HL. rewrite <- E in HL. simpl in HL. lia.
Qed.

End correctness.

(** C10: What a connection puts on the wire.  Sending a response, the sender's
    bytes and then a mapped file or a file sent by the kernel, whatever part of
    each call the kernel accepts and wherever it refuses: a loop that completes
    has put exactly those bytes on the wire, in order, and a loop that stops at
    an error has put a proper prefix of them and left the channel so that the
    next loop goes on where it stopped. *)
Theorem write_sends_everything `{BQ : ByteQueue Q, HQ : !ByteQueueLaws Q} (qreset : Q -> Q) (c : t Q)
    (ns ns' : list Z) (w w' : written) :
  fresh c -> calls_ok ns c -> write_loop qreset ns [] c = Ok w ->
  (w_completed w = true -> w_wire w = total c)
  /\ (w_completed w = false -> exists k, w_wire w = take k (total c) /\ (k < length (total c))%nat
      /\ (calls_ok ns' (w_channel w) -> write_loop qreset ns' (w_wire w) (w_channel w) = Ok w' ->
          w_completed w' = true -> w_wire w' = total c)).
Proof.
  intros Hf Hok E.
  pose proof (write_loop_spec qreset ns [] c w (fresh_sending c Hf) (total_not_nil c Hf) Hok E) as H.
  split; intros Hc; rewrite Hc in H.
  - by destruct H.
  - destruct H as (_ & Hs & Ht & Hne). pose proof (sent_le _ _ Hs) as Hle.
    assert (w_wire w = take (length (w_wire w)) (total c)) as Hp by (rewrite <- Ht; apply Hs).
    exists (length (w_wire w)). split; [done|]. split.
    + rewrite Ht in Hle. destruct (decide (length (w_wire w) = length (total c))) as [He|]; [|lia].
      exfalso. apply Hne. rewrite Hp. apply take_ge. lia.
    + intros Hok' E' Hc'.
      pose proof (write_loop_spec qreset ns' _ _ w' Hs ltac:(by rewrite Ht) Hok' E') as H. rewrite Hc' in H.
      rewrite <- Ht. apply H.
Qed.

(** The write loop finishes: if every call takes at least one of the bytes
    it is offered, it completes within as many calls as there are bytes. *)
Theorem write_finishes `{BQ : ByteQueue Q, HQ : !ByteQueueLaws Q} (qreset : Q -> Q) (c : t Q) (ns : list Z) :
  fresh c -> calls_ok ns c -> Forall (fun n => 0 < n) ns -> (length (total c) <= length ns)%nat ->
  exists w, write_loop qreset ns [] c = Ok w /\ w_completed w = true.
Proof. intros Hf Hok Hp Hl. by apply write_loop_progress; [apply fresh_sending|apply total_not_nil|..]. Qed.

Lemma readAgain_recver `{BQ : ByteQueue Q, HQ : !ByteQueueLaws Q} (c : t Q) (chunks : list bytes) (n err : Z) :
  bq_wf (recver_ c) ->
  exists r, TcpConnection.readAgain chunks n err c
    = Ok (set_recver r c, n, match channel_type c with
                 | Raw => err =? TcpConnection.EAGAIN | Ssl => err =? TcpConnection.SSL_ERROR_WANT_READ end)
  /\ bq_wf r /\ bq_contents r = bq_contents (recver_ c) ++ mjoin chunks.
Proof.
  intros Hw. unfold TcpConnection.readAgain.
  assert (exists r, read_loop chunks c = Ok (set_recver r c) /\ bq_wf r /\ bq_contents r = bq_contents (recver_ c) ++ mjoin chunks)
    as (r & -> & Hr); [|by exists r].
  revert c Hw. induction chunks as [|d chunks IH]; intros c Hw.
  - exists (recver_ c). split; [by destruct c|]. split; [done|]. by rewrite app_nil_r.
  - cbn [read_loop]. unfold read. destruct (bq_append_ok d (recver_ c) Hw) as (r & -> & Hr & Cr).
    destruct (IH (set_recver r c) Hr) as (r' & -> & Hw' & Hc). exists r'. split; [done|]. split; [done|].
    rewrite Hc. simpl. rewrite Cr. by rewrite <- app_assoc.
Qed.

(** Reading appends the chunks to the receive buffer in order, and whether
    the connection is to be read again is decided by the error code alone: an
    end of file with a stale EAGAIN in errno looks like a connection with
    nothing to read yet. *)
Theorem read_appends `{BQ : ByteQueue Q, HQ : !ByteQueueLaws Q} (c : t Q) (chunks : list bytes) (n err : Z) :
  bq_wf (recver_ c) ->
  exists c', TcpConnection.readAgain chunks n err c
    = Ok (c', n, match channel_type c with
                 | Raw => err =? TcpConnection.EAGAIN | Ssl => err =? TcpConnection.SSL_ERROR_WANT_READ end)
  /\ bq_contents (recver_ c') = bq_contents (recver_ c) ++ mjoin chunks.
Proof.
  intros Hw. destruct (readAgain_recver c chunks n err Hw) as (r & E & _ & C). by exists (set_recver r c).
Qed.

(** The destructors of a channel release everything but the file that is
    being sent: after a write loop that sent all there is nothing left to leak,
    but a connection that is closed after a loop that an error stopped, a full
    socket among them, leaks the mapping or the open descriptor of the file it
    was sending. *)
Theorem interrupted_file_leaks {Q} `{BQ : ByteQueue Q} (qreset : Q -> Q) (ns : list Z) (wire : bytes) (c : t Q) (w : written) :
  write_loop qreset ns wire c = Ok w ->
  let c' := w_channel w in
  held c' ≡ₚ destroy c' ++ mmap_held c' ++ sfile_held c'
  /\ (w_n w < 0 -> mmap_held c' ++ sfile_held c' = mmap_held c ++ sfile_held c)
  /\ (0 <= w_n w -> mmap_held c' ++ sfile_held c' = []).
Proof.
  intros H. split; [|split].
  - unfold held, destroy, destroy_raw. destruct (channel_type _); cbn; solve_Permutation.
  - intros Hn. by destruct (write_loop_holds qreset ns wire c w H Hn) as [-> ->].
  - intros Hn. apply write_loop_kind in H as [_ [H|(c' & -> & _)]]; [lia|done].
Qed.

(** ** A concrete response: a header in the sender and a file sent by the kernel *)
Definition demo_sender : Buffer.t := Buffer.Make (bs "head") 0 4.
Definition demo_channel : t Buffer.t :=
  createSendFileObject (bs "file") 4 (new Raw true demo_sender (Buffer.new 16)).

Lemma demo_fresh : fresh demo_channel.
Proof.
  split; [apply (bool_decide_unpack _); vm_compute; exact I|]. split; [vm_compute; lia|]. split; [done|].
  split; [done|]. intros f [= <-]. done.
Qed.

(** Runs through the calls of a concrete run. *)
Ltac run_calls :=
  repeat (split; [vm_compute; discriminate|let E := fresh in intros E; vm_compute in E; try discriminate E; clear E]);
  try exact I.

Lemma write_sends_everything_witness :
  exists w, write_loop Buffer.reset [3; 1; 2; -1] [] demo_channel = Ok w
    /\ w_wire w = bs "headfi"
    /\ exists w', write_loop Buffer.reset [2] (w_wire w) (w_channel w) = Ok w'
      /\ w_wire w' = bs "headfile".
Proof.
  eexists. split; [vm_compute; reflexivity|]. split; [vm_compute; reflexivity|].
  eexists. split; [vm_compute; reflexivity|].
  edestruct (write_sends_everything Buffer.reset demo_channel [3; 1; 2; -1] [2]) as [_ H];
    [exact demo_fresh| | |].
  - run_calls.
  - vm_compute. reflexivity.
  - edestruct (H eq_refl) as (k & _ & _ & Hw). eapply Hw.
    + run_calls.
    + vm_compute. reflexivity.
    + reflexivity.
Defined.

Lemma write_finishes_witness :
  exists w, write_loop Buffer.reset [4; 1; 1; 2; 1; 1; 1; 1] [] demo_channel = Ok w /\ w_completed w = true.
Proof.
  apply (write_finishes Buffer.reset demo_channel [4; 1; 1; 2; 1; 1; 1; 1]).
  - exact demo_fresh.
  - run_calls.
  - repeat constructor.
  - vm_compute. lia.
Defined.

Lemma read_appends_witness :
  exists c', TcpConnection.readAgain [bs "GET"; bs " /"] 0 11 demo_channel = Ok (c', 0, true)
    /\ bq_contents (recver_ c') = bs "GET /".
Proof.
  destruct (read_appends demo_channel [bs "GET"; bs " /"] 0 11) as (c' & E & C).
  - apply (bool_decide_unpack _). vm_compute. exact I.
  - exists c'. split; [exact E|exact C].
Defined.

Lemma interrupted_file_leaks_witness :
  exists w, write_loop Buffer.reset [3; 2; -1] [] demo_channel = Ok w /\ ~ SendFileObject ∈ destroy (w_channel w)
    /\ SendFileObject ∈ held (w_channel w).
Proof.
  assert (exists w, write_loop Buffer.reset [3; 2; -1] [] demo_channel = Ok w /\ w_n w = -1 /\ channel_type (w_channel w) = Raw) as (w & E & En & Et)
    by (eexists; split; [vm_compute; reflexivity|split; reflexivity]).
  destruct (interrupted_file_leaks Buffer.reset [3; 2; -1] [] demo_channel w E) as (Hp & Hl & _). exists w. split; [exact E|]. split.
  - unfold destroy. rewrite Et. intros H. vm_compute in H. inversion H as [|x y l Hx]; subst. inversion Hx as [|x' y' l' Hx']; subst. inversion Hx'.
  - rewrite Hp, Hl by (rewrite En; reflexivity). apply elem_of_app. right. vm_compute. left.
Defined.
