(* ===== verification/ServerSocket.v ===== *)
(** * ServerSocket: the calls of the system, sockets and TLS contexts

    Models [soc/net/include/ServerSocket.h] and [ServerSocket.cc], and
    [ServerSsl.h] and [ServerSsl.cc].  The functions are scripts of calls to the
    kernel and to OpenSSL: a script extends the trace of the calls made so far
    with their answers, which are a parameter, and returns, or ends the process.
    What the calls do to a descriptor is read off the trace. *)
From S2P Require Import Prelude CStr InetAddress.
Local Open Scope Z_scope.

(** ** Calls and scripts *)
Module Sys.

Definition AF_INET : Z := 2.
Definition SOCK_STREAM : Z := 1.
Definition SOCK_NONBLOCK : Z := 0x800.
Definition SOCK_CLOEXEC : Z := 0x80000.
Definition IPPROTO_TCP : Z := 6.
Definition F_GETFL : Z := 3.
Definition F_SETFL : Z := 4.
Definition O_NONBLOCK : Z := 0x800.
Definition TCP_NODELAY : Z := 1.
Definition SOL_SOCKET : Z := 1.
Definition SO_REUSEADDR : Z := 2.
Definition SO_REUSEPORT : Z := 15.
Definition SO_KEEPALIVE : Z := 9.
Definition SOMAXCONN : Z := 4096.

(** The options of a context, by their names. *)
Inductive ssl_option :=
  | SSL_OP_ALL | SSL_OP_NO_SSLv2 | SSL_OP_NO_SSLv3 | SSL_OP_NO_COMPRESSION
  | SSL_OP_NO_SESSION_RESUMPTION_ON_RENEGOTIATION.

(** Pointers of OpenSSL are numbers, the null pointer is 0. *)
Inductive call :=
  | socket (domain type protocol : Z)
  | fcntl (fd cmd arg : Z)
  | setsockopt (fd level name value : Z)
  | bind (fd : Z) (addr : InetAddress.t)
  | listen (fd backlog : Z)
  | accept (fd : Z)
  | getpeername (fd : Z)
  | getsockname (fd : Z)
  | close (fd : Z)
  | eventfd (init flags : Z)
  | epoll_create1 (flags : Z)
  | epoll_add (fd events : Z)
  | epoll_del (fd : Z)
  | timerfd_create (clock flags : Z)
  | timerfd_settime (fd sec nsec interval_sec interval_nsec : Z)
  | ignore_signal (sig : Z)
  | write (fd value : Z)
  | SSL_init
  | SSL_CTX_new
  | SSL_CTX_set_options (ctx : Z) (ops : list ssl_option)
  | SSL_CTX_set_password (ctx : Z) (password : option bytes)
  | SSL_CTX_use_certificate_file (ctx : Z) (file : bytes)
  | SSL_CTX_use_PrivateKey_file (ctx : Z) (file : bytes)
  | SSL_CTX_check_private_key (ctx : Z)
  | SSL_CTX_free (ctx : Z)
  | SSL_new (ctx : Z)
  | SSL_set_fd (ssl fd : Z)
  | SSL_accept (ssl : Z)
  | SSL_shutdown (ssl : Z)
  | SSL_free (ssl : Z).

Abbreviation trace := (list (call * Z)).

(** What the environment answers: the result of a call, and the [sockaddr] it
    fills in. *)
Class Kernel := {
  answer : trace -> call -> Z;
  filled : trace -> InetAddress.t }.

Definition script (A : Type) : Type := trace -> result A * trace.
#[export] Instance script_ret : MRet script := fun A a tr => (Ok a, tr).
#[export] Instance script_bind : MBind script := fun A B k m tr =>
  match m tr with (Ok a, tr) => k a tr | (Err e, tr) => (Err e, tr) end.

Definition sys `{Kernel} (c : call) : script Z := fun tr =>
  let r := answer tr c in (Ok r, tr ++ [(c, r)]).
Definition sockaddr `{Kernel} : script InetAddress.t := fun tr => (Ok (filled tr), tr).
Definition lift {A} (r : result A) : script A := fun tr => (r, tr).
Definition exit {A} : script A := lift (Err ExitProcess).

(** A call whose failure ends the process. *)
Definition or_exit `{Kernel} (c : call) (failed : Z -> bool) : script Z :=
  r ← sys c; if failed r then exit else mret r.

(** ** Reading a trace *)
(** Whether the calls on [fd] of a socket, an event descriptor or an accepted
    connection do not block: set when it is made, and by [F_SETFL]. *)
Definition nonblock_step (fd : Z) (b : bool) (e : call * Z) : bool :=
  match e.1 with
  | socket _ ty _ => if e.2 =? fd then negb (Z.land ty SOCK_NONBLOCK =? 0) else b
  | eventfd _ fl => if e.2 =? fd then negb (Z.land fl O_NONBLOCK =? 0) else b
  | accept _ => if e.2 =? fd then false else b
  | fcntl fd' cmd arg =>
      if (fd' =? fd) && (cmd =? F_SETFL) && (0 <=? e.2) then negb (Z.land arg O_NONBLOCK =? 0) else b
  | _ => b
  end.
Definition nonblock (fd : Z) (tr : trace) : bool := foldl (nonblock_step fd) false tr.

(** The state of a server socket. *)
Record sock := Sock { reuse_addr : bool; reuse_port : bool; bound : option InetAddress.t; listening : bool }.
Definition sock_step (fd : Z) (s : sock) (e : call * Z) : sock :=
  match e.1 with
  | socket _ _ _ => if e.2 =? fd then Sock false false None false else s
  | setsockopt fd' level name v =>
      if (fd' =? fd) && (level =? SOL_SOCKET) && (0 <=? e.2) then
        if name =? SO_REUSEADDR then Sock (negb (v =? 0)) (reuse_port s) (bound s) (listening s)
        else if name =? SO_REUSEPORT then Sock (reuse_addr s) (negb (v =? 0)) (bound s) (listening s)
        else s
      else s
  | bind fd' a => if (fd' =? fd) && (0 <=? e.2) then Sock (reuse_addr s) (reuse_port s) (Some a) (listening s) else s
  | listen fd' _ => if (fd' =? fd) && (0 <=? e.2) then Sock (reuse_addr s) (reuse_port s) (bound s) true else s
  | _ => s
  end.
Definition sock_state (fd : Z) (tr : trace) : sock := foldl (sock_step fd) (Sock false false None false) tr.

(** No [setsockopt] was refused, and no [fcntl]. *)
Definition granted (tr : trace) : bool :=
  forallb (fun e => match e.1 with setsockopt _ _ _ _ | fcntl _ _ _ => 0 <=? e.2 | _ => true end) tr.

(** Calls of OpenSSL, which leave the modes of the sockets as they are. *)
Definition ssl_call (e : call * Z) : bool :=
  match e.1 with
  | SSL_init | SSL_CTX_new | SSL_CTX_set_options _ _ | SSL_CTX_set_password _ _ | SSL_CTX_use_certificate_file _ _
  | SSL_CTX_use_PrivateKey_file _ _ | SSL_CTX_check_private_key _ | SSL_CTX_free _ | SSL_new _ | SSL_set_fd _ _
  | SSL_accept _ | SSL_shutdown _ | SSL_free _ => true
  | _ => false
  end.

(** The calls that must not fail. *)
Definition fatal (e : call * Z) : bool :=
  match e.1 with
  | bind _ _ | listen _ _ => e.2 <? 0
  | SSL_CTX_new => e.2 =? 0
  | SSL_CTX_use_certificate_file _ _ | SSL_CTX_use_PrivateKey_file _ _ | SSL_CTX_check_private_key _ => e.2 <=? 0
  | _ => false
  end.

Lemma lor_nonblock a : negb (Z.land (Z.lor a O_NONBLOCK) O_NONBLOCK =? 0) = true.
Proof.
  replace (Z.land (Z.lor a O_NONBLOCK) O_NONBLOCK) with O_NONBLOCK; [done|].
  apply Z.bits_inj'. intros i _. rewrite Z.land_spec, Z.lor_spec. by destruct (Z.testbit a i), (Z.testbit O_NONBLOCK i).
Qed.

Lemma sock_state_app fd t1 t2 : sock_state fd (t1 ++ t2) = foldl (sock_step fd) (sock_state fd t1) t2.
Proof. apply foldl_app. Qed.
Lemma nonblock_app fd t1 t2 : nonblock fd (t1 ++ t2) = foldl (nonblock_step fd) (nonblock fd t1) t2.
Proof. apply foldl_app. Qed.

Lemma ssl_calls_quiet fd t s b :
  forallb ssl_call t = true -> foldl (sock_step fd) s t = s /\ foldl (nonblock_step fd) b t = b.
Proof.
  induction t as [|[c v] t IH]; [done|]. cbn [forallb]. intros [Hc Ht]%andb_prop. cbn [foldl].
  destruct c; try discriminate Hc; by apply IH.
Qed.

(** ** Reasoning about scripts *)
Section scripts.
Context `{Kernel}.

Lemma bind_run {A B} (m : script A) (k : A -> script B) tr r tr' :
  (m ≫= k) tr = (r, tr') ->
  (exists a tr1, m tr = (Ok a, tr1) /\ k a tr1 = (r, tr')) \/ (exists e, m tr = (Err e, tr') /\ r = Err e).
Proof.
  unfold mbind, script_bind. destruct (m tr) as [[a|e] tr1]; intros E; [left; eauto|].
  injection E as <- <-. right. eauto.
Qed.

Lemma bind_Ok {A B} (m : script A) (k : A -> script B) tr b tr' :
  (m ≫= k) tr = (Ok b, tr') -> exists a tr1, m tr = (Ok a, tr1) /\ k a tr1 = (Ok b, tr').
Proof. intros [?|(e & _ & ?)]%bind_run; [done|discriminate]. Qed.

Lemma sys_run c tr r tr' : sys c tr = (r, tr') -> exists v, r = Ok v /\ tr' = tr ++ [(c, v)].
Proof. intros [= <- <-]. eauto. Qed.

Lemma sys_Ok c tr v tr' : sys c tr = (Ok v, tr') -> tr' = tr ++ [(c, v)].
Proof. by intros [= <- <-]. Qed.

Lemma bind_sys {A} c (k : Z -> script A) tr : (sys c ≫= k) tr = k (answer tr c) (tr ++ [(c, answer tr c)]).
Proof. done. Qed.
Lemma bind_step {A B} (m : script A) (k : A -> script B) tr a tr' : m tr = (Ok a, tr') -> (m ≫= k) tr = k a tr'.
Proof. unfold mbind, script_bind. by intros ->. Qed.

Lemma or_exit_Ok c failed tr v tr' :
  or_exit c failed tr = (Ok v, tr') -> failed v = false /\ tr' = tr ++ [(c, v)].
Proof.
  intros (a & tr1 & ->%sys_Ok & E)%bind_Ok. destruct (failed a) eqn:Ef; [discriminate|]. by injection E as -> ->.
Qed.

(** A script that ends the process exactly when a call fails that must not, and
    makes no call after it. *)
Definition exits_on_failure {A} (m : script A) : Prop :=
  forall tr r tr', m tr = (r, tr') ->
  exists t, tr' = tr ++ t /\ (r = Err ExitProcess <-> existsb fatal t = true).

Lemma exits_ret {A} (a : A) : exits_on_failure (mret a).
Proof. intros tr r tr' [= <- <-]. exists []. by rewrite app_nil_r. Qed.

Lemma exits_lift {A} (x : result A) : x <> Err ExitProcess -> exits_on_failure (lift x).
Proof. intros Hx tr r tr' [= <- <-]. exists []. by rewrite app_nil_r. Qed.

Lemma exits_sys c : (forall v, fatal (c, v) = false) -> exits_on_failure (sys c).
Proof.
  intros Hc tr r tr' (v & -> & ->)%sys_run. exists [(c, v)]. split; [done|]. cbn [existsb]. by rewrite Hc.
Qed.

Lemma exits_sockaddr : exits_on_failure sockaddr.
Proof. intros tr r tr' [= <- <-]. exists []. by rewrite app_nil_r. Qed.

Lemma exits_or_exit c failed : (forall v, fatal (c, v) = failed v) -> exits_on_failure (or_exit c failed).
Proof.
  intros Hc tr r tr' [(v & tr1 & ->%sys_Ok & E)|(e & E & _)]%bind_run; [|discriminate].
  exists [(c, v)]. cbn [existsb]. rewrite Hc, orb_false_r. by destruct (failed v); injection E as <- <-.
Qed.

Lemma exits_bind {A B} (m : script A) (k : A -> script B) :
  exits_on_failure m -> (forall a, exits_on_failure (k a)) -> exits_on_failure (m ≫= k).
Proof.
  intros Hm Hk tr r tr' [(a & tr1 & E1 & E2)|(e & E & ->)]%bind_run.
  - apply Hm in E1 as (t1 & -> & H1). apply Hk in E2 as (t2 & -> & H2). exists (t1 ++ t2).
    rewrite app_assoc, existsb_app, H2. split; [done|].
    destruct (existsb fatal t1); [|done]. by discriminate (proj2 H1 eq_refl).
  - apply Hm in E as (t & -> & Ht). exists t. split; [done|]. rewrite <- Ht. split; congruence.
Qed.

Lemma exits_if {A} (b : bool) (m1 m2 : script A) :
  exits_on_failure m1 -> exits_on_failure m2 -> exits_on_failure (if b then m1 else m2).
Proof. by destruct b. Qed.

End scripts.

Create HintDb sys.
#[export] Hint Resolve exits_ret exits_sockaddr exits_bind exits_if : sys.
#[export] Hint Extern 1 (exits_on_failure (sys _)) => apply exits_sys; reflexivity : sys.
#[export] Hint Extern 1 (exits_on_failure (or_exit _ _)) => apply exits_or_exit; reflexivity : sys.

(** [at_index H] goes through the positions of a lookup [H] in a trace. *)
Ltac at_index H :=
  let T := type of H in
  lazymatch T with
  | ?l !! ?i = Some _ => do 8 (try (destruct i as [|i]; [cbn in H; try discriminate H|])); try (cbn in H; discriminate H)
  end.

(** [granted_calls] opens [granted t] and computes with the answers. *)
Ltac granted_calls Hg :=
  cbn in Hg; repeat (let H := fresh "Hv" in apply andb_prop in Hg as [H Hg]); cbn;
  repeat match goal with
    | H : (0 <=? ?v) = true |- context [0 <=? ?v] => rewrite H
    | |- context [?x =? ?x] => rewrite (Z.eqb_refl x)
    | |- context [negb (Z.land (Z.lor ?a O_NONBLOCK) O_NONBLOCK =? 0)] => rewrite (lor_nonblock a)
    end; cbn.

(** [script_inv E] runs a script that returned, call by call. *)
Ltac script_inv E :=
  lazymatch type of E with
  | (_ ≫= _) _ = (Ok _, _) =>
      let a := fresh "a" in let tr := fresh "tr" in let E1 := fresh "E" in
      apply bind_Ok in E as (a & tr & E1 & E); script_inv E1; script_inv E
  | sys _ _ = (Ok _, _) => apply sys_Ok in E; subst
  | or_exit _ _ _ = (Ok _, _) => let F := fresh "F" in apply or_exit_Ok in E as [F ->]
  | mret _ _ = (Ok _, _) => injection E as <- <-
  | lift _ _ = (Ok _, _) => injection E as E <-
  | _ => idtac
  end.

End Sys.

Import Sys.

(** ** [namespace option] *)
Module option.
Section calls.
Context `{Kernel}.

Definition setNonBlocking (fd : Z) : script () :=
  old ← sys (fcntl fd F_GETFL 0);
  sys (fcntl fd F_SETFL (Z.lor old O_NONBLOCK)) ;; mret ().
Definition setNoDelay (fd : Z) : script () := sys (setsockopt fd IPPROTO_TCP TCP_NODELAY 1) ;; mret ().
Definition createNBSocket : script Z :=
  sys (socket AF_INET (Z.lor SOCK_STREAM (Z.lor SOCK_NONBLOCK SOCK_CLOEXEC)) IPPROTO_TCP).
Definition getPeerName (fd : Z) : script InetAddress.t := sys (getpeername fd) ;; sockaddr.
Definition getSockName (fd : Z) : script InetAddress.t := sys (getsockname fd) ;; sockaddr.

Lemma exits_setNonBlocking fd : exits_on_failure (setNonBlocking fd).
Proof. unfold setNonBlocking. auto 8 with sys. Qed.
Lemma exits_createNBSocket : exits_on_failure createNBSocket.
Proof. unfold createNBSocket. auto with sys. Qed.

End calls.
End option.

(** ** [ServerSocket]: the descriptor of the server socket *)
Module ServerSocket.
Section calls.
Context `{Kernel}.

Definition t : Type := Z.
Definition getFd (s : t) : Z := s.
Definition destroy (s : t) : script () := sys (close s) ;; mret ().

Definition bind (address : InetAddress.t) (s : t) : script () :=
  or_exit (Sys.bind s address) (fun r => r <? 0) ;; mret ().
Definition listen (s : t) : script () := or_exit (Sys.listen s SOMAXCONN) (fun r => r <? 0) ;; mret ().
Definition accept (s : t) : script (Z * InetAddress.t) :=
  connfd ← sys (Sys.accept s); peer ← sockaddr; mret (connfd, peer).

Definition enable (name : Z) (on : bool) (s : t) : script () :=
  sys (setsockopt s SOL_SOCKET name (if on then 1 else 0)) ;; mret ().
Definition enableReuseAddr : bool -> t -> script () := enable SO_REUSEADDR.
Definition enableReusePort : bool -> t -> script () := enable SO_REUSEPORT.
Definition enableKeepAlive : bool -> t -> script () := enable SO_KEEPALIVE.

Lemma accept_run s tr : exists connfd peer, accept s tr = (Ok (connfd, peer), tr ++ [(Sys.accept s, connfd)]).
Proof. unfold accept. rewrite bind_sys. eauto. Qed.

Lemma exits_bind_address address s : exits_on_failure (bind address s).
Proof. unfold bind. auto with sys. Qed.
Lemma exits_listen s : exits_on_failure (listen s).
Proof. unfold listen. auto with sys. Qed.
Lemma exits_enable name on s : exits_on_failure (enable name on s).
Proof. unfold enable. auto with sys. Qed.
Lemma exits_accept s : exits_on_failure (accept s).
Proof. unfold accept. auto 6 with sys. Qed.

End calls.
End ServerSocket.

(** ** [ServerSsl]: the context of a server of TLS *)
Module ServerSsl.
Section calls.
Context `{Kernel}.

(** [ctx_] *)
Definition t : Type := Z.

Definition init : script () := sys SSL_init ;; mret ().
Definition serverCtxCreate : script t :=
  ctx ← or_exit SSL_CTX_new (fun r => r =? 0);
  sys (SSL_CTX_set_options ctx [SSL_OP_ALL; SSL_OP_NO_SSLv2; SSL_OP_NO_SSLv3; SSL_OP_NO_COMPRESSION;
         SSL_OP_NO_SESSION_RESUMPTION_ON_RENEGOTIATION]) ;;
  mret ctx.
Definition serverCertificate (certfile pkfile password : bytes) (ctx : t) : script () :=
  sys (SSL_CTX_set_password ctx (match password with [] => None | _ => Some password end)) ;;
  or_exit (SSL_CTX_use_certificate_file ctx certfile) (fun r => r <=? 0) ;;
  or_exit (SSL_CTX_use_PrivateKey_file ctx pkfile) (fun r => r <=? 0) ;;
  or_exit (SSL_CTX_check_private_key ctx) (fun r => r <=? 0) ;;
  mret ().
Definition new (certfile pkfile password : bytes) : script t :=
  init ;; ctx ← serverCtxCreate; serverCertificate certfile pkfile password ctx ;; mret ctx.
Definition destroy (ctx : t) : script () := if ctx =? 0 then mret () else sys (SSL_CTX_free ctx) ;; mret ().

(** The channel is its two members, [ssl_] and [fd_]. *)
Definition createSslChannel (connfd : Z) (ctx : t) : script (Z * Z) :=
  ssl ← sys (SSL_new ctx); sys (SSL_set_fd ssl connfd) ;; mret (ssl, connfd).
Definition accept (channel : Z * Z) : script Z := sys (SSL_accept channel.1).
(** [delete channel]: [~SslChannel] and then [~RawChannel]. *)
Definition delete_channel (channel : Z * Z) : script () :=
  (if channel.1 =? 0 then mret () else sys (SSL_shutdown channel.1) ;; sys (SSL_free channel.1) ;; mret ()) ;;
  sys (close channel.2) ;; mret ().

Lemma new_ssl certfile pkfile password tr ctx tr' :
  new certfile pkfile password tr = (Ok ctx, tr') -> exists t, tr' = tr ++ t /\ forallb ssl_call t = true.
Proof.
  intros E. unfold new, init, serverCtxCreate, serverCertificate in E. script_inv E.
  eexists. rewrite <- !app_assoc. split; reflexivity.
Qed.

Lemma createSslChannel_run connfd ctx tr :
  exists ssl v, createSslChannel connfd ctx tr = (Ok (ssl, connfd), tr ++ [(SSL_new ctx, ssl); (SSL_set_fd ssl connfd, v)]).
Proof. unfold createSslChannel. rewrite !bind_sys, <- app_assoc. eauto. Qed.

(** A channel of TLS releases its state, and closes its descriptor. *)
Lemma delete_channel_run ssl fd tr :
  exists t v, delete_channel (ssl, fd) tr = (Ok (), tr ++ t ++ [(close fd, v)]) /\ (t = [] \/ exists v1 v2, t = [(SSL_shutdown ssl, v1); (SSL_free ssl, v2)]).
Proof.
  unfold delete_channel. cbn [fst snd]. destruct (ssl =? 0).
  - exists []. eexists. split; [reflexivity|by left].
  - eexists [_; _], _. split; [|right; eauto]. rewrite app_assoc. unfold mbind, script_bind, sys. cbn. by rewrite <- !app_assoc.
Qed.

Lemma exits_new certfile pkfile password : exits_on_failure (new certfile pkfile password).
Proof. unfold new, init, serverCtxCreate, serverCertificate. auto 20 with sys. Qed.
Lemma exits_createSslChannel connfd ctx : exits_on_failure (createSslChannel connfd ctx).
Proof. unfold createSslChannel. auto 6 with sys. Qed.
Lemma exits_delete_channel channel : exits_on_failure (delete_channel channel).
Proof. unfold delete_channel. auto 12 with sys. Qed.

End calls.
End ServerSsl.

#[export] Hint Resolve option.exits_setNonBlocking option.exits_createNBSocket ServerSocket.exits_bind_address ServerSocket.exits_listen
  ServerSocket.exits_enable ServerSocket.exits_accept ServerSsl.exits_new ServerSsl.exits_createSslChannel
  ServerSsl.exits_delete_channel : sys.
