(* ===== verification/JsonLexer.v ===== *)
(** * JsonLexer: from JSON text to tokens

    Models [soc/libjson/include/JsonUtil.h], [JsonReader.h], [JsonToken.h] and
    [JsonLexer.h].  Floating point numbers are a parameter: their type, the
    conversion of a lexeme and the conversion to text (the [iostream]
    operators on [double]). *)
From S2P Require Import Prelude CStr.

(** ** [JsonUtil.h] *)
Module JsonUtil.

Definition isnumber (c : ascii) : bool := in_range "0" "9" c.
Definition ishex (c : ascii) : bool := in_range "0" "9" c || in_range "a" "f" c || in_range "A" "F" c.
Definition isexponent (c : ascii) : bool := bool_decide (c = "e"%char) || bool_decide (c = "E"%char).
Definition isspace (c : ascii) : bool :=
  bool_decide (c = " "%char) || bool_decide (c = "009"%char) || bool_decide (c = "011"%char).
Definition isnewline (c : ascii) : bool := bool_decide (c = LF).
Definition is_string_begin_end (c : ascii) : bool := bool_decide (c = DQUOTE).
Definition BACKSLASH : ascii := "\"%char.

Definition is_valid_next_escape_character (c : ascii) : bool :=
  bool_decide (c ∈ ["t"; "n"; "0"; "b"; "f"; "x"; "u"; "r"; DQUOTE; BACKSLASH]%char).

Definition unescape_character (c : ascii) : bytes :=
  if decide (c = LF) then [BACKSLASH; "n"%char]
  else if decide (c = NUL) then [BACKSLASH; "0"%char]
  else if decide (c = "009"%char) then [BACKSLASH; "t"%char]
  else if decide (c = DQUOTE) then [BACKSLASH; DQUOTE]
  else if decide (c = "008"%char) then [BACKSLASH; "b"%char]
  else if decide (c = "012"%char) then [BACKSLASH; "f"%char]
  else if decide (c = CR) then [BACKSLASH; "r"%char]
  else if decide (c = BACKSLASH) then [BACKSLASH; BACKSLASH]
  else [c].

Definition escape_character (c : ascii) : ascii :=
  if decide (c = "n"%char) then LF
  else if decide (c = "0"%char) then NUL
  else if decide (c = "t"%char) then "009"%char
  else if decide (c = "b"%char) then "008"%char
  else if decide (c = "f"%char) then "012"%char
  else if decide (c = "r"%char) then CR
  else if decide (c = BACKSLASH) then BACKSLASH
  else c.

(** [toBase<int, 16>]: a value that is too large is replaced by [INT_MAX]. *)
Definition hex_value (c : ascii) : Z :=
  if isnumber c then char_u c - 48 else if in_range "a" "f" c then char_u c - 87 else char_u c - 55.
Definition toBase16 (s : bytes) : Z := Z.min INT_MAX (foldl (fun n c => n * 16 + hex_value c)%Z 0%Z s).

(** [wstring_convert<codecvt_utf8<wchar_t>>::to_bytes] of one character; a
    surrogate is a [std::range_error]. *)
Definition utf8 (v : Z) : result bytes :=
  (if v <? 0x80 then Ok [chr v]
   else if v <? 0x800 then Ok [chr (0xc0 + v / 64); chr (0x80 + v mod 64)]
   else if (0xd800 <=? v) && (v <=? 0xdfff) then Err StdException
   else Ok [chr (0xe0 + v / 4096); chr (0x80 + v / 64 mod 64); chr (0x80 + v mod 64)])%Z.

Definition unicode_hex_to_string (s : bytes) : result bytes := utf8 (toBase16 s).

(** The prefix of hexadecimal digits and what follows. *)
Fixpoint span_hex (s : bytes) : bytes * bytes :=
  match s with
  | c :: s' => if ishex c then let '(h, r) := span_hex s' in (c :: h, r) else ([], s)
  | [] => ([], [])
  end.

(** Position [size()] of a [std::string] is a zero byte. *)
Fixpoint escape_loop (fuel : nat) (s : bytes) : result bytes :=
  match fuel with
  | 0 => Ok []
  | S fuel =>
      match s with
      | [] => Ok []
      | c :: s =>
          if decide (c = BACKSLASH) then
            match s with
            | [] => Ok [escape_character NUL]
            | d :: s =>
                if decide (d = "u"%char) then
                  match s with
                  | h1 :: h2 :: h3 :: h4 :: s =>
                      if ishex h1 && ishex h2 && ishex h3 && ishex h4 then
                        let* u := unicode_hex_to_string [h1; h2; h3; h4] in
                        let* r := escape_loop fuel s in Ok (u ++ r)
                      else Err JsonErrorExn
                  | _ => Err JsonErrorExn
                  end
                else if decide (d = "x"%char) then
                  let '(hexs, s) := span_hex s in
                  if decide (hexs = []) then Err JsonErrorExn
                  else let* r := escape_loop fuel s in Ok (to_string (toBase16 hexs) ++ r)
                else let* r := escape_loop fuel s in Ok (escape_character d :: r)
            end
          else let* r := escape_loop fuel s in Ok (c :: r)
      end
  end.
Definition escape_string (s : bytes) : result bytes := escape_loop (length s) s.

Definition unescape_string (s : bytes) : bytes := mjoin (unescape_character <$> s).

(** [static_cast<int>(toAny<double>(s))] of an integer lexeme: the extraction
    fails on a sign alone and leaves 0; a value outside the range of [int] is
    undefined.  A [double] holds the values inside it exactly. *)
Definition digits_value (s : bytes) : Z := foldl (fun n c => n * 10 + (char_u c - 48))%Z 0%Z s.
Definition to_int (s : bytes) : result Z :=
  int_checked (match s with
  | c :: s' => if decide (c = "-"%char) then - digits_value s' else if decide (c = "+"%char) then digits_value s' else digits_value s
  | [] => 0
  end)%Z.

End JsonUtil.

(** ** [JsonReader] *)
Module JsonReader.

Record t := Make { sbuffer : bytes; ptr : Z }.

Definition EOF : ascii := "255"%char.
Definition len (r : t) : Z := Z.of_nat (length (sbuffer r)).
(** [new char[__len]{0}]: an empty text leaves no room for the initializer. *)
Definition set_buffer (s : bytes) : result t := if decide (s = []) then Err BadArrayNewLength else Ok (Make s (-1)).

(** The constructor from a stream: [>>] skips white space. *)
Definition whitespace (c : ascii) : bool := bool_decide (c ∈ [" "; "009"; "010"; "011"; "012"; "013"]%char).
Definition from_stream (contents : bytes) : result t :=
  let s := filter (fun c => whitespace c = false) contents in
  if decide (s = []) then Err JsonErrorExn else set_buffer s.

Definition at_ptr (i : Z) (r : t) : ascii := sbuffer r !!! Z.to_nat i.
Definition get (r : t) : ascii * t :=
  let r := Make (sbuffer r) (ptr r + 1) in
  (if (len r <=? ptr r)%Z then EOF else at_ptr (ptr r) r, r).
Definition back (r : t) : t := Make (sbuffer r) (ptr r - 1).
Definition peek (r : t) : ascii := if (len r <=? ptr r + 1)%Z then EOF else at_ptr (ptr r + 1) r.
Fixpoint gets (count : nat) (r : t) : bytes * t :=
  match count with
  | 0 => ([], r)
  | S count => let '(c, r) := get r in let '(s, r) := gets count r in (c :: s, r)
  end.
Definition eof (r : t) : bool := (len r - 1 <? ptr r)%Z.

(** The members that the lexer does not use. *)
Definition cur (r : t) : ascii := if ((ptr r <=? -1) || (len r <=? ptr r))%Z then EOF else at_ptr (ptr r) r.
Definition backc (r : t) : result ascii :=
  if (ptr r - 1 <? 0)%Z then Ok EOF else of_option Undefined (sbuffer r !! Z.to_nat (ptr r - 1)).
Definition geteq (c : ascii) (r : t) : (bool * ascii) * t :=
  let '(x, r) := get r in
  if decide (x = c) then ((true, c), r) else ((false, c), back r).
Definition reset (r : t) : t := Make (sbuffer r) (-1).
Definition clear (r : t) : t := Make (replicate (length (sbuffer r)) NUL) (ptr (reset r)).

End JsonReader.

(** ** [JsonLexer] *)
Module JsonLexer.
Import JsonUtil JsonReader.

Section lexer.
Context {F : Type} (toDouble : bytes -> F).

Inductive lexeme :=
  | JSON_STRING (s : bytes) | JSON_NUMBER (n : Z) | JSON_FLOAT (f : F) | JSON_TRUE | JSON_FALSE | JSON_NULL
  | JSON_OBJECT_BEGIN | JSON_OBJECT_END | JSON_ARRAY_BEGIN | JSON_ARRAY_END | JSON_KEY_VALUE_SEP | JSON_SEP.

Record token := Token { tag : lexeme; line : Z; col : Z; tlen : Z }.

(** [Token::toString]; [showDouble] is the stream output of a [double].  A tag
    of one character is its character code. *)
Definition tag_text (showDouble : F -> bytes) (k : lexeme) : bytes :=
  match k with
  | JSON_STRING s => bs "String, " ++ [DQUOTE] ++ s ++ [DQUOTE]
  | JSON_NUMBER n => bs "Number, " ++ to_string n
  | JSON_FLOAT f => bs "Float, " ++ showDouble f
  | JSON_TRUE => bs "True" | JSON_FALSE => bs "False" | JSON_NULL => bs "Null"
  | JSON_OBJECT_BEGIN => bs "{" | JSON_OBJECT_END => bs "}" | JSON_ARRAY_BEGIN => bs "[" | JSON_ARRAY_END => bs "]"
  | JSON_KEY_VALUE_SEP => bs ":" | JSON_SEP => bs ","
  end.
Definition Token_toString (showDouble : F -> bytes) (x : token) : bytes :=
  bs "<" ++ tag_text showDouble (tag x) ++ bs ">"
  ++ bs " [" ++ to_string (line x) ++ bs "," ++ to_string (col x) ++ bs "," ++ to_string (tlen x) ++ bs "]".

Record t := Make { escape : bool; lineNumber : Z; colNumber : Z; reader : JsonReader.t; token_list : list token }.

(** The two constructors: what the reader's throws is caught, and ends the program. *)
Definition construct (escape : bool) (r : result JsonReader.t) : result t :=
  match r with Ok r => Ok (Make escape 1 1 r []) | Err _ => Err ExitProcess end.
Definition new (text : bytes) (escape : bool) : result t := construct escape (set_buffer text).
Definition new_stream (contents : bytes) (escape : bool) : result t := construct escape (from_stream contents).

Definition set_reader (r : JsonReader.t) (dcol : Z) (l : t) : t :=
  Make (escape l) (lineNumber l) (colNumber l + dcol) r (token_list l).
Definition newline (l : t) : t := Make (escape l) (lineNumber l + 1) 1 (reader l) (token_list l).
Definition next_line (l : t) : t := Make (escape l) (lineNumber l + 1) (colNumber l) (reader l) (token_list l).
Definition push (k : token) (l : t) : t :=
  Make (escape l) (lineNumber l) (colNumber l) (reader l) (token_list l ++ [k]).

Definition backC (l : t) : t := set_reader (back (reader l)) (-1) l.
Definition getC (l : t) : ascii * t := let '(c, r) := get (reader l) in (c, set_reader r 1 l).
Definition getS (n : nat) (l : t) : bytes * t := let '(s, r) := gets n (reader l) in (s, set_reader r (Z.of_nat n) l).

Definition syntax_error {A} (l : t) (col : Z) : result A := Err (JsonSyntaxErrorExn (lineNumber l) col).

(** The loops of [analysis]; [fuel] bounds their turns. *)
Fixpoint skip_space (fuel : nat) (c : option ascii) (l : t) : result (option ascii * t) :=
  match fuel with
  | 0 => Err OutOfFuel
  | S fuel =>
      if eof (reader l) then Ok (c, l)
      else
        let '(c, l) := getC l in
        if isspace c then skip_space fuel (Some c) l
        else if isnewline c then skip_space fuel (Some c) (newline l)
        else Ok (Some c, l)
  end.

Fixpoint string_loop (fuel : nat) (start_col : Z) (c : ascii) (s : bytes) (l : t) : result (bytes * t) :=
  match fuel with
  | 0 => Err OutOfFuel
  | S fuel =>
      if is_string_begin_end c then Ok (s, l)
      else
        let s := s ++ [c] in
        if decide (c = BACKSLASH) then
          let '(c, l) := getC l in
          if negb (is_valid_next_escape_character c) then syntax_error l start_col
          else
            let s := s ++ [c] in
            let '(c, l) := getC l in string_loop fuel start_col c s l
        else let '(c, l) := getC l in string_loop fuel start_col c s l
  end.

Fixpoint line_comment (fuel : nat) (c : ascii) (l : t) : result t :=
  match fuel with
  | 0 => Err OutOfFuel
  | S fuel =>
      if negb (bool_decide (c = EOF)) && negb (isnewline c)
      then let '(c, l) := getC l in line_comment fuel c l else Ok l
  end.

Fixpoint block_comment (fuel : nat) (c : ascii) (l : t) : result t :=
  match fuel with
  | 0 => Err OutOfFuel
  | S fuel =>
      if bool_decide (c = "*"%char) && bool_decide (peek (reader l) = "/"%char) then Ok l
      else
        let l := if isnewline c then next_line l else l in
        let '(c, l) := getC l in block_comment fuel c l
  end.

Fixpoint take_while (fuel : nat) (p : ascii -> bool) (c : ascii) (s : bytes) (l : t) : result (ascii * bytes * t) :=
  match fuel with
  | 0 => Err OutOfFuel
  | S fuel => if p c then let '(c', l) := getC l in take_while fuel p c' (s ++ [c]) l else Ok (c, s, l)
  end.

Definition lex_string (fuel : nat) (l : t) : result t :=
  let start_col := colNumber l in
  let '(c, l) := getC l in
  let* (s, l) := string_loop fuel start_col c [] l in
  let* s := (if escape l then
      match escape_string s with Err JsonErrorExn => syntax_error l (colNumber l) | r => r end
    else Ok s) in
  Ok (push (Token (JSON_STRING s) (lineNumber l) start_col (Z.of_nat (length s))) l).

Definition lex_comment (fuel : nat) (l : t) : result t :=
  let '(c, l) := getC l in
  if decide (c = "/"%char) then let '(c, l) := getC l in line_comment fuel c l
  else if decide (c = "*"%char) then
    let '(c, l) := getC l in
    let* l := block_comment fuel c l in
    let '(_, l) := getC l in Ok l
  else syntax_error l (colNumber l).

(** An identifier whose first character is [c]. *)
Definition lex_identifier (c : ascii) (name : bytes) (k : lexeme) (l : t) : result t :=
  let start_col := colNumber l in
  let '(s, l) := getS (length name - 1) l in
  if decide (c :: s = name) then Ok (push (Token k (lineNumber l) start_col (Z.of_nat (length name))) l)
  else syntax_error l (colNumber l).

Definition lex_number (fuel : nat) (c : ascii) (l : t) : result t :=
  let start_col := colNumber l in
  if bool_decide (c = "0"%char) && isnumber (peek (reader l)) then syntax_error l (colNumber l)
  else
    let '(c', l) := getC l in
    let* (c', s, l) := take_while fuel isnumber c' [c] l in
    if bool_decide (c' = "."%char) || isexponent c' then
      let s := s ++ [c'] in
      let '(c', l) := getC l in
      let* (_, s, l) := take_while fuel
        (fun c => isnumber c || isexponent c || bool_decide (c = "+"%char) || bool_decide (c = "-"%char)) c' s l in
      let* z := of_option Undefined (last s) in
      if bool_decide (z = "."%char) || isexponent z then syntax_error l (colNumber l)
      else
        let l := backC l in
        Ok (push (Token (JSON_FLOAT (toDouble s)) (lineNumber l) start_col (Z.of_nat (length s))) l)
    else
      let l := backC l in
      let* n := to_int s in
      Ok (push (Token (JSON_NUMBER n) (lineNumber l) start_col (Z.of_nat (length s))) l).

Definition analysis (fuel : nat) (l : t) : result t :=
  let* (c, l) := skip_space fuel None l in
  let* c := of_option Undefined c in
  let single k := Ok (push (Token k (lineNumber l) (colNumber l) 1) l) in
  if decide (c = DQUOTE) then lex_string fuel l
  else if decide (c = "/"%char) then lex_comment fuel l
  else if decide (c = "t"%char) then lex_identifier c (bs "true") JSON_TRUE l
  else if decide (c = "f"%char) then lex_identifier c (bs "false") JSON_FALSE l
  else if decide (c = "n"%char) then lex_identifier c (bs "null") JSON_NULL l
  else if decide (c = ":"%char) then single JSON_KEY_VALUE_SEP
  else if decide (c = ","%char) then single JSON_SEP
  else if decide (c = "{"%char) then single JSON_OBJECT_BEGIN
  else if decide (c = "["%char) then single JSON_ARRAY_BEGIN
  else if decide (c = "}"%char) then single JSON_OBJECT_END
  else if decide (c = "]"%char) then single JSON_ARRAY_END
  else if isnumber c || bool_decide (c = "-"%char) || bool_decide (c = "+"%char) then lex_number fuel c l
  else Ok l.

(** [JsonParser::getTokens]: an error of the lexer ends the process. *)
Fixpoint tokens_loop (fuel steps : nat) (l : t) : result t :=
  match steps with
  | 0 => Err OutOfFuel
  | S steps =>
      if eof (reader l) then Ok l
      else match analysis fuel l with
           | Ok l => tokens_loop fuel steps l
           | Err JsonErrorExn | Err (JsonSyntaxErrorExn _ _) => Err ExitProcess
           | Err e => Err e
           end
  end.

Definition getTokens (fuel : nat) (l : t) : result t := tokens_loop fuel fuel l.

End lexer.
Arguments lexeme : clear implicits.
Arguments token : clear implicits.
Arguments t : clear implicits.
End JsonLexer.
