(* ===== verification/JsonParser.v ===== *)
(** * JsonParser: JSON values, their parser and their printers

    Models [soc/libjson/include/JsonValue.h], [JsonObject.h], [JsonArray.h],
    [JsonNumber.h], [JsonString.h], [JsonBoolean.h], [JsonNull.h],
    [JsonParser.h] and [JsonFormatter.h], with [soc/libjson/src/JsonParser.cc]
    and [soc/libjson/src/JsonFormatter.cc]. *)
From S2P Require Import Prelude CStr JsonLexer.
Import JsonUtil JsonLexer.

(** ** Values *)
Module Json.

(** [JsonString]: the text and whether its escapes were replaced. *)
Record str := Str { text : bytes; isEscaped : bool }.

(** A value; [JsonNone] is a null pointer in an object or an array. *)
Inductive value (F : Type) :=
  | JsonObject (kvs : list (str * value F))
  | JsonArray (vs : list (value F))
  | JsonString (s : str)
  | JsonInt (n : Z)
  | JsonFloat (f : F)
  | JsonBoolean (b : bool)
  | JsonNull
  | JsonNone.
Arguments JsonObject {F}. Arguments JsonArray {F}. Arguments JsonString {F}. Arguments JsonInt {F}.
Arguments JsonFloat {F}. Arguments JsonBoolean {F}. Arguments JsonNull {F}. Arguments JsonNone {F}.

Section values.
Context {F : Type} (showDouble : F -> bytes).

(** [find]: the first member with this key. *)
Fixpoint find (key : bytes) (kvs : list (str * value F)) : option (value F) :=
  match kvs with
  | [] => None
  | (k, v) :: kvs => if decide (key = text k) then Some v else find key kvs
  end.

(** Both [add]s append; [get] of an index that is out of range is null. *)
Definition object_add (k : str) (v : value F) (kvs : list (str * value F)) : list (str * value F) := kvs ++ [(k, v)].
Definition array_add (v : value F) (vs : list (value F)) : list (value F) := vs ++ [v].

(** A [JsonString] counts as escaped unless it is told otherwise. *)
Definition new_str (s : bytes) : str := Str s true.

(** The overloads of [JsonObject::add], for a key that is a string. *)
Definition object_add_value (key : bytes) (v : value F) := object_add (new_str key) v.
Definition object_add_string (key s : bytes) := object_add (new_str key) (JsonString (new_str s)).
Definition object_add_double (key : bytes) (f : F) := object_add (new_str key) (JsonFloat f).
Definition object_add_int (key : bytes) (n : Z) := object_add (new_str key) (JsonInt n).
Definition object_add_null (key : bytes) := object_add (new_str key) JsonNull.
Definition object_add_bool (key : bytes) (b : bool) := object_add (new_str key) (JsonBoolean b).

(** Those of [JsonArray::add], and [add_values], which chooses among them by the
    type of each argument. *)
Definition array_add_null := array_add JsonNull.
Definition array_add_int (n : Z) := array_add (JsonInt n).
Definition array_add_double (f : F) := array_add (JsonFloat f).
Definition array_add_bool (b : bool) := array_add (JsonBoolean b).
Definition array_add_string (s : bytes) := array_add (JsonString (new_str s)).
Inductive element := AnInt (n : Z) | ADouble (f : F) | AString (s : bytes) | ABool (b : bool) | AValue (v : value F).
Definition add_element (x : element) : list (value F) -> list (value F) :=
  match x with
  | AnInt n => array_add_int n | ADouble f => array_add_double f | AString s => array_add_string s
  | ABool b => array_add_bool b | AValue v => array_add v
  end.
Fixpoint add_values (l : list element) (vs : list (value F)) : list (value F) :=
  match l with [] => vs | x :: l => add_values l (add_element x vs) end.

Definition object_get (index : Z) (kvs : list (str * value F)) : option (str * value F) :=
  if ((index <? 0) || (Z.of_nat (length kvs) <=? index))%Z then None else kvs !! Z.to_nat index.
Definition array_get (index : Z) (vs : list (value F)) : option (value F) :=
  if ((index <? 0) || (Z.of_nat (length vs) <=? index))%Z then None else vs !! Z.to_nat index.

Definition size (v : value F) : nat :=
  match v with JsonObject kvs => length kvs | JsonArray vs => length vs | _ => 0 end.
Definition empty (v : value F) : bool :=
  match v with JsonObject kvs => bool_decide (kvs = []) | JsonArray vs => bool_decide (vs = []) | _ => true end.

Definition quoted (s : bytes) : bytes := [DQUOTE] ++ s ++ [DQUOTE].

(** [JsonString::toString] without and with its argument. *)
Definition str_toString (s : str) : bytes := quoted (text s).
Definition str_toString_escape (escape : bool) (s : str) : result bytes :=
  if escape then
    let* ss := (if isEscaped s then Ok (text s) else escape_string (text s)) in Ok (quoted ss)
  else Ok (quoted (if isEscaped s then unescape_string (text s) else text s)).

(** [toString] of a value that is neither an object nor an array. *)
Definition scalar_toString (v : value F) : result bytes :=
  match v with
  | JsonString s => Ok (str_toString s)
  | JsonInt n => Ok (to_string n)
  | JsonFloat f => Ok (showDouble f)
  | JsonBoolean b => Ok (if b then bs "true" else bs "false")
  | JsonNull => Ok (bs "null")
  | _ => Err Undefined
  end.

(** Joins the printed members with commas. *)
Fixpoint commas (l : list bytes) : bytes :=
  match l with [] => [] | [x] => x | x :: l => x ++ bs "," ++ commas l end.

Fixpoint toString (v : value F) : result bytes :=
  match v with
  | JsonObject kvs =>
      let fix members (kvs : list (str * value F)) : result (list bytes) :=
        match kvs with
        | [] => Ok []
        | (k, v) :: kvs =>
            let* s := toString v in
            let* l := members kvs in
            Ok ((str_toString k ++ bs ":" ++ s) :: l)
        end in
      let* l := members kvs in Ok (bs "{" ++ commas l ++ bs "}")
  | JsonArray vs =>
      let fix members (vs : list (value F)) : result (list bytes) :=
        match vs with
        | [] => Ok []
        | v :: vs => let* s := toString v in let* l := members vs in Ok (s :: l)
        end in
      let* l := members vs in Ok (bs "[" ++ commas l ++ bs "]")
  | v => scalar_toString v
  end.

(** ** [JsonFormatter] *)
Section format.
Context (indent : nat) (escape : bool).

Definition append_space_character (c : nat) : bytes := replicate c " "%char.

(** The text after a member: a comma unless it is the last, and a new line. *)
Definition member_end (last : bool) : bytes := (if last then [] else bs ",") ++ [LF].

(** [recursive_formatter(depth, v, empty)] of an object or an array, and the
    text of any other member. *)
Fixpoint recursive_formatter (depth : nat) (v : value F) (empty_ : bool) : result bytes :=
  let closing := if empty_ then [] else append_space_character ((depth - 1) * indent) in
  match v with
  | JsonArray vs =>
      let fix members (vs : list (value F)) : result bytes :=
        match vs with
        | [] => Ok []
        | v :: vs' =>
            let* s := recursive_formatter (depth + 1) v (empty v) in
            let* r := members vs' in
            Ok (append_space_character (depth * indent) ++ s ++ member_end (bool_decide (vs' = [])) ++ r)
        end in
      let* r := members vs in
      Ok (bs "[" ++ (match vs with [] => [] | _ => [LF] end) ++ r ++ closing ++ bs "]")
  | JsonObject kvs =>
      let fix members (kvs : list (str * value F)) : result bytes :=
        match kvs with
        | [] => Ok []
        | (k, v) :: kvs' =>
            let* key := str_toString_escape escape k in
            let* s := recursive_formatter (depth + 1) v (empty v) in
            let* r := members kvs' in
            Ok (append_space_character (depth * indent) ++ key ++ bs ": " ++ s ++ member_end (bool_decide (kvs' = [])) ++ r)
        end in
      let* r := members kvs in
      Ok (bs "{" ++ (match kvs with [] => [] | _ => [LF] end) ++ r ++ closing ++ bs "}")
  | JsonString s => str_toString_escape escape s
  | v => scalar_toString v
  end.

(** [format], of an object or an array; a source set to a null pointer is a
    [JsonError].  An indentation that is not positive is 0. *)
Definition format (v : option (value F)) : result bytes :=
  match v with
  | None => Err JsonErrorExn
  | Some v => if (indent =? 0)%nat then toString v else recursive_formatter 1 v false
  end.

End format.
End values.
End Json.

(** ** [JsonParser] *)
Module JsonParser.
Import Json.

Section parser.
Context {F : Type}.
Notation token := (token F).
Notation value := (value F).
Implicit Types (token_list : list token).

(** The rest of the token list is what the index has not passed; [escape] is
    the lexer's. *)
Context (escape : bool).

Definition syntax {A} (line col : Z) : result A := Err (JsonSyntaxErrorExn line col).

Definition handle_begin_end_mismatch_exception (token_list : list token) : result unit :=
  let* first := of_option Undefined (head token_list) in
  let* last := of_option Undefined (last token_list) in
  match tag first, tag last with
  | JSON_OBJECT_BEGIN, JSON_OBJECT_END => Ok ()
  | JSON_OBJECT_BEGIN, _ => syntax (line last) (col last)
  | JSON_ARRAY_BEGIN, JSON_ARRAY_END => Ok ()
  | JSON_ARRAY_BEGIN, _ => syntax (line last) (col last)
  | _, _ => Ok ()
  end.

(** The checks look at the next token, if there is one. *)
Definition handle_after_object_array_closure_exception (cur : token) (rest : list token) : result unit :=
  match rest with
  | next :: _ =>
      match tag next with
      | JSON_KEY_VALUE_SEP | JSON_OBJECT_BEGIN | JSON_ARRAY_BEGIN | JSON_NUMBER _ | JSON_NULL | JSON_FLOAT _
      | JSON_STRING _ | JSON_TRUE | JSON_FALSE =>
          match tag cur with
          | JSON_ARRAY_END | JSON_OBJECT_END => syntax (line next) (col next)
          | _ => Ok ()
          end
      | _ => Ok ()
      end
  | [] => Ok ()
  end.

Definition handle_after_object_array_exception (cur : token) (rest : list token) : result unit :=
  match rest with
  | next :: _ =>
      match tag next with
      | JSON_SEP | JSON_KEY_VALUE_SEP => syntax (line next) (col next)
      | JSON_ARRAY_END => match tag cur with JSON_OBJECT_BEGIN => syntax (line next) (col next) | _ => Ok () end
      | JSON_OBJECT_END => match tag cur with JSON_ARRAY_BEGIN => syntax (line next) (col next) | _ => Ok () end
      | _ => Ok ()
      end
  | [] => Ok ()
  end.

Definition handle_missing_separator_exception (cur : token) (rest : list token) : result unit :=
  match tag cur with
  | JSON_NULL | JSON_NUMBER _ | JSON_FLOAT _ | JSON_STRING _ | JSON_TRUE | JSON_FALSE =>
      match rest with
      | next :: _ =>
          match tag next with
          | JSON_ARRAY_END | JSON_OBJECT_END | JSON_SEP => Ok ()
          | _ => syntax (line cur) (col cur + tlen cur - 1)
          end
      | [] => syntax (line cur) (col cur + tlen cur - 1)
      end
  | _ => Ok ()
  end.

Definition handle_after_separators_exception (rest : list token) : result unit :=
  match rest with
  | next :: _ =>
      match tag next with
      | JSON_SEP | JSON_OBJECT_END | JSON_ARRAY_END | JSON_KEY_VALUE_SEP => syntax (line next) (col next)
      | _ => Ok ()
      end
  | [] => Ok ()
  end.

(** The key's text: anything but a string is an error. *)
Definition handle_key_not_string_exception (cur : token) : result bytes :=
  match tag cur with JSON_STRING s => Ok s | _ => syntax (line cur) (col cur) end.

Definition handle_object_missing_separator_exception (cur : token) (rest : list token) : result unit :=
  match rest with
  | next :: _ =>
      match tag next with JSON_KEY_VALUE_SEP => Ok () | _ => syntax (line cur) (col cur + tlen cur - 1) end
  | [] => Ok ()
  end.

Definition handle_object_missing_value (rest : list token) : result unit :=
  match rest with
  | next :: _ =>
      match tag next with
      | JSON_NUMBER _ | JSON_NULL | JSON_STRING _ | JSON_FLOAT _ | JSON_TRUE | JSON_FALSE | JSON_OBJECT_BEGIN
      | JSON_ARRAY_BEGIN => Ok ()
      | _ => syntax (line next) (col next)
      end
  | [] => Ok ()
  end.

(** A token that is a value by itself; the others leave the pointer null. *)
Definition scalar (k : lexeme F) : value :=
  match k with
  | JSON_NUMBER n => JsonInt n
  | JSON_FLOAT f => JsonFloat f
  | JSON_STRING s => JsonString (Str s escape)
  | JSON_NULL => JsonNull
  | JSON_TRUE => JsonBoolean true
  | JSON_FALSE => JsonBoolean false
  | _ => JsonNone
  end.

(** [token_list[__tokenIndex++]] *)
Definition next_token (ts : list token) : result (token * list token) :=
  match ts with [] => Err Undefined | t :: ts => Ok (t, ts) end.

(** The value that starts at a token, [object] and [array] being the two
    parsers. *)
Definition parse_value (object : list token -> list (str * value) -> result (list (str * value) * list token))
    (array : list token -> list value -> result (list value * list token))
    (v : token) (ts : list token) : result (value * list token) :=
  match tag v with
  | JSON_OBJECT_BEGIN =>
      let* _ := handle_after_object_array_exception v ts in
      let* (o, ts) := object ts [] in Ok (JsonObject o, ts)
  | JSON_ARRAY_BEGIN =>
      let* _ := handle_after_object_array_exception v ts in
      let* (a, ts) := array ts [] in Ok (JsonArray a, ts)
  | k => Ok (scalar k, ts)
  end.

Fixpoint parseJsonObject (fuel : nat) (ts : list token) (object : list (str * value))
    : result (list (str * value) * list token) :=
  match fuel with
  | 0 => Err OutOfFuel
  | S fuel =>
      match ts with
      | [] => Ok (object, [])
      | key :: ts =>
          match tag key with
          | JSON_OBJECT_END =>
              let* _ := handle_after_object_array_closure_exception key ts in Ok (object, ts)
          | JSON_SEP =>
              let* _ := handle_after_separators_exception ts in parseJsonObject fuel ts object
          | _ =>
              let* s := handle_key_not_string_exception key in
              let* _ := handle_object_missing_separator_exception key ts in
              let ts := drop 1 ts in
              let* _ := handle_object_missing_value ts in
              let* (v, ts) := next_token ts in
              let* _ := handle_missing_separator_exception v ts in
              let* (x, ts) := parse_value (parseJsonObject fuel) (parseJsonArray fuel) v ts in
              parseJsonObject fuel ts (object_add (Str s escape) x object)
          end
      end
  end
with parseJsonArray (fuel : nat) (ts : list token) (array : list value) : result (list value * list token) :=
  match fuel with
  | 0 => Err OutOfFuel
  | S fuel =>
      match ts with
      | [] => Ok (array, [])
      | v :: ts =>
          match tag v with
          | JSON_ARRAY_END =>
              let* _ := handle_after_object_array_closure_exception v ts in Ok (array, ts)
          | JSON_SEP =>
              let* _ := handle_after_separators_exception ts in parseJsonArray fuel ts array
          | _ =>
              let* _ := handle_missing_separator_exception v ts in
              let* (x, ts) := parse_value (parseJsonObject fuel) (parseJsonArray fuel) v ts in
              parseJsonArray fuel ts (array_add x array)
          end
      end
  end.

(** [parse]: no value for an empty document.  The value of a document that is
    one token is a bare [JsonValue] with the type and the value of the token
    (its [toString] is empty and no formatter takes it). *)
Definition parse (token_list : list token) : result (option value) :=
  match token_list with
  | [] => Ok None
  | t :: ts =>
      let* _ := handle_begin_end_mismatch_exception token_list in
      match tag t with
      | JSON_OBJECT_BEGIN | JSON_ARRAY_BEGIN =>
          let fuel := S (length token_list) in
          let* (x, _) := parse_value (parseJsonObject fuel) (parseJsonArray fuel) t ts in Ok (Some x)
      | _ =>
          if (length token_list =? 1)%nat then
            match tag t with
            | JSON_NUMBER _ | JSON_NULL | JSON_FLOAT _ | JSON_TRUE | JSON_FALSE | JSON_STRING _ =>
                Ok (Some (scalar (tag t)))
            | _ => syntax (line t) (col t)
            end
          else syntax (line t) (col t)
      end
  end.

End parser.

(** [JsonParser(json, escape).parse()] *)
Definition parse_text {F} (toDouble : bytes -> F) (fuel : nat) (text : bytes) (escape : bool) : result (option (value F)) :=
  let* l := JsonLexer.new text escape in
  let* l := getTokens toDouble fuel l in
  parse escape (token_list l).

End JsonParser.
