(* ===== verification/HttpResponse.v ===== *)
(** * HttpResponse: building a response

    Models [soc/http/include/HttpResponse.h], [soc/http/src/HttpResponse.cc],
    [soc/http/include/HttpCookie.h] and [soc/http/src/HttpCookie.cc].  The connection a builder writes to is the
    channel; the files are a map from names to contents and modification times
    (as [strftime] prints them), and compression is zlib's, a parameter. *)
From S2P Require Import Prelude CStr Buffer EncodeUtil Base64 HttpUtil HttpMap HttpHeader HttpAuth HttpRequest Channel JsonLexer JsonParser.

(** ** [HttpCookie] *)
Module HttpCookie.

Record t := Make {
  map_ : HttpMap.t bytes; expires_ : bytes; domain_ : bytes; path_ : bytes;
  max_age_ : Z; secure_ : bool; http_only_ : bool }.

Definition new : t := Make ∅ [] [] [] 0 false false.
Definition add (key value : bytes) (c : t) : t :=
  Make (HttpMap.add key value (map_ c)) (expires_ c) (domain_ c) (path_ c) (max_age_ c) (secure_ c) (http_only_ c).
Definition setExpires (expires : bytes) (c : t) : t :=
  Make (map_ c) expires (domain_ c) (path_ c) (max_age_ c) (secure_ c) (http_only_ c).
Definition setDomain (domain : bytes) (c : t) : t :=
  Make (map_ c) (expires_ c) domain (path_ c) (max_age_ c) (secure_ c) (http_only_ c).
Definition setPath (path : bytes) (c : t) : t :=
  Make (map_ c) (expires_ c) (domain_ c) path (max_age_ c) (secure_ c) (http_only_ c).
Definition setMaxAge (second : Z) (c : t) : t :=
  Make (map_ c) (expires_ c) (domain_ c) (path_ c) second (secure_ c) (http_only_ c).
Definition setSecure (secure : bool) (c : t) : t :=
  Make (map_ c) (expires_ c) (domain_ c) (path_ c) (max_age_ c) secure (http_only_ c).
Definition setHttpOnly (httponly : bool) (c : t) : t :=
  Make (map_ c) (expires_ c) (domain_ c) (path_ c) (max_age_ c) (secure_ c) httponly.

(** The loop over the pairs, [n] of which are left. *)
Fixpoint pairs (l : list (bytes * bytes)) (i n : nat) (str : bytes) : bytes :=
  match l with
  | [] => str
  | (key, value) :: l =>
      let str := str ++ key ++ bs "=" ++ value in
      let i := S i in
      pairs l i n (if i <? n then str ++ bs "; " else str)
  end.

Definition option_part (name value : bytes) : bytes := if bool_decide (value = []) then [] else bs "; " ++ name ++ value.

(** [l] is the order in which the hash table is traversed. *)
Definition toString (l : list (bytes * bytes)) (c : t) : bytes :=
  pairs l 0 (HttpMap.size (map_ c)) []
  ++ option_part (bs "Expires=") (expires_ c) ++ option_part (bs "Domain=") (domain_ c)
  ++ option_part (bs "Path=") (path_ c)
  ++ (if (0 <? max_age_ c)%Z then bs "; Max-Age=" ++ to_string (max_age_ c) else [])
  ++ (if secure_ c then bs "; Secure" else []) ++ (if http_only_ c then bs "; HttpOnly" else []).

End HttpCookie.

(** ** [HttpResponseBuilder] *)
Module HttpResponse.

Record t := Make {
  uri_ : bytes; file_name_ : bytes; version_ : HttpVersion; header_ : HttpHeader.t; method_ : HttpMethod;
  resp_file_ : bool; keepalive_ : bool; compressed_ : bool; code_ : Z; tmp_buffer_ : Buffer.t }.

(** The request's method and version are indeterminate until its request line
    is parsed. *)
Definition new (date : bytes) (r : HttpRequest.t) : result t :=
  let* version := of_option Undefined (HttpRequest.version_ r) in
  let* method := of_option Undefined (HttpRequest.method_ r) in
  let header := HttpHeader.add (bs "Server") (bs "socnet") [] in
  let header := HttpHeader.add (bs "Content-Type") (bs "application/octet-stream") header in
  let header := HttpHeader.add (bs "Date") date header in
  Ok (Make (HttpRequest.url_ r) [] version header method false (HttpRequest.keepalive_ r) (HttpRequest.compressed_ r)
        HttpStatus.OK (Buffer.retiredAll (Buffer.new Buffer.default_size))).

(** *** Setters *)
Definition setVersion (v : HttpVersion) (b : t) : t :=
  Make (uri_ b) (file_name_ b) v (header_ b) (method_ b) (resp_file_ b) (keepalive_ b) (compressed_ b) (code_ b) (tmp_buffer_ b).
Definition setKeepAlive (on : bool) (b : t) : t :=
  Make (uri_ b) (file_name_ b) (version_ b) (header_ b) (method_ b) (resp_file_ b) on (compressed_ b) (code_ b) (tmp_buffer_ b).
Definition setCode (code : Z) (b : t) : t :=
  Make (uri_ b) (file_name_ b) (version_ b) (header_ b) (method_ b) (resp_file_ b) (keepalive_ b) (compressed_ b) code (tmp_buffer_ b).
Definition set_header_ (h : HttpHeader.t) (b : t) : t :=
  Make (uri_ b) (file_name_ b) (version_ b) h (method_ b) (resp_file_ b) (keepalive_ b) (compressed_ b) (code_ b) (tmp_buffer_ b).
Definition set_compressed (c : bool) (b : t) : t :=
  Make (uri_ b) (file_name_ b) (version_ b) (header_ b) (method_ b) (resp_file_ b) (keepalive_ b) c (code_ b) (tmp_buffer_ b).
Definition set_body (file : bytes) (resp_file : bool) (q : Buffer.t) (b : t) : t :=
  Make (uri_ b) file (version_ b) (header_ b) (method_ b) resp_file (keepalive_ b) (compressed_ b) (code_ b) q.

Definition setHeaders (h : HttpHeader.t) (b : t) : t := set_header_ (HttpHeader.add_all h (header_ b)) b.
Definition setHeader (key value : bytes) (b : t) : t := set_header_ (HttpHeader.add key value (header_ b)) b.
Definition setCookie (value : bytes) (b : t) : t := setHeader (bs "Set-Cookie") value b.
Definition appendBody (body : bytes) (b : t) : result t :=
  let* q := Buffer.append body (tmp_buffer_ b) in Ok (set_body (file_name_ b) false q b).
Definition setBody (body : bytes) (b : t) : result t :=
  appendBody body (set_body (file_name_ b) (resp_file_ b) (Buffer.reset (tmp_buffer_ b)) b).
Definition setBodyFile (filename : bytes) (b : t) : t := set_body filename true (Buffer.reset (tmp_buffer_ b)) b.
Definition setBodyHtml (filename : bytes) (b : t) : t :=
  setHeader (bs "Content-Type") (bs "text/html; charset=utf-8") (setBodyFile filename b).
(** The formatter is told to escape the strings, not to unescape them. *)
Definition json_text {F} (showDouble : F -> bytes) (root : Json.value F) (format : bool) : result bytes :=
  if format then Json.format showDouble 4 true (Some root) else Json.toString showDouble root.
Definition setBodyJson {F} (showDouble : F -> bytes) (root : Json.value F) (format : bool) (b : t) : result t :=
  let* text := json_text showDouble root format in
  let* b := setBody text b in Ok (setHeader (bs "Content-Type") (bs "application/json; charset=utf-8") b).

(** [sprintf] into [char buffer[1024]]. *)
Definition sprintf_1024 (s : bytes) : result bytes := if length s <? 1024 then Ok s else Err Undefined.

(** [nonce] and [opaque] are filled to their last byte, so that as C strings
    they go on into the memory [after] them. *)
Definition setAuthType (realm : bytes) (nonce opaque : list nat) (after_nonce after_opaque : bytes)
    (type : HttpAuthType) (b : t) : result t :=
  let q := [DQUOTE] in
  let* buffer := sprintf_1024 (match type with
    | Basic => bs "Basic realm=" ++ q ++ c_str realm ++ q
    | Digest =>
        bs "Digest realm=" ++ q ++ c_str realm ++ q ++ bs ", qop=" ++ q ++ bs "auth,auth-int" ++ q ++ bs ", nonce=" ++ q
        ++ Base64.base64_encode (c_str (EncodeUtil.genRandromStr (take 17 nonce) ++ after_nonce)) ++ q ++ bs ", opaque=" ++ q
        ++ Base64.base64_encode (c_str (EncodeUtil.genRandromStr (take 17 opaque) ++ after_opaque)) ++ q
    end) in
  let b := setCode HttpStatus.UNAUTHORIZED b in
  Ok (setHeader (bs "Content-Type") (bs "text/plain; charset=utf-8") (setHeader (bs "WWW-Authenticate") buffer b)).

(** *** [class HttpResponse], which forwards to its builder *)
Definition setContentType (content_type : bytes) (b : t) : t := setHeader (bs "Content-Type") content_type b.
(** [l] is the order in which the pairs of the cookie are traversed. *)
Definition setCookie0 (l : list (bytes * bytes)) (cookie : HttpCookie.t) (b : t) : t := setCookie (HttpCookie.toString l cookie) b.
Definition sendAuth (realm : bytes) (nonce opaque : list nat) (after_nonce after_opaque : bytes) (type : HttpAuthType) (b : t) : result t :=
  setAuthType realm nonce opaque after_nonce after_opaque type b.
Definition sendRedirect (url : bytes) (b : t) : t := setHeader (bs "Location") url (setCode HttpStatus.FOUND b).

(** *** [build] *)
Record file := File { f_contents : bytes; f_mtime : bytes }.

Section build.
Context `{BQ : ByteQueue Q} (gzipCompress : bytes -> bytes).
(** [openFile] and [fstat], and whether [mmap] succeeds. *)
Context (fs : bytes -> option file) (mmap_ok : bool).

Definition version_text (v : HttpVersion) : bytes :=
  match v with HTTP_1_0 => bs "HTTP/1.0 " | HTTP_1_1 => bs "HTTP/1.1 " | HTTP_2_0 => bs "HTTP/2.0 " end.

Definition prepareHeader (b : t) (sender : Q) : result Q :=
  let* sender := bq_append (version_text (version_ b)) sender in
  let* sender := bq_append (to_string (code_ b) ++ bs " ") sender in
  let* message := status_at (code_ b) in
  let* sender := bq_append message sender in
  let* sender := bq_append CRLF sender in
  let* sender := HttpHeader.store (header_ b) sender in
  bq_append CRLF sender.

Definition makeHeaderPart (content_length : nat) (b : t) : t :=
  let b :=
    if decide (version_ b = HTTP_1_0) then
      if keepalive_ b then setHeader (bs "Connection") (bs "keep-alive") b
      else setHeader (bs "Connection") (bs "close") b
    else if negb (keepalive_ b) then setHeader (bs "Connection") (bs "close") b else b in
  if keepalive_ b then setHeader (bs "Content-Length") (to_string (Z.of_nat content_length)) b else b.

Definition may_compress (b : t) : bool :=
  match HttpHeader.get (bs "Content-Type") (header_ b) with
  | Some type => texty type && compressed_ b
  | None => false
  end.

Definition M : Z := 4 * 1024 * 1024.

(** [sv], and whether it is to be put into the sender. *)
Record source := Source { sv_first : option bytes; sv_second : nat; putinto_buf : bool }.

Definition find_body (b : t) (ch : Channel.t Q) : result (t * Channel.t Q * source) :=
  if resp_file_ b then
    let* f := of_option Undefined (fs (file_name_ b)) in
    let size := length (f_contents f) in
    let b := setHeader (bs "Last-Modified") (f_mtime f) b in
    if Channel.supportSendFile ch then
      Ok (set_compressed false b, Channel.createSendFileObject (f_contents f) size ch, Source None size false)
    else if (Z.of_nat size <=? M)%Z then
      let* q := run_op (OpReserveWrite (f_contents f)) (tmp_buffer_ b) in
      Ok (set_body (file_name_ b) (resp_file_ b) q b, ch, Source (Some (Buffer.contents q)) (Buffer.readable q) true)
    else
      let ch := Channel.createMMapObject (if mmap_ok then Some (f_contents f) else None) size ch in
      Ok (b, ch, Source (match Channel.mmap_obj_ ch with Some x => Channel.addr_ x | None => None end) size false)
  else Ok (b, ch, Source (Some (Buffer.contents (tmp_buffer_ b))) (Buffer.readable (tmp_buffer_ b)) true).

(** The bytes [sv] views. *)
Definition view (sv : source) : result bytes :=
  let* s := of_option Undefined (sv_first sv) in Ok (take (sv_second sv) s).

(** The builder, the compressed body and the length to announce. *)
Definition compress (b : t) (sv : source) : result (t * bytes * nat) :=
  if compressed_ b && (0 <? sv_second sv) then
    let* s := view sv in
    let out := gzipCompress s in
    Ok (setHeader (bs "Content-Encoding") (bs "gzip") b, out, length out)
  else Ok (b, [], sv_second sv).

(** After the header. *)
Definition put_body (b : t) (out : bytes) (sv : source) (ch : Channel.t Q) : result (Channel.t Q) :=
  if decide (method_ b = HEAD) then Ok ch
  else if compressed_ b then
    let* sender := bq_append out (Channel.sender_ ch) in
    Ok (Channel.removeMMapObject (Channel.set_sender sender ch))
  else if putinto_buf sv then
    let* s := view sv in
    let* sender := bq_append s (Channel.sender_ ch) in
    Ok (Channel.set_sender sender ch)
  else Ok ch.

Definition build (b : t) (ch : Channel.t Q) : result (t * Channel.t Q) :=
  let b := set_compressed (may_compress b) b in
  let* (b, ch, sv) := find_body b ch in
  let* (b, out, n) := compress b sv in
  let b := makeHeaderPart n b in
  let* sender := prepareHeader b (Channel.sender_ ch) in
  let* ch := put_body b out sv (Channel.set_sender sender ch) in
  Ok (b, ch).

End build.
End HttpResponse.

(** ** What is put on the wire *)
Import HttpResponse.

Definition status_line (b : HttpResponse.t) (message : bytes) : bytes :=
  version_text (version_ b) ++ (to_string (code_ b) ++ bs " ") ++ message ++ CRLF.
Definition head_block (b : HttpResponse.t) (message : bytes) : bytes :=
  status_line b message ++ HttpHeader.toString (header_ b) ++ CRLF.

Section wire.
Context `{BQ : ByteQueue Q, HQ : !ByteQueueLaws Q} (gzipCompress : bytes -> bytes) (fs : bytes -> option file).

(** The representation that is selected, and its coding. *)
Definition representation (b : HttpResponse.t) : bytes :=
  if resp_file_ b then match fs (file_name_ b) with Some f => f_contents f | None => [] end
  else Buffer.contents (tmp_buffer_ b).

Definition encoded (compressed : bool) (s : bytes) : bytes :=
  if compressed && negb (bool_decide (s = [])) then gzipCompress s else s.

(** A builder whose file exists, and a channel with nothing in it. *)
Definition buildable (b : HttpResponse.t) : Prop :=
  Buffer.wf (tmp_buffer_ b)
  /\ (resp_file_ b = true -> is_Some (fs (file_name_ b)) /\ Buffer.contents (tmp_buffer_ b) = []).
Definition idle (ch : Channel.t Q) : Prop :=
  bq_wf (Channel.sender_ ch) /\ bq_contents (Channel.sender_ ch) = [] /\ Channel.mmap_obj_ ch = None
  /\ Channel.sfile_obj_ ch = None /\ Channel.send_bytes_ ch = 0%Z
  /\ (Channel.sendfile_ ch = true -> Channel.channel_type ch = Raw).

Lemma prepareHeader_spec (b : HttpResponse.t) (sender : Q) message :
  bq_wf sender -> status_at (code_ b) = Ok message ->
  exists sender', prepareHeader b sender = Ok sender' /\ bq_wf sender'
    /\ bq_contents sender' = bq_contents sender ++ head_block b message.
Proof.
  intros Hw Hm. unfold prepareHeader.
  destruct (bq_append_ok (version_text (version_ b)) _ Hw) as (q1 & -> & W1 & C1).
  destruct (bq_append_ok (to_string (code_ b) ++ bs " ") _ W1) as (q2 & -> & W2 & C2). rewrite Hm.
  destruct (bq_append_ok message _ W2) as (q3 & -> & W3 & C3).
  destruct (bq_append_ok CRLF _ W3) as (q4 & -> & W4 & C4).
  destruct (HttpHeader.store_append (header_ b) _ W4) as (q5 & -> & W5 & C5).
  destruct (bq_append_ok CRLF _ W5) as (q6 & -> & W6 & C6).
  exists q6. split; [done|]. split; [done|]. rewrite C6, C5, C4, C3, C2, C1.
  unfold head_block, status_line. by rewrite <- !app_assoc.
Qed.

Lemma prepareHeader_unknown (b : HttpResponse.t) (sender : Q) :
  bq_wf sender -> status_at (code_ b) = Err OutOfRange -> prepareHeader b sender = Err OutOfRange.
Proof.
  intros Hw Hm. unfold prepareHeader.
  destruct (bq_append_ok (version_text (version_ b)) _ Hw) as (q1 & -> & W1 & _).
  destruct (bq_append_ok (to_string (code_ b) ++ bs " ") _ W1) as (q2 & -> & _ & _). by rewrite Hm.
Qed.

(** A file that is sent by the kernel or mapped is put in the channel. *)
Definition in_channel (b : HttpResponse.t) (ch : Channel.t Q) : bool :=
  resp_file_ b && (Channel.sendfile_ ch || (M <? Z.of_nat (length (representation b)))%Z).

(** Where the representation is: in memory, mapped, or a file to send. *)
Inductive located (rep : bytes) (inch comp : bool) (sv : source) (ch : Channel.t Q) : Prop :=
  | in_memory : inch = false -> sv = Source (Some rep) (length rep) true ->
      Channel.mmap_obj_ ch = None -> Channel.sfile_obj_ ch = None -> located rep inch comp sv ch
  | in_mmap : inch = true -> sv = Source (Some rep) (length rep) false ->
      Channel.mmap_obj_ ch = Some (Channel.MakeMMap (Some rep) (length rep)) -> Channel.sfile_obj_ ch = None ->
      located rep inch comp sv ch
  | in_file : inch = true -> sv = Source None (length rep) false -> comp = false -> Channel.channel_type ch = Raw ->
      Channel.mmap_obj_ ch = None -> Channel.sfile_obj_ ch = Some (Channel.MakeSendFile rep 0 (length rep)) ->
      located rep inch comp sv ch.

Lemma find_body_spec (b : HttpResponse.t) (ch : Channel.t Q) :
  buildable b -> idle ch ->
  exists b1 ch1 sv, find_body fs true b ch = Ok (b1, ch1, sv)
    /\ version_ b1 = version_ b /\ code_ b1 = code_ b /\ method_ b1 = method_ b /\ keepalive_ b1 = keepalive_ b
    /\ Channel.sender_ ch1 = Channel.sender_ ch /\ Channel.send_bytes_ ch1 = 0%Z
    /\ located (representation b) (in_channel b ch) (compressed_ b1) sv ch1.
Proof.
  intros [Hw Hf] (Hq & Hc & Hm & Hs & Hb & Ht). unfold find_body, in_channel, representation.
  destruct (resp_file_ b) eqn:Er.
  - destruct (Hf eq_refl) as [[f Ef] Hnil]. rewrite Ef. cbn [of_option].
    unfold Channel.supportSendFile. destruct (Channel.sendfile_ ch) eqn:Es;
      [|destruct (Z.leb_spec (Z.of_nat (length (f_contents f))) M) as [Hle|Hgt]].
    + eexists _, _, _. split; [reflexivity|]. unfold Channel.createSendFileObject. rewrite Es, Hs. cbn.
      do 6 (split; [done|]). apply in_file; auto.
    + change (tmp_buffer_ (setHeader _ _ b)) with (tmp_buffer_ b).
      destruct (run_op_spec (OpReserveWrite (f_contents f)) _ Hw) as (q & -> & Hq' & Cq). simpl in Cq. rewrite Hnil in Cq.
      eexists _, _, _. split; [reflexivity|]. rewrite <- Buffer.contents_length, Cq by done. cbn.
      do 6 (split; [done|]). rewrite (proj2 (Z.ltb_ge _ _)) by done. by apply in_memory.
    + eexists _, _, _. split; [reflexivity|]. unfold Channel.createMMapObject. rewrite Hm. cbn.
      do 6 (split; [done|]). rewrite (proj2 (Z.ltb_lt _ _)) by done. by apply in_mmap.
  - eexists _, _, _. split; [reflexivity|]. rewrite <- Buffer.contents_length by done. cbn.
    do 6 (split; [done|]). by apply in_memory.
Qed.

(** What the channel then holds besides the sender. *)
Lemma located_tail rep inch comp sv ch q :
  located rep inch comp sv ch -> tail_bytes (Channel.set_sender q ch) = if inch then rep else [].
Proof.
  unfold tail_bytes, Channel.mapped, Channel.sendable.
  intros [ -> _ Hm Hs | -> _ Hm Hs | -> _ _ Ht Hm Hs]; cbn; rewrite Hm.
  - rewrite Hs. by destruct (Channel.channel_type ch).
  - cbn. by rewrite take_ge.
  - rewrite Hs, Ht. cbn. case_bool_decide as E; [|done]. by apply nil_length_inv in E.
Qed.

(** A channel with a header in the sender is ready to be sent. *)
Lemma located_fresh rep inch comp sv ch q :
  located rep inch comp sv ch -> bq_wf q -> 0 < length (bq_contents q) -> Channel.send_bytes_ ch = 0%Z ->
  fresh (Channel.set_sender q ch) /\ (comp = true -> fresh (Channel.removeMMapObject (Channel.set_sender q ch))).
Proof.
  intros Hl Hw Hq Hs.
  assert (forall ch', Channel.sender_ ch' = q -> Channel.send_bytes_ ch' = 0%Z ->
    (Channel.mmap_obj_ ch' = None \/ Channel.mmap_obj_ ch' = Some (Channel.MakeMMap (Some rep) (length rep))) ->
    (Channel.sfile_obj_ ch' = None \/ Channel.sfile_obj_ ch' = Some (Channel.MakeSendFile rep 0 (length rep))) ->
    fresh ch') as H.
  { intros ch' <- Hs' Hm Hf. split; [done|]. split; [by rewrite <- (bq_contents_length _ Hw)|]. split; [done|]. split.
    - intros a size. unfold Channel.mapped. destruct Hm as [-> | ->]; [done|]. cbn. by intros [= <- <-].
    - intros f. unfold Channel.sendable. destruct Hf as [-> | ->]; [done|]. cbn. case_bool_decide; [done|].
      by intros [= <-]. }
  destruct Hl; (split; [|intros ?]; apply H; auto; congruence).
Qed.

Lemma makeHeaderPart_same n (b : HttpResponse.t) :
  version_ (makeHeaderPart n b) = version_ b /\ code_ (makeHeaderPart n b) = code_ b
  /\ method_ (makeHeaderPart n b) = method_ b /\ keepalive_ (makeHeaderPart n b) = keepalive_ b
  /\ compressed_ (makeHeaderPart n b) = compressed_ b.
Proof. unfold makeHeaderPart. by destruct (decide (version_ b = HTTP_1_0)), (keepalive_ b) eqn:E; cbn; rewrite ?E. Qed.

Lemma makeHeaderPart_length n (b : HttpResponse.t) :
  keepalive_ b = true ->
  HttpHeader.get (bs "Content-Length") (header_ (makeHeaderPart n b)) = Some (to_string (Z.of_nat n)).
Proof.
  intros E. unfold makeHeaderPart. rewrite E. cbn.
  destruct (decide (version_ b = HTTP_1_0)); cbn; rewrite ?E; by apply HttpHeader.get_add.
Qed.

Lemma makeHeaderPart_encoding n (b : HttpResponse.t) :
  HttpHeader.get (bs "Content-Encoding") (header_ (makeHeaderPart n b)) = HttpHeader.get (bs "Content-Encoding") (header_ b).
Proof.
  assert (forall k v c, EncodeUtil.toLowers k <> EncodeUtil.toLowers (bs "Content-Encoding") ->
    HttpHeader.get (bs "Content-Encoding") (header_ (setHeader k v c)) = HttpHeader.get (bs "Content-Encoding") (header_ c)) as H
    by (intros; by apply HttpHeader.get_add_ne).
  unfold makeHeaderPart. destruct (decide (version_ b = HTTP_1_0)), (keepalive_ b) eqn:E; cbn [keepalive_ setHeader set_header_ negb];
    rewrite ?E, ?H by (vm_compute; discriminate); done.
Qed.

(** The step that compresses. *)
Lemma compress_spec (b : HttpResponse.t) (sv : source) (rep : bytes) :
  sv_second sv = length rep -> (compressed_ b = true -> sv_first sv = Some rep) ->
  exists b2 out, compress gzipCompress b sv = Ok (b2, out, length (encoded (compressed_ b) rep))
  /\ version_ b2 = version_ b /\ code_ b2 = code_ b /\ method_ b2 = method_ b /\ keepalive_ b2 = keepalive_ b
  /\ compressed_ b2 = compressed_ b
  /\ (compressed_ b = true -> out = encoded true rep)
  /\ (compressed_ b = true -> rep <> [] -> HttpHeader.get (bs "Content-Encoding") (header_ b2) = Some (bs "gzip")).
Proof.
  intros Hn Hv. unfold encoded, compress. rewrite Hn. destruct (compressed_ b) eqn:Ec.
  - destruct (decide (rep = [])) as [->|Hne].
    + exists b, []. cbn. done.
    + assert (0 <? length rep = true)%nat as -> by (destruct rep; [done|reflexivity]).
      rewrite (bool_decide_false (rep = [])) by done. unfold view. rewrite (Hv eq_refl). cbn [of_option andb negb].
      rewrite Hn, (take_ge rep) by lia. eexists _, _. split; [reflexivity|].
      do 5 (split; [done|]). split; [done|]. intros _ _. by apply HttpHeader.get_add.
  - exists b, []. cbn. done.
Qed.

Lemma put_body_spec (b : HttpResponse.t) out sv (ch : Channel.t Q) rep inch q :
  located rep inch (compressed_ b) sv ch -> bq_wf q -> 0 < length (bq_contents q) -> Channel.send_bytes_ ch = 0%Z ->
  (compressed_ b = true -> out = encoded true rep) ->
  exists ch', put_body b out sv (Channel.set_sender q ch) = Ok ch' /\ fresh ch'
    /\ (method_ b <> HEAD -> total ch' = bq_contents q ++ encoded (compressed_ b) rep)
    /\ (method_ b = HEAD -> total ch' = bq_contents q ++ if inch then rep else []).
Proof.
  intros Hl Hw Hq Hs Ho. unfold put_body. change (Channel.sender_ (Channel.set_sender q ch)) with q.
  destruct (decide (method_ b = HEAD)) as [Hh|Hh].
  { eexists. split; [done|]. split; [by eapply located_fresh|]. split; [done|]. intros _. unfold total.
    by erewrite located_tail. }
  destruct (compressed_ b) eqn:Ec; [|destruct (putinto_buf sv) eqn:Ep].
  - destruct (bq_append_ok out q Hw) as (q2 & -> & W2 & C2).
    assert (0 < length (bq_contents q2)) as Hq2 by (rewrite C2, length_app; lia).
    eexists. split; [done|]. split; [by eapply (located_fresh _ _ _ _ _ q2 Hl)|]. split; [|done]. intros _.
    unfold total, tail_bytes, Channel.mapped, Channel.sendable. cbn. rewrite C2, (Ho eq_refl).
    destruct Hl as [_ _ _ Hsf|_ _ _ Hsf|]; [rewrite Hsf..|done]; by destruct (Channel.channel_type ch); rewrite app_nil_r.
  - assert (sv = Source (Some rep) (length rep) true /\ inch = false) as [-> ->] by by destruct Hl; subst.
    unfold view. cbn. rewrite take_ge by lia. destruct (bq_append_ok rep q Hw) as (q2 & -> & W2 & C2).
    assert (0 < length (bq_contents q2)) as Hq2 by (rewrite C2, length_app; lia).
    eexists. split; [done|]. change (Channel.set_sender q2 (Channel.set_sender q ch)) with (Channel.set_sender q2 ch).
    split; [by eapply located_fresh|]. split; [|done]. intros _. unfold total.
    rewrite (located_tail _ _ _ _ _ q2 Hl). cbn. by rewrite C2, app_nil_r.
  - assert (inch = true) as -> by by destruct Hl; subst.
    eexists. split; [done|]. split; [by eapply located_fresh|]. split; [|done]. intros _. unfold total.
    by rewrite (located_tail _ _ _ _ _ q Hl).
Qed.

(** The channel keeps its type. *)
Lemma find_body_kind mmap_ok (b b1 : HttpResponse.t) (ch ch1 : Channel.t Q) sv :
  find_body fs mmap_ok b ch = Ok (b1, ch1, sv) -> same_kind ch ch1.
Proof.
  unfold find_body. destruct (resp_file_ b); [|by intros [= _ <- _]].
  destruct (fs (file_name_ b)) as [f|]; [|done]. cbn [of_option]. destruct (Channel.supportSendFile ch).
  - intros [= _ <- _]. unfold Channel.createSendFileObject. destruct (negb _); [done|]. by destruct (Channel.sfile_obj_ ch).
  - destruct (_ <=? _)%Z; [destruct (run_op _ _); [by intros [= _ <- _]|done]|]. intros [= _ <- _].
    unfold Channel.createMMapObject. by destruct (Channel.mmap_obj_ ch).
Qed.

Lemma put_body_kind (b : HttpResponse.t) out sv (ch ch' : Channel.t Q) : put_body b out sv ch = Ok ch' -> same_kind ch ch'.
Proof.
  unfold put_body. destruct (decide _); [by intros [= <-]|]. destruct (compressed_ b); [intros E; by rinv|].
  destruct (putinto_buf sv); intros E; by rinv.
Qed.

Lemma build_kind mmap_ok (b b' : HttpResponse.t) (ch ch' : Channel.t Q) :
  build gzipCompress fs mmap_ok b ch = Ok (b', ch') -> same_kind ch ch'.
Proof.
  unfold build. destruct (find_body _ _ _ _) as [[[b1 ch1] sv]|] eqn:E1; [|done]. apply find_body_kind in E1.
  destruct (compress _ _ _) as [[[b2 out] n]|]; [|done]. destruct (prepareHeader _ _) as [q|]; [|done].
  destruct (put_body _ _ _ _) as [ch2|] eqn:E2; [|done]. apply put_body_kind in E2. intros [= _ <-].
  by eapply same_kind_trans.
Qed.

(** The fields that [build] sets; it keeps the others. *)
Definition framing : list bytes := [bs "connection"; bs "content-length"; bs "content-encoding"; bs "last-modified"].
Definition unframed (k : bytes) : Prop := EncodeUtil.toLowers k ∉ framing.

Lemma set_framing k key value (h : HttpHeader.t) :
  unframed k -> EncodeUtil.toLowers key ∈ framing -> HttpHeader.get k (HttpHeader.add key value h) = HttpHeader.get k h.
Proof. intros Hk Hin. apply HttpHeader.get_add_ne. intros E. apply Hk. by rewrite <- E. Qed.

Ltac framed := cbn [header_ setHeader set_header_ set_compressed set_body]; apply set_framing; [done|apply (bool_decide_unpack _); vm_compute; exact I].

Lemma makeHeaderPart_keeps k n (b : HttpResponse.t) :
  unframed k -> HttpHeader.get k (header_ (makeHeaderPart n b)) = HttpHeader.get k (header_ b).
Proof.
  intros Hk. unfold makeHeaderPart. cbn zeta.
  set (b1 := if decide (version_ b = HTTP_1_0) then _ else _).
  transitivity (HttpHeader.get k (header_ b1)); [by destruct (keepalive_ b1); [framed|]|]. unfold b1.
  destruct (decide _); [by destruct (keepalive_ b); framed|]. by destruct (negb _); [framed|].
Qed.

Lemma build_keeps k mmap_ok (b b' : HttpResponse.t) (ch ch' : Channel.t Q) :
  build gzipCompress fs mmap_ok b ch = Ok (b', ch') -> unframed k -> HttpHeader.get k (header_ b') = HttpHeader.get k (header_ b).
Proof.
  unfold build. intros H Hk. destruct (find_body _ _ _ _) as [[[b1 ch1] sv]|] eqn:E1; [|done].
  destruct (compress _ _ _) as [[[b2 out] n]|] eqn:E2; [|done]. destruct (prepareHeader _ _) as [q|]; [|done].
  destruct (put_body _ _ _ _) as [ch2|]; [|done]. injection H as <- _. rewrite makeHeaderPart_keeps by done.
  transitivity (HttpHeader.get k (header_ b1)).
  - unfold compress in E2. destruct (compressed_ b1 && _); [|by injection E2 as <- _ _].
    destruct (view sv); [|done]. injection E2 as <- _ _. framed.
  - unfold find_body in E1. cbn [resp_file_ set_compressed] in E1. destruct (resp_file_ b); [|by injection E1 as <- _ _].
    destruct (fs _) as [f|]; [|done]. cbn [of_option] in E1.
    destruct (Channel.supportSendFile ch); [injection E1 as <- _ _; framed|].
    destruct (_ <=? _)%Z; [destruct (run_op _ _); [|done]|]; injection E1 as <- _ _; framed.
Qed.

Lemma build_spec (b : HttpResponse.t) (ch : Channel.t Q) message :
  buildable b -> idle ch -> status_at (code_ b) = Ok message ->
  exists b' ch', build gzipCompress fs true b ch = Ok (b', ch')
    /\ version_ b' = version_ b /\ code_ b' = code_ b
    /\ (keepalive_ b = true -> HttpHeader.get (bs "Content-Length") (header_ b')
          = Some (to_string (Z.of_nat (length (encoded (compressed_ b') (representation b))))))
    /\ (compressed_ b' = true -> representation b <> [] ->
          HttpHeader.get (bs "Content-Encoding") (header_ b') = Some (bs "gzip"))
    /\ fresh ch'
    /\ (method_ b <> HEAD -> total ch' = head_block b' message ++ encoded (compressed_ b') (representation b))
    /\ (method_ b = HEAD -> total ch' = head_block b' message ++ if in_channel b ch then representation b else []).
Proof.
  intros Hb Hi Hm. unfold build. set (b0 := set_compressed (may_compress b) b).
  destruct (find_body_spec b0 ch Hb Hi) as (b1 & ch1 & sv & -> & V1 & C1 & M1 & K1 & S1 & B1 & Hl).
  change (representation b0) with (representation b) in *. change (in_channel b0 ch) with (in_channel b ch) in Hl.
  set (rep := representation b) in *.
  destruct (compress_spec b1 sv rep) as (b2 & out & -> & V2 & C2 & M2 & K2 & Z2 & O2 & E2).
  { by destruct Hl; subst. }
  { intros Hc. destruct Hl; subst; [done|done|congruence]. }
  set (n := length (encoded (compressed_ b1) rep)).
  destruct (makeHeaderPart_same n b2) as (V3 & C3 & M3 & K3 & Z3).
  pose proof (makeHeaderPart_length n b2) as L3. pose proof (makeHeaderPart_encoding n b2) as E3.
  set (b3 := makeHeaderPart n b2) in *. rewrite Z2 in Z3. rewrite M2, M1 in M3.
  assert (status_at (code_ b3) = Ok message) as Hm3 by (rewrite C3, C2, C1; exact Hm).
  destruct Hi as (Hq & Hnil & _).
  destruct (prepareHeader_spec b3 (Channel.sender_ ch1) message ltac:(by rewrite S1) Hm3) as (q & -> & Wq & Cq).
  rewrite S1, Hnil in Cq. simpl in Cq.
  assert (0 < length (bq_contents q)) as Lq.
  { rewrite Cq. unfold head_block, status_line. destruct (version_ b3); simpl; lia. }
  rewrite <- Z3 in Hl, O2, E2.
  destruct (put_body_spec b3 out sv ch1 rep (in_channel b ch) q Hl Wq Lq B1 O2) as (ch' & -> & Hf & Ht & Hh).
  rewrite M3, Cq in *. exists b3, ch'. split; [done|]. split; [by rewrite V3, V2, V1|]. split; [by rewrite C3, C2, C1|].
  split; [|split; [by rewrite E3|done]]. intros Hk. rewrite L3 by (by rewrite K2, K1). unfold n. by rewrite <- Z3.
Qed.

End wire.

(** C3: The response on the wire.  A response with a listed status code, for a
    method other than HEAD, to an idle connection is built whatever its body is
    (memory, a file that is read, mapped or sent by the kernel, compressed or
    not), and a write loop that completes puts on the wire the status line, the
    header, an empty line and the body, coded if the header says gzip; on a
    connection that is kept alive the header announces the length of exactly
    what follows it. *)
Theorem response_on_wire `{BQ : ByteQueue Q, HQ : !ByteQueueLaws Q} (gzipCompress : bytes -> bytes)
    (fs : bytes -> option file) (qreset : Q -> Q) (b : HttpResponse.t) (ch : Channel.t Q) (message : bytes) :
  buildable fs b -> idle ch -> status_at (code_ b) = Ok message -> method_ b <> HEAD ->
  exists b' ch' body, build gzipCompress fs true b ch = Ok (b', ch')
    /\ body = encoded gzipCompress (compressed_ b') (representation fs b)
    /\ (compressed_ b' = true -> representation fs b <> [] ->
          HttpHeader.get (bs "Content-Encoding") (header_ b') = Some (bs "gzip"))
    /\ (keepalive_ b = true ->
          HttpHeader.get (bs "Content-Length") (header_ b') = Some (to_string (Z.of_nat (length body))))
    /\ (forall ns w, calls_ok ns ch' -> Channel.write_loop qreset ns [] ch' = Ok w -> Channel.w_completed w = true ->
          Channel.w_wire w = head_block b' message ++ body)
    /\ (forall ns, calls_ok ns ch' -> Forall (fun n => 0 < n)%Z ns -> length (head_block b' message ++ body) <= length ns ->
          exists w, Channel.write_loop qreset ns [] ch' = Ok w /\ Channel.w_completed w = true).
Proof.
  intros Hb Hi Hm Hh.
  destruct (build_spec gzipCompress fs b ch message Hb Hi Hm) as (b' & ch' & E & _ & _ & HL & HE & Hf & Ht & _).
  specialize (Ht Hh). exists b', ch', (encoded gzipCompress (compressed_ b') (representation fs b)).
  split; [done|]. split; [done|]. split; [done|]. split; [done|]. split.
  - intros ns w Hok Hw Hc.
    pose proof (write_loop_spec qreset ns [] ch' w (fresh_sending ch' Hf) (total_not_nil ch' Hf) Hok Hw) as H.
    rewrite Hc in H. rewrite <- Ht. apply H.
  - intros ns Hok Hp Hl. apply (write_loop_progress qreset ns [] ch' (fresh_sending ch' Hf) (total_not_nil ch' Hf) Hok Hp).
    rewrite Ht. simpl. lia.
Qed.

(** A HEAD request is answered without the body, unless the body is a file
    that the kernel sends or that is mapped: then the whole file follows the
    header, uncompressed, where the client expects the next response. *)
Theorem head_sends_file `{BQ : ByteQueue Q, HQ : !ByteQueueLaws Q} (gzipCompress : bytes -> bytes)
    (fs : bytes -> option file) (b : HttpResponse.t) (ch : Channel.t Q) (message : bytes) :
  buildable fs b -> idle ch -> status_at (code_ b) = Ok message -> method_ b = HEAD ->
  exists b' ch', build gzipCompress fs true b ch = Ok (b', ch')
    /\ total ch' = head_block b' message ++ (if in_channel fs b ch then representation fs b else []).
Proof.
  intros Hb Hi Hm Hh.
  destruct (build_spec gzipCompress fs b ch message Hb Hi Hm) as (b' & ch' & E & _ & _ & _ & _ & _ & _ & Ht).
  exists b', ch'. split; [done|by apply Ht].
Qed.

(** A status code that is not in the table is not answered: the lookup of
    its message throws std::out_of_range. *)
Theorem unknown_status_throws `{BQ : ByteQueue Q, HQ : !ByteQueueLaws Q} (gzipCompress : bytes -> bytes)
    (fs : bytes -> option file) (b : HttpResponse.t) (ch : Channel.t Q) :
  buildable fs b -> idle ch -> short (code_ b) ∉ Status_Code.*1 ->
  build gzipCompress fs true b ch = Err OutOfRange.
Proof.
  intros Hb Hi Hc. unfold build. set (b0 := set_compressed (may_compress b) b).
  destruct (find_body_spec fs b0 ch Hb Hi) as (b1 & ch1 & sv & -> & _ & C1 & _ & _ & S1 & _ & Hl).
  destruct (compress_spec gzipCompress b1 sv (representation fs b0)) as (b2 & out & -> & _ & C2 & _).
  { by destruct Hl; subst. }
  { intros H. destruct Hl; subst; [done|done|congruence]. }
  destruct (makeHeaderPart_same (length (encoded gzipCompress (compressed_ b1) (representation fs b0))) b2) as (_ & C3 & _).
  rewrite prepareHeader_unknown; [done|by rewrite S1; apply Hi|].
  unfold status_at. rewrite C3, C2, C1. change (code_ b0) with (code_ b). by rewrite assoc_None.
Qed.

(** ** Concrete responses *)
Definition demo_request (m : HttpMethod) : HttpRequest.t :=
  HttpRequest.set_flags true true (HttpRequest.set_line (Some m) (bs "/") (Some HTTP_1_1) HttpRequest.new).
Definition demo_fs (name : bytes) : option file :=
  if decide (name = bs "/a.txt") then Some (File (bs "hello") (bs "today")) else None.
Definition demo_builder (m : HttpMethod) : HttpResponse.t :=
  match new (bs "now") (demo_request m) with Ok b => setBodyFile (bs "/a.txt") b | Err _ => Make [] [] HTTP_1_1 [] GET false false false 0 (Buffer.new 0) end.
Definition demo_sendfile : Channel.t Buffer.t := Channel.new Raw true (Buffer.new 64) (Buffer.new 64).

Lemma demo_buildable m : buildable demo_fs (demo_builder m).
Proof.
  destruct m; (split; [apply (bool_decide_unpack _); vm_compute; exact I|]); intros _; (split; [|done]); vm_compute; by eexists.
Qed.

Lemma demo_idle : idle demo_sendfile.
Proof. split; [apply (bool_decide_unpack _); vm_compute; exact I|]. done. Qed.

Lemma response_on_wire_witness :
  exists b' ch', build (fun s => s) demo_fs true (demo_builder GET) demo_sendfile = Ok (b', ch')
    /\ HttpHeader.get (bs "Content-Length") (header_ b') = Some (bs "5").
Proof.
  destruct (response_on_wire (fun s => s) demo_fs Buffer.reset (demo_builder GET) demo_sendfile (bs "OK")
              (demo_buildable GET) demo_idle) as (b' & ch' & body & E & -> & _ & HL & _).
  - vm_compute. reflexivity.
  - vm_compute. discriminate.
  - exists b', ch'. split; [exact E|]. rewrite HL by reflexivity. vm_compute in E.
    injection E as <- _. vm_compute. reflexivity.
Defined.

Lemma head_sends_file_witness :
  exists b' ch', build (fun s => s) demo_fs true (demo_builder HEAD) demo_sendfile = Ok (b', ch')
    /\ total ch' = head_block b' (bs "OK") ++ bs "hello".
Proof.
  destruct (head_sends_file (fun s => s) demo_fs (demo_builder HEAD) demo_sendfile (bs "OK")
              (demo_buildable HEAD) demo_idle) as (b' & ch' & E & Ht).
  - vm_compute. reflexivity.
  - vm_compute. reflexivity.
  - exists b', ch'. split; [exact E|exact Ht].
Defined.

Lemma unknown_status_throws_witness :
  build (fun s => s) demo_fs true (setCode 204 (demo_builder GET)) demo_sendfile = Err OutOfRange.
Proof.
  apply (unknown_status_throws (fun s => s) demo_fs (setCode 204 (demo_builder GET)) demo_sendfile).
  - exact (demo_buildable GET).
  - exact demo_idle.
  - apply (bool_decide_unpack _). vm_compute. exact I.
Defined.

(** A JSON body has a content type that is not taken for a text: it is never
    compressed. *)
Lemma json_never_compressed {F} (showDouble : F -> bytes) root format b b' :
  setBodyJson showDouble root format b = Ok b' -> may_compress b' = false.
Proof.
  unfold setBodyJson. destruct (json_text _ _ _) as [text|]; [|done]. destruct (setBody text b) as [b1|]; [|done]. intros [= <-]. unfold may_compress.
  change (header_ (setHeader ?k ?v b1)) with (HttpHeader.add k v (header_ b1)).
  unfold HttpHeader.add. rewrite HttpHeader.get_add by done. done.
Qed.
