(* ===== verification/ServerDate.v ===== *)
(** * ServerDate: the date of a response

    Models [TimeStamp::getServerDate] of [soc/net/include/TimeStamp.h] down to
    what it uses of the C library: [gmtime] with the calendar, and [strftime]
    with the conversions of its format.  [time(nullptr)] is the argument. *)
From S2P Require Import Prelude CStr Buffer HttpUtil HttpHeader HttpAuth HttpRequest HttpResponse.
Local Open Scope Z_scope.

Module ServerDate.

(** ** [struct tm] and [gmtime] *)
Record tm := Tm {
  tm_sec : Z; tm_min : Z; tm_hour : Z; tm_mday : Z; tm_mon : nat; tm_year : Z; tm_wday : nat; tm_yday : Z }.

(** The days from the epoch to the first of January of a year. *)
Definition year_start (y : Z) : Z := 365 * (y - 1970) + (y - 1969) / 4 - (y - 1901) / 100 + (y - 1601) / 400.
Definition is_leap (y : Z) : bool := (y mod 4 =? 0) && (negb (y mod 100 =? 0) || (y mod 400 =? 0)).
Definition month_days (y : Z) : list Z := [31; if is_leap y then 29 else 28; 31; 30; 31; 30; 31; 31; 30; 31; 30; 31].

(** The year of a day: the average length of a year gives it up to one. *)
Definition year_of (days : Z) : Z :=
  let y := 1970 + days * 400 / 146097 in
  if days <? year_start y then y - 1 else if year_start (y + 1) <=? days then y + 1 else y.
Fixpoint month_of (lens : list Z) (d : Z) (m : nat) : nat * Z :=
  match lens with
  | l :: lens => if d <? l then (m, d) else month_of lens (d - l) (S m)
  | [] => (m, d)
  end.

(** [NULL] when the year is not an [int]. *)
Definition gmtime (t : Z) : option tm :=
  let days := t / 86400 in
  let secs := t mod 86400 in
  let y := year_of days in
  let (m, d) := month_of (month_days y) (days - year_start y) 0 in
  if (INT_MIN <=? y - 1900) && (y - 1900 <=? INT_MAX)
  then Some (Tm (secs mod 60) (secs / 60 mod 60) (secs / 3600) (d + 1) m (y - 1900) (Z.to_nat ((days + 4) mod 7)) (days - year_start y))
  else None.

(** ** [strftime] *)
Definition wdays : list bytes := [bs "Sun"; bs "Mon"; bs "Tue"; bs "Wed"; bs "Thu"; bs "Fri"; bs "Sat"].
Definition months : list bytes :=
  [bs "Jan"; bs "Feb"; bs "Mar"; bs "Apr"; bs "May"; bs "Jun"; bs "Jul"; bs "Aug"; bs "Sep"; bs "Oct"; bs "Nov"; bs "Dec"].
Definition two (z : Z) : bytes := [digit (Z.to_nat (z / 10)); digit (Z.to_nat (z mod 10))].

Definition conversion (c : ascii) (x : tm) : option bytes :=
  if bool_decide (c = "a"%char) then wdays !! tm_wday x
  else if bool_decide (c = "d"%char) then Some (two (tm_mday x))
  else if bool_decide (c = "b"%char) then months !! tm_mon x
  else if bool_decide (c = "Y"%char) then Some (to_string (tm_year x + 1900))
  else if bool_decide (c = "H"%char) then Some (two (tm_hour x))
  else if bool_decide (c = "M"%char) then Some (two (tm_min x))
  else if bool_decide (c = "S"%char) then Some (two (tm_sec x))
  else None.

Fixpoint format (fmt : bytes) (x : tm) : option bytes :=
  match fmt with
  | [] => Some []
  | "%"%char :: c :: fmt =>
      match conversion c x, format fmt x with Some s, Some r => Some (s ++ r) | _, _ => None end
  | c :: fmt => match format fmt x with Some r => Some (c :: r) | None => None end
  end.

(** What [strftime] leaves in a buffer of [max] bytes, without the zero; it is
    not specified when the text does not fit. *)
Definition strftime (max : nat) (fmt : bytes) (x : tm) : result bytes :=
  let* s := of_option Undefined (format fmt x) in
  if (length s <? max)%nat then Ok s else Err Undefined.

(** [TimeStamp::getServerDate] at the time [t]. *)
Definition getServerDate (t : Z) : result bytes :=
  let* x := of_option Undefined (gmtime t) in
  let* s := strftime 50 (bs "%a, %d %b %Y %H:%M:%S GMT") x in
  Ok (c_str s).

(** ** The calendar *)
Lemma year_start_succ y : year_start (y + 1) = year_start y + (if is_leap y then 366 else 365).
Proof.
  unfold year_start, is_leap.
  destruct (Z.eqb_spec (y mod 4) 0), (Z.eqb_spec (y mod 100) 0), (Z.eqb_spec (y mod 400) 0); cbn; Z.div_mod_to_equations; lia.
Qed.

Lemma year_of_spec days : 0 <= days -> year_start (year_of days) <= days < year_start (year_of days + 1).
Proof.
  intros H. unfold year_of. set (y := 1970 + _).
  assert (year_start (y - 1) <= days < year_start (y + 2)) as Hy.
  { unfold y, year_start. Z.div_mod_to_equations. lia. }
  destruct (Z.ltb_spec days (year_start y)); [replace (y - 1 + 1) with y by lia; lia|].
  destruct (Z.leb_spec (year_start (y + 1)) days); [replace (y + 1 + 1) with (y + 2) by lia|]; lia.
Qed.

Lemma year_start_mono y z : y <= z -> year_start y <= year_start z.
Proof.
  intros H. destruct (decide (y = z)) as [->|Hne]; [lia|]. assert (y + 1 <= z) as H1 by lia. clear H Hne.
  unfold year_start. Z.div_mod_to_equations. lia.
Qed.

Lemma year_bounds days y :
  0 <= days < 2932897 -> year_start y <= days < year_start (y + 1) -> 1970 <= y < 10000.
Proof.
  intros Hd Hy. split.
  - destruct (Z.le_gt_cases 1970 y); [done|]. pose proof (year_start_mono (y + 1) 1970 ltac:(lia)).
    change (year_start 1970) with 0 in *. lia.
  - destruct (Z.lt_ge_cases y 10000); [done|]. pose proof (year_start_mono 10000 y ltac:(lia)).
    change (year_start 10000) with 2932897 in *. lia.
Qed.

Definition sum (l : list Z) : Z := foldr Z.add 0 l.

Lemma sum_months y : sum (month_days y) = if is_leap y then 366 else 365.
Proof. unfold month_days. by destruct (is_leap y). Qed.

Lemma month_of_spec lens d m0 m r :
  month_of lens d m0 = (m, r) -> 0 <= d < sum lens ->
  exists k, m = (m0 + k)%nat /\ sum (take k lens) + r = d /\ exists l, lens !! k = Some l /\ 0 <= r < l.
Proof.
  revert d m0. induction lens as [|l lens IH]; intros d m0 H Hd; [cbn in Hd; lia|].
  cbn [month_of] in H. change (sum (l :: lens)) with (l + sum lens) in Hd.
  destruct (Z.ltb_spec d l).
  - injection H as <- <-. exists 0%nat. rewrite Nat.add_0_r. split; [done|]. split; [done|]. exists l. split; [done|lia].
  - destruct (IH _ _ H ltac:(lia)) as (k & -> & Hs & Hl). exists (S k). split; [lia|]. split; [|done].
    change (sum (take (S k) (l :: lens))) with (l + sum (take k lens)). lia.
Qed.

(** The seconds since the epoch, by the formula of POSIX. *)
Definition posix_seconds (x : tm) : Z :=
  tm_sec x + tm_min x * 60 + tm_hour x * 3600 + tm_yday x * 86400 + (tm_year x - 70) * 31536000
  + ((tm_year x - 69) / 4) * 86400 - ((tm_year x - 1) / 100) * 86400 + ((tm_year x + 299) / 400) * 86400.

Lemma posix_split x :
  posix_seconds x = tm_sec x + 60 * tm_min x + 3600 * tm_hour x + 86400 * (year_start (tm_year x + 1900) + tm_yday x).
Proof.
  unfold posix_seconds, year_start. replace (tm_year x + 1900 - 1969) with (tm_year x - 69) by lia.
  replace (tm_year x + 1900 - 1901) with (tm_year x - 1) by lia. replace (tm_year x + 1900 - 1601) with (tm_year x + 299) by lia. lia.
Qed.

(** Up to the end of the year 9999. *)
Definition end_of_dates : Z := 253402300800.

Lemma gmtime_spec t :
  0 <= t < end_of_dates -> exists x, gmtime t = Some x
    /\ 0 <= tm_sec x < 60 /\ 0 <= tm_min x < 60 /\ 0 <= tm_hour x < 24 /\ 70 <= tm_year x < 8100
    /\ 1 <= tm_mday x <= 31 /\ (tm_mon x < 12)%nat /\ tm_yday x = sum (take (tm_mon x) (month_days (tm_year x + 1900))) + tm_mday x - 1
    /\ tm_wday x = Z.to_nat ((t / 86400 + 4) mod 7) /\ posix_seconds x = t.
Proof.
  unfold end_of_dates. intros Ht. unfold gmtime. set (days := t / 86400). set (secs := t mod 86400).
  assert (0 <= days < 2932897 /\ 0 <= secs < 86400 /\ t = 86400 * days + secs) as (Hd & Hs & He)
    by (unfold days, secs; Z.div_mod_to_equations; lia).
  pose proof (year_of_spec days ltac:(lia)) as Hy. set (y := year_of days) in *.
  pose proof (year_bounds days y Hd Hy) as Hr. rewrite year_start_succ in Hy.
  destruct (month_of _ _ 0) as [m d] eqn:Em. apply month_of_spec in Em as (k & -> & Hk & l & Hl & Hdl); [|rewrite sum_months; lia].
  rewrite (proj2 (Z.leb_le _ _)), (proj2 (Z.leb_le _ _)) by (unfold INT_MIN, INT_MAX; lia). cbn [andb].
  eexists. split; [done|]. cbn [tm_sec tm_min tm_hour tm_year tm_mday tm_mon tm_yday tm_wday Nat.add].
  assert (l <= 31) as Hl31.
  { apply list_elem_of_lookup_2 in Hl. assert (Forall (fun l => l <= 31) (month_days y)) as Hf
      by (unfold month_days; destruct (is_leap y); repeat constructor; lia).
    rewrite Forall_forall in Hf. by apply Hf. }
  replace (y - 1900 + 1900) with y by lia.
  split_and!; try done; try (Z.div_mod_to_equations; lia).
  - apply lookup_lt_Some in Hl. by destruct (is_leap y).
  - rewrite posix_split. cbn [tm_sec tm_min tm_hour tm_year tm_yday]. replace (y - 1900 + 1900) with y by lia.
    rewrite He. Z.div_mod_to_equations. lia.
Qed.

(** ** Reading a date *)
Definition number (l : bytes) : Z := foldl (fun v c => 10 * v + (char_u c - 48)) 0 l.
Definition find_text (x : bytes) (l : list bytes) : option nat := fst <$> list_find (fun y => y = x) l.

(** [Sun, 06 Nov 1994 08:49:37 GMT], with the right day of the week. *)
Definition read_date (s : bytes) : option Z :=
  let num i n := number (take n (drop i s)) in
  match find_text (take 3 s) wdays, find_text (take 3 (drop 8 s)) months with
  | Some w, Some m =>
      let y := num 12%nat 4%nat in
      let days := year_start y + sum (take m (month_days y)) + num 5%nat 2%nat - 1 in
      if bool_decide (w = Z.to_nat ((days + 4) mod 7) /\ length s = 29%nat)
      then Some (num 23%nat 2%nat + 60 * num 20%nat 2%nat + 3600 * num 17%nat 2%nat + 86400 * days)
      else None
  | _, _ => None
  end.

Lemma decimal_digit n : (n < 10)%nat -> char_u (digit n) - 48 = Z.of_nat n /\ digit n <> NUL.
Proof. intros H. do 10 (destruct n as [|n]; [split; [reflexivity|discriminate]|]). lia. Qed.

Lemma two_value z : 0 <= z < 100 -> exists a b, two z = [a; b] /\ number [a; b] = z /\ NUL ∉ [a; b].
Proof.
  intros H. unfold two. eexists _, _. split; [done|].
  destruct (decimal_digit (Z.to_nat (z / 10))) as [E1 N1]; [Z.div_mod_to_equations; lia|].
  destruct (decimal_digit (Z.to_nat (z mod 10))) as [E2 N2]; [Z.div_mod_to_equations; lia|].
  unfold number. cbn [foldl]. rewrite E1, E2. split; [Z.div_mod_to_equations; lia|].
  rewrite !elem_of_cons, elem_of_nil. naive_solver.
Qed.

Lemma div10 n : (n = 10 * (n / 10) + n mod 10 /\ n mod 10 < 10)%nat.
Proof. split; [apply Nat.div_mod_eq|by apply Nat.mod_upper_bound]. Qed.

Lemma year_value y : 1000 <= y < 10000 -> exists a b c d, to_string y = [a; b; c; d] /\ number [a; b; c; d] = y /\ NUL ∉ [a; b; c; d].
Proof.
  intros H. unfold to_string. rewrite (proj2 (Z.ltb_ge _ _)) by lia. unfold to_string_nat.
  assert (Z.of_nat (Z.to_nat y) = y) as Hy by lia. assert (1000 <= Z.of_nat (Z.to_nat y) < 10000) as Hn by lia.
  revert Hy Hn. generalize (Z.to_nat y) as n. intros n Hy Hn. replace (S n) with (S (S (S (S (n - 3))))) by lia.
  cbn [nat_digits]. set (n1 := (n / 10)%nat). set (n2 := (n1 / 10)%nat). set (n3 := (n2 / 10)%nat).
  destruct (div10 n) as [D0 M0], (div10 n1) as [D1 M1], (div10 n2) as [D2 M2], (div10 n3) as [D3 M3].
  fold n1 in D0. fold n2 in D1. fold n3 in D2. clearbody n3. clearbody n2. clearbody n1. assert (n3 / 10 = 0)%nat as D4 by lia.
  rewrite (proj2 (Nat.ltb_ge n 10)), (proj2 (Nat.ltb_ge n1 10)), (proj2 (Nat.ltb_ge n2 10)), (proj2 (Nat.ltb_lt n3 10)) by lia.
  eexists _, _, _, _. split; [done|].
  destruct (decimal_digit (n3 mod 10)) as [E3 N3]; [done|].
  destruct (decimal_digit (n2 mod 10)) as [E2 N2]; [done|].
  destruct (decimal_digit (n1 mod 10)) as [E1 N1]; [done|].
  destruct (decimal_digit (n mod 10)) as [E0 N0]; [done|].
  unfold number. cbn [foldl]. rewrite E0, E1, E2, E3. split.
  - lia.
  - rewrite !elem_of_cons, elem_of_nil. naive_solver.
Qed.

Lemma name_value (l : list bytes) k :
  (k < length l)%nat -> forallb (fun s => bool_decide (length s = 3%nat /\ NUL ∉ s)) l = true -> NoDup l ->
  exists a b c, l !! k = Some [a; b; c] /\ find_text [a; b; c] l = Some k /\ NUL ∉ [a; b; c].
Proof.
  intros Hk Hl Hn. destruct (lookup_lt_is_Some_2 l k Hk) as [s Hs]. rewrite forallb_forall in Hl.
  pose proof (Hl s (proj1 (list_elem_of_In _ _) (list_elem_of_lookup_2 _ _ _ Hs))) as [H3 H0]%bool_decide_eq_true.
  destruct s as [|a [|b [|c []]]]; try done. exists a, b, c. split; [done|]. split; [|done].
  unfold find_text. assert (list_find (fun y => y = [a; b; c]) l = Some (k, [a; b; c])) as ->; [|done].
  apply list_find_Some. split; [done|]. split; [done|]. intros i y Hi Hik ->. pose proof (NoDup_lookup _ _ _ _ Hn Hi Hs). lia.
Qed.

Lemma conversions x :
  conversion "a" x = wdays !! tm_wday x /\ conversion "d" x = Some (two (tm_mday x)) /\ conversion "b" x = months !! tm_mon x
  /\ conversion "Y" x = Some (to_string (tm_year x + 1900)) /\ conversion "H" x = Some (two (tm_hour x))
  /\ conversion "M" x = Some (two (tm_min x)) /\ conversion "S" x = Some (two (tm_sec x)).
Proof. done. Qed.

Lemma wday_value k : (k < 7)%nat -> exists a b c, wdays !! k = Some [a; b; c] /\ find_text [a; b; c] wdays = Some k /\ NUL ∉ [a; b; c].
Proof. intros H. apply name_value; [exact H|reflexivity|]. apply (bool_decide_unpack _). vm_compute. exact I. Qed.

Lemma month_value k : (k < 12)%nat -> exists a b c, months !! k = Some [a; b; c] /\ find_text [a; b; c] months = Some k /\ NUL ∉ [a; b; c].
Proof. intros H. apply name_value; [exact H|reflexivity|]. apply (bool_decide_unpack _). vm_compute. exact I. Qed.

End ServerDate.
Import ServerDate.

(** C30: The [Date] of a response says when it was made: for every second until the
    end of the year 9999 [getServerDate] fills its buffer with the 29 characters
    of the form that HTTP prescribes, and the calendar reads them back to that
    second, by the formula of POSIX and with the right day of the week; and a
    new response has them in its header. *)
Theorem server_date_roundtrip (t : Z) (r : HttpRequest.t) (b : HttpResponse.t) :
  0 <= t < end_of_dates ->
  exists s, getServerDate t = Ok s /\ length s = 29%nat /\ read_date s = Some t
    /\ (HttpResponse.new s r = Ok b -> HttpHeader.get (bs "Date") (HttpResponse.header_ b) = Some s).
Proof.
  intros Ht. destruct (gmtime_spec t Ht) as (x & Hx & Hs & Hm & Hh & Hy & Hd & Hmon & Hyd & Hw & Hp).
  unfold getServerDate. rewrite Hx. cbn [of_option].
  destruct (wday_value (tm_wday x)) as (w1 & w2 & w3 & Ew & Fw & Nw); [rewrite Hw; Z.div_mod_to_equations; lia|].
  destruct (month_value (tm_mon x) Hmon) as (m1 & m2 & m3 & Em & Fm & Nm).
  destruct (two_value (tm_mday x)) as (d1 & d2 & Ed & Vd & Nd); [lia|].
  destruct (two_value (tm_hour x)) as (h1 & h2 & Eh & Vh & Nh); [lia|].
  destruct (two_value (tm_min x)) as (i1 & i2 & Ei & Vi & Ni); [lia|].
  destruct (two_value (tm_sec x)) as (s1 & s2 & Es & Vs & Ns); [lia|].
  destruct (year_value (tm_year x + 1900)) as (y1 & y2 & y3 & y4 & Ey & Vy & Ny); [lia|].
  unfold strftime.
  assert (format (bs "%a, %d %b %Y %H:%M:%S GMT") x
    = Some ([w1; w2; w3] ++ bs ", " ++ [d1; d2] ++ bs " " ++ [m1; m2; m3] ++ bs " " ++ [y1; y2; y3; y4] ++ bs " " ++ [h1; h2]
            ++ bs ":" ++ [i1; i2] ++ bs ":" ++ [s1; s2] ++ bs " GMT")) as ->.
  { pose proof (conversions x) as (Ca & Cd & Cb & CY & CH & CM & CS). cbn -[conversion].
    rewrite Ca, Cd, Cb, CY, CH, CM, CS, Ew, Em, Ed, Eh, Ei, Es, Ey. done. }
  cbn [of_option]. rewrite (proj2 (Nat.ltb_lt _ _)) by (cbn; lia). eexists. split; [done|].
  rewrite c_str_id.
  2: { rewrite !not_elem_of_app. split_and!; try assumption; by apply (bool_decide_unpack _). }
  split; [done|]. split.
  - unfold read_date. cbn -[number find_text wdays months month_days year_start sum Z.modulo Z.mul Z.add Z.sub].
    rewrite Fw, Fm, Vy, Vd, Vi, Vh, Vs.
    rewrite posix_split in Hp.
    assert (year_start (tm_year x + 1900) + tm_yday x = t / 86400) as Hday by (Z.div_mod_to_equations; lia).
    replace (year_start _ + _ + _ - 1) with (t / 86400) by lia. rewrite bool_decide_true by done. f_equal. lia.
  - unfold HttpResponse.new. destruct (HttpRequest.version_ r); [|done]. destruct (HttpRequest.method_ r); [|done]. cbn [of_option].
    intros [= <-]. cbn [HttpResponse.header_]. by apply HttpHeader.get_add.
Qed.

Lemma server_date_roundtrip_witness :
  getServerDate 784111777 = Ok (bs "Sun, 06 Nov 1994 08:49:37 GMT")
  /\ read_date (bs "Sun, 06 Nov 1994 08:49:37 GMT") = Some 784111777.
Proof.
  assert (getServerDate 784111777 = Ok (bs "Sun, 06 Nov 1994 08:49:37 GMT")) as E by (vm_compute; reflexivity). split; [exact E|].
  destruct (server_date_roundtrip 784111777 HttpRequest.new (HttpResponse.Make [] [] HTTP_1_1 [] GET false false false 0 (Buffer.new 0)))
    as (s & Es & _ & Hr & _); [unfold end_of_dates; lia|].
  rewrite E in Es. injection Es as <-. exact Hr.
Defined.
