(* ===== verification/HttpService.v ===== *)
(** * HttpService: the services and the error page

    Models [soc/http/include/HttpService.h] and [soc/http/src/HttpService.cc].  A
    handler acts on the response and on an environment: what it can change
    besides the response, the sessions of the server and the mutable members of
    the request. *)
From S2P Require Import Prelude CStr HttpUtil HttpHeader HttpRequest HttpResponse.
Import HttpResponse.

Module HttpService.

Section service.
Context {E : Type}.

Definition handler : Type := HttpRequest.t -> HttpResponse.t -> E -> result (HttpResponse.t * E).

(** The overridable handlers of a service. *)
Record t := Make { doHead : handler; doGet : handler; doPost : handler }.

Definition default_doGet : handler := fun _ resp e => Ok (setCode HttpStatus.METHOD_NOT_ALLOWED resp, e).
Definition default_doPost : handler := fun _ resp e => Ok (setCode HttpStatus.METHOD_NOT_ALLOWED resp, e).
(** [doHead] calls the [doGet] of the service. *)
Definition default_doHead (doGet : handler) : handler := fun req resp e => doGet req resp e.

Definition service (s : t) (req : HttpRequest.t) (resp : HttpResponse.t) (e : E) : result (HttpResponse.t * E) :=
  match HttpRequest.method_ req with
  | Some HEAD => doHead s req resp e
  | Some GET => doGet s req resp e
  | Some POST => doPost s req resp e
  | None => Err Undefined
  end.

(** [set_match] stores the groups in the request. *)
Definition service0 (set_match : list bytes -> E -> E) (s : t) (groups : list bytes)
    (req : HttpRequest.t) (resp : HttpResponse.t) (e : E) : result (HttpResponse.t * E) :=
  service s req resp (set_match groups e).

(** ** [HttpErrorService] *)
Definition baseErrorPage (code : Z) : result bytes :=
  let* message := status_at code in
  let text := to_string code ++ bs " " ++ message in
  Ok (bs "<html><head><title>" ++ text ++ bs "</title></head><body><center><h1>" ++ text
      ++ bs "</h1></center><hr><center>socnet</center></body></html>").

Definition error_handler : Type := Z -> HttpRequest.t -> HttpResponse.t -> E -> result (bool * HttpResponse.t * E).

(** [DefaultErrorService] handles no error. *)
Definition default_doError : error_handler := fun _ _ resp e => Ok (false, resp, e).

Definition error_service (doError : error_handler) (req : HttpRequest.t) (resp : HttpResponse.t) (e : E)
    : result (HttpResponse.t * E) :=
  let code := code_ resp in
  let* (handled, resp, e) := doError code req resp e in
  if handled then Ok (resp, e)
  else
    let* page := baseErrorPage code in
    let* resp := setBody page (setHeader (bs "Content-Type") (bs "text/html") resp) in
    Ok (resp, e).

(** ** [BaseService]: what the server keeps in its table *)
Inductive BaseService := Service (s : t) | ErrorService (doError : error_handler).

Definition base_service (b : BaseService) (req : HttpRequest.t) (resp : HttpResponse.t) (e : E)
    : result (HttpResponse.t * E) :=
  match b with
  | Service s => service s req resp e
  | ErrorService d => error_service d req resp e
  end.

End service.
Arguments t : clear implicits.
Arguments handler : clear implicits.
Arguments error_handler : clear implicits.
Arguments BaseService : clear implicits.
End HttpService.
