(* ===== verification/HttpSession.v ===== *)
(** * HttpSession: sessions, their store and their expiry

    Models [soc/http/include/HttpSession.h], [soc/http/include/HttpSessionServer.h]
    and the session part of [soc/http/src/HttpServer.cc].  A pointer to a session
    is the identifier it is stored under.  The values of a session ([std::any])
    are a parameter. *)
From S2P Require Import Prelude CStr TimeStamp TimerHeap TimerQueue EncodeUtil HttpMap HttpAuth.

(** ** [class HttpSession] *)
Module HttpSession.

Inductive Status := New | Accessed | Destroy.
#[export] Instance Status_eq_dec : EqDecision Status.
Proof. solve_decision. Defined.

Section session.
Context {any : Type}.

Record t := Make { map_ : HttpMap.t any; id_ : bytes; interval_ : Z; status_ : Status }.

Definition new (id : bytes) (interval : Z) : t := Make ∅ id interval New.
Definition getId (s : t) : bytes := id_ s.
Definition isNew (s : t) : bool := bool_decide (status_ s = New).
Definition isAccessed (s : t) : bool := bool_decide (status_ s = Accessed).
Definition isDestroy (s : t) : bool := bool_decide (status_ s = Destroy).
Definition getStatus (s : t) : Status := status_ s.
Definition getMaxInactiveInterval (s : t) : Z := interval_ s.
Definition setStatus (st : Status) (s : t) : t := Make (map_ s) (id_ s) (interval_ s) st.
Definition invalidate (s : t) : t := Make (map_ s) (id_ s) (interval_ s) Destroy.
Definition setValue (key : bytes) (value : any) (s : t) : t :=
  Make (HttpMap.add key value (map_ s)) (id_ s) (interval_ s) (status_ s).
(** [cast] is [any_cast<const V &>]: [None] for an empty value, and where it
    throws [bad_any_cast]. *)
Definition getValue {V} (cast : any -> option V) (key : bytes) (s : t) : option V :=
  match map_ s !! key with Some x => cast x | None => None end.

End session.
Arguments t : clear implicits.
End HttpSession.

(** ** [class HttpSessionServer]: what a request asks its owner for *)
Class HttpSessionServer (W : Type) := {
  associate : HttpMap.t bytes -> W -> result (bytes * W);
}.

(** ** The sessions of the server *)
Module Sessions.
Import HttpSession.

Section sessions.
Context {any : Type}.

(** [rand_] is what [rand()] returns next. *)
Record t := Make {
  sessions_ : HttpMap.t (HttpSession.t any); session_timer_ : option (TimerQueue.t bytes); rand_ : list nat }.

(** The configured lifetime, the memory behind [id] in [createSession], the
    time and the monotonic clock (seconds and nanoseconds). *)
Context (session_lifetime : Z) (after_id : bytes) (clock : TimeStamp.t) (mono : Z * Z).

(** [Timer]'s key is an [int]. *)
Definition int32 (z : Z) : Z := ((z + 2 ^ 31) mod 2 ^ 32 - 2 ^ 31)%Z.
Definition timer_key (id : bytes) : Z := int32 (EncodeUtil.murmurHash2 id).

(** [snprintf(session_id, 27, ...)] of [id], which has no terminating zero. *)
Definition session_name (r : list nat) : bytes :=
  take 26 (bs "SESSIONID_" ++ c_str (EncodeUtil.genRandromStr r ++ after_id)).

Definition createSession (w : t) : result (bytes * t) :=
  if length (rand_ w) <? 16 then Err OutOfFuel
  else
    let session_id := session_name (take 16 (rand_ w)) in
    Ok (session_id, Make (HttpMap.add session_id (new session_id session_lifetime) (sessions_ w))
                      (session_timer_ w) (drop 16 (rand_ w))).

(** [TcpServer::createSessionTimer] *)
Definition createSessionTimer (ts : TimeStamp.t) (w : t) : TimerQueue.t bytes :=
  match session_timer_ w with
  | None => TimerQueue.runEvery mono.1 mono.2 ts TimerQueue.new
  | Some q => q
  end.

(** The session a cookie names, unless it is to be destroyed. *)
Definition find_session (cookies : HttpMap.t bytes) (w : t) : option (bytes * HttpSession.t any) :=
  match HttpMap.get (bs "SESSIONID") cookies with
  | Some x =>
      match HttpMap.get x (sessions_ w) with
      | Some s => if isDestroy s then None else Some (x, s)
      | None => None
      end
  | None => None
  end.

Definition associateSession (cookies : HttpMap.t bytes) (w : t) : result (bytes * t) :=
  match find_session cookies w with
  | Some (x, s) =>
      let s := setStatus Accessed s in
      let w := Make (<[x := s]> (sessions_ w)) (session_timer_ w) (rand_ w) in
      let* q := of_option Undefined (session_timer_ w) in
      let* ts := TimeStamp.nowSecond clock (getMaxInactiveInterval s) in
      let* q := TimerQueue.adjust (mkTimer (timer_key (getId s)) ts None) q in
      Ok (x, Make (sessions_ w) (Some q) (rand_ w))
  | None =>
      let* (x, w) := createSession w in
      let* s := of_option Undefined (sessions_ w !! x) in
      let* period := TimeStamp.second (getMaxInactiveInterval s) in
      let q := createSessionTimer period w in
      let* ts := TimeStamp.nowSecond clock (getMaxInactiveInterval s) in
      let* q := TimerQueue.add (mkTimer (timer_key (getId s)) ts (Some x)) q in
      Ok (x, Make (sessions_ w) (Some q) (rand_ w))
  end.

(** The callback of a session's timer. *)
Definition handleSessionTimeout (session : bytes) (m : HttpMap.t (HttpSession.t any)) : HttpMap.t (HttpSession.t any) :=
  HttpMap.remove session m.

(** The expiry of the session timer ([TcpServer::handleTimeout]). *)
Definition handleTimeout (w : t) : result t :=
  match session_timer_ w with
  | None => Ok w
  | Some q =>
      let* (q, m) := TimerQueue.handleTimeout handleSessionTimeout clock q (sessions_ w) in
      Ok (Make m (Some q) (rand_ w))
  end.

(** What a service does to a session of which it has the pointer. *)
Definition update (x : bytes) (f : HttpSession.t any -> HttpSession.t any) (w : t) : result t :=
  let* s := of_option Undefined (sessions_ w !! x) in
  Ok (Make (<[x := f s]> (sessions_ w)) (session_timer_ w) (rand_ w)).

#[export] Instance HttpServer_sessions : HttpSessionServer t := {| associate := associateSession |}.

(** ** The abstract store: identifiers, their status and their deadline *)
Notation store := (gmap bytes (Status * TimeStamp.t)).

Definition timers (w : t) : gmap Z (TimeStamp.t * option bytes) :=
  match session_timer_ w with Some q => TimerHeap.abs (TimerQueue.timer_heap_ q) | None => ∅ end.

Record represents (w : t) (m : store) : Prop := {
  rep_session id st ts : m !! id = Some (st, ts) -> exists s, sessions_ w !! id = Some s
    /\ id_ s = id /\ interval_ s = session_lifetime /\ status_ s = st /\ timers w !! timer_key id = Some (ts, Some id);
  rep_none id : m !! id = None -> sessions_ w !! id = None;
  rep_timer k ts cb : timers w !! k = Some (ts, cb) -> exists id st, k = timer_key id /\ cb = Some id /\ m !! id = Some (st, ts);
  rep_heap q : session_timer_ w = Some q -> TimerHeap.Inv (TimerQueue.timer_heap_ q);
}.

Definition deadline : TimeStamp.t := TimeStamp.add clock (TimeStamp.Make (session_lifetime * 1000000)).

(** What [associateSession] does to the abstract store. *)
Definition spec_associate (cookies : HttpMap.t bytes) (fresh : bytes) (m : store) : bytes * store :=
  match HttpMap.get (bs "SESSIONID") cookies with
  | Some x =>
      match m !! x with
      | Some (st, _) => if decide (st = Destroy) then (fresh, <[fresh := (New, deadline)]> m) else (x, <[x := (Accessed, deadline)]> m)
      | None => (fresh, <[fresh := (New, deadline)]> m)
      end
  | None => (fresh, <[fresh := (New, deadline)]> m)
  end.

(** What the expiry of the timer does. *)
Definition spec_expire (m : store) : store :=
  filter (fun e => (TimeStamp.microsecond_ clock < TimeStamp.microsecond_ e.2.2)%Z) m.

(** ** Refinement *)
Implicit Types (w : t) (m : store).

Lemma nowSecond_deadline : (0 <= session_lifetime <= 2147)%Z -> TimeStamp.nowSecond clock session_lifetime = Ok deadline.
Proof. intros H. unfold TimeStamp.nowSecond. by rewrite TimeStamp.second_small. Qed.

Lemma represents_empty r : represents (Make ∅ None r) ∅.
Proof. by split. Qed.

(** The sixteen random characters fill [id], and the prefix of ten leaves room
    for exactly these: what lies behind [id] does not get into the name. *)
Lemma session_name_eq r : length r = 16 -> session_name r = bs "SESSIONID_" ++ EncodeUtil.genRandromStr r.
Proof.
  intros Hr. unfold session_name. rewrite c_str_app.
  - rewrite app_assoc, take_app_length'; [done|]. unfold EncodeUtil.genRandromStr. by rewrite length_app, length_fmap, Hr.
  - unfold EncodeUtil.genRandromStr. intros H. apply list_elem_of_fmap in H as (x & Hx & _).
    assert (forallb (fun n => negb (bool_decide (NUL = EncodeUtil.alpha !!! n))) (seq 0 62) = true) as Hall by (vm_compute; reflexivity).
    rewrite forallb_forall in Hall. specialize (Hall (x mod 62)). rewrite bool_decide_true in Hall by done.
    apply diff_false_true, Hall, in_seq. pose proof (Nat.mod_upper_bound x 62 ltac:(lia)). lia.
Qed.

(** A store with a timer has a timer queue. *)
Lemma represents_queue w m id e : represents w m -> m !! id = Some e -> exists q, session_timer_ w = Some q.
Proof.
  intros R E. destruct e as [st ts]. destruct (rep_session _ _ R _ _ _ E) as (s & _ & _ & _ & _ & Ht).
  unfold timers in Ht. destruct (session_timer_ w) as [q|]; [by exists q|done].
Qed.

Lemma find_session_spec cookies w m :
  represents w m ->
  find_session cookies w = None /\ (forall fresh, spec_associate cookies fresh m = (fresh, <[fresh := (New, deadline)]> m))
  \/ exists x s st ts, find_session cookies w = Some (x, s) /\ sessions_ w !! x = Some s /\ m !! x = Some (st, ts)
     /\ forall fresh, spec_associate cookies fresh m = (x, <[x := (Accessed, deadline)]> m).
Proof.
  intros R. unfold find_session, spec_associate. destruct (HttpMap.get _ cookies) as [x|]; [|by left].
  unfold HttpMap.get. destruct (m !! x) as [[st ts]|] eqn:E.
  - destruct (rep_session _ _ R _ _ _ E) as (s & Es & _ & _ & Hst & _). rewrite Es. unfold isDestroy. rewrite Hst.
    destruct (decide (st = Destroy)) as [->|Hd]; [by left|]. rewrite bool_decide_false by done.
    right. exists x, s, st, ts. done.
  - rewrite (rep_none _ _ R _ E). by left.
Qed.

(** A timer that a session's access moves. *)
Lemma access_represents w m x s q q' st ts :
  represents w m -> sessions_ w !! x = Some s -> m !! x = Some (st, ts) -> session_timer_ w = Some q ->
  TimerHeap.Inv (TimerQueue.timer_heap_ q') ->
  TimerHeap.abs (TimerQueue.timer_heap_ q') = alter (fun e => (deadline, e.2)) (timer_key x) (TimerHeap.abs (TimerQueue.timer_heap_ q)) ->
  represents (Make (<[x := setStatus Accessed s]> (sessions_ w)) (Some q') (rand_ w)) (<[x := (Accessed, deadline)]> m).
Proof.
  intros R Es Em Eq HI Ha. destruct (rep_session _ _ R _ _ _ Em) as (s' & Es' & Hid & Hin & _ & Ht).
  rewrite Es in Es'. injection Es' as <-. unfold timers in Ht. rewrite Eq in Ht. split; unfold timers; cbn.
  - intros id st' ts'. rewrite Ha. destruct (decide (id = x)) as [->|Hne].
    + rewrite !lookup_insert_eq. intros [= <- <-]. eexists. split; [done|]. do 3 (split; [done|]).
      by rewrite lookup_alter_eq, Ht.
    + rewrite !lookup_insert_ne by done. intros E. destruct (rep_session _ _ R _ _ _ E) as (s' & ? & ? & ? & ? & Ht').
      exists s'. do 4 (split; [done|]). unfold timers in Ht'. rewrite Eq in Ht'.
      rewrite lookup_alter_ne; [done|]. intros Hk. rewrite Hk in Ht. congruence.
  - intros id. destruct (decide (id = x)) as [->|Hne]; [by rewrite lookup_insert_eq|].
    rewrite !lookup_insert_ne by done. apply (rep_none _ _ R).
  - intros k ts' cb. rewrite Ha. destruct (decide (k = timer_key x)) as [->|Hk].
    + rewrite lookup_alter_eq, Ht. cbn. intros [= <- <-]. exists x, Accessed. by rewrite lookup_insert_eq.
    + rewrite lookup_alter_ne by done. intros E. pose proof (rep_timer _ _ R k ts' cb) as H. unfold timers in H.
      rewrite Eq in H. destruct (H E) as (id & st' & -> & -> & Hm). exists id, st'. do 2 (split; [done|]).
      by rewrite lookup_insert_ne by congruence.
  - by intros ? [= <-].
Qed.

(** A new session and its timer. *)
Lemma create_represents w m x (q' : TimerQueue.t bytes) r :
  represents w m -> (forall id, is_Some (m !! id) -> timer_key id <> timer_key x) ->
  TimerHeap.Inv (TimerQueue.timer_heap_ q') ->
  TimerHeap.abs (TimerQueue.timer_heap_ q') = <[timer_key x := (deadline, Some x)]> (timers w) ->
  represents (Make (<[x := new x session_lifetime]> (sessions_ w)) (Some q') r) (<[x := (New, deadline)]> m).
Proof.
  intros R Hf HI Ha. split; unfold timers; cbn.
  - intros id st ts. rewrite Ha. destruct (decide (id = x)) as [->|Hne].
    + rewrite !lookup_insert_eq. intros [= <- <-]. by eexists.
    + rewrite !lookup_insert_ne by done. intros E. destruct (rep_session _ _ R _ _ _ E) as (s' & ? & ? & ? & ? & Ht').
      exists s'. do 4 (split; [done|]). rewrite lookup_insert_ne; [done|]. apply not_eq_sym, Hf. by eexists.
  - intros id. destruct (decide (id = x)) as [->|Hne]; [by rewrite lookup_insert_eq|].
    rewrite !lookup_insert_ne by done. apply (rep_none _ _ R).
  - intros k ts cb. rewrite Ha. destruct (decide (k = timer_key x)) as [->|Hk].
    + rewrite lookup_insert_eq. intros [= <- <-]. exists x, New. by rewrite lookup_insert_eq.
    + rewrite lookup_insert_ne by done. intros E. destruct (rep_timer _ _ R _ _ _ E) as (id & st & -> & -> & Hm).
      exists id, st. do 2 (split; [done|]). by rewrite lookup_insert_ne by congruence.
  - by intros ? [= <-].
Qed.

(** A session that is found keeps its values, and its timer moves. *)
Lemma associate_found cookies w m x s st ts :
  represents w m -> (0 <= session_lifetime <= 2147)%Z -> find_session cookies w = Some (x, s) ->
  sessions_ w !! x = Some s -> m !! x = Some (st, ts) -> (TimeStamp.microsecond_ ts <= TimeStamp.microsecond_ deadline)%Z ->
  exists w', associateSession cookies w = Ok (x, w') /\ represents w' (<[x := (Accessed, deadline)]> m)
    /\ sessions_ w' !! x = Some (setStatus Accessed s).
Proof.
  intros R Hl Hfind Es Em Hd. unfold associateSession. rewrite Hfind.
  destruct (represents_queue _ _ _ _ R Em) as [q Eq]. rewrite Eq. cbn [of_option session_timer_].
  destruct (rep_session _ _ R _ _ _ Em) as (s' & Es' & Hid & Hin & _ & Ht). rewrite Es in Es'. injection Es' as <-.
  unfold getMaxInactiveInterval, getId. change (interval_ (setStatus Accessed s)) with (interval_ s).
  change (id_ (setStatus Accessed s)) with (id_ s). rewrite Hin, Hid, nowSecond_deadline by done.
  unfold TimerQueue.adjust.
  destruct (TimerHeap.adjust_spec (mkTimer (timer_key x) deadline None) _ (rep_heap _ _ R _ Eq)) as (h & -> & HI' & Ha').
  { intros ts' cb E. cbn in *. unfold timers in Ht. rewrite Eq in Ht. rewrite Ht in E. by injection E as <- <-. }
  eexists. split; [done|]. cbn [sessions_ rand_ session_timer_]. split; [|by rewrite lookup_insert_eq].
  by apply (access_represents w m x s q (TimerQueue.Make (TimerQueue.tmfd_ q) h) st ts).
Qed.

Lemma associate_represents cookies w m :
  represents w m -> (0 <= session_lifetime <= 2147)%Z -> 16 <= length (rand_ w) ->
  (forall id, is_Some (m !! id) -> timer_key id <> timer_key (session_name (take 16 (rand_ w)))) ->
  (forall id st ts, m !! id = Some (st, ts) -> (TimeStamp.microsecond_ ts <= TimeStamp.microsecond_ deadline)%Z) ->
  let '(x, m') := spec_associate cookies (session_name (take 16 (rand_ w))) m in
  exists w', associateSession cookies w = Ok (x, w') /\ represents w' m'.
Proof.
  intros R Hl Hr Hf Hd.
  destruct (find_session_spec cookies w m R) as [[En ->]|(x & s & st & ts & Ef & Es & Em & ->)].
  - unfold associateSession. rewrite En. unfold createSession. rewrite (proj2 (Nat.ltb_ge _ _)) by done. set (x := session_name _) in *. cbn [sessions_ session_timer_ rand_].
    unfold HttpMap.add at 1. rewrite lookup_insert_eq. cbn [of_option]. unfold getMaxInactiveInterval, getId, new. cbn [interval_ id_].
    rewrite TimeStamp.second_small, nowSecond_deadline by done. unfold createSessionTimer. cbn [session_timer_].
    set (q := match session_timer_ w with None => _ | Some q => q end).
    assert (TimerHeap.Inv (TimerQueue.timer_heap_ q) /\ TimerHeap.abs (TimerQueue.timer_heap_ q) = timers w) as [HI Ha].
    { unfold q, timers. destruct (session_timer_ w) as [q0|] eqn:Eq; [by split; [apply (rep_heap _ _ R)|]|].
      unfold TimerQueue.runEvery, TimerQueue.settime. destruct (TimerQueue.settime_accepts _); (split; [apply TimerHeap.Inv_empty|done]). }
    unfold TimerQueue.add. destruct (TimerHeap.push_spec (mkTimer (timer_key x) deadline (Some x)) _ HI) as (h & -> & HI' & Ha').
    eexists. split; [done|]. apply create_represents; [done|done|done|]. cbn. by rewrite Ha', Ha.
  - destruct (associate_found cookies w m x s st ts) as (w' & E & R' & _); [done..|by eapply Hd|]. by exists w'.
Qed.

(** *** Expiry *)
Lemma abs_iff (h : TimerHeap.t bytes) k v :
  TimerHeap.Inv h -> TimerHeap.abs h !! k = Some v <-> exists x, x ∈ TimerHeap.c_ h /\ fd x = k /\ v = (timestamp x, callback x).
Proof.
  intros HI. split; [by apply abs_elem|]. intros (x & Hx & <- & ->). apply TimerHeap.absl_lookup; [apply HI|done].
Qed.

Lemma removed_lookup (fired : list (Timer bytes)) (ss : HttpMap.t (HttpSession.t any)) id :
  fold_left (TimerQueue.call_timer handleSessionTimeout) fired ss !! id
  = if decide (Some id ∈ callback <$> fired) then None else ss !! id.
Proof.
  revert ss. induction fired as [|x fired IH]; intros ss; [by rewrite decide_False by by intros ?%elem_of_nil|].
  cbn [fold_left]. rewrite IH, fmap_cons.
  destruct (decide (Some id ∈ callback <$> fired)) as [Hin|Hin]; [by rewrite decide_True by (right; done)|].
  unfold TimerQueue.call_timer, handleSessionTimeout, HttpMap.remove.
  destruct (callback x) as [cb|] eqn:Ex.
  - destruct (decide (cb = id)) as [->|Hne].
    + rewrite lookup_delete_eq, decide_True by (left; done). done.
    + rewrite lookup_delete_ne by done. rewrite decide_False; [done|]. intros [E|?]%elem_of_cons; [congruence|done].
  - rewrite decide_False; [done|]. intros [E|?]%elem_of_cons; [congruence|done].
Qed.

Lemma expire_represents w m :
  represents w m -> exists w', handleTimeout w = Ok w' /\ represents w' (spec_expire m).
Proof.
  intros R. unfold handleTimeout. destruct (session_timer_ w) as [q|] eqn:Eq.
  2: { exists w. split; [done|]. assert (m = ∅) as ->.
    { apply map_eq. intros id. rewrite lookup_empty. destruct (m !! id) as [e|] eqn:E; [|done].
      destruct (represents_queue _ _ _ _ R E) as [q E']. congruence. }
    unfold spec_expire. by rewrite map_filter_empty. }
  pose proof (rep_heap _ _ R _ Eq) as HI. set (h := TimerQueue.timer_heap_ q) in *.
  assert (forall x, x ∈ TimerHeap.c_ h -> exists id st, callback x = Some id /\ fd x = timer_key id /\ m !! id = Some (st, timestamp x)) as Hcb.
  { intros x Hx. destruct (rep_timer _ _ R (fd x) (timestamp x) (callback x)) as (id & st & ? & ? & ?); [|by exists id, st].
    unfold timers. rewrite Eq. apply abs_iff; [done|by exists x]. }
  unfold TimerQueue.handleTimeout. fold h.
  destruct (TimerQueue.timeoutLoop_spec handleSessionTimeout (1 + TimerHeap.size h) clock h (sessions_ w))
    as (h' & fired & -> & HI' & Hp & Hexp & Hrem & _); [unfold TimerHeap.size; lia|done| |].
  { apply Forall_forall. intros x Hx. destruct (Hcb x Hx) as (id & st & -> & _). by eexists. }
  rewrite Forall_forall in Hexp, Hrem. unfold TimerQueue.expired in Hexp, Hrem.
  assert (forall x, x ∈ TimerHeap.c_ h <-> x ∈ fired \/ x ∈ TimerHeap.c_ h') as Hin.
  { intros x. by rewrite <- Hp, elem_of_app. }
  eexists. split; [done|]. split; unfold timers; cbn.
  - intros id st ts E. apply map_lookup_filter_Some in E as [E Hlt]. cbn in Hlt.
    destruct (rep_session _ _ R _ _ _ E) as (s & Es & Hid & Hi & Hs & Ht). exists s. rewrite removed_lookup.
    unfold timers in Ht. rewrite Eq in Ht. apply abs_iff in Ht as (x & Hx & Hk & Hv); [|done]. injection Hv as -> Hc.
    rewrite decide_False.
    + do 4 (split; [done|]). apply abs_iff; [done|]. exists x. split; [|by rewrite Hc].
      apply Hin in Hx as [Hx|Hx]; [|done]. specialize (Hexp _ Hx). cbn in Hexp. lia.
    + intros Hf. apply list_elem_of_fmap in Hf as (y & Hy & Hyf). specialize (Hexp _ Hyf).
      destruct (Hcb y) as (id' & st' & Hy' & _ & Hm); [apply Hin; by left|]. rewrite <- Hy in Hy'. injection Hy' as <-.
      rewrite E in Hm. injection Hm as _ Hts. rewrite <- Hts in Hexp. lia.
  - intros id E. rewrite removed_lookup. destruct (decide _) as [|Hn]; [done|].
    apply map_lookup_filter_None in E as [E|E]; [by apply (rep_none _ _ R)|].
    destruct (m !! id) as [[st ts]|] eqn:Em; [|by apply (rep_none _ _ R)]. exfalso. specialize (E _ eq_refl). cbn in E.
    destruct (rep_session _ _ R _ _ _ Em) as (s & _ & _ & _ & _ & Ht).
    unfold timers in Ht. rewrite Eq in Ht. apply abs_iff in Ht as (x & Hx & Hk & Hv); [|done]. injection Hv as -> Hc.
    apply Hin in Hx as [Hx|Hx]; [|specialize (Hrem _ Hx); lia]. apply Hn. rewrite Hc. apply list_elem_of_fmap. by exists x.
  - intros k ts cb E. apply abs_iff in E as (x & Hx & <- & Hv); [|done]. injection Hv as -> ->.
    destruct (Hcb x) as (id & st & Hc & Hk & Hm); [apply Hin; by right|]. exists id, st. do 2 (split; [done|]).
    apply map_lookup_filter_Some. split; [done|]. cbn. specialize (Hrem _ Hx). lia.
  - by intros ? [= <-].
Qed.

End sessions.
Arguments t : clear implicits.
End Sessions.

Import Sessions.

(** C14: The sessions with their timers are a map of identifiers to a status and
    a deadline.  A request whose cookie names a session that is not destroyed
    gets that session, whose deadline moves to now plus the lifetime; any other
    gets a new one with a name of sixteen random characters and its own timer;
    and an expiry of the timer removes exactly the sessions whose deadline has
    come.  The name must not share its timer key with a live session, and the
    clock must not go back. *)
Theorem session_store_refines {any} (session_lifetime : Z) (after_id : bytes) (clock : TimeStamp.t) (mono : Z * Z)
    (w : Sessions.t any) (m : gmap bytes (HttpSession.Status * TimeStamp.t)) :
  represents session_lifetime w m -> (0 <= session_lifetime <= 2147)%Z ->
  (forall cookies fresh, 16 <= length (rand_ w) ->
     fresh = bs "SESSIONID_" ++ EncodeUtil.genRandromStr (take 16 (rand_ w)) ->
     (forall id, is_Some (m !! id) -> timer_key id <> timer_key fresh) ->
     (forall id st ts, m !! id = Some (st, ts) ->
        (TimeStamp.microsecond_ ts <= TimeStamp.microsecond_ (deadline session_lifetime clock))%Z) ->
     exists w', associateSession session_lifetime after_id clock mono cookies w
         = Ok ((spec_associate session_lifetime clock cookies fresh m).1, w')
       /\ represents session_lifetime w' (spec_associate session_lifetime clock cookies fresh m).2)
  /\ exists w', handleTimeout clock w = Ok w' /\ represents session_lifetime w' (spec_expire clock m).
Proof.
  intros R Hl. split; [|by apply expire_represents].
  intros cookies fresh Hr Ef Hf Hd.
  assert (session_name after_id (take 16 (rand_ w)) = fresh) as En by (by rewrite Ef, session_name_eq by (rewrite length_take; lia)).
  pose proof (associate_represents session_lifetime after_id clock mono cookies w m R Hl Hr) as H.
  rewrite En in H. specialize (H Hf Hd). by destruct (spec_associate session_lifetime clock cookies fresh m) as [x m'].
Qed.

Lemma session_store_refines_witness :
  exists w', associateSession 10 [] (TimeStamp.Make 5) (0, 0)%Z ∅ (Make (any := unit) ∅ None (replicate 16 10))
      = Ok (bs "SESSIONID_aaaaaaaaaaaaaaaa", w')
    /\ represents 10 w' {[bs "SESSIONID_aaaaaaaaaaaaaaaa" := (HttpSession.New, TimeStamp.Make 10000005)]}.
Proof.
  destruct (session_store_refines 10 [] (TimeStamp.Make 5) (0, 0)%Z (Make (any := unit) ∅ None (replicate 16 10)) ∅
    (represents_empty 10 _) ltac:(lia)) as [H _].
  destruct (H ∅ (bs "SESSIONID_aaaaaaaaaaaaaaaa")) as (w' & E & R); [simpl; lia|reflexivity| | |].
  - intros id [e He]. rewrite lookup_empty in He. discriminate He.
  - intros id st ts He. rewrite lookup_empty in He. discriminate He.
  - exists w'. split; [exact E|exact R].
Defined.

(** A session lifetime of more than 2147 seconds is not a lifetime: its
    microseconds overflow an int, and the first request for a session has
    undefined behaviour. *)
Theorem long_session_lifetime_undefined {any} (session_lifetime : Z) (after_id : bytes) (clock : TimeStamp.t) (mono : Z * Z)
    (w : Sessions.t any) (cookies : HttpMap.t bytes) :
  (2147 < session_lifetime)%Z -> find_session cookies w = None -> 16 <= length (rand_ w) ->
  associateSession session_lifetime after_id clock mono cookies w = Err Undefined.
Proof.
  intros Hl Hn Hr. unfold associateSession. rewrite Hn. unfold createSession. rewrite (proj2 (Nat.ltb_ge _ _)) by done.
  set (x := session_name _ _). cbn [sessions_]. unfold HttpMap.add. rewrite lookup_insert_eq. cbn [of_option].
  unfold HttpSession.getMaxInactiveInterval, HttpSession.new, TimeStamp.second. cbn [HttpSession.interval_].
  assert (int_checked (session_lifetime * 1000000) = Err Undefined) as ->; [|done].
  unfold int_checked. rewrite (proj2 (Z.leb_gt (session_lifetime * 1000000) INT_MAX)) by (unfold INT_MAX; lia).
  by rewrite andb_false_r.
Qed.

Lemma long_session_lifetime_undefined_witness :
  associateSession 3600 [] (TimeStamp.Make 5) (0, 0)%Z ∅ (Make (any := unit) ∅ None (replicate 16 10)) = Err Undefined.
Proof. apply (long_session_lifetime_undefined (any := unit) 3600); [lia|reflexivity|simpl; lia]. Defined.
