(* ===== verification/SessionThreads.v ===== *)
(** * SessionThreads: the sessions, shared by the threads of the pool and the loop

    [HttpSession] takes [associateSession] and an expiry of the session timer as
    one step each.  Here they are cut where the code takes and releases its
    locks and where it reads or writes what no lock protects
    ([soc/http/src/HttpServer.cc], [TcpServer::createSessionTimer],
    [TimerQueue::handleTimeout], [TimerHeap.h]): the pointer of the timer queue,
    the clock, and the timer that [top] returns a reference to, which the loop
    copies when the heap is not locked.  The workers interleave with the loop, and
    a session is an object with an address, alive while a [shared_ptr] holds it.
    An access to an object or a queue that was freed is a fault, and so is a write
    to the timer that the loop is copying. *)
From S2P Require Import Prelude CStr TimeStamp TimerHeap TimerQueue EncodeUtil HttpMap HttpSession.

Module SessionThreads.
Import HttpSession Sessions.

Section threads.
Context {any : Type} (session_lifetime : Z) (after_id : bytes).

(** ** The state *)
(** Addresses are not used again. *)
Abbreviation addr := nat.

(** Where a worker is, with its pointer: in [associateSession] with the
    [shared_ptr] it found, in [associateSession] with the session it creates,
    on its way from the pointer of the queue to its heap with a timer to [add] or
    to adjust, of which it reads the key, the interval and the clock one after the
    other, or in its request with the pointer that [getSession] returned, and at its
    end, when the session was seen to be new, about to ask for its name. *)
Inductive worker :=
  | Idle
  | Found (a : addr) | Access (a : addr)
  | Creating
  | Timing (a : addr) | Checking (a : addr) (ts : TimeStamp.t) | Making (a : addr) (ts : TimeStamp.t)
  | Starting (a : addr) (ts : TimeStamp.t) | Registering (a : addr)
  | Arm (add : bool) (a : addr) | Key (add : bool) (a : addr) (n : nat) | Interval (add : bool) (a : addr) (n : nat) (key : Z)
  | Clock (add : bool) (a : addr) (n : nat) (key interval : Z) | Heap (add : bool) (a : addr) (n : nat) (timer : Timer addr)
  | Using (a : addr) | Naming (a : addr).

(** Where the loop is in [TimerQueue::handleTimeout], of the queue [n]: about to
    read the clock, to call [empty] or [top], to copy the timer that [top]
    returned and compare it, to call it, or to call [pop]. *)
Inductive loop :=
  | Polling
  | Reading (n : nat)
  | Testing (n : nat) (now : TimeStamp.t)
  | Topping (n : nat) (now : TimeStamp.t)
  | Copying (n : nat) (now : TimeStamp.t)
  | Calling (n : nat) (now : TimeStamp.t) (expired : Timer addr)
  | Popping (n : nat) (now : TimeStamp.t).

(** The queue that [session_timer_] points to has a number: making another one
    destroys it. *)
Record t := Make {
  objects : gmap addr (HttpSession.t any); next : addr;
  sessions_ : HttpMap.t addr; session_timer_ : option (nat * TimerQueue.t addr);
  clock_ : TimeStamp.t; loop_ : loop; workers : list worker }.

Definition new (clock : TimeStamp.t) (threads : nat) : t :=
  Make ∅ 0 ∅ None clock Polling (replicate threads Idle).

Definition set_objects o s := Make o (next s) (sessions_ s) (session_timer_ s) (clock_ s) (loop_ s) (workers s).
Definition set_sessions m s := Make (objects s) (next s) m (session_timer_ s) (clock_ s) (loop_ s) (workers s).
Definition set_timer q s := Make (objects s) (next s) (sessions_ s) q (clock_ s) (loop_ s) (workers s).
Definition set_loop l s := Make (objects s) (next s) (sessions_ s) (session_timer_ s) (clock_ s) l (workers s).
Definition set_workers ws s := Make (objects s) (next s) (sessions_ s) (session_timer_ s) (clock_ s) (loop_ s) ws.

(** ** Objects *)
(** The pointer of a worker, and whether it is a [shared_ptr]. *)
Definition pointer (w : worker) : option addr :=
  match w with
  | Idle | Creating => None
  | Found a | Access a | Timing a | Checking a _ | Making a _ | Starting a _ | Registering a
  | Arm _ a | Key _ a _ | Interval _ a _ _ | Clock _ a _ _ _ | Heap _ a _ _ | Using a | Naming a => Some a
  end.
Definition holds (w : worker) : bool :=
  match w with
  | Found _ | Access _ => true
  | Arm add _ | Key add _ _ | Interval add _ _ _ | Clock add _ _ _ _ | Heap add _ _ _ => negb add
  | _ => false
  end.

Definition referenced (s : t) (a : addr) : Prop :=
  Exists (fun e => e.2 = a) (map_to_list (sessions_ s)) \/ Exists (fun w => holds w = true /\ pointer w = Some a) (workers s).
#[export] Instance referenced_dec s a : Decision (referenced s a).
Proof. unfold referenced. apply _. Defined.

(** The last [shared_ptr] frees the object. *)
Definition collect (s : t) : t := set_objects (filter (fun e => referenced s e.1) (objects s)) s.

Definition deref (a : addr) (s : t) : result (HttpSession.t any) := of_option Undefined (objects s !! a).
Definition store (a : addr) (o : HttpSession.t any) (s : t) : t := set_objects (<[a := o]> (objects s)) s.
Definition goto (i : nat) (w : worker) (s : t) : t := collect (set_workers (<[i := w]> (workers s)) s).

(** ** A worker *)
(** [getSession], up to the lookup of the session that the cookie names. *)
Definition request (i : nat) (cookies : HttpMap.t bytes) (s : t) : t :=
  match HttpMap.get (bs "SESSIONID") cookies with
  | Some x => match HttpMap.get x (sessions_ s) with Some a => goto i (Found a) s | None => goto i Creating s end
  | None => goto i Creating s
  end.

(** The queue [n]: it is gone when another one was made. *)
Definition queue (n : nat) (s : t) : result (TimerQueue.t addr) :=
  match session_timer_ s with
  | Some (m, q) => if m =? n then Ok q else Err Undefined
  | None => Err Undefined
  end.

(** Whether what a worker does to the heap of the queue [n] can meet the copy
    that the loop makes of its first timer: [push] can move all timers to other
    memory, and [adjust] writes the timer it finds. *)
Definition races (add : bool) (n : nat) (key : Z) (s : t) : bool :=
  match loop_ s with
  | Copying m _ =>
      (m =? n) && (add || match session_timer_ s with
                          | Some (_, q) => bool_decide (TimerHeap.fds_ (TimerQueue.timer_heap_ q) !! key = Some 0)
                          | None => false
                          end)
  | _ => false
  end.

(** The next step of [associateSession], or of the end of the request; [r] is what
    [rand()] returns, [mono] the clock that [runEvery] reads.  The arguments of
    [Timer] are taken from left to right.  [Registering] reads the pointer of the
    queue to give its descriptor to the poller, which is not part of this state. *)
Definition work (i : nat) (r : list nat) (mono : Z * Z) (w : worker) (s : t) : result t :=
  match w with
  | Idle | Using _ => Ok s
  | Found a =>
      let* o := deref a s in
      Ok (goto i (if isDestroy o then Creating else Access a) s)
  | Access a =>
      let* o := deref a s in
      Ok (goto i (Arm false a) (store a (setStatus Accessed o) s))
  | Creating =>
      let id := session_name after_id r in
      let a := next s in
      Ok (goto i (Timing a)
        (Make (<[a := HttpSession.new id session_lifetime]> (objects s)) (S a) (HttpMap.add id a (sessions_ s))
          (session_timer_ s) (clock_ s) (loop_ s) (workers s)))
  | Timing a =>
      let* o := deref a s in
      let* ts := TimeStamp.second (getMaxInactiveInterval o) in
      Ok (goto i (Checking a ts) s)
  | Checking a ts =>
      Ok (goto i (match session_timer_ s with None => Making a ts | Some _ => Registering a end) s)
  | Making a ts =>
      let n := match session_timer_ s with None => 0 | Some (n, _) => S n end in
      Ok (goto i (Starting a ts) (set_timer (Some (n, TimerQueue.new)) s))
  | Starting a ts =>
      let* (n, q) := of_option Undefined (session_timer_ s) in
      Ok (goto i (Registering a) (set_timer (Some (n, TimerQueue.runEvery mono.1 mono.2 ts q)) s))
  | Registering a =>
      let* _ := of_option Undefined (session_timer_ s) in
      Ok (goto i (Arm true a) s)
  | Arm add a =>
      let* (n, _) := of_option Undefined (session_timer_ s) in
      Ok (goto i (Key add a n) s)
  | Key add a n =>
      let* o := deref a s in
      Ok (goto i (Interval add a n (timer_key (getId o))) s)
  | Interval add a n key =>
      let* o := deref a s in
      Ok (goto i (Clock add a n key (getMaxInactiveInterval o)) s)
  | Clock add a n key interval =>
      let* ts := TimeStamp.nowSecond (clock_ s) interval in
      Ok (goto i (Heap add a n (mkTimer key ts (if add then Some a else None))) s)
  | Heap add a n timer =>
      let* q := queue n s in
      if races add n (fd timer) s then Err Undefined
      else
        let* q := (if add then TimerQueue.add timer q else TimerQueue.adjust timer q) in
        Ok (goto i (Using a) (set_timer (Some (n, q)) s))
  | Naming a =>
      let* _ := deref a s in
      Ok (goto i Idle s)
  end.

(** What a service does with the pointer it got. *)
Inductive method := SetValue (key : bytes) (value : any) | Invalidate | GetId.
Definition call (f : method) (o : HttpSession.t any) : HttpSession.t any :=
  match f with SetValue k v => setValue k v o | Invalidate => invalidate o | GetId => o end.
Definition service (f : method) (w : worker) (s : t) : result t :=
  match w with Using a => let* o := deref a s in Ok (store a (call f o) s) | _ => Ok s end.

(** The end of the request: [associateRequestSession] asks whether the session
    is new, and if it is, puts its name into the cookie. *)
Definition finish (i : nat) (w : worker) (s : t) : result t :=
  match w with
  | Using a =>
      let* o := deref a s in
      Ok (goto i (if isNew o then Naming a else Idle) s)
  | _ => Ok s
  end.

(** ** The loop *)
(** The session timer is reported, and [handleTimeout] of its queue is called. *)
Definition expire (s : t) : t :=
  match loop_ s, session_timer_ s with
  | Polling, Some (n, _) => set_loop (Reading n) s
  | _, _ => s
  end.

(** The next step of [handleTimeout].  [top] returns a reference, which is
    copied when its lock is released; what the loop does with the copy is its
    own. *)
Definition handle (s : t) : result t :=
  match loop_ s with
  | Polling => Ok s
  | Reading n =>
      let* _ := queue n s in
      Ok (set_loop (Testing n (clock_ s)) s)
  | Testing n now =>
      let* q := queue n s in
      Ok (set_loop (if TimerHeap.empty (TimerQueue.timer_heap_ q) then Polling else Topping n now) s)
  | Topping n now =>
      let* q := queue n s in
      let* _ := TimerHeap.top (TimerQueue.timer_heap_ q) in
      Ok (set_loop (Copying n now) s)
  | Copying n now =>
      let* q := queue n s in
      let* expired := of_option Undefined (TimerHeap.c_ (TimerQueue.timer_heap_ q) !! 0) in
      Ok (set_loop (if TimeStamp.leb (timestamp expired) now then Calling n now expired else Polling) s)
  | Calling n now expired =>
      let* a := of_option BadFunctionCall (callback expired) in
      let* o := deref a s in
      Ok (collect (set_loop (Popping n now) (set_sessions (HttpMap.remove (getId o) (sessions_ s)) s)))
  | Popping n now =>
      let* q := queue n s in
      let* h := TimerHeap.pop (TimerQueue.timer_heap_ q) in
      Ok (set_loop (Testing n now) (set_timer (Some (n, TimerQueue.Make (TimerQueue.tmfd_ q) h)) s))
  end.

(** ** Runs *)
Inductive command :=
  | Tick (us : Z)
  | Request (i : nat) (cookies : HttpMap.t bytes)
  | Work (i : nat) (r : list nat) (mono : Z * Z)
  | Call (i : nat) (f : method)
  | Finish (i : nat)
  | Expire
  | Loop.

Definition exec (c : command) (s : t) : result t :=
  match c with
  | Tick us => Ok (Make (objects s) (next s) (sessions_ s) (session_timer_ s)
                     (TimeStamp.Make (TimeStamp.microsecond_ (clock_ s) + us)) (loop_ s) (workers s))
  | Request i cookies =>
      match workers s !! i with
      | Some Idle | Some (Using _) => Ok (request i cookies s)
      | _ => Ok s
      end
  | Work i r mono => match workers s !! i with Some w => work i r mono w s | None => Ok s end
  | Call i f => match workers s !! i with Some w => service f w s | None => Ok s end
  | Finish i => match workers s !! i with Some w => finish i w s | None => Ok s end
  | Expire => Ok (expire s)
  | Loop => handle s
  end.

Fixpoint exec_all (cs : list command) (s : t) : result t :=
  match cs with
  | [] => Ok s
  | c :: cs => let* s := exec c s in exec_all cs s
  end.

(** ** Calm runs *)
Definition building (w : worker) : bool :=
  match w with
  | Timing _ | Checking _ _ | Making _ _ | Starting _ _ | Registering _ => true
  | Arm add _ | Key add _ _ | Interval add _ _ _ | Clock add _ _ _ _ | Heap add _ _ _ => add
  | _ => false
  end.
Definition making (w : worker) : bool := match w with Making _ _ => true | _ => false end.

(** No worker has the session whose timer fires, none has the session that
    another one is creating, and at most one makes the timer queue. *)
Definition unused (s : t) : Prop :=
  match loop_ s with
  | Calling _ _ x => Forall (fun w => pointer w = None \/ pointer w <> callback x) (workers s)
  | _ => True
  end.
Definition private (s : t) : Prop :=
  Forall (fun w => building w = true -> length (filter (fun w' => pointer w' = pointer w) (workers s)) <= 1) (workers s).
Definition one_maker (s : t) : Prop := length (filter (fun w => making w = true) (workers s)) <= 1.
Definition calm (s : t) : Prop := unused s /\ private s /\ one_maker s.
#[export] Instance calm_dec s : Decision (calm s).
Proof. unfold calm, unused, private, one_maker. destruct (loop_ s); apply _. Defined.

Definition queued (s : t) : gmap Z (TimeStamp.t * option addr) :=
  match session_timer_ s with Some (_, q) => TimerHeap.abs (TimerQueue.timer_heap_ q) | None => ∅ end.

(** The clock does not go back, and a new name has a key of its own.  A worker
    does not write what the loop is copying; the clock that a worker has read is
    not so old that the time of its new session has come, or that a later one has
    been applied to the session before. *)
Definition fresh (id : bytes) (s : t) : Prop :=
  queued s !! timer_key id = None /\ map_Forall (fun id' _ => timer_key id' <> timer_key id) (sessions_ s).
Definition timely (add : bool) (x : Timer addr) (s : t) : Prop :=
  if add then (TimeStamp.microsecond_ (clock_ s) < TimeStamp.microsecond_ (timestamp x))%Z
  else match queued s !! fd x with
       | Some (ts, _) => (TimeStamp.microsecond_ ts <= TimeStamp.microsecond_ (timestamp x))%Z
       | None => True
       end.
Definition allowed (c : command) (s : t) : Prop :=
  match c with
  | Tick us => (0 <= us)%Z /\ (TimeStamp.microsecond_ (clock_ s) + us < 2 ^ 63)%Z
  | Work i r _ =>
      match workers s !! i with
      | Some Creating => fresh (session_name after_id r) s
      | Some (Heap add _ n x) => races add n (fd x) s = false /\ timely add x s
      | _ => True
      end
  | _ => True
  end.
#[export] Instance timely_dec add x s : Decision (timely add x s).
Proof. unfold timely. destruct add; [apply _|]. destruct (queued s !! fd x) as [[]|]; apply _. Defined.
#[export] Instance allowed_dec c s : Decision (allowed c s).
Proof. unfold allowed, fresh. destruct c; try apply _. destruct (workers s !! i) as [[]|]; apply _. Defined.


Fixpoint calm_run (cs : list command) (s : t) : option t :=
  match cs with
  | [] => Some s
  | c :: cs =>
      if decide (allowed c s) then
        match exec c s with
        | Ok s' => if decide (calm s') then calm_run cs s' else None
        | Err _ => None
        end
      else None
  end.


(** ** The invariant *)
Implicit Types (s : t) (w : worker) (a : addr) (id : bytes).
Notation "# x" := (TimeStamp.microsecond_ x) (at level 5, format "# x").

























(** *** Every command *)
Context (Hlife : (0 < session_lifetime <= 2147)%Z).























End threads.
Arguments t : clear implicits.
End SessionThreads.
Import SessionThreads.


(** Two workers: the first one creates a session and uses it, the second one
    comes back with its name, and both end; then the time of the session comes
    and the loop removes it. *)
Notation demo_id := (bs "SESSIONID_aaaaaaaaaaaaaaaa").
Notation demo_id' := (bs "SESSIONID_bbbbbbbbbbbbbbbb").
Notation demo_start := (new (any := unit) (TimeStamp.Make 0) 2).
Definition demo_cookie (id : bytes) : HttpMap.t bytes := {[bs "SESSIONID" := id]}.
Definition demo_work (i rand : nat) : command (any := unit) := Work i (replicate 16 rand) (0, 0)%Z.
Definition demo_works (i rand n : nat) : list (command (any := unit)) := replicate n (demo_work i rand).
Definition demo_loop (n : nat) : list (command (any := unit)) := replicate n Loop.
(** A request without a cookie up to the test of the queue's pointer; then to the
    heap, if it makes the queue and if it finds it; and the push. *)
Definition demo_create (i rand : nat) : list (command (any := unit)) := Request i ∅ :: demo_works i rand 3.
Definition demo_first (i rand : nat) : list (command (any := unit)) := demo_create i rand ++ demo_works i rand 8 ++ [Finish i; demo_work i rand].
Definition demo_next (i rand : nat) : list (command (any := unit)) := demo_create i rand ++ demo_works i rand 5.
(** A request with the cookie up to the heap. *)
Definition demo_find (i : nat) (id : bytes) : list (command (any := unit)) := Request i (demo_cookie id) :: demo_works i 0 6.




(** The session expires while the second worker has found it. *)
Definition demo_freed : list (command (any := unit)) :=
  demo_first 0 10 ++ [Tick 10000000; Request 1 (demo_cookie demo_id); Expire] ++ demo_loop 5 ++ demo_works 1 11 7.
(** The second worker moves the timer of the first session between [top] and
    [pop] of the loop, while the second session is in the queue. *)
Definition demo_wrong_pop : list (command (any := unit)) :=
  demo_first 0 10 ++ [Tick 5] ++ demo_next 0 11 ++ [demo_work 0 11; Finish 0; demo_work 0 11; Tick 9999998] ++ demo_find 1 demo_id ++ [Expire]
  ++ demo_loop 4 ++ [demo_work 1 10; Finish 1] ++ demo_loop 2.
(** The first two requests for a session both find that there is no queue. *)
Definition demo_two_queues : list (command (any := unit)) :=
  demo_create 0 10 ++ demo_create 1 11 ++ demo_works 0 10 8 ++ [Finish 0; demo_work 0 10] ++ demo_works 1 11 8 ++ [Finish 1; demo_work 1 11].
(** The first worker invalidates the session that the second one is looking at. *)
Definition demo_revived : list (command (any := unit)) :=
  demo_first 0 10 ++ demo_find 0 demo_id ++
  [demo_work 0 10; Request 1 (demo_cookie demo_id); demo_work 1 11; Call 0 Invalidate; demo_work 1 11].
(** The loop is about to copy the first timer; the first worker is about to push
    the timer of a new session, or to adjust the one that is copied. *)
Definition demo_copying : list (command (any := unit)) := [Expire] ++ demo_loop 3.
Definition demo_push_race : list (command (any := unit)) := demo_first 0 10 ++ demo_next 0 11 ++ demo_copying.
Definition demo_adjust_race : list (command (any := unit)) := demo_first 0 10 ++ demo_find 0 demo_id ++ demo_copying.
(** The first worker finds the first session and reads the clock, at one second;
    the second worker enters another session half a second later, finds the first
    one at two seconds and is done before the first worker goes on. *)
Definition demo_old_clock : list (command (any := unit)) :=
  demo_first 0 10 ++ [Tick 1000000] ++ demo_find 0 demo_id ++ [Tick 500000] ++ demo_next 1 11 ++ [demo_work 1 11; Finish 1; demo_work 1 11; Tick 500000]
  ++ demo_find 1 demo_id ++ [demo_work 1 10].

(** C39: Without calm the sessions are not safe.  A session whose
    time comes while a worker has found it is freed although [getSession] returns
    it: its use by the request, and the end of every such request, is an access to
    freed memory.  A session that is accessed between [top] and [pop] of the
    expiry loop makes [pop] remove the timer of another one, which then never
    expires, and leaves a timer of a freed session, which makes the loop itself
    access freed memory a lifetime later.  And two first requests make two
    queues, and the timer in the first one is lost with it.  And in a calm run, a
    session that a request invalidates while another one, which has seen it valid,
    is about to mark it as accessed is valid again.  The loop copies the timer that
    [top] returned when the heap is unlocked: a push of another session's timer, or
    an adjustment of that timer, can meet the copy.  And the worker that has read
    the older clock can be the last to adjust: the deadline of the session goes
    back, behind a later one of the heap, and the loop misses the session when its
    time has come. *)
Theorem session_races :
  (exists s, exec_all 10 [] demo_freed demo_start = Ok s
     /\ workers s !! 1 = Some (Using 0) /\ objects s !! 0 = None
     /\ (forall f, exec 10 [] (Call 1 f) s = Err Undefined) /\ exec 10 [] (Finish 1) s = Err Undefined)
  /\ (exists s, exec_all 10 [] demo_wrong_pop demo_start = Ok s
     /\ SessionThreads.sessions_ s !! demo_id' = Some 1 /\ queued s !! Sessions.timer_key demo_id' = None
     /\ objects s !! 0 = None /\ snd <$> queued s !! Sessions.timer_key demo_id = Some (Some 0)
     /\ exec_all 10 [] (demo_loop 3 ++ [Tick 10000000; Expire] ++ demo_loop 5) s = Err Undefined)
  /\ (exists s, exec_all 10 [] demo_two_queues demo_start = Ok s
     /\ workers s = [Idle; Idle] /\ SessionThreads.sessions_ s !! demo_id = Some 0
     /\ queued s !! Sessions.timer_key demo_id = None)
  /\ (exists s, calm_run 10 [] demo_revived demo_start = Some s
     /\ HttpSession.status_ <$> objects s !! 0 = Some HttpSession.Accessed)
  /\ (exists s, exec_all 10 [] demo_push_race demo_start = Ok s
     /\ loop_ s = Copying 0 (TimeStamp.Make 0) /\ exec 10 [] (demo_work 0 11) s = Err Undefined)
  /\ (exists s, exec_all 10 [] demo_adjust_race demo_start = Ok s
     /\ loop_ s = Copying 0 (TimeStamp.Make 0) /\ exec 10 [] (demo_work 0 10) s = Err Undefined)
  /\ (exists s s', exec_all 10 [] demo_old_clock demo_start = Ok s /\ exec 10 [] (demo_work 0 10) s = Ok s'
     /\ queued s !! Sessions.timer_key demo_id = Some (TimeStamp.Make 12000000, Some 0)
     /\ queued s' !! Sessions.timer_key demo_id = Some (TimeStamp.Make 11000000, Some 0)
     /\ exists s2, exec_all 10 [] ([Tick 9200000; Expire] ++ demo_loop 4) s' = Ok s2
          /\ clock_ s2 = TimeStamp.Make 11200000 /\ loop_ s2 = Polling /\ SessionThreads.sessions_ s2 !! demo_id = Some 0).
Proof.
  do 6 (split; [eexists; split; [vm_compute; reflexivity|]; repeat split; try (intros f); vm_compute; reflexivity|]).
  eexists _, _. split; [vm_compute; reflexivity|]. split; [vm_compute; reflexivity|]. do 2 (split; [vm_compute; reflexivity|]).
  eexists. split; [vm_compute; reflexivity|]. repeat split; vm_compute; reflexivity.
Qed.
