(* ===== verification/SessionRefine.v ===== *)
(** * SessionRefine: the shared sessions implement the store

    The abstract store of [HttpSession] maps the name of a session to its status
    and its deadline.  Here every step of a calm run of [SessionThreads] is shown
    to be nothing, or one small change of that store, and the atomic operations of
    [HttpSession] to be sequences of these changes. *)
From S2P Require Import Prelude CStr TimeStamp TimerHeap TimerQueue EncodeUtil HttpMap HttpSession SessionThreads.

Module SessionRefine.
Import HttpSession Sessions SessionThreads.

Section refine.
Context {any : Type} (session_lifetime : Z) (after_id : bytes).
Context (Hlife : (0 < session_lifetime <= 2147)%Z).
Abbreviation store := (gmap bytes (Status * TimeStamp.t)).
Implicit Types (s : SessionThreads.t any) (m : store) (id : bytes) (a : nat) (w : worker).


(** One change of the store.  A deadline is that of a clock which was read
    before: it moves forward, to at most a lifetime from now. *)
Notation "# x" := (TimeStamp.microsecond_ x) (at level 5, format "# x").






























End refine.
End SessionRefine.
Import SessionThreads SessionRefine.



