(* ===== verification/TcpServer.v ===== *)
(** * TcpServer: the poller, the connections and the workers

    Models [soc/net/include/EPoller.h], [soc/net/src/EPoller.cc],
    [soc/net/include/TcpServer.h] and [soc/net/src/TcpServer.cc].  The event
    loop, the timers and the accepted connections run in one thread; the tasks
    [onRead] and [onWrite] run in the threads of the pool.  [step] interleaves
    them: a worker takes a task, and finishes it later.  Here the events arrive
    one at a time; [EventLoop] adds the batches of [epoll_wait]. *)
From S2P Require Import Prelude CStr Buffer TimeStamp TimerHeap TimerQueue Channel.
Local Open Scope Z_scope.

(** ** [EPoller] *)
Module EPoller.

Definition EPOLLIN : Z := 0x1.
Definition EPOLLOUT : Z := 0x4.
Definition EPOLLERR : Z := 0x8.
Definition EPOLLHUP : Z := 0x10.
Definition EPOLLRDHUP : Z := 0x2000.
Definition EPOLLONESHOT : Z := 0x40000000.
Definition EPOLLET : Z := 0x80000000.

Definition kServerEvent : Z := EPOLLRDHUP.
Definition kConnectionEvent : Z := Z.lor EPOLLET (Z.lor EPOLLONESHOT EPOLLRDHUP).

(** The kernel's interest list: the events asked for, and whether the entry is
    armed.  [epoll_ctl] fails on an entry that exists ([ADD]) or does not
    ([MOD], [DEL]); its result is not looked at. *)
Record interest := Interest { events : Z; armed : bool }.
Definition t := gmap Z interest.

Definition addEvent (fd event : Z) (p : t) : t :=
  match p !! fd with Some _ => p | None => <[fd := Interest event true]> p end.
Definition updateEvent (fd event : Z) (p : t) : t :=
  match p !! fd with None => p | Some _ => <[fd := Interest event true]> p end.
Definition removeEvent (fd : Z) (p : t) : t := delete fd p.
(** The descriptor is closed too, which the kernel sees. *)
Definition removeAndCloseEvent (fd : Z) (p : t) : t := removeEvent fd p.

(** Reporting an event disarms a one-shot entry. *)
Definition report (fd : Z) (p : t) : t :=
  match p !! fd with
  | Some i => if Z.land (events i) EPOLLONESHOT =? 0 then p else <[fd := Interest (events i) false]> p
  | None => p
  end.

Lemma lookup_remove fd fd' p : removeEvent fd p !! fd' = if decide (fd = fd') then None else p !! fd'.
Proof.
  destruct (decide (fd = fd')) as [->|]; [by apply lookup_delete_eq|by apply lookup_delete_ne].
Qed.

Lemma lookup_add fd ev fd' p :
  addEvent fd ev p !! fd' = if decide (fd = fd' /\ p !! fd = None) then Some (Interest ev true) else p !! fd'.
Proof.
  unfold addEvent. destruct (p !! fd) as [i|] eqn:E.
  - rewrite decide_False by (by intros [_ ?]). done.
  - destruct (decide (fd = fd')) as [<-|].
    + rewrite decide_True by done. by apply lookup_insert_eq.
    + rewrite decide_False by (by intros [? _]). by apply lookup_insert_ne.
Qed.

Lemma lookup_update fd ev fd' p :
  updateEvent fd ev p !! fd' = if decide (fd = fd' /\ is_Some (p !! fd)) then Some (Interest ev true) else p !! fd'.
Proof.
  unfold updateEvent. destruct (p !! fd) as [i|] eqn:E.
  - destruct (decide (fd = fd')) as [<-|].
    + rewrite decide_True by done. by apply lookup_insert_eq.
    + rewrite decide_False by (by intros [? _]). by apply lookup_insert_ne.
  - rewrite decide_False by (by intros [_ [? ?]]). done.
Qed.

Lemma lookup_report_ne fd fd' p : fd <> fd' -> report fd p !! fd' = p !! fd'.
Proof.
  intros. unfold report. destruct (p !! fd) as [i|]; [|done]. destruct (_ =? 0); [done|]. by apply lookup_insert_ne.
Qed.

Lemma lookup_report_one_shot fd i p :
  p !! fd = Some i -> Z.land (events i) EPOLLONESHOT <> 0 -> report fd p !! fd = Some (Interest (events i) false).
Proof.
  intros E H. unfold report. rewrite E. apply Z.eqb_neq in H. rewrite H. by apply lookup_insert_eq.
Qed.

Inductive dispatched := CloseCb | ReadCb | WriteCb | NoCb.

(** The body of [poll]'s loop: which callback an event goes to. *)
Definition dispatch (revents : Z) : dispatched :=
  if negb (Z.land revents (Z.lor EPOLLERR (Z.lor EPOLLRDHUP EPOLLHUP)) =? 0) then CloseCb
  else if negb (Z.land revents EPOLLIN =? 0) then ReadCb
  else if negb (Z.land revents EPOLLOUT =? 0) then WriteCb
  else NoCb.

End EPoller.

(** ** The server *)
Module TcpServer.
Import EPoller.

Inductive task := OnRead (fd : Z) | OnWrite (fd : Z).
#[export] Instance task_eq_dec : EqDecision task.
Proof. solve_decision. Defined.
Definition task_fd (x : task) : Z := match x with OnRead fd | OnWrite fd => fd end.

(** [TcpConnection]; [context_] is the request being parsed. *)
Record conn (Ctx : Type) := Conn {
  disconnected_ : bool; keep_alive_ : bool; context_ : option Ctx; channel_ : option (Channel.t Buffer.t) }.
Arguments Conn {Ctx}. Arguments disconnected_ {Ctx}. Arguments keep_alive_ {Ctx}.
Arguments context_ {Ctx}. Arguments channel_ {Ctx}.

(** [owner_] is the state behind the callbacks, and [session_timer_] whether
    the session timer was created; [session_fd] is the descriptor it gets.  The
    last line: the queue of the thread pool, the tasks its workers are in, the
    connections [closed_cb_] was called for, and what the system calls put on
    the wire of which descriptor. *)
Record t (Ctx W : Type) := Make {
  quit_ : bool; evfd_ : Z; svr_fd : Z; alive_fd : Z; session_fd : Z; idle_timeout_ : Z; sendfile_ : bool;
  poller_ : EPoller.t; alive_timer_ : TimerQueue.t Z; session_timer_ : bool; conns_ : gmap Z (conn Ctx); owner_ : W;
  tasks_ : list task; running_ : list task; closed_ : list Z; wire_ : list (Z * bytes) }.
Arguments Make {Ctx W}. Arguments quit_ {Ctx W}. Arguments evfd_ {Ctx W}. Arguments svr_fd {Ctx W}.
Arguments alive_fd {Ctx W}. Arguments session_fd {Ctx W}. Arguments idle_timeout_ {Ctx W}.
Arguments sendfile_ {Ctx W}. Arguments poller_ {Ctx W}. Arguments alive_timer_ {Ctx W}.
Arguments session_timer_ {Ctx W}. Arguments conns_ {Ctx W}. Arguments owner_ {Ctx W}. Arguments tasks_ {Ctx W}.
Arguments running_ {Ctx W}. Arguments closed_ {Ctx W}. Arguments wire_ {Ctx W}.

(** What the owner of the server gives to it: the message callback, whether
    the owner has asked for the session timer, and the expiry of that timer. *)
Record callbacks (Ctx W : Type) := Callbacks {
  msg_cb : conn Ctx -> W -> result (bool * conn Ctx * W);
  asked_timer : W -> bool;
  session_timeout : TimeStamp.t -> W -> result W }.
Arguments Callbacks {Ctx W}. Arguments msg_cb {Ctx W}. Arguments asked_timer {Ctx W}. Arguments session_timeout {Ctx W}.

Section server.
Context {Ctx W : Type}.
Implicit Types (s : t Ctx W) (c : conn Ctx).

(** [conns_[fd]] inserts a default connection. *)
Definition default_conn : conn Ctx := Conn false false None None.
Definition conn_at (fd : Z) s : conn Ctx := default default_conn (conns_ s !! fd).

Definition set_poller (p : EPoller.t) s : t Ctx W :=
  Make (quit_ s) (evfd_ s) (svr_fd s) (alive_fd s) (session_fd s) (idle_timeout_ s) (sendfile_ s) p
    (alive_timer_ s) (session_timer_ s) (conns_ s) (owner_ s) (tasks_ s) (running_ s) (closed_ s) (wire_ s).
Definition set_timer (q : TimerQueue.t Z) s : t Ctx W :=
  Make (quit_ s) (evfd_ s) (svr_fd s) (alive_fd s) (session_fd s) (idle_timeout_ s) (sendfile_ s) (poller_ s) q
    (session_timer_ s) (conns_ s) (owner_ s) (tasks_ s) (running_ s) (closed_ s) (wire_ s).
Definition set_conn (fd : Z) c s : t Ctx W :=
  Make (quit_ s) (evfd_ s) (svr_fd s) (alive_fd s) (session_fd s) (idle_timeout_ s) (sendfile_ s) (poller_ s)
    (alive_timer_ s) (session_timer_ s) (<[fd := c]> (conns_ s)) (owner_ s) (tasks_ s) (running_ s) (closed_ s)
    (wire_ s).
Definition set_work (ts rs : list task) s : t Ctx W :=
  Make (quit_ s) (evfd_ s) (svr_fd s) (alive_fd s) (session_fd s) (idle_timeout_ s) (sendfile_ s) (poller_ s)
    (alive_timer_ s) (session_timer_ s) (conns_ s) (owner_ s) ts rs (closed_ s) (wire_ s).
Definition set_quit s : t Ctx W :=
  Make true (evfd_ s) (svr_fd s) (alive_fd s) (session_fd s) (idle_timeout_ s) (sendfile_ s) (poller_ s)
    (alive_timer_ s) (session_timer_ s) (conns_ s) (owner_ s) (tasks_ s) (running_ s) (closed_ s) (wire_ s).
Definition add_closed (fd : Z) s : t Ctx W :=
  Make (quit_ s) (evfd_ s) (svr_fd s) (alive_fd s) (session_fd s) (idle_timeout_ s) (sendfile_ s) (poller_ s)
    (alive_timer_ s) (session_timer_ s) (conns_ s) (owner_ s) (tasks_ s) (running_ s) (closed_ s ++ [fd]) (wire_ s).
Definition set_owner (w : W) s : t Ctx W :=
  Make (quit_ s) (evfd_ s) (svr_fd s) (alive_fd s) (session_fd s) (idle_timeout_ s) (sendfile_ s) (poller_ s)
    (alive_timer_ s) (session_timer_ s) (conns_ s) w (tasks_ s) (running_ s) (closed_ s) (wire_ s).
Definition add_wire (fd : Z) (b : bytes) s : t Ctx W :=
  Make (quit_ s) (evfd_ s) (svr_fd s) (alive_fd s) (session_fd s) (idle_timeout_ s) (sendfile_ s) (poller_ s)
    (alive_timer_ s) (session_timer_ s) (conns_ s) (owner_ s) (tasks_ s) (running_ s) (closed_ s)
    (wire_ s ++ [(fd, b)]).
Definition set_session_timer s : t Ctx W :=
  Make (quit_ s) (evfd_ s) (svr_fd s) (alive_fd s) (session_fd s) (idle_timeout_ s) (sendfile_ s) (poller_ s)
    (alive_timer_ s) true (conns_ s) (owner_ s) (tasks_ s) (running_ s) (closed_ s) (wire_ s).

(** [ThreadPool::add], while the pool runs. *)
Definition pool_add (x : task) s : t Ctx W := set_work (tasks_ s ++ [x]) (running_ s) s.

(** *** The handlers of the event loop; [clock] is what [now()] reads *)
Definition handleConnected (clock : TimeStamp.t) (connfd : Z) (channel : Channel.t Buffer.t) s : result (t Ctx W) :=
  let s := set_conn connfd (Conn false false None (Some channel)) s in
  let s := set_poller (addEvent connfd (Z.lor EPOLLIN kConnectionEvent) (poller_ s)) s in
  let* ts := TimeStamp.nowMsecond clock (idle_timeout_ s) in
  let* q := TimerQueue.add (mkTimer connfd ts (Some connfd)) (alive_timer_ s) in
  Ok (set_timer q s).

Definition handleConnectionClose (fd : Z) s : t Ctx W :=
  let c := conn_at fd s in
  let s := set_conn fd c s in
  if disconnected_ c || match channel_ c with None => true | Some _ => false end then s
  else
    let s := set_conn fd (Conn true (keep_alive_ c) (context_ c) (channel_ c)) s in
    let s := add_closed fd s in
    let s := set_poller (removeEvent fd (poller_ s)) s in
    set_conn fd (Conn true (keep_alive_ c) (context_ c) None) s.

Definition handleConnectionWork (x : task) (clock : TimeStamp.t) s : result (t Ctx W) :=
  let fd := task_fd x in
  let c := conn_at fd s in
  let s := set_conn fd c s in
  if disconnected_ c || match channel_ c with None => true | Some _ => false end then Ok s
  else
    let* ts := TimeStamp.nowMsecond clock (idle_timeout_ s) in
    let* q := TimerQueue.adjust (mkTimer fd ts None) (alive_timer_ s) in
    Ok (pool_add x (set_timer q s)).

Definition handleConnectionRead (fd : Z) := handleConnectionWork (OnRead fd).
Definition handleConnectionWrite (fd : Z) := handleConnectionWork (OnWrite fd).

Definition handleWakeup s : t Ctx W := set_quit s.

(** The alive timer: its callbacks close connections.  The queue is updated
    by the loop, so the callbacks act on the rest of the server. *)
Definition aliveTimeout (clock : TimeStamp.t) s : result (t Ctx W) :=
  let* (q, s) := TimerQueue.handleTimeout handleConnectionClose clock (alive_timer_ s) s in
  Ok (set_timer q s).

Context (cb : callbacks Ctx W).

(** The session timer's callbacks concern the owner. *)
Definition sessionTimeout (clock : TimeStamp.t) s : result (t Ctx W) :=
  let* w := session_timeout cb clock (owner_ s) in Ok (set_owner w s).

Definition handleTimeout (fd : Z) (clock : TimeStamp.t) s : result (t Ctx W) :=
  if alive_fd s =? fd then aliveTimeout clock s
  else if session_timer_ s && (session_fd s =? fd) then sessionTimeout clock s
  else Ok s.

(** [handleRead] of a descriptor that is not the server socket, whose accept
    is a step of its own. *)
Definition handleRead (fd : Z) (clock : TimeStamp.t) s : result (t Ctx W) :=
  if fd =? evfd_ s then Ok (handleWakeup s)
  else if (fd =? alive_fd s) || (session_timer_ s && (fd =? session_fd s)) then handleTimeout fd clock s
  else handleConnectionRead fd clock s.
Definition handleWrite (fd : Z) (clock : TimeStamp.t) s : result (t Ctx W) := handleConnectionWrite fd clock s.
Definition handleClose (fd : Z) s : t Ctx W := handleConnectionClose fd s.

(** One event of [poll]. *)
Definition handleEvent (fd revents : Z) (clock : TimeStamp.t) s : result (t Ctx W) :=
  let s := set_poller (report fd (poller_ s)) s in
  match dispatch revents with
  | CloseCb => Ok (handleClose fd s)
  | ReadCb => handleRead fd clock s
  | WriteCb => handleWrite fd clock s
  | NoCb => Ok s
  end.

(** *** The tasks of the workers *)
(** [createSessionTimer], which the owner calls inside [msg_cb_]: the timer is
    made once, and [addEvent] fails on an entry that exists. *)
Definition createSessionTimer s : t Ctx W := set_poller (addEvent (session_fd s) EPOLLIN (poller_ s)) (set_session_timer s).
(** What is left of a callback: the state of the owner, and its timer. *)
Definition called (w : W) s : t Ctx W :=
  let s := set_owner w s in if asked_timer cb w then createSessionTimer s else s.

Definition rearm (fd event : Z) s : t Ctx W := set_poller (updateEvent fd (Z.lor event kConnectionEvent) (poller_ s)) s.

Definition onRead (chunks : list bytes) (n err : Z) (fd : Z) s : result (t Ctx W) :=
  let c := conn_at fd s in
  let* ch := of_option Undefined (channel_ c) in
  let* (ch, n, again) := TcpConnection.readAgain chunks n err ch in
  let c := Conn (disconnected_ c) (keep_alive_ c) (context_ c) (Some ch) in
  let s := set_conn fd c s in
  if (n <=? 0) && negb again then Ok (handleConnectionClose fd s)
  else if (Buffer.readable (Channel.recver_ ch) =? 0)%nat then Ok (rearm fd EPOLLIN s)
  else
    let* (done, c, w) := msg_cb cb c (owner_ s) in
    let s := set_conn fd c (called w s) in
    Ok (rearm fd (if done then EPOLLOUT else EPOLLIN) s).

(** [again] is the error code that [writeAgain] returns second. *)
Definition onWrite (ns : list Z) (err : Z) (fd : Z) s : result (t Ctx W) :=
  let c := conn_at fd s in
  let* ch := of_option Undefined (channel_ c) in
  let* (ch, n, again, cflag, wire) := TcpConnection.writeAgain Buffer.reset ns err ch in
  let c := Conn (disconnected_ c) (keep_alive_ c) (context_ c) (Some ch) in
  let s := set_conn fd c (add_wire fd wire s) in
  if (n =? 0) && keep_alive_ c then Ok (rearm fd (if cflag then EPOLLIN else EPOLLOUT) s)
  else if (n <? 0) && negb (again =? 0) then Ok (rearm fd EPOLLOUT s)
  else Ok (handleConnectionClose fd s).

(** ** Interleaving *)

(** A worker's environment: what its system calls return. *)
Record outcome := Outcome { o_chunks : list bytes; o_writes : list Z; o_n : Z; o_err : Z }.

Definition run_task (x : task) (o : outcome) s : result (t Ctx W) :=
  match x with
  | OnRead fd => onRead (o_chunks o) (o_n o) (o_err o) fd s
  | OnWrite fd => onWrite (o_writes o) (o_err o) fd s
  end.

(** The descriptor numbers of the server itself: the kernel gives them to no
    connection. *)
Definition reserved s (fd : Z) : Prop := fd = evfd_ s \/ fd = svr_fd s \/ fd = alive_fd s \/ fd = session_fd s.
(** A descriptor is open while a channel owns it. *)
Definition is_open s (fd : Z) : Prop := is_Some (channel_ (conn_at fd s)).

(** The connections a timer expiry closes: the callbacks it calls. *)
Definition closes (clock : TimeStamp.t) s : list Z :=
  match TimerQueue.handleTimeout (fun fd l => l ++ [fd]) clock (alive_timer_ s) [] with
  | Ok (_, l) => l
  | Err _ => []
  end.

(** Everything but the expiry of the alive timer.  An event that is reported is
    an error, a hang-up or one of those asked for, which are input or output. *)
Inductive act s : t Ctx W -> Prop :=
  | act_accept clock fd ch s' :
      ~ reserved s fd -> ~ is_open s fd ->
      handleConnected clock fd ch s = Ok s' -> act s s'
  | act_event clock fd revents i s' :
      ~ reserved s fd -> dispatch revents <> NoCb -> poller_ s !! fd = Some i -> armed i = true ->
      handleEvent fd revents clock s = Ok s' -> act s s'
  | act_session clock s' : session_timer_ s = true -> sessionTimeout clock s = Ok s' -> act s s'
  | act_take x ts : tasks_ s = x :: ts -> act s (set_work ts (running_ s ++ [x]) s)
  | act_finish x rs1 rs2 o s' :
      running_ s = rs1 ++ x :: rs2 -> run_task x o (set_work (tasks_ s) (rs1 ++ rs2) s) = Ok s' -> act s s'.

(** The work on a connection: queued or in a worker. *)
Definition work s (fd : Z) : list task := filter (fun x => task_fd x = fd) (tasks_ s ++ running_ s).

Inductive step s : t Ctx W -> Prop :=
  | step_act s' : act s s' -> step s s'
  | step_timeout clock s' : aliveTimeout clock s = Ok s' -> step s s'.

(** A timeout that closes no connection that is being worked on. *)
Inductive calm_step s : t Ctx W -> Prop :=
  | calm_act s' : act s s' -> calm_step s s'
  | calm_timeout clock s' :
      Forall (fun fd => work s fd = []) (closes clock s) -> aliveTimeout clock s = Ok s' -> calm_step s s'.

(** ** The invariant *)
Definition one_shot (i : interest) : Prop := Z.land (events i) EPOLLONESHOT <> 0.

(** Of a descriptor that is not the server's own: an open connection is
    registered, and what is registered is open, one-shot and connected. *)
Definition conn_reg s (fd : Z) : Prop :=
  (is_open s fd -> is_Some (poller_ s !! fd))
  /\ (forall i, poller_ s !! fd = Some i -> is_open s fd /\ one_shot i)
  /\ (is_open s fd -> disconnected_ (conn_at fd s) = false).

(** If there is work on it then there is one piece of work and its entry is
    disarmed; and if there is none then its entry is armed. *)
Definition conn_inv s (fd : Z) : Prop :=
  conn_reg s fd
  /\ (work s fd <> [] -> length (work s fd) = 1%nat /\ exists i, poller_ s !! fd = Some i /\ armed i = false)
  /\ (is_open s fd -> work s fd = [] -> exists i, poller_ s !! fd = Some i /\ armed i = true).

(** The session timer is not registered before it exists. *)
Definition timer_inv s : Prop := session_timer_ s = true \/ poller_ s !! session_fd s = None.

Definition inv s : Prop :=
  (forall fd, ~ reserved s fd -> conn_inv s fd) /\ (forall fd, reserved s fd -> work s fd = []) /\ timer_inv s.

(** ** The destructor *)
(** What the destructor leaves in the interest list; the connections are visited
    in the order of [l], a listing of the table. *)
Definition destroy (l : list (Z * conn Ctx)) s : EPoller.t :=
  let p := removeAndCloseEvent (evfd_ s) (poller_ s) in
  let p := removeAndCloseEvent (svr_fd s) p in
  let p := removeAndCloseEvent (alive_fd s) p in
  let p := if session_timer_ s then removeAndCloseEvent (session_fd s) p else p in
  foldl (fun p e => if disconnected_ e.2 then p else removeEvent e.1 p) p l.

(** ** Frame lemmas: a handler touches one connection *)
Lemma conn_at_set fd c fd' s : conn_at fd' (set_conn fd c s) = if decide (fd = fd') then c else conn_at fd' s.
Proof.
  unfold conn_at. simpl. destruct (decide (fd = fd')) as [->|].
  - by rewrite lookup_insert_eq.
  - by rewrite lookup_insert_ne.
Qed.

Lemma conn_at_set_poller p fd s : conn_at fd (set_poller p s) = conn_at fd s.
Proof. done. Qed.
Lemma conn_at_add_closed fd' fd s : conn_at fd (add_closed fd' s) = conn_at fd s.
Proof. done. Qed.

(** [same fd s s'] : nothing that concerns [fd] differs. *)
Definition same (fd : Z) s s' : Prop :=
  conn_at fd s' = conn_at fd s /\ poller_ s' !! fd = poller_ s !! fd /\ work s' fd ≡ₚ work s fd.

Lemma same_inv fd s s' : same fd s s' -> conn_inv s fd -> conn_inv s' fd.
Proof.
  intros (Hc & Hp & Hw) (H1 & H2 & H3). unfold conn_inv, conn_reg, is_open in *.
  rewrite Hc, Hp, (Permutation_length Hw). split; [done|].
  assert (work s' fd = [] <-> work s fd = []) as Hnil.
  { split; intros E; rewrite E in Hw; [by symmetry; apply Permutation_nil_l|by apply Permutation_nil_r]. }
  rewrite Hnil. done.
Qed.

Lemma same_trans fd s1 s2 s3 : same fd s1 s2 -> same fd s2 s3 -> same fd s1 s3.
Proof. intros (?&?&?) (?&?&Hw). repeat split; [congruence..|]. by rewrite Hw. Qed.

(** The server's own descriptors, and whether the session timer exists. *)
Definition own s : Z * Z * Z * Z * bool := (evfd_ s, svr_fd s, alive_fd s, session_fd s, session_timer_ s).

Lemma reserved_own s s' fd : own s' = own s -> reserved s' fd <-> reserved s fd.
Proof. unfold own, reserved. intros [= -> -> -> ->]. done. Qed.

Lemma close_same fd fd' s : fd <> fd' -> same fd' s (handleConnectionClose fd s).
Proof.
  intros Hne. unfold handleConnectionClose. set (s0 := set_conn fd (conn_at fd s) s).
  assert (same fd' s s0) as H0 by (unfold same, s0; rewrite conn_at_set, decide_False by done; done).
  destruct (_ || _); [done|]. split; [|split; [|done]].
  - rewrite conn_at_set, decide_False, conn_at_set_poller, conn_at_add_closed, conn_at_set, decide_False by done.
    apply H0.
  - cbn. by rewrite lookup_remove, decide_False.
Qed.

Lemma close_own fd s : own (handleConnectionClose fd s) = own s.
Proof. unfold handleConnectionClose. by destruct (_ || _). Qed.

Lemma close_timer fd s : timer_inv s -> timer_inv (handleConnectionClose fd s).
Proof.
  unfold timer_inv, handleConnectionClose. destruct (_ || _); [done|]. intros [H|H]; [by left|right]. cbn.
  rewrite lookup_remove. by case_decide.
Qed.

Lemma close_work fd s fd' : work (handleConnectionClose fd s) fd' = work s fd'.
Proof. unfold handleConnectionClose. by destruct (_ || _). Qed.

Lemma close_closed fd s :
  disconnected_ (conn_at fd s) = false -> is_open s fd ->
  channel_ (conn_at fd (handleConnectionClose fd s)) = None /\ poller_ (handleConnectionClose fd s) !! fd = None.
Proof.
  intros Hd [ch Hc]. unfold handleConnectionClose. rewrite Hd, Hc. cbn [orb]. rewrite conn_at_set, decide_True by done.
  split; [done|]. cbn. by rewrite lookup_remove, decide_True.
Qed.

(** After a close the connection is neither open nor registered. *)
Lemma close_inv fd s :
  conn_reg s fd -> work s fd = [] -> conn_inv (handleConnectionClose fd s) fd.
Proof.
  intros (H1 & H2 & H3) Hw.
  unfold conn_inv, conn_reg. rewrite close_work, Hw. unfold handleConnectionClose.
  destruct (conn_at fd s) as [d k x ch] eqn:E. cbn [disconnected_ channel_ keep_alive_ context_].
  unfold is_open in *. rewrite E in *. cbn [disconnected_ channel_] in *.
  destruct (d || match ch with None => true | Some _ => false end) eqn:Eg.
  - rewrite !conn_at_set, !decide_True by done. cbn. split; [done|]. split; [done|].
    intros [ch' ->]. rewrite H3 in Eg by by eexists. done.
  - rewrite !conn_at_set, !decide_True by done. cbn. rewrite lookup_remove, decide_True by done.
    split; [split; [by intros [? ?]|]; split; [done|by intros [? ?]]|]. split; [done|by intros [? ?]].
Qed.

Lemma closes_inv fds s :
  inv s -> Forall (fun fd => work s fd = []) fds -> inv (foldl (fun s fd => handleConnectionClose fd s) s fds).
Proof.
  revert s. induction fds as [|fd fds IH]; intros s (Hi & Hr & Ht) Hf; [done|].
  apply Forall_cons in Hf as [Hw Hf]. simpl. apply IH.
  - split; [|split].
    + intros fd' Hn. rewrite reserved_own in Hn by apply close_own.
      destruct (decide (fd = fd')) as [->|Hne]; [apply close_inv; [by apply Hi|done]|].
      eapply same_inv; [by apply close_same|by apply Hi].
    + intros fd' Hres. rewrite reserved_own in Hres by apply close_own. rewrite close_work. by apply Hr.
    + by apply close_timer.
  - eapply Forall_impl; [exact Hf|]. intros fd' H. by rewrite close_work.
Qed.

(** What the expiry loop does is to call the callbacks that [closes] lists. *)
Lemma timeoutLoop_log {C V} (call : C -> V -> V) fuel now (h : TimerHeap.t C) (w : V) l :
  match TimerQueue.timeoutLoop (fun x l => l ++ [x]) fuel now h l with
  | Ok (h', l') => exists k, l' = l ++ k /\
      TimerQueue.timeoutLoop call fuel now h w = Ok (h', foldl (fun w x => call x w) w k)
  | Err e => TimerQueue.timeoutLoop call fuel now h w = Err e
  end.
Proof.
  revert h w l. induction fuel as [|fuel IH]; intros h w l; [done|]. cbn [TimerQueue.timeoutLoop].
  destruct (TimerHeap.empty h); [by exists []; rewrite app_nil_r|].
  destruct (TimerHeap.top h) as [x|]; [|done].
  destruct (TimeStamp.leb (timestamp x) now); [|by exists []; rewrite app_nil_r].
  destruct (callback x) as [f|]; [|done]. cbn [of_option].
  destruct (TimerHeap.pop h) as [h'|]; [|done].
  specialize (IH h' (call f w) (l ++ [f])).
  destruct (TimerQueue.timeoutLoop _ fuel now h' (l ++ [f])) as [[h2 l2]|]; [|done].
  destruct IH as (k & -> & E). exists (f :: k). split; [by rewrite <- app_assoc|done].
Qed.

Lemma aliveTimeout_closes clock s s' :
  aliveTimeout clock s = Ok s' ->
  exists q, s' = set_timer q (foldl (fun s fd => handleConnectionClose fd s) s (closes clock s)).
Proof.
  unfold aliveTimeout, closes, TimerQueue.handleTimeout.
  set (h := TimerQueue.timer_heap_ (alive_timer_ s)). set (f := (1 + TimerHeap.size h)%nat).
  pose proof (timeoutLoop_log handleConnectionClose f clock h s []) as H.
  destruct (TimerQueue.timeoutLoop (fun x l => l ++ [x]) f clock h []) as [[h' l]|].
  - destruct H as (k & -> & ->). intros [= <-]. by eexists.
  - rewrite H. done.
Qed.

(** *** Each action preserves the invariant *)
Lemma inv_at fd s s' :
  own s' = own s -> inv s -> (forall fd', fd <> fd' -> same fd' s s') ->
  (~ reserved s fd -> conn_inv s' fd) -> ~ reserved s fd -> inv s'.
Proof.
  intros Ho (Hi & Hr & Ht) Hs Hc Hn. split; [|split].
  - intros fd' H. rewrite (reserved_own _ _ _ Ho) in H.
    destruct (decide (fd = fd')) as [<-|Hne]; [by apply Hc|]. eapply same_inv; [by apply Hs|by apply Hi].
  - intros fd' H. rewrite (reserved_own _ _ _ Ho) in H. destruct (decide (fd = fd')) as [<-|Hne]; [done|].
    destruct (Hs _ Hne) as (_ & _ & Hp). rewrite (Hr _ H) in Hp. by apply Permutation_nil_r.
  - unfold timer_inv in *. injection Ho as _ _ _ -> ->. destruct Ht as [Ht|Ht]; [by left|right].
    destruct (Hs (session_fd s)) as (_ & -> & _); [|done]. intros E. apply Hn. unfold reserved. tauto.
Qed.

Lemma work_app_ne fd x l : task_fd x <> fd -> filter (fun x => task_fd x = fd) (l ++ [x]) = filter (fun x => task_fd x = fd) l.
Proof. intros. rewrite filter_app, filter_cons_False by done. by rewrite app_nil_r. Qed.

Lemma no_work fd s : conn_inv s fd -> poller_ s !! fd = None -> work s fd = [].
Proof.
  intros (_ & H & _) E. destruct (work s fd); [done|].
  destruct H as (_ & i & Hi & _); [done|congruence].
Qed.

Lemma armed_no_work fd i s : conn_inv s fd -> poller_ s !! fd = Some i -> armed i = true -> work s fd = [].
Proof.
  intros (_ & H & _) E Ha. destruct (work s fd); [done|].
  destruct H as (_ & i' & Hi & Ha'); [done|congruence].
Qed.

Lemma connection_event_one_shot ev b : one_shot (Interest (Z.lor ev kConnectionEvent) b).
Proof.
  unfold one_shot. simpl. intros H. apply (f_equal (fun z => Z.testbit z 30)) in H. revert H.
  rewrite Z.land_spec, Z.lor_spec. change (Z.testbit kConnectionEvent 30) with true.
  change (Z.testbit EPOLLONESHOT 30) with true. by rewrite orb_true_r, Z.bits_0.
Qed.

Lemma accept_inv clock fd ch s s' :
  ~ reserved s fd -> ~ is_open s fd -> inv s -> handleConnected clock fd ch s = Ok s' -> inv s'.
Proof.
  intros Hn Ho Hinv. pose proof Hinv as (Hi & _). specialize (Hi fd Hn). pose proof Hi as ((_ & H2 & _) & _ & _).
  assert (poller_ s !! fd = None) as E.
  { destruct (poller_ s !! fd) eqn:E; [|done]. by destruct (H2 _ eq_refl). }
  unfold handleConnected. destruct (TimeStamp.nowMsecond _ _) as [ts|]; [|done].
  destruct (TimerQueue.add _ _) as [q|]; [|done]. intros [= <-].
  apply (inv_at fd s); [done|done|..|done].
  - intros fd' Hne. split; [unfold conn_at; simpl; by rewrite lookup_insert_ne|].
    split; [|done]. cbn. rewrite lookup_add, decide_False by (by intros [? _]). done.
  - intros _. unfold conn_inv, conn_reg, is_open.
    assert (forall p q', conn_at fd (set_timer q' (set_poller p (set_conn fd (Conn false false None (Some ch)) s)))
      = Conn false false None (Some ch)) as Hc by (intros; unfold conn_at; simpl; by rewrite lookup_insert_eq).
    rewrite Hc. cbn. rewrite lookup_add, decide_True by done.
    split; [split; [by eexists|split; [|done]]|split; [|by eexists]].
    + intros i [= <-]. split; [by eexists|apply connection_event_one_shot].
    + intros H. destruct H. by apply no_work.
Qed.

(** What an event of a connection does: it closes it, queues a task for it, or
    nothing; its entry is disarmed. *)
Lemma report_inv fd i s :
  conn_inv s fd -> poller_ s !! fd = Some i -> armed i = true ->
  let s1 := set_poller (report fd (poller_ s)) s in
  conn_reg s1 fd /\ work s1 fd = [] /\ poller_ s1 !! fd = Some (Interest (events i) false).
Proof.
  intros Hc E Ha s1. pose proof (armed_no_work _ _ _ Hc E Ha) as Hw. destruct Hc as ((H1 & H2 & H3) & _).
  destruct (H2 _ E) as [Ho H1s].
  assert (poller_ s1 !! fd = Some (Interest (events i) false)) as Ep by by apply lookup_report_one_shot.
  split; [|done]. unfold conn_reg. rewrite Ep. split; [by eexists|]. split; [by intros j [= <-]|done].
Qed.

Lemma handleConnectionWork_inv x clock s s' :
  let fd := task_fd x in
  conn_reg s fd -> work s fd = [] -> (exists i, poller_ s !! fd = Some i /\ armed i = false) ->
  handleConnectionWork x clock s = Ok s' ->
  own s' = own s /\ conn_inv s' fd /\ (forall fd', fd <> fd' -> same fd' s s').
Proof.
  intros fd (H1 & H2 & H3) Hw (i & E & Ha). destruct (H2 _ E) as [[ch Ech] Hone]. pose proof (H3 ltac:(by eexists)) as Hd.
  unfold handleConnectionWork. fold fd. rewrite Ech, Hd. cbn [orb].
  destruct (TimeStamp.nowMsecond _ _) as [ts|]; [|done].
  destruct (TimerQueue.adjust _ _) as [q|]; [|done]. intros [= <-].
  assert (forall fd', conn_at fd' (pool_add x (set_timer q (set_conn fd (conn_at fd s) s))) = conn_at fd' s) as Hc.
  { intros fd'. transitivity (conn_at fd' (set_conn fd (conn_at fd s) s)); [done|].
    rewrite conn_at_set. by destruct (decide (fd = fd')) as [<-|]. }
  split; [done|]. split.
  - assert (work (pool_add x (set_timer q (set_conn fd (conn_at fd s) s))) fd = [x]) as Hw'.
    { unfold work in *. cbn. rewrite !filter_app in *.
      apply app_eq_nil in Hw as [-> ->]. rewrite filter_cons_True by done. done. }
    unfold conn_inv, conn_reg, is_open. rewrite Hc, Ech, Hw'. cbn.
    split; [split; [by eexists|]; split; [|done]|split; [|done]].
    + intros j Ej. split; [by eexists|]. by destruct (H2 _ Ej).
    + intros _. split; [done|by exists i].
  - intros fd' Hne. split; [apply Hc|]. split; [done|]. unfold work. cbn. rewrite !filter_app.
    rewrite filter_cons_False by done. by rewrite app_nil_r.
Qed.

(** The input of a connection. *)
Lemma connection_read fd clock s : ~ reserved s fd -> handleRead fd clock s = handleConnectionRead fd clock s.
Proof.
  unfold reserved, handleRead. intros Hn. rewrite !(proj2 (Z.eqb_neq fd _)) by tauto. by rewrite andb_false_r.
Qed.

Lemma event_inv fd revents i clock s s' :
  ~ reserved s fd -> dispatch revents <> NoCb -> poller_ s !! fd = Some i -> armed i = true -> inv s ->
  handleEvent fd revents clock s = Ok s' -> inv s'.
Proof.
  intros Hn Hd E Ha Hinv. pose proof Hinv as [Hi _]. specialize (Hi fd Hn).
  destruct (report_inv fd i s Hi E Ha) as (Hc1 & Hw1 & E1).
  set (s1 := set_poller (report fd (poller_ s)) s) in *.
  assert (forall fd', fd <> fd' -> same fd' s s1) as Hs1.
  { intros fd' Hne. split; [done|]. split; [by apply lookup_report_ne|done]. }
  unfold handleEvent. fold s1.
  assert (forall x s2, task_fd x = fd -> handleConnectionWork x clock s1 = Ok s2 -> inv s2) as Hwork.
  { intros x s2 <- H. apply handleConnectionWork_inv in H as (Ho & Hc & Hs); [|done|done|by eexists].
    apply (inv_at (task_fd x) s); [done|done|..|done|done].
    intros fd' Hne. eapply same_trans; [by apply Hs1|by apply Hs]. }
  destruct (dispatch revents).
  - intros [= <-]. apply (inv_at fd s); [by rewrite close_own|done|..].
    + intros fd' Hne. eapply same_trans; [by apply Hs1|by apply close_same].
    + intros _. by apply close_inv.
    + done.
  - rewrite connection_read by done. by apply Hwork.
  - by apply Hwork.
  - done.
Qed.

Lemma take_inv x ts s : tasks_ s = x :: ts -> inv s -> inv (set_work ts (running_ s ++ [x]) s).
Proof.
  intros E (Hi & Hr & Ht). set (s' := set_work _ _ _).
  assert (forall fd, work s' fd ≡ₚ work s fd) as Hp.
  { intros fd. apply filter_Permutation. cbn. rewrite E. simpl. by rewrite app_assoc, Permutation_app_comm. }
  split; [|split; [|done]].
  - intros fd Hn. by apply (same_inv fd s); [|apply Hi].
  - intros fd H. specialize (Hp fd). rewrite (Hr fd H) in Hp. by apply Permutation_nil_r.
Qed.

(** *** The tasks *)
(** The callback of the HTTP server neither closes the connection nor marks it. *)
Definition keeps_open : Prop := forall c w d c' w',
  msg_cb cb c w = Ok (d, c', w') -> disconnected_ c' = disconnected_ c /\ (is_Some (channel_ c) -> is_Some (channel_ c')).

(** What a task leaves besides its connection: the state of the owner, with its
    timer, or what went on the wire. *)
Inductive left_behind s : t Ctx W -> Prop :=
  | left_nothing : left_behind s s
  | left_called w : left_behind s (called w s)
  | left_wire fd b : left_behind s (add_wire fd b s).

(** A task replaces its own open connection by an open one, and then closes it
    or arms its entry. *)
Definition task_result (fd : Z) s s' : Prop := exists s1 c,
  left_behind s s1 /\ disconnected_ c = disconnected_ (conn_at fd s) /\ is_Some (channel_ c)
  /\ (s' = handleConnectionClose fd (set_conn fd c s1) \/ exists ev, s' = rearm fd ev (set_conn fd c s1)).

Lemma set_conn_twice fd c c' s : set_conn fd c (set_conn fd c' s) = set_conn fd c s.
Proof. unfold set_conn. simpl. by rewrite insert_insert_eq. Qed.

Lemma called_set_conn w fd c s : called w (set_conn fd c s) = set_conn fd c (called w s).
Proof. unfold called. by destruct (asked_timer cb w). Qed.

Lemma run_task_result x o s s' : keeps_open -> run_task x o s = Ok s' -> task_result (task_fd x) s s'.
Proof.
  intros Hk. destruct x as [fd|fd]; simpl.
  - unfold onRead. destruct (channel_ (conn_at fd s)) as [ch|]; [|done]. cbn [of_option].
    destruct (TcpConnection.readAgain _ _ _ _) as [[[ch' n] again]|]; [|done].
    set (c := Conn _ _ _ _).
    destruct (_ && _); [intros [= <-]; exists s, c; split; [constructor|]; split; [done|]; split; [by eexists|by left]|].
    destruct (_ =? 0)%nat; [intros [= <-]; exists s, c; split; [constructor|]; split; [done|]; split; [by eexists|right; by eexists]|].
    destruct (msg_cb cb c _) as [[[d c'] w]|] eqn:E; [|done]. intros [= <-]. apply Hk in E as [E1 E2].
    exists (called w s), c'. split; [constructor|]. split; [done|]. split; [apply E2; by eexists|]. right. eexists.
    by rewrite called_set_conn, set_conn_twice.
  - unfold onWrite. destruct (channel_ (conn_at fd s)) as [ch|]; [|done]. cbn [of_option].
    destruct (TcpConnection.writeAgain _ _ _ _) as [[[[[ch' n] again] cflag] wire]|]; [|done].
    set (c := Conn _ _ _ _). intros H. exists (add_wire fd wire s), c. split; [constructor|]. split; [done|].
    split; [by eexists|]. revert H.
    destruct (_ && _); [intros [= <-]; right; by eexists|].
    destruct (_ && _); intros [= <-]; [right; by eexists|by left].
Qed.

(** It concerns no connection. *)
Lemma called_frame w s :
  (reserved s = reserved (called w s)) /\ conns_ (called w s) = conns_ s /\ tasks_ (called w s) = tasks_ s
  /\ running_ (called w s) = running_ s
  /\ forall fd, fd <> session_fd s -> poller_ (called w s) !! fd = poller_ s !! fd.
Proof.
  unfold called. destruct (asked_timer cb w); [|done]. do 4 (split; [done|]). intros fd Hne. cbn.
  rewrite lookup_add, decide_False by (intros [? _]; congruence). done.
Qed.

Lemma left_behind_inv s s1 : left_behind s s1 -> inv s -> inv s1.
Proof.
  intros [|w|fd b] Hinv; [done| |done]. destruct Hinv as (Hi & Hr & Ht). destruct (called_frame w s) as (Hres & Hc & Ht1 & Hr1 & Hp).
  assert (forall fd, work (called w s) fd = work s fd) as Hw by (intros; unfold work; by rewrite Ht1, Hr1).
  split; [|split].
  - intros fd Hn. rewrite <- Hres in Hn. apply (same_inv fd s); [|by apply Hi]. split; [unfold conn_at; by rewrite Hc|].
    split; [|by rewrite Hw]. apply Hp. intros ->. apply Hn. unfold reserved. tauto.
  - intros fd H. rewrite <- Hres in H. rewrite Hw. by apply Hr.
  - unfold called. destruct (asked_timer cb w); [by left|done].
Qed.

Lemma task_result_inv fd c s s' :
  conn_reg s fd -> is_open s fd -> work s fd = [] ->
  disconnected_ c = disconnected_ (conn_at fd s) -> is_Some (channel_ c) ->
  (s' = handleConnectionClose fd (set_conn fd c s) \/ exists ev, s' = rearm fd ev (set_conn fd c s)) ->
  own s' = own s /\ conn_inv s' fd /\ (forall fd', fd <> fd' -> same fd' s s') /\ work s' fd = [].
Proof.
  intros (H1 & H2 & H3) Ho Hw Hd Hc Hs. rewrite (H3 Ho) in Hd.
  assert (forall fd', fd <> fd' -> same fd' s (set_conn fd c s)) as Hsame.
  { intros fd' Hne. split; [by rewrite conn_at_set, decide_False|done]. }
  assert (conn_reg (set_conn fd c s) fd) as Hci.
  { unfold conn_reg, is_open. rewrite conn_at_set, decide_True by done. split; [by intros _; apply H1|].
    split; [intros i Hi; split; [done|by eapply H2]|done]. }
  destruct Hs as [->|[ev ->]].
  - split; [by rewrite close_own|]. split; [by apply close_inv|]. split; [|by rewrite close_work].
    intros fd' Hne. eapply same_trans; [by apply Hsame|by apply close_same].
  - split; [done|]. split; [|split; [|done]].
    + destruct Hci as (G1 & G2 & G3).
      assert (is_open (set_conn fd c s) fd) as Ho' by (unfold is_open; by rewrite conn_at_set, decide_True).
      assert (poller_ (rearm fd ev (set_conn fd c s)) !! fd = Some (Interest (Z.lor ev kConnectionEvent) true)) as E.
      { cbn. rewrite lookup_update, decide_True; [done|]. split; [done|]. by apply H1. }
      unfold conn_inv, conn_reg. rewrite E. split; [split; [by eexists|split; [|done]]|split; [|by eexists]].
      * intros i [= <-]. split; [done|apply connection_event_one_shot].
      * rewrite (eq_refl : work (rearm fd ev (set_conn fd c s)) fd = work s fd), Hw. done.
    + intros fd' Hne. eapply same_trans; [by apply Hsame|]. split; [done|]. split; [|done].
      cbn. rewrite lookup_update, decide_False by (by intros [? _]). done.
Qed.

Lemma work_mid x rs1 rs2 s fd :
  running_ s = rs1 ++ x :: rs2 ->
  work s fd ≡ₚ filter (fun x => task_fd x = fd) [x] ++ work (set_work (tasks_ s) (rs1 ++ rs2) s) fd.
Proof.
  intros E. unfold work. cbn. rewrite E, !filter_app. rewrite (filter_app _ [x] rs2 : filter _ (x :: rs2) = _).
  solve_Permutation.
Qed.

(** The connection of a task that is being run is open. *)
Lemma running_open x rs1 rs2 s :
  inv s -> running_ s = rs1 ++ x :: rs2 ->
  let s1 := set_work (tasks_ s) (rs1 ++ rs2) s in
  ~ reserved s (task_fd x) /\ is_open s (task_fd x) /\ work s1 (task_fd x) = [] /\ conn_reg s1 (task_fd x).
Proof.
  intros (Hi & Hr & _) E s1. pose proof (work_mid x rs1 rs2 s (task_fd x) E) as Hw. fold s1 in Hw.
  rewrite filter_cons_True in Hw by done. simpl in Hw.
  assert (~ reserved s (task_fd x)) as Hn.
  { intros Hres. rewrite (Hr _ Hres) in Hw. by apply Permutation_nil_cons in Hw. }
  destruct (Hi _ Hn) as ((H1 & H2 & H3) & H4 & _).
  destruct H4 as (Hl & i & Hp & _); [intros Hnil; rewrite Hnil in Hw; by apply Permutation_nil_cons in Hw|].
  destruct (H2 _ Hp) as [Ho _].
  assert (work s1 (task_fd x) = []) as Hw1.
  { apply nil_length_inv. apply Permutation_length in Hw. cbn [length] in Hw. lia. }
  split; [done|]. split; [done|]. split; [done|]. by split.
Qed.

Lemma finish_inv x rs1 rs2 o s s' :
  keeps_open -> inv s -> running_ s = rs1 ++ x :: rs2 ->
  run_task x o (set_work (tasks_ s) (rs1 ++ rs2) s) = Ok s' -> inv s'.
Proof.
  intros Hk Hinv E Hrun. apply (run_task_result _ _ _ _ Hk) in Hrun as (s1' & c & Hl & Hd & Hc & Hs).
  assert (exists s1, left_behind s s1 /\ s1' = set_work (tasks_ s1) (rs1 ++ rs2) s1 /\ running_ s1 = running_ s
    /\ conn_at (task_fd x) s1 = conn_at (task_fd x) s) as (s1 & Hl1 & -> & E1 & Ec).
  { destruct Hl as [|w|fd b]; [by exists s; split; [constructor|]| |by exists (add_wire fd b s); split; [constructor|]].
    exists (called w s). split; [constructor|]. unfold called. by destruct (asked_timer cb w). }
  apply (left_behind_inv _ _ Hl1) in Hinv. rewrite <- E1 in E. clear Hl Hl1.
  destruct (running_open _ _ _ _ Hinv E) as (Hn & Ho & Hw & Hreg).
  apply (task_result_inv _ c) in Hs as (Hown & Hc' & Hsm & Hw'); [|done..| |done].
  2: { rewrite Hd. change (disconnected_ (conn_at (task_fd x) s) = disconnected_ (conn_at (task_fd x) s1)). by rewrite Ec. }
  apply (inv_at (task_fd x) s1); [done|done|..|done|done].
  intros fd' Hne. eapply same_trans; [|by apply Hsm]. split; [done|]. split; [done|].
  symmetry. rewrite work_mid by done. by rewrite filter_cons_False.
Qed.

Lemma set_timer_inv q s : inv s -> inv (set_timer q s).
Proof. done. Qed.

Lemma session_inv clock s s' : sessionTimeout clock s = Ok s' -> inv s -> inv s'.
Proof. unfold sessionTimeout. destruct (session_timeout cb clock (owner_ s)) as [w|]; [|done]. by intros [= <-]. Qed.

Lemma calm_step_inv s s' : keeps_open -> inv s -> calm_step s s' -> inv s'.
Proof.
  intros Hk Hinv [s2 [clock fd ch s3 Hn Ho H|clock fd revents i s3 Hn Hd E Ha H|clock s3 _ H|x ts E|x rs1 rs2 o s3 E H]|clock s2 Hf H].
  - by eapply accept_inv.
  - by eapply event_inv.
  - by eapply session_inv.
  - by apply take_inv.
  - by eapply finish_inv.
  - apply aliveTimeout_closes in H as [q ->]. by apply set_timer_inv, closes_inv.
Qed.

Lemma calm_steps_inv s s' : keeps_open -> inv s -> rtc calm_step s s' -> inv s'.
Proof. intros Hk Hi Hs. induction Hs as [|s1 s2 s3 H _ IH]; [done|]. apply IH. by eapply calm_step_inv. Qed.

(** The destructor leaves nothing registered. *)
Lemma destroy_lookup (l : list (Z * conn Ctx)) (p : EPoller.t) fd :
  (p !! fd = None \/ exists c, (fd, c) ∈ l /\ disconnected_ c = false) ->
  foldl (fun p (e : Z * conn Ctx) => if disconnected_ e.2 then p else removeEvent e.1 p) p l !! fd = None.
Proof.
  revert p. induction l as [|[g c] l IH]; intros p H; cbn [foldl].
  - destruct H as [H|(c & H & _)]; [done|by apply not_elem_of_nil in H].
  - apply IH. destruct H as [H|(c' & Hin & Hd)].
    + left. destruct (disconnected_ (g, c).2); [done|]. rewrite lookup_remove. by case_decide.
    + apply elem_of_cons in Hin as [[= <- <-]|Hin]; [|right; by exists c'].
      left. cbn [fst snd]. rewrite Hd, lookup_remove. by rewrite decide_True.
Qed.

Lemma destroy_empty s : inv s -> destroy (map_to_list (conns_ s)) s = ∅.
Proof.
  intros (Hi & _ & Ht). apply map_eq. intros fd. transitivity (@None interest); [|symmetry; apply (lookup_empty (M := gmap Z))]. unfold destroy. apply destroy_lookup.
  assert (forall g p, (removeAndCloseEvent g p : EPoller.t) !! fd = if decide (g = fd) then None else p !! fd) as Hr by (intros; apply lookup_remove).
  assert (forall q : EPoller.t, (if session_timer_ s then removeAndCloseEvent (session_fd s) q else q) !! fd
    = if session_timer_ s then (if decide (session_fd s = fd) then None else q !! fd) else q !! fd) as Hs
    by (intros q; destruct (session_timer_ s); [apply Hr|done]).
  rewrite Hs, !Hr. destruct (decide (alive_fd s = fd)) as [<-|Ha]; [left; destruct (session_timer_ s); by repeat case_decide|].
  destruct (decide (svr_fd s = fd)) as [<-|Hv]; [left; destruct (session_timer_ s); by repeat case_decide|].
  destruct (decide (evfd_ s = fd)) as [<-|He]; [left; destruct (session_timer_ s); by repeat case_decide|].
  destruct (decide (session_fd s = fd)) as [<-|Hse].
  { left. destruct Ht as [-> | ->]; [done|]. by destruct (session_timer_ s). }
  assert (~ reserved s fd) as Hn by (unfold reserved; intros [?|[?|[?|?]]]; congruence).
  destruct (Hi fd Hn) as ((H1 & H2 & H3) & _). destruct (poller_ s !! fd) as [i|] eqn:E; [right|left; by destruct (session_timer_ s)].
  destruct (H2 i eq_refl) as [Ho _]. pose proof (H3 Ho) as Hd. unfold is_open, conn_at in Ho, Hd.
  destruct (conns_ s !! fd) as [c|] eqn:Ec; [|by destruct Ho]. exists c. split; [by apply elem_of_map_to_list|done].
Qed.

(** What the server starts with: nothing accepted and nothing queued; its own
    descriptors may be registered. *)
Definition fresh s : Prop :=
  conns_ s = ∅ /\ tasks_ s = [] /\ running_ s = [] /\ timer_inv s /\ forall fd, ~ reserved s fd -> poller_ s !! fd = None.

Lemma fresh_inv s : fresh s -> inv s.
Proof.
  intros (Hc & Ht & Hr & Hti & Hp).
  assert (forall fd, work s fd = []) as Hw by (intros; unfold work; by rewrite Ht, Hr).
  split; [|done]. intros fd Hn. unfold conn_inv, conn_reg, is_open, conn_at. rewrite Hc, lookup_empty, Hw, (Hp fd Hn).
  cbn. split; [split; [by intros [? ?]|split; [done|by intros [? ?]]]|]. split; [done|by intros [? ?]].
Qed.

Lemma calm_is_step s s' : calm_step s s' -> step s s'.
Proof. intros [s2 H|clock s2 _ H]; [by apply step_act|by eapply step_timeout]. Qed.

End server.
End TcpServer.

(** ** The guarantees *)
Import EPoller TcpServer.

(** One-shot events make the workers exclusive.  However accepts, events,
    workers and timeouts interleave, as long as no timeout closes a connection
    that is being worked on: a connection has at most one task, queued or
    running; a task's connection is open and its entry is disarmed, so that no
    event can start a second one; and an open connection without a task has an
    armed entry, so that none is forgotten. *)
Theorem workers_exclusive {Ctx W} (cb : callbacks Ctx W) (s s' : TcpServer.t Ctx W) (fd : Z) :
  keeps_open cb -> TcpServer.fresh s -> rtc (calm_step cb) s s' -> ~ reserved s' fd ->
  (length (work s' fd) <= 1)%nat
  /\ (forall x, x ∈ work s' fd -> is_open s' fd /\ exists i, poller_ s' !! fd = Some i /\ armed i = false)
  /\ (is_open s' fd -> work s' fd = [] -> exists i, poller_ s' !! fd = Some i /\ armed i = true).
Proof.
  intros Hk Hf Hs Hn. pose proof (calm_steps_inv _ _ _ Hk (fresh_inv _ Hf) Hs) as (Hi & _).
  destruct (Hi fd Hn) as ((H1 & H2 & H3) & Hw & Ha). split; [|split; [|done]].
  - destruct (work s' fd) as [|x l] eqn:E; [simpl; lia|]. destruct Hw as [-> _]; [done|lia].
  - intros x Hx. destruct Hw as (_ & i & Hp & Hd); [intros E; rewrite E in Hx; by inversion Hx|].
    split; [by destruct (H2 _ Hp)|by exists i].
Qed.

(** A write error does not close a connection: whatever error the first
    call of [onWrite] fails with, the connection stays open and is armed for
    output again. *)
Theorem write_error_rearms {Ctx W} (s : TcpServer.t Ctx W) (fd err : Z) (ch : Channel.t Buffer.t) :
  channel_ (conn_at fd s) = Some ch -> is_Some (poller_ s !! fd) -> err <> 0 ->
  exists s', onWrite [-1] err fd s = Ok s' /\ is_open s' fd
    /\ poller_ s' !! fd = Some (Interest (Z.lor EPOLLOUT kConnectionEvent) true).
Proof.
  intros Hc Hp He. unfold onWrite. rewrite Hc. cbn [of_option]. eexists. split.
  - unfold TcpConnection.writeAgain. cbn. apply Z.eqb_neq in He. rewrite He. cbn. reflexivity.
  - split.
    + unfold is_open, rearm. rewrite conn_at_set_poller, conn_at_set, decide_True by done. by eexists.
    + cbn. by rewrite lookup_update, decide_True.
Qed.

(** ** Concrete runs *)
Definition demo_server : TcpServer.t unit unit :=
  TcpServer.Make false 3 4 5 6 1000 false ∅ (TimerQueue.new) false ∅ tt [] [] [] [].
Definition demo_cb : callbacks unit unit :=
  Callbacks (fun c w => Ok (true, c, w)) (fun _ => true) (fun _ w => Ok w).
Definition demo_chan : Channel.t Buffer.t := Channel.new Raw false (Buffer.new 16) (Buffer.new 16).
Definition demo_outcome : outcome := Outcome [bs "GET"] [] (-1) 11.

Definition get_ok {A} (d : A) (r : result A) : A := match r with Ok x => x | Err _ => d end.
Definition demo_accepted := get_ok demo_server (handleConnected (TimeStamp.make 0) 9 demo_chan demo_server).
Definition demo_queued := get_ok demo_server (handleEvent demo_cb 9 EPOLLIN (TimeStamp.make 0) demo_accepted).
Definition demo_running := set_work [] [OnRead 9] demo_queued.

Lemma demo_keeps_open : keeps_open demo_cb.
Proof. intros c w d c' w' [= <- <- <-]. done. Qed.

Lemma demo_not_reserved : ~ reserved demo_server 9.
Proof. by intros [? | [? | [? | ?]]]. Qed.

Lemma demo_steps : rtc (calm_step demo_cb) demo_server demo_running.
Proof.
  eapply rtc_l; [apply calm_act, (act_accept _ _ (TimeStamp.make 0) 9 demo_chan demo_accepted demo_not_reserved)|].
  { intros [c E]. vm_compute in E. discriminate E. }
  { vm_compute. reflexivity. }
  eapply rtc_l; [apply calm_act, (act_event _ _ (TimeStamp.make 0) 9 EPOLLIN
     (Interest (Z.lor EPOLLIN kConnectionEvent) true) demo_queued)|].
  { exact demo_not_reserved. }
  { vm_compute. discriminate. }
  { vm_compute. reflexivity. }
  { reflexivity. }
  { vm_compute. reflexivity. }
  apply rtc_once, calm_act. apply (act_take _ demo_queued (OnRead 9) []). vm_compute. reflexivity.
Qed.

Lemma workers_exclusive_witness :
  (length (work demo_running 9) <= 1)%nat /\ is_open demo_running 9.
Proof.
  destruct (workers_exclusive demo_cb demo_server demo_running 9) as (H1 & H2 & _).
  - exact demo_keeps_open.
  - split; [done|]. split; [done|]. split; [done|]. split; [by right|done].
  - exact demo_steps.
  - intros [H|[H|[H|H]]]; vm_compute in H; discriminate H.
  - split; [exact H1|]. apply (H2 (OnRead 9)). vm_compute. left.
Defined.

Lemma write_error_rearms_witness :
  exists s', onWrite [-1] 32 9 demo_running = Ok s' /\ is_open s' 9.
Proof.
  destruct (write_error_rearms demo_running 9 32 demo_chan) as (s' & E & Ho & _).
  - vm_compute. reflexivity.
  - vm_compute. by eexists.
  - discriminate.
  - exists s'. split; [exact E|exact Ho].
Defined.

(** The alive timer knows nothing of the workers: while a worker is in a
    task, which may outlast the idle time, a timeout closes its connection and
    frees the channel the task is using. *)
Theorem timeout_frees_running :
  exists s', rtc (TcpServer.step demo_cb) demo_server s' /\ running_ s' = [OnRead 9] /\ ~ is_open s' 9
    /\ run_task demo_cb (OnRead 9) demo_outcome s' = Err Undefined.
Proof.
  exists (get_ok demo_server (aliveTimeout (TimeStamp.make 2000000) demo_running)).
  split; [|split; [by vm_compute|split; [|by vm_compute]]].
  - apply (rtc_r _ demo_running); [|apply (step_timeout _ _ (TimeStamp.make 2000000)); vm_compute; reflexivity].
    eapply rtc_subrel; [|exact demo_steps]. intros s s'. apply calm_is_step.
  - intros [c E]. vm_compute in E. discriminate E.
Qed.
