(* ===== verification/EventLoop.v ===== *)
(** * EventLoop: the batches of [epoll_wait] and what interleaves with them

    Models [EPoller::poll] and the loop of [TcpServer::start] on top of the
    handlers of [TcpServer]: [epoll_wait] returns a batch of events, whose
    entries are disarmed at once; the events are dispatched one after the other
    while the workers go on.  The invariant of [TcpServer] holds when an event
    that is not dispatched yet counts as work on its connection. *)
From S2P Require Import Prelude CStr Buffer TimeStamp TimerHeap TimerQueue Channel TcpServer.
Local Open Scope Z_scope.

Module EventLoop.
Import EPoller TcpServer.

#[export] Instance reserved_dec {Ctx W} (s : TcpServer.t Ctx W) (fd : Z) : Decision (reserved s fd).
Proof. unfold reserved. apply _. Defined.

Section loop.
Context {Ctx W : Type} (cb : callbacks Ctx W).
Implicit Types (s : TcpServer.t Ctx W) (p evs : list (Z * Z)).

(** ** [poll] *)
(** The entries of a batch are reported by the kernel together. *)
Definition report_all evs (q : EPoller.t) : EPoller.t := foldl (fun q e => report e.1 q) q evs.

(** The channel of a new connection; one of TLS sends no file by [sendfile]. *)
Definition new_channel (ty : ChannelType) s : Channel.t Buffer.t :=
  Channel.new ty (sendfile_ s) (Buffer.new Buffer.default_size) (Buffer.new Buffer.default_size).

(** [handleServerAccept]: the descriptor that [accept] returns, with the type
    of channel the configuration asks for; [None] if it fails, or the handshake
    does. *)
Definition handleServerAccept (r : option (Z * ChannelType)) (clock : TimeStamp.t) s : result (TcpServer.t Ctx W) :=
  match r with Some (connfd, ty) => handleConnected clock connfd (new_channel ty s) s | None => Ok s end.

(** The body of [poll]'s loop, with [handleRead] of the server socket. *)
Definition dispatch_event (clock : TimeStamp.t) (r : option (Z * ChannelType)) (e : Z * Z) s : result (TcpServer.t Ctx W) :=
  match dispatch e.2 with
  | CloseCb => Ok (handleClose e.1 s)
  | ReadCb => if e.1 =? svr_fd s then handleServerAccept r clock s else handleRead cb e.1 clock s
  | WriteCb => handleWrite e.1 clock s
  | NoCb => Ok s
  end.

(** A batch from begin to end, with the time and the accepted connection at
    each event. *)
Fixpoint dispatch_all (evs : list ((Z * Z) * (TimeStamp.t * option (Z * ChannelType)))) s : result (TcpServer.t Ctx W) :=
  match evs with
  | [] => Ok s
  | (e, (clock, r)) :: evs => let* x := dispatch_event clock r e s in dispatch_all evs x
  end.
Definition poll (evs : list ((Z * Z) * (TimeStamp.t * option (Z * ChannelType)))) s : result (TcpServer.t Ctx W) :=
  dispatch_all evs (set_poller (report_all evs.*1 (poller_ s)) s).

(** What [epoll_wait] returns: at most 1024 entries, registered and armed, each
    once, with an event that was asked for or an error; the server's own
    descriptors report input. *)
Definition reportable s evs : Prop :=
  (length evs <= 1024)%nat /\ NoDup evs.*1
  /\ Forall (fun e => (exists i, poller_ s !! e.1 = Some i /\ armed i = true) /\ dispatch e.2 <> NoCb
       /\ (reserved s e.1 -> dispatch e.2 = ReadCb)) evs.

(** The kernel gives a new connection a descriptor that nothing owns. *)
Definition acceptable s (r : option (Z * ChannelType)) : Prop :=
  match r with Some (fd, _) => ~ reserved s fd /\ ~ is_open s fd | None => True end.

(** ** [TcpServer::TcpServer] and [TcpServer::start] *)
(** The descriptors are the kernel's; [sendfile] and [idle] are configured. *)
Definition new (evfd svr alive session idle : Z) (sendfile : bool) (w : W) : TcpServer.t Ctx W :=
  let p := addEvent evfd (Z.lor EPOLLIN kConnectionEvent) ∅ in
  let p := addEvent alive EPOLLIN p in
  Make false evfd svr alive session idle sendfile p TimerQueue.new false ∅ w [] [] [] [].
(** Up to the loop; [mono] is what the clock of the timer reads. *)
Definition start (mono : Z * Z) s : result (TcpServer.t Ctx W) :=
  let s := set_poller (addEvent (svr_fd s) (Z.lor EPOLLIN kServerEvent) (poller_ s)) s in
  let* ts := TimeStamp.millsecond (idle_timeout_ s) in
  Ok (set_timer (TimerQueue.runEvery mono.1 mono.2 ts (alive_timer_ s)) s).

(** ** Interleaving *)
(** The server and the events that are not dispatched yet.  [guard] restricts
    the expiries of the alive timer. *)
Inductive loop_step (guard : TimeStamp.t -> TcpServer.t Ctx W -> list (Z * Z) -> Prop)
    : TcpServer.t Ctx W * list (Z * Z) -> TcpServer.t Ctx W * list (Z * Z) -> Prop :=
  | loop_poll s evs :
      quit_ s = false -> reportable s evs ->
      loop_step guard (s, []) (set_poller (report_all evs (poller_ s)) s, evs)
  | loop_dispatch s p e clock r s' :
      acceptable s r -> (e.1 = alive_fd s -> guard clock s p) -> dispatch_event clock r e s = Ok s' ->
      loop_step guard (s, e :: p) (s', p)
  | loop_take s p x ts :
      tasks_ s = x :: ts -> loop_step guard (s, p) (set_work ts (running_ s ++ [x]) s, p)
  | loop_finish s p x rs1 rs2 o s' :
      running_ s = rs1 ++ x :: rs2 -> run_task cb x o (set_work (tasks_ s) (rs1 ++ rs2) s) = Ok s' ->
      loop_step guard (s, p) (s', p).

(** The events of a batch that wait for their connection. *)
Definition pending p (fd : Z) : list (Z * Z) := filter (fun e => e.1 = fd) p.

Definition always (_ : TimeStamp.t) s p : Prop := True.
(** A timeout that closes no connection which has work or an event waiting. *)
Definition calm (clock : TimeStamp.t) s p : Prop :=
  Forall (fun fd => work s fd = [] /\ pending p fd = []) (closes clock s).

(** ** The invariant: a waiting event is work *)
Definition as_tasks s p : list task := (fun e => OnRead e.1) <$> filter (fun e => ~ reserved s e.1) p.
Definition embed s p : TcpServer.t Ctx W := set_work (tasks_ s ++ as_tasks s p) (running_ s) s.
Definition loop_inv (x : TcpServer.t Ctx W * list (Z * Z)) : Prop := inv (embed x.1 x.2).

Lemma as_tasks_fd s p fd :
  ~ reserved s fd -> filter (fun x => task_fd x = fd) (as_tasks s p) = (fun e => OnRead e.1) <$> pending p fd.
Proof.
  intros Hn. unfold as_tasks, pending. induction p as [|e p IH]; [done|].
  destruct (decide (e.1 = fd)) as [E|E].
  - rewrite filter_cons_True by (by rewrite E). rewrite fmap_cons, filter_cons_True by done.
    rewrite (filter_cons_True (fun e => e.1 = fd)) by done. by rewrite fmap_cons, IH.
  - rewrite (filter_cons_False (fun e => e.1 = fd)) by done. rewrite <- IH.
    destruct (decide (reserved s e.1)).
    + by rewrite filter_cons_False by (intros H; by apply H).
    + rewrite filter_cons_True by done. by rewrite fmap_cons, filter_cons_False.
Qed.

Lemma as_tasks_reserved s p fd : reserved s fd -> filter (fun x => task_fd x = fd) (as_tasks s p) = [].
Proof.
  intros Hr. unfold as_tasks. induction p as [|e p IH]; [done|].
  destruct (decide (reserved s e.1)) as [H|H].
  - by rewrite filter_cons_False by (intros H'; by apply H').
  - rewrite filter_cons_True by done. rewrite fmap_cons, filter_cons_False; [done|]. intros E. cbn in E. by rewrite E in H.
Qed.

Lemma work_embed s p fd :
  ~ reserved s fd -> work (embed s p) fd ≡ₚ work s fd ++ ((fun e => OnRead e.1) <$> pending p fd).
Proof.
  intros Hn. unfold work, embed. cbn. rewrite !filter_app, as_tasks_fd by done. rewrite <- !app_assoc.
  apply Permutation_app_head, Permutation_app_comm.
Qed.

Lemma work_embed_reserved s p fd : reserved s fd -> work (embed s p) fd = work s fd.
Proof. intros Hr. unfold work, embed. cbn. rewrite !filter_app, as_tasks_reserved by done. by rewrite app_nil_r. Qed.

Lemma as_tasks_own s s' p : own s' = own s -> as_tasks s' p = as_tasks s p.
Proof.
  intros Ho. unfold as_tasks. f_equal. apply list_filter_iff. intros e. by rewrite (reserved_own _ _ _ Ho).
Qed.

(** What does not concern [fd], and leaves its waiting events, is seen so in the
    embedding. *)
Lemma same_embed fd s s' p p' :
  own s' = own s -> same fd s s' -> (~ reserved s fd -> pending p' fd = pending p fd) ->
  same fd (embed s p) (embed s' p').
Proof.
  intros Ho (Hc & Hp & Hw) Hpe. split; [done|]. split; [done|].
  destruct (decide (reserved s fd)) as [Hr|Hn].
  - rewrite !work_embed_reserved; [done|done|by apply (reserved_own _ _ _ Ho)].
  - rewrite !work_embed; [|done|by rewrite (reserved_own _ _ _ Ho)]. by rewrite Hw, Hpe.
Qed.

(** *** The operations commute with the embedding *)
Lemma close_embed fd s p : handleConnectionClose fd (embed s p) = embed (handleConnectionClose fd s) p.
Proof.
  unfold handleConnectionClose. change (conn_at fd (embed s p)) with (conn_at fd s).
  by destruct (disconnected_ _ || _).
Qed.

Lemma closes_embed fds s p :
  foldl (fun s fd => handleConnectionClose fd s) (embed s p) fds
  = embed (foldl (fun s fd => handleConnectionClose fd s) s fds) p.
Proof. revert s. induction fds as [|fd fds IH]; intros s; [done|]. cbn [foldl]. by rewrite close_embed, IH. Qed.

Lemma connected_embed clock fd ch s s' p :
  handleConnected clock fd ch s = Ok s' -> handleConnected clock fd ch (embed s p) = Ok (embed s' p).
Proof.
  unfold handleConnected. cbn. destruct (TimeStamp.nowMsecond _ _) as [ts|]; [|done].
  destruct (TimerQueue.add _ _) as [q|]; [|done]. by intros [= <-].
Qed.

Lemma run_task_embed x o s s' p : run_task cb x o s = Ok s' -> run_task cb x o (embed s p) = Ok (embed s' p).
Proof.
  destruct x as [fd|fd]; cbn [run_task].
  - unfold onRead. change (conn_at fd (embed s p)) with (conn_at fd s).
    destruct (channel_ (conn_at fd s)) as [ch|]; [|done]. cbn [of_option].
    destruct (TcpConnection.readAgain _ _ _ _) as [[[ch' n] again]|]; [|done].
    change (set_conn fd ?c (embed s p)) with (embed (set_conn fd c s) p). rewrite close_embed.
    destruct (_ && _); [by intros [= <-]|]. destruct (_ =? 0)%nat; [by intros [= <-]|].
    change (owner_ (embed ?x p)) with (owner_ x). destruct (msg_cb cb _ _) as [[[d c'] w]|]; [|done].
    intros [= <-]. unfold called. by destruct (asked_timer cb w).
  - unfold onWrite. change (conn_at fd (embed s p)) with (conn_at fd s).
    destruct (channel_ (conn_at fd s)) as [ch|]; [|done]. cbn [of_option].
    destruct (TcpConnection.writeAgain _ _ _ _) as [[[[[ch' n] again] cflag] wire]|]; [|done].
    change (set_conn fd ?c (add_wire fd wire (embed s p))) with (embed (set_conn fd c (add_wire fd wire s)) p). rewrite close_embed.
    destruct (_ && _); [by intros [= <-]|]. destruct (_ && _); by intros [= <-].
Qed.

(** *** A batch *)
Lemma pending_notin p fd : fd ∉ p.*1 -> pending p fd = [].
Proof.
  intros H. unfold pending. induction p as [|e p IH]; [done|]. rewrite fmap_cons in H. apply not_elem_of_cons in H as [H1 H2].
  rewrite filter_cons_False by congruence. by apply IH.
Qed.

Lemma pending_once p fd : NoDup p.*1 -> fd ∈ p.*1 -> exists e, pending p fd = [e].
Proof.
  intros Hd Hin. unfold pending. induction p as [|e p IH]; [by apply elem_of_nil in Hin|].
  rewrite fmap_cons in Hd, Hin. apply NoDup_cons in Hd as [Hn Hd]. destruct (decide (e.1 = fd)) as [E|E].
  - rewrite filter_cons_True by done. exists e. f_equal. apply pending_notin. by rewrite <- E.
  - rewrite filter_cons_False by done. apply elem_of_cons in Hin as [Hin|Hin]; [congruence|]. by apply IH.
Qed.

Lemma report_all_notin evs q fd : fd ∉ evs.*1 -> report_all evs q !! fd = q !! fd.
Proof.
  revert q. induction evs as [|e evs IH]; intros q H; [done|]. rewrite fmap_cons in H.
  apply not_elem_of_cons in H as [H1 H2]. cbn [report_all foldl]. fold (report_all evs (report e.1 q)).
  rewrite IH by done. by apply lookup_report_ne.
Qed.

Lemma report_all_in evs q fd ev :
  Z.land ev EPOLLONESHOT <> 0 -> fd ∈ evs.*1 -> (exists b, q !! fd = Some (Interest ev b)) ->
  report_all evs q !! fd = Some (Interest ev false).
Proof.
  intros Ho. revert q. induction evs as [|e evs IH]; intros q Hin [b E]; [by apply elem_of_nil in Hin|].
  cbn [report_all foldl]. fold (report_all evs (report e.1 q)).
  assert (e.1 = fd -> report e.1 q !! fd = Some (Interest ev false)) as He.
  { intros ->. by apply (lookup_report_one_shot fd (Interest ev b)). }
  destruct (decide (fd ∈ evs.*1)) as [Hi|Hi].
  - apply IH; [done|]. destruct (decide (e.1 = fd)) as [Ef|Ef]; [exists false; by apply He|].
    exists b. by rewrite lookup_report_ne.
  - rewrite report_all_notin by done. rewrite fmap_cons in Hin. apply elem_of_cons in Hin as [Hin|Hin]; [|done]. by apply He.
Qed.

Lemma report_all_none evs q fd : q !! fd = None -> report_all evs q !! fd = None.
Proof.
  revert q. induction evs as [|e evs IH]; intros q E; [done|]. cbn [report_all foldl]. fold (report_all evs (report e.1 q)).
  apply IH. destruct (decide (e.1 = fd)) as [<-|]; [by unfold report; rewrite E|by rewrite lookup_report_ne].
Qed.

Lemma poll_inv s evs :
  loop_inv (s, []) -> reportable s evs -> loop_inv (set_poller (report_all evs (poller_ s)) s, evs).
Proof.
  unfold loop_inv. cbn [fst snd]. intros Hinv (_ & Hd & Hf). set (s1 := set_poller _ s).
  assert (forall fd, work s fd = work (embed s []) fd) as Hw0 by (intros; unfold work, embed; cbn; by rewrite app_nil_r).
  destruct Hinv as (Hi & Hr & Ht). split; [|split].
  - intros fd Hn. change (~ reserved s fd) in Hn. specialize (Hi fd Hn). pose proof (work_embed s1 evs fd Hn) as Hw.
    change (work s1 fd) with (work s fd) in Hw. rewrite Hw0 in Hw.
    destruct (decide (fd ∈ evs.*1)) as [Hin|Hin].
    + pose proof Hin as Hin'. apply list_elem_of_fmap in Hin' as (e & -> & He). rewrite Forall_forall in Hf.
      destruct (Hf e He) as ((i & E & Ha) & _). pose proof (armed_no_work _ _ _ Hi E Ha) as Hw1.
      destruct (pending_once evs e.1 Hd Hin) as [e' Ep]. rewrite Hw1, Ep in Hw.
      destruct Hi as ((H1 & H2 & H3) & _). destruct (H2 _ E) as [Ho H1s].
      assert (poller_ s1 !! e.1 = Some (Interest (events i) false)) as E1.
      { apply report_all_in; [done|done|]. exists (armed i). rewrite E. by destruct i. }
      unfold conn_inv, conn_reg. change (poller_ (embed s1 evs)) with (poller_ s1). rewrite E1.
      split; [split; [by eexists|]; split; [by intros j [= <-]|done]|].
      rewrite (Permutation_length Hw). split; [intros _; split; [done|by eexists]|]. intros _ Hnil. rewrite Hnil in Hw. by apply Permutation_nil_cons in Hw.
    + apply (same_inv fd (embed s []) (embed s1 evs)); [|done]. split; [done|]. split; [by apply report_all_notin|].
      rewrite Hw, (pending_notin _ _ Hin). by rewrite app_nil_r.
  - intros fd Hres. rewrite work_embed_reserved by done. change (work s1 fd) with (work s fd). rewrite Hw0. by apply Hr.
  - destruct Ht as [Ht|Ht]; [by left|right]. by apply report_all_none.
Qed.

(** *** An event *)
Lemma pending_cons e p fd : pending (e :: p) fd = (if decide (e.1 = fd) then [e] else []) ++ pending p fd.
Proof.
  unfold pending. destruct (decide (e.1 = fd)); [by rewrite filter_cons_True|by rewrite filter_cons_False].
Qed.

(** The event of a connection: it has no work, no other event waits for it, and
    its entry is disarmed. *)
Lemma waiting_alone s e p :
  ~ reserved s e.1 -> loop_inv (s, e :: p) ->
  conn_reg s e.1 /\ work s e.1 = [] /\ pending p e.1 = [] /\ exists i, poller_ s !! e.1 = Some i /\ armed i = false.
Proof.
  unfold loop_inv. cbn [fst snd]. intros Hn (Hi & _). destruct (Hi e.1 Hn) as (Hreg & Hw & _).
  pose proof (work_embed s (e :: p) e.1 Hn) as Hp. rewrite pending_cons, decide_True in Hp by done.
  destruct Hw as (Hl & i & E & Ha); [intros E; rewrite E in Hp; apply Permutation_length in Hp; rewrite length_app in Hp; cbn in Hp; lia|].
  rewrite (Permutation_length Hp), length_app in Hl. cbn in Hl.
  split; [done|]. split; [apply nil_length_inv; lia|]. split; [|by exists i].
  apply nil_length_inv. rewrite length_fmap in Hl. lia.
Qed.

Lemma loop_inv_at e s s' p :
  ~ reserved s e.1 -> own s' = own s -> loop_inv (s, e :: p) -> pending p e.1 = [] ->
  (forall fd, e.1 <> fd -> same fd s s') -> conn_inv s' e.1 -> loop_inv (s', p).
Proof.
  unfold loop_inv. cbn [fst snd]. intros Hn Ho Hinv Hp Hs Hc.
  apply (inv_at e.1 (embed s (e :: p))); [done|done|..|by intros].
  - intros fd Hne. apply same_embed; [done|by apply Hs|]. intros _. by rewrite pending_cons, decide_False.
  - intros _. apply (same_inv e.1 s'); [|done]. split; [done|]. split; [done|].
    rewrite work_embed by (by rewrite (reserved_own _ _ _ Ho)). by rewrite Hp, app_nil_r.
Qed.

Lemma loop_inv_skip e s p : reserved s e.1 -> loop_inv (s, e :: p) -> loop_inv (s, p).
Proof.
  unfold loop_inv, embed, as_tasks. cbn [fst snd]. intros Hr. by rewrite filter_cons_False by (intros H; by apply H).
Qed.

Lemma connection_event_inv e clock r s s' p :
  ~ reserved s e.1 -> loop_inv (s, e :: p) -> dispatch e.2 <> NoCb -> dispatch_event clock r e s = Ok s' -> loop_inv (s', p).
Proof.
  intros Hn Hinv Hd. destruct (waiting_alone _ _ _ Hn Hinv) as (Hreg & Hw & Hp & Hdis).
  assert (forall x s2, task_fd x = e.1 -> handleConnectionWork x clock s = Ok s2 -> loop_inv (s2, p)) as Hwork.
  { intros x s2 Ex H. rewrite <- Ex in Hreg, Hw, Hdis. apply handleConnectionWork_inv in H as (Ho & Hc & Hs); [|done..].
    rewrite Ex in Hc, Hs. by apply (loop_inv_at e s). }
  unfold dispatch_event. destruct (dispatch e.2); [| | |done].
  - intros [= <-]. apply (loop_inv_at e s); [done|by rewrite close_own|done|done|..].
    + intros fd Hne. by apply close_same.
    + by apply close_inv.
  - destruct (e.1 =? svr_fd s) eqn:E1; [apply Z.eqb_eq in E1; destruct Hn; right; by left|].
    rewrite connection_read by done. by apply Hwork.
  - by apply Hwork.
Qed.

(** Input of the server's own descriptors, but for the server socket. *)
Lemma own_read fd clock s s' :
  reserved s fd -> fd <> svr_fd s -> (fd = session_fd s -> session_timer_ s = true) -> handleRead cb fd clock s = Ok s' ->
  s' = set_quit s \/ (exists w, s' = set_owner w s) \/ fd = alive_fd s /\ aliveTimeout clock s = Ok s'.
Proof.
  intros Hres Hsv Hses. unfold handleRead, handleTimeout. destruct (Z.eqb_spec fd (evfd_ s)) as [|H1]; [intros [= <-]; by left|].
  rewrite (Z.eqb_sym (alive_fd s)), (Z.eqb_sym (session_fd s)).
  destruct (Z.eqb_spec fd (alive_fd s)) as [H2|H2]; [right; by right|].
  assert (fd = session_fd s) as E by (unfold reserved in Hres; tauto). rewrite (Hses E), (proj2 (Z.eqb_eq _ _) E). cbn [orb andb].
  unfold sessionTimeout. destruct (session_timeout cb clock (owner_ s)) as [w|]; [|done]. intros [= <-]. right. left. by exists w.
Qed.

Lemma own_event_inv e clock r s s' p :
  reserved s e.1 -> (e.1 = session_fd s -> session_timer_ s = true) -> loop_inv (s, e :: p) -> dispatch e.2 = ReadCb -> acceptable s r ->
  (e.1 = alive_fd s -> calm clock s p) -> dispatch_event clock r e s = Ok s' -> loop_inv (s', p).
Proof.
  intros Hres Hses Hinv Hd Hacc Hcalm. apply loop_inv_skip in Hinv; [|done]. unfold loop_inv in *. cbn [fst snd] in *.
  unfold dispatch_event. rewrite Hd. destruct (e.1 =? svr_fd s) eqn:E1.
  - destruct r as [[fd ty]|]; [|by intros [= <-]]. destruct Hacc as [Hn Ho]. intros H.
    apply (connected_embed _ _ _ _ _ p) in H. by apply (accept_inv clock fd (new_channel ty s) (embed s p)).
  - intros H. apply own_read in H; [|done|by apply Z.eqb_neq|done].
    destruct H as [->|[[w ->]|[E3 H]]]; [done|done|]. apply aliveTimeout_closes in H as [q ->]. specialize (Hcalm E3).
    change (embed (set_timer q ?x) p) with (set_timer q (embed x p)). apply set_timer_inv. rewrite <- closes_embed.
    apply closes_inv; [done|]. eapply Forall_impl; [exact Hcalm|]. intros fd [Hw Hp]. cbv beta.
    destruct (decide (reserved s fd)) as [Hr|Hn]; [by rewrite work_embed_reserved|].
    apply Permutation_nil_r. rewrite (work_embed s p fd Hn), Hw, Hp. done.
Qed.

(** *** All steps *)
(** What is known of the waiting events. *)
Definition events_ok s p : Prop :=
  Forall (fun e => dispatch e.2 <> NoCb /\ (reserved s e.1 -> dispatch e.2 = ReadCb)
    /\ (e.1 = session_fd s -> session_timer_ s = true)) p.
Definition good (x : TcpServer.t Ctx W * list (Z * Z)) : Prop := loop_inv x /\ events_ok x.1 x.2.

(** What every step keeps: the descriptors of the server, and its session
    timer once it exists. *)
Definition extends s s' : Prop :=
  (evfd_ s', svr_fd s', alive_fd s', session_fd s') = (evfd_ s, svr_fd s, alive_fd s, session_fd s)
  /\ (session_timer_ s = true -> session_timer_ s' = true).

Lemma own_extends s s' : own s' = own s -> extends s s'.
Proof. unfold own, extends. by intros [= -> -> -> -> ->]. Qed.

Lemma events_ok_extends s s' p : extends s s' -> events_ok s p -> events_ok s' p.
Proof.
  intros [Hf Ht] H. injection Hf as E1 E2 E3 E4. eapply Forall_impl; [exact H|]. intros e (H1 & H2 & H3). split; [done|].
  unfold reserved in *. rewrite E1, E2, E3, E4. split; [done|]. intros E. by apply Ht, H3.
Qed.

Lemma closes_own fds s : own (foldl (fun s fd => handleConnectionClose fd s) s fds) = own s.
Proof. revert s. induction fds as [|fd fds IH]; intros s; [done|]. cbn [foldl]. by rewrite IH, close_own. Qed.

Lemma work_own x clock s s' : handleConnectionWork x clock s = Ok s' -> own s' = own s.
Proof.
  unfold handleConnectionWork. destruct (_ || _); [by intros [= <-]|]. destruct (TimeStamp.nowMsecond _ _); [|done].
  destruct (TimerQueue.adjust _ _); [|done]. by intros [= <-].
Qed.

Lemma read_extends fd clock s s' : handleRead cb fd clock s = Ok s' -> extends s s'.
Proof.
  unfold handleRead, handleTimeout. destruct (_ =? _); [by intros [= <-]|]. destruct (_ || _); [|intros H; by eapply own_extends, work_own].
  destruct (_ =? _); [intros H; apply aliveTimeout_closes in H as [q ->]; by apply own_extends, closes_own|].
  destruct (_ && _); [|by intros [= <-]]. unfold sessionTimeout. destruct (session_timeout _ _ _); [|done]. by intros [= <-].
Qed.

Lemma dispatch_extends clock r e s s' : dispatch_event clock r e s = Ok s' -> extends s s'.
Proof.
  unfold dispatch_event. destruct (dispatch e.2);
    [intros [= <-]; by apply own_extends, close_own| |intros H; by eapply own_extends, work_own|by intros [= <-]].
  destruct (_ =? _); [|by apply read_extends].
  destruct r as [[fd ty]|]; [|by intros [= <-]]. cbn [handleServerAccept]. unfold handleConnected.
  destruct (TimeStamp.nowMsecond _ _); [|done]. destruct (TimerQueue.add _ _); [|done]. by intros [= <-].
Qed.

Lemma task_extends x o s s' : keeps_open cb -> run_task cb x o s = Ok s' -> extends s s'.
Proof.
  intros Hk H. apply (run_task_result _ _ _ _ _ Hk) in H as (s1 & c & Hl & _ & _ & Hs).
  assert (extends s s1) as [E1 E2] by (destruct Hl as [|w|]; [done|unfold called; by destruct (asked_timer cb w)|done]).
  destruct Hs as [->|[ev ->]]; [|done]. pose proof (close_own (task_fd x) (set_conn (task_fd x) c s1)) as Ho.
  destruct (own_extends _ _ Ho) as [F1 F2]. split; [by rewrite F1|]. intros Ht. by apply F2, E2.
Qed.

Lemma loop_step_good x y : keeps_open cb -> loop_step calm x y -> good x -> good y.
Proof.
  intros Hk H [Hi He]. destruct H as [s evs _ Hr|s p e clock r s' Hacc Hg H|s p x ts E|s p x rs1 rs2 o s' E H].
  - split; [by apply poll_inv|]. destruct Hr as (_ & _ & Hf). eapply Forall_impl; [exact Hf|]. intros e ((i & E & _) & H1 & H2). do 2 (split; [done|]). intros Ee. destruct Hi as (_ & _ & [Ht|Ht]); [done|]. cbn in Ht, Ee. congruence.
  - cbn [fst snd] in He. apply Forall_cons in He as [(Hd & Hres & Hses) He]. split.
    + destruct (decide (reserved s e.1)) as [Hr|Hn]; [eapply own_event_inv; eauto|by eapply connection_event_inv].
    + eapply events_ok_extends; [by eapply dispatch_extends|done].
  - split; [|done]. unfold loop_inv in *. cbn [fst snd] in *.
    apply (take_inv x (ts ++ as_tasks s p) (embed s p)); [|done]. cbn. by rewrite E.
  - split; [|eapply events_ok_extends; [|done]; by apply task_extends in H]. unfold loop_inv in *. cbn [fst snd] in *.
    apply (run_task_embed _ _ _ _ p) in H. by apply (finish_inv cb x rs1 rs2 o (embed s p)).
Qed.

Lemma fresh_good s : fresh s -> good (s, []).
Proof.
  intros H. apply fresh_inv in H. split; [|by apply Forall_nil]. unfold loop_inv, embed. cbn [fst snd as_tasks].
  destruct H as (H1 & H2 & H3). unfold as_tasks. cbn. rewrite app_nil_r. by destruct s.
Qed.

(** What [good] says of a connection. *)
Lemma good_exclusive s p fd :
  good (s, p) -> ~ reserved s fd ->
  (length (work s fd) + length (pending p fd) <= 1)%nat
  /\ (work s fd <> [] \/ pending p fd <> [] -> is_open s fd /\ exists i, poller_ s !! fd = Some i /\ armed i = false)
  /\ (is_open s fd -> work s fd = [] -> pending p fd = [] -> exists i, poller_ s !! fd = Some i /\ armed i = true).
Proof.
  intros [(Hi & _) _] Hn. cbn [fst snd] in Hi. destruct (Hi fd Hn) as ((H1 & H2 & H3) & Hw & Ha).
  pose proof (work_embed s p fd Hn) as Hp. pose proof (Permutation_length Hp) as Hl. rewrite length_app, length_fmap in Hl.
  split; [|split].
  - destruct (work (embed s p) fd) as [|x l]; [cbn in Hl; lia|]. destruct Hw as [Hw _]; [done|]. lia.
  - intros Hne. destruct Hw as (_ & i & E & Hd).
    { intros E. rewrite E in Hl. cbn in Hl. destruct Hne as [Hne|Hne]; apply Hne, nil_length_inv; lia. }
    split; [by destruct (H2 _ E)|by exists i].
  - intros Ho Hw0 Hp0. apply Ha; [done|]. apply Permutation_nil_r. by rewrite Hp, Hw0, Hp0.
Qed.

(** A batch that is dispatched without interruption; each accepted connection
    has a descriptor that is not in use when it is accepted. *)
Fixpoint accepts_ok (evs : list ((Z * Z) * (TimeStamp.t * option (Z * ChannelType)))) s : Prop :=
  match evs with
  | [] => True
  | (e, (clock, r)) :: evs => acceptable s r /\ match dispatch_event clock r e s with Ok x => accepts_ok evs x | Err _ => True end
  end.

Lemma poll_steps batch s s' :
  quit_ s = false -> reportable s batch.*1 -> accepts_ok batch (set_poller (report_all batch.*1 (poller_ s)) s) ->
  poll batch s = Ok s' -> rtc (loop_step always) (s, []) (s', []).
Proof.
  intros Hq Hr Ha H. eapply rtc_l; [by apply loop_poll|]. revert Ha H. unfold poll.
  generalize (set_poller (report_all batch.*1 (poller_ s)) s). clear Hq Hr.
  induction batch as [|[e [clock r]] batch IH]; intros u Ha H; [by injection H as ->|].
  cbn [dispatch_all accepts_ok] in *. destruct Ha as [Ha Hrest]. destruct (dispatch_event clock r e u) as [u'|] eqn:E; [|done].
  eapply rtc_l; [by eapply loop_dispatch|]. by apply IH.
Qed.

(** A server that was just started. *)
Lemma start_fresh evfd svr alive session idle sendfile w mono s :
  NoDup [evfd; svr; alive; session] -> start mono (new evfd svr alive session idle sendfile w) = Ok s -> fresh s.
Proof.
  intros Hd. unfold start, new. cbn. destruct (TimeStamp.millsecond idle) as [ts|]; [|done]. intros [= <-].
  split; [done|]. split; [done|]. split; [done|]. split.
  { right. cbn. assert (session <> evfd /\ session <> svr /\ session <> alive) as (H1 & H2 & H3).
    { apply NoDup_cons in Hd as [Ha Hd]. apply NoDup_cons in Hd as [Hb Hd]. apply NoDup_cons in Hd as [Hc Hd]. set_solver. }
    rewrite !lookup_add. repeat (rewrite decide_False by (intros [-> _]; tauto)). apply (lookup_empty (M := gmap Z)). }
  cbn. intros fd Hn. unfold reserved in Hn. cbn in Hn.
  rewrite !lookup_add. repeat (rewrite decide_False by (intros [-> _]; tauto)). apply (lookup_empty (M := gmap Z)).
Qed.

End loop.

(** For concrete batches. *)
Ltac batch_reported :=
  split; [simpl; lia|]; split; [apply (bool_decide_unpack _); vm_compute; exact I|];
  repeat (apply Forall_cons; split;
    [split; [eexists; split; vm_compute; reflexivity|split; [vm_compute; discriminate|intros _; reflexivity]]|]);
  try apply Forall_nil_2.
Ltac batch_accepted :=
  vm_compute; repeat split;
  try (intros [H|[H|[H|H]]]; discriminate H); try (intros [c E]; discriminate E); try exact I.

End EventLoop.

(** ** What a timeout can do *)
Import EPoller TcpServer EventLoop.

Definition demo_loop : TcpServer.t unit unit := get_ok demo_server (start (0, 0) (new 3 4 5 6 1000 false tt)).
Definition second (n : Z) : TimeStamp.t := TimeStamp.make (n * 1000000).

(** A connection on descriptor 9; then a batch in which it has expired and is
    readable, and another connection is accepted. *)
Definition accept_batch := [((4, EPOLLIN), (second 0, Some (9, Raw)))].
Definition stale_batch := [((5, EPOLLIN), (second 2, None)); ((4, EPOLLIN), (second 2, Some (9, Raw)));
  ((9, EPOLLIN), (second 2, None))].
Definition next_batch := [((9, EPOLLIN), (second 2, @None (Z * ChannelType)))].
Definition after_accept := get_ok demo_server (poll demo_cb accept_batch demo_loop).
Definition after_stale := get_ok demo_server (poll demo_cb stale_batch after_accept).
Definition after_next := get_ok demo_server (poll demo_cb next_batch after_stale).
Definition in_worker := let s := get_ok demo_server (poll demo_cb next_batch after_accept) in set_work [] [OnRead 9] s.
Definition timeout_batch := [((5, EPOLLIN), (second 4, @None (Z * ChannelType)))].
Definition after_timeout := get_ok demo_server (poll demo_cb timeout_batch in_worker).

Ltac run_batch b := apply (poll_steps demo_cb b); [reflexivity|batch_reported|batch_accepted|vm_compute; reflexivity].

Lemma reach_accept : rtc (loop_step demo_cb always) (demo_loop, []) (after_accept, []).
Proof. run_batch accept_batch. Qed.

Lemma reach_next : rtc (loop_step demo_cb always) (demo_loop, []) (after_next, []).
Proof.
  etrans; [exact reach_accept|]. transitivity (after_stale, @nil (Z * Z)); [run_batch stale_batch|run_batch next_batch].
Qed.

Lemma reach_timeout : rtc (loop_step demo_cb always) (demo_loop, []) (after_timeout, []).
Proof.
  etrans; [exact reach_accept|]. transitivity (in_worker, @nil (Z * Z)); [|run_batch timeout_batch].
  eapply rtc_r; [run_batch next_batch|]. unfold in_worker.
  apply (loop_take demo_cb always (get_ok demo_server (poll demo_cb next_batch after_accept)) [] (OnRead 9) []).
  vm_compute. reflexivity.
Qed.

(** What the alive timer can do to the workers.  It closes a connection
    whose task is running and frees the channel under it, which the task then
    reads.  And it closes an idle connection of which an event is still waiting
    in the same batch: if a connection that is accepted in that batch gets the
    descriptor, the stale event is dispatched to it, its entry is still armed,
    and its own first event makes a second task: two workers get one
    connection. *)
Theorem timeout_races :
  (exists s, rtc (loop_step demo_cb always) (demo_loop, []) (s, []) /\ running_ s = [OnRead 9] /\ ~ is_open s 9
     /\ run_task demo_cb (OnRead 9) demo_outcome s = Err Undefined)
  /\ exists s, rtc (loop_step demo_cb always) (demo_loop, []) (s, []) /\ is_open s 9 /\ tasks_ s = [OnRead 9; OnRead 9].
Proof.
  split.
  - exists after_timeout. split; [exact reach_timeout|]. split; [by vm_compute|]. split; [|by vm_compute].
    intros [c E]. vm_compute in E. discriminate E.
  - exists after_next. split; [exact reach_next|]. split; [vm_compute; by eexists|by vm_compute].
Qed.
