(* ===== verification/WorkerPool.v ===== *)
(** * WorkerPool: the server on the threads of the pool

    Composes [TcpServer] and [EventLoop] with [ThreadPool]: the loop gives its
    tasks to [ThreadPool::add], a call that interleaves with the threads, which
    run [onRead] and [onWrite] on the server, each between its turns at the mutex
    and the condition variable.  The queue and the set of running tasks with which
    [EventLoop] is proved are what the pool implements. *)
From S2P Require Import Prelude CStr Buffer TimeStamp TimerHeap TimerQueue ThreadPool Channel TcpServer EventLoop.
Local Open Scope Z_scope.

Module WorkerPool.
Import EPoller TcpServer EventLoop.

Section composition.
Context {Ctx W : Type} (cb : callbacks Ctx W).
Implicit Types (s : TcpServer.t Ctx W) (p : list (Z * Z)) (q : ThreadPool.t task).

(** ** The composed system *)
(** The tasks a handler of the loop adds, which is the last it does: the calls
    of [add] begin. *)
Definition adds (xs : list task) q : ThreadPool.t task := foldl (fun q x => ThreadPool.add x q) q xs.

(** The tasks that the loop is about to push, those the threads are in, and all
    tasks of a connection. *)
Definition pushed (c : ThreadPool.caller task) : option task :=
  match c with ThreadPool.Pushing x => Some x | ThreadPool.Notifying => None end.
Definition queue q : list task := ThreadPool.tasks_ q ++ omap pushed (ThreadPool.callers q).
Definition in_threads q : list task := omap ThreadPool.busy (ThreadPool.threads_ q).
Definition pool_work q (fd : Z) : list task := filter (fun x => task_fd x = fd) (queue q ++ in_threads q).

(** A timeout that closes no connection which has a task or an event waiting. *)
Definition pool_calm (clock : TimeStamp.t) s p q : Prop :=
  Forall (fun fd => pool_work q fd = [] /\ pending p fd = []) (closes clock s).

(** The server, the events that are not dispatched yet, and the pool.  The
    server's own lists of tasks hold only what a handler has just added.  The
    thread of the loop goes on when its call of [add] has returned. *)
Abbreviation state := (TcpServer.t Ctx W * list (Z * Z) * ThreadPool.t task)%type.
Inductive pool_step : state -> state -> Prop :=
  | ps_poll s evs q :
      ThreadPool.callers q = [] -> quit_ s = false -> reportable s evs ->
      pool_step (s, [], q) (set_poller (report_all evs (poller_ s)) s, evs, q)
  | ps_dispatch s p e clock r s' q :
      ThreadPool.callers q = [] -> acceptable s r -> (e.1 = alive_fd s -> pool_calm clock s p q) ->
      dispatch_event cb clock r e s = Ok s' ->
      pool_step (s, e :: p, q) (set_work [] [] s', p, adds (tasks_ s') q)
  | ps_add s p q q' : ThreadPool.add_step q q' -> pool_step (s, p, q) (s, p, q')
  | ps_check s p q i :
      ThreadPool.lock_free q -> ThreadPool.threads_ q !! i = Some ThreadPool.Enter ->
      pool_step (s, p, q) (s, p, ThreadPool.check i q)
  | ps_wait s p q i :
      ThreadPool.threads_ q !! i = Some ThreadPool.WillWait ->
      pool_step (s, p, q) (s, p, ThreadPool.set_thread i ThreadPool.Waiting q)
  | ps_spurious s p q i :
      ThreadPool.threads_ q !! i = Some ThreadPool.Waiting ->
      pool_step (s, p, q) (s, p, ThreadPool.set_thread i ThreadPool.Enter q)
  | ps_finish s p q i x o s' :
      ThreadPool.threads_ q !! i = Some (ThreadPool.Busy x) -> run_task cb x o s = Ok s' ->
      pool_step (s, p, q) (s', p, ThreadPool.finish i x q).

(** ** The handlers do not look at the tasks *)
Lemma work_work ts rs ts' rs' s : set_work ts' rs' (set_work ts rs s) = set_work ts' rs' s.
Proof. done. Qed.

Lemma close_set_work ts rs fd s : handleConnectionClose fd (set_work ts rs s) = set_work ts rs (handleConnectionClose fd s).
Proof.
  unfold handleConnectionClose. change (conn_at fd (set_work ts rs s)) with (conn_at fd s).
  by destruct (disconnected_ _ || _).
Qed.

Lemma closes_set_work ts rs fds s :
  foldl (fun s fd => handleConnectionClose fd s) (set_work ts rs s) fds
  = set_work ts rs (foldl (fun s fd => handleConnectionClose fd s) s fds).
Proof. revert s. induction fds as [|fd fds IH]; intros s; [done|]. cbn [foldl]. by rewrite close_set_work, IH. Qed.

Lemma close_tasks fd s : tasks_ (handleConnectionClose fd s) = tasks_ s /\ running_ (handleConnectionClose fd s) = running_ s.
Proof. unfold handleConnectionClose. by destruct (disconnected_ _ || _). Qed.

Lemma closes_tasks fds s :
  let s' := foldl (fun s fd => handleConnectionClose fd s) s fds in tasks_ s' = tasks_ s /\ running_ s' = running_ s.
Proof.
  revert s. induction fds as [|fd fds IH]; intros s; [done|]. cbn [foldl].
  destruct (IH (handleConnectionClose fd s)) as [-> ->]. apply close_tasks.
Qed.

Lemma work_self s : set_work (tasks_ s) (running_ s) s = s.
Proof. by destruct s. Qed.

Lemma aliveTimeout_work ts rs clock s s' :
  tasks_ s = [] -> aliveTimeout clock s = Ok s' ->
  aliveTimeout clock (set_work ts rs s) = Ok (set_work (ts ++ tasks_ s') rs s').
Proof.
  intros Ht. unfold aliveTimeout, TimerQueue.handleTimeout. change (alive_timer_ (set_work ts rs s)) with (alive_timer_ s).
  set (h := TimerQueue.timer_heap_ (alive_timer_ s)). set (f := (1 + TimerHeap.size h)%nat).
  pose proof (timeoutLoop_log handleConnectionClose f clock h s []) as H1.
  pose proof (timeoutLoop_log handleConnectionClose f clock h (set_work ts rs s) []) as H2.
  destruct (TimerQueue.timeoutLoop (fun x l => l ++ [x]) f clock h []) as [[h' l]|].
  2:{ by rewrite H1. }
  destruct H1 as (k & -> & ->), H2 as (k' & Ek & ->). cbn in Ek. subst k'. intros [= <-]. cbn [tasks_ set_timer].
  destruct (closes_tasks k s) as [-> _]. rewrite Ht, app_nil_r, closes_set_work. done.
Qed.

Lemma connected_work ts rs clock fd ch s s' :
  handleConnected clock fd ch s = Ok s' ->
  handleConnected clock fd ch (set_work ts rs s) = Ok (set_work ts rs s') /\ tasks_ s' = tasks_ s.
Proof.
  unfold handleConnected. cbn. destruct (TimeStamp.nowMsecond _ _) as [x|]; [|done].
  destruct (TimerQueue.add _ _) as [y|]; [|done]. by intros [= <-].
Qed.

Lemma handler_work ts rs x clock s s' :
  tasks_ s = [] -> handleConnectionWork x clock s = Ok s' ->
  handleConnectionWork x clock (set_work ts rs s) = Ok (set_work (ts ++ tasks_ s') rs s').
Proof.
  intros Ht. unfold handleConnectionWork. change (conn_at (task_fd x) (set_work ts rs s)) with (conn_at (task_fd x) s).
  destruct (disconnected_ _ || _).
  - intros [= <-]. cbn. by rewrite Ht, app_nil_r.
  - cbn. destruct (TimeStamp.nowMsecond _ _) as [t|]; [|done]. destruct (TimerQueue.adjust _ _) as [u|]; [|done].
    intros [= <-]. cbn. by rewrite Ht.
Qed.

Lemma dispatch_work ts rs clock r e s s' :
  tasks_ s = [] -> dispatch_event cb clock r e s = Ok s' ->
  dispatch_event cb clock r e (set_work ts rs s) = Ok (set_work (ts ++ tasks_ s') rs s').
Proof.
  intros Ht. unfold dispatch_event. destruct (dispatch e.2).
  - intros [= <-]. unfold handleClose. rewrite close_set_work. destruct (close_tasks e.1 s) as [-> _]. by rewrite Ht, app_nil_r.
  - change (svr_fd (set_work ts rs s)) with (svr_fd s). destruct (e.1 =? svr_fd s).
    { unfold EventLoop.handleServerAccept. destruct r as [[fd ty]|].
      - intros H. apply (connected_work ts rs) in H as [H E]. rewrite E, Ht, app_nil_r. exact H.
      - intros [= <-]. by rewrite Ht, app_nil_r. }
    unfold handleRead, handleTimeout, handleConnectionRead.
    change (evfd_ (set_work ts rs s)) with (evfd_ s). change (alive_fd (set_work ts rs s)) with (alive_fd s).
    change (session_timer_ (set_work ts rs s)) with (session_timer_ s). change (session_fd (set_work ts rs s)) with (session_fd s).
    destruct (e.1 =? evfd_ s); [intros [= <-]; cbn; by rewrite Ht, app_nil_r|].
    destruct (_ || _); [|by apply handler_work].
    destruct (alive_fd s =? e.1); [by apply aliveTimeout_work|]. destruct (_ && _).
    + unfold sessionTimeout. cbn. destruct (session_timeout cb clock (owner_ s)) as [w|]; [|done].
      intros [= <-]. cbn. by rewrite Ht, app_nil_r.
    + intros [= <-]. by rewrite Ht, app_nil_r.
  - by apply handler_work.
  - intros [= <-]. by rewrite Ht, app_nil_r.
Qed.

(** A dispatch adds at most one task. *)
Lemma dispatch_one clock r e s s' :
  tasks_ s = [] -> dispatch_event cb clock r e s = Ok s' -> (length (tasks_ s') <= 1)%nat.
Proof.
  intros Ht. assert (forall x, handleConnectionWork x clock s = Ok s' -> (length (tasks_ s') <= 1)%nat) as Hw.
  { intros x. unfold handleConnectionWork. destruct (disconnected_ _ || _); [intros [= <-]; cbn; rewrite Ht; cbn; lia|]. cbn.
    destruct (TimeStamp.nowMsecond _ _) as [t|]; [|done]. destruct (TimerQueue.adjust _ _) as [u|]; [|done].
    intros [= <-]. cbn. rewrite Ht. cbn. lia. }
  assert (tasks_ s' = [] -> (length (tasks_ s') <= 1)%nat) as H0 by (intros ->; cbn; lia).
  unfold dispatch_event. destruct (dispatch e.2).
  - intros [= <-]. apply H0. unfold handleClose. destruct (close_tasks e.1 s) as [-> _]. exact Ht.
  - destruct (e.1 =? svr_fd s).
    { unfold EventLoop.handleServerAccept. destruct r as [[fd ty]|]; [|intros [= <-]; by apply H0].
      intros H. apply (connected_work [] []) in H as [_ E]. apply H0. by rewrite E. }
    unfold handleRead, handleTimeout, handleConnectionRead.
    destruct (e.1 =? evfd_ s); [intros [= <-]; by apply H0|]. destruct (_ || _); [|apply Hw].
    destruct (alive_fd s =? e.1).
    + unfold aliveTimeout, TimerQueue.handleTimeout.
      pose proof (timeoutLoop_log handleConnectionClose (1 + TimerHeap.size (TimerQueue.timer_heap_ (alive_timer_ s))) clock
        (TimerQueue.timer_heap_ (alive_timer_ s)) s []) as H1.
      destruct (TimerQueue.timeoutLoop (fun x l => l ++ [x]) _ clock _ []) as [[h' l]|]; [|by rewrite H1].
      destruct H1 as (k & -> & ->). intros [= <-]. cbn [tasks_ set_timer]. destruct (closes_tasks k s) as [-> _]. rewrite Ht. cbn. lia.
    + destruct (_ && _); [|intros [= <-]; by apply H0]. unfold sessionTimeout.
      destruct (session_timeout cb clock (owner_ s)) as [w|]; [|done]. intros [= <-]. by apply H0.
  - apply Hw.
  - intros [= <-]. by apply H0.
Qed.

Lemma run_task_work ts rs x o s s' :
  run_task cb x o s = Ok s' ->
  run_task cb x o (set_work ts rs s) = Ok (set_work ts rs s') /\ tasks_ s' = tasks_ s /\ running_ s' = running_ s.
Proof.
  destruct x as [fd|fd]; cbn [run_task].
  - unfold onRead. change (conn_at fd (set_work ts rs s)) with (conn_at fd s).
    destruct (channel_ (conn_at fd s)) as [ch|]; [|done]. cbn [of_option].
    destruct (TcpConnection.readAgain _ _ _ _) as [[[ch' n] again]|]; [|done].
    change (set_conn fd ?c (set_work ts rs s)) with (set_work ts rs (set_conn fd c s)). rewrite close_set_work.
    destruct (_ && _); [intros [= <-]; split; [done|]; by edestruct close_tasks as [-> ->]|]. destruct (_ =? 0)%nat; [by intros [= <-]|].
    change (owner_ (set_work ts rs ?x)) with (owner_ x). destruct (msg_cb cb _ _) as [[[d c'] w]|]; [|done].
    intros [= <-]. unfold called. by destruct (asked_timer cb w).
  - unfold onWrite. change (conn_at fd (set_work ts rs s)) with (conn_at fd s).
    destruct (channel_ (conn_at fd s)) as [ch|]; [|done]. cbn [of_option].
    destruct (TcpConnection.writeAgain _ _ _ _) as [[[[[ch' n] again] cflag] wire]|]; [|done].
    change (set_conn fd ?c (add_wire fd wire (set_work ts rs s))) with (set_work ts rs (set_conn fd c (add_wire fd wire s))). rewrite close_set_work.
    destruct (_ && _); [by intros [= <-]|]. destruct (_ && _); [by intros [= <-]|]. intros [= <-]. split; [done|]. by edestruct close_tasks as [-> ->].
Qed.

(** ** What the pool does to its tasks *)
Lemma insert_busy q i w w' :
  ThreadPool.threads_ q !! i = Some w ->
  option_list (ThreadPool.busy w) ++ omap ThreadPool.busy (<[i := w']> (ThreadPool.threads_ q))
  ≡ₚ option_list (ThreadPool.busy w') ++ in_threads q.
Proof. apply ThreadPool.omap_insert. Qed.

Lemma adds_spec xs q :
  ThreadPool.running_ q = true ->
  adds xs q = ThreadPool.set_callers (ThreadPool.callers q ++ (ThreadPool.Pushing <$> xs)) q.
Proof.
  unfold adds. revert q. induction xs as [|x xs IH]; intros q Hr; [rewrite app_nil_r; by destruct q|]. cbn [foldl].
  unfold ThreadPool.add at 2. rewrite Hr. cbn [negb]. rewrite IH by done. unfold ThreadPool.set_callers. cbn. by rewrite <- app_assoc.
Qed.

Lemma pushed_all (xs : list task) : omap pushed (ThreadPool.Pushing <$> xs) = xs.
Proof. induction xs as [|x xs IH]; [done|]. csimpl. by rewrite IH. Qed.

Lemma one_caller {A} (l l' : list A) (c : A) : (length (l ++ c :: l') <= 1)%nat -> l = [] /\ l' = [].
Proof. rewrite length_app. destruct l, l'; simpl; (done || lia). Qed.

(** A call of [add] goes on: the queue is as it was. *)
Lemma add_step_spec q q' :
  ThreadPool.add_step q q' -> (length (ThreadPool.callers q) <= 1)%nat ->
  queue q' = queue q /\ in_threads q' ≡ₚ in_threads q /\ ThreadPool.running_ q' = ThreadPool.running_ q
  /\ (length (ThreadPool.callers q') <= 1)%nat.
Proof.
  unfold queue. intros [l l' x Hc Hl|l l' q1 Hc Hn] Hle; rewrite Hc in Hle |- *; apply one_caller in Hle as [-> ->].
  - split; [cbn; by rewrite app_nil_r|]. split; [done|]. split; [done|cbn; lia].
  - destruct Hn as [i Hi|_]; cbn; (split; [done|]); (split; [|split; [done|lia]]); [|done].
    by apply (insert_busy q i ThreadPool.Waiting ThreadPool.Enter) in Hi.
Qed.

(** ** The simulation *)
(** The state of [EventLoop] that a state of the composed system stands for;
    the order in which the tasks run is not kept. *)
Definition stands_for (x : state) (a : TcpServer.t Ctx W * list (Z * Z)) : Prop :=
  exists rs, rs ≡ₚ in_threads x.2 /\ a = (set_work (queue x.2) rs x.1.1, x.1.2).
Definition up (x : state) : Prop :=
  tasks_ x.1.1 = [] /\ running_ x.1.1 = [] /\ ThreadPool.running_ x.2 = true /\ (length (ThreadPool.callers x.2) <= 1)%nat.

Lemma calm_pool clock s p q rs :
  rs ≡ₚ in_threads q -> pool_calm clock s p q -> calm clock (set_work (queue q) rs s) p.
Proof.
  intros Hrs Hc. eapply Forall_impl; [exact Hc|]. intros fd [Hw Hp]. split; [|done].
  apply Permutation_nil_r. unfold work, pool_work in *. cbn. by rewrite Hrs, Hw.
Qed.

(** A thread looks at the queue. *)
Lemma check_sim s p q i a :
  up (s, p, q) -> stands_for (s, p, q) a -> ThreadPool.threads_ q !! i = Some ThreadPool.Enter ->
  up (s, p, ThreadPool.check i q)
  /\ exists b, stands_for (s, p, ThreadPool.check i q) b /\ rtc (loop_step cb calm) a b.
Proof.
  intros (Ht & Hr & Hu & Hc) (rs & Hrs & ->) Hi. cbn [fst snd] in *. unfold ThreadPool.check. destruct (ThreadPool.tasks_ q) as [|x ts] eqn:Et.
  - split; [done|]. eexists. split; [|apply rtc_refl]. exists rs. split; [|done]. rewrite Hrs.
    symmetry. pose proof (insert_busy q i _ (if ThreadPool.running_ q then ThreadPool.WillWait else ThreadPool.Exited) Hi) as Hb.
    rewrite Hu in *. exact Hb.
  - split; [done|]. unfold stands_for, queue. cbn [fst snd]. rewrite Et. eexists.
    split; [|apply rtc_once; by apply (loop_take cb calm (set_work (x :: ts ++ omap pushed (ThreadPool.callers q)) rs s) p x (ts ++ omap pushed (ThreadPool.callers q)))].
    exists (rs ++ [x]). split; [|done]. rewrite Hrs.
    pose proof (insert_busy q i _ (ThreadPool.Busy x) Hi) as Hb. cbn in Hb. etrans; [apply Permutation_app_comm|symmetry; exact Hb].
Qed.

Lemma finish_sim s p q i x o s' a :
  up (s, p, q) -> stands_for (s, p, q) a -> ThreadPool.threads_ q !! i = Some (ThreadPool.Busy x) -> run_task cb x o s = Ok s' ->
  up (s', p, ThreadPool.finish i x q)
  /\ exists b, stands_for (s', p, ThreadPool.finish i x q) b /\ rtc (loop_step cb calm) a b.
Proof.
  intros (Ht & Hr & Hu & Hc) (rs & Hrs & ->) Hi H. cbn [fst snd] in *.
  pose proof (insert_busy q i _ ThreadPool.Enter Hi) as Hb. cbn in Hb.
  assert (x ∈ rs) as Hin by (rewrite Hrs, <- Hb; left). apply list_elem_of_split in Hin as (rs1 & rs2 & ->).
  destruct (run_task_work (queue q) (rs1 ++ rs2) _ _ _ _ H) as (H1 & H2 & H3).
  split; [unfold up; cbn; by rewrite H2, H3|].
  eexists. split; [|apply rtc_once; eapply (loop_finish cb calm (set_work (queue q) (rs1 ++ x :: rs2) s)); [reflexivity|exact H1]].
  exists (rs1 ++ rs2). split; [|done]. apply (Permutation_cons_inv (a := x)). rewrite Permutation_middle, Hrs. symmetry. exact Hb.
Qed.

Lemma pool_step_sim x y a :
  up x -> stands_for x a -> pool_step x y ->
  up y /\ exists b, stands_for y b /\ rtc (loop_step cb calm) a b.
Proof.
  intros Hup Ha H.
  destruct H as [s evs q Hc Hq Hev|s p e clock r s' q Hc Hacc Hg H|s p q q' H|s p q i Hl Hi|s p q i Hi|s p q i Hi|s p q i x o s' Hi H];
    [| | |by apply check_sim| | |by eapply finish_sim]; destruct Hup as (Ht & Hr & Hu & Hle), Ha as (rs & Hrs & ->); cbn [fst snd] in *.
  - split; [done|]. eexists. split; [by exists rs|]. apply rtc_once. by apply (loop_poll cb calm (set_work (queue q) rs s)).
  - pose proof (dispatch_one _ _ _ _ _ Ht H) as H1. rewrite adds_spec by done. rewrite Hc. cbn [app].
    split; [unfold up; cbn [fst snd ThreadPool.callers ThreadPool.set_callers ThreadPool.running_]; by rewrite length_fmap|].
    eexists. split; [exists rs; split; [exact Hrs|reflexivity]|]. apply rtc_once. cbn [fst snd].
    assert (queue (ThreadPool.set_callers (ThreadPool.Pushing <$> tasks_ s') q) = queue q ++ tasks_ s') as ->
      by (unfold queue; cbn; by rewrite Hc, pushed_all, app_nil_r).
    rewrite work_work. eapply (loop_dispatch cb calm); [exact Hacc|intros E; by apply calm_pool, Hg|by apply dispatch_work].
  - destruct (add_step_spec _ _ H Hle) as (H1 & H2 & H3 & H4). split; [unfold up; cbn; by rewrite H3|].
    eexists. split; [|apply rtc_refl]. exists rs. cbn [fst snd]. by rewrite H2, H1.
  - split; [done|]. eexists. split; [|apply rtc_refl]. exists rs. split; [|done]. rewrite Hrs. symmetry. by apply (insert_busy q i _ ThreadPool.Waiting) in Hi.
  - split; [done|]. eexists. split; [|apply rtc_refl]. exists rs. split; [|done]. rewrite Hrs. symmetry. by apply (insert_busy q i _ ThreadPool.Enter) in Hi.
Qed.

(** Before the first event. *)
Lemma fresh_up s n : fresh s -> up (s, [], ThreadPool.new n) /\ stands_for (s, [], ThreadPool.new n) (s, []).
Proof.
  intros (_ & Ht & Hr & _). split; [repeat split; [done..|cbn; lia]|]. exists []. split; [cbn; by induction n|]. cbn. f_equal.
  rewrite <- (work_self s) at 1. by rewrite Ht, Hr.
Qed.

(** What happens to the pool is a run of [ThreadPool]. *)
Lemma adds_steps xs q : rtc ThreadPool.step q (adds xs q).
Proof.
  unfold adds. revert q. induction xs as [|x xs IH]; intros q; [done|]. eapply rtc_l; [apply (ThreadPool.step_call _ x)|apply IH].
Qed.

Lemma pool_part x y : pool_step x y -> rtc ThreadPool.step x.2 y.2.
Proof.
  destruct 1 as [s evs q _ _ _|s p e clock r s' q _ _ _ _|s p q q' H|s p q i Hl Hi|s p q i Hi|s p q i Hi|s p q i x o s' Hi _]; cbn [snd].
  - done.
  - apply adds_steps.
  - by apply rtc_once, ThreadPool.step_add.
  - by apply rtc_once, ThreadPool.step_run, ThreadPool.run_check.
  - by apply rtc_once, ThreadPool.step_run, ThreadPool.run_wait.
  - by apply rtc_once, ThreadPool.step_spurious.
  - by apply rtc_once, ThreadPool.step_run, ThreadPool.run_finish.
Qed.

Lemma in_threads_length q : (length (in_threads q) <= length (ThreadPool.threads_ q))%nat.
Proof. unfold in_threads. induction (ThreadPool.threads_ q) as [|[] l IH]; csimpl; lia. Qed.

(** The invariant of the event loop, for the tasks of the pool. *)
Lemma pool_exclusive s p q rs fd :
  rs ≡ₚ in_threads q -> good (set_work (queue q) rs s, p) -> ~ reserved s fd ->
  (length (pool_work q fd) + length (pending p fd) <= 1)%nat
  /\ (pool_work q fd <> [] \/ pending p fd <> [] -> is_open s fd /\ exists i, poller_ s !! fd = Some i /\ armed i = false)
  /\ (is_open s fd -> pool_work q fd = [] -> pending p fd = [] -> exists i, poller_ s !! fd = Some i /\ armed i = true).
Proof.
  intros Hrs Hg Hn. destruct (good_exclusive _ _ fd Hg Hn) as (H1 & H2 & H3).
  assert (work (set_work (queue q) rs s) fd ≡ₚ pool_work q fd) as Hw by (unfold work, pool_work; cbn; by rewrite Hrs).
  rewrite Hw in H1. split; [done|]. split.
  - intros [Hne|Hne]; apply H2; [left|by right]. intros E. apply Hne, Permutation_nil_r. by rewrite <- Hw, E.
  - intros Ho Hw0. apply H3; [exact Ho|]. apply Permutation_nil_r. by rewrite Hw, Hw0.
Qed.

End composition.
End WorkerPool.
