(* ===== verification/EventRun.v ===== *)
(** * EventRun: runs of the event loop as programs

    The environment of the event loop, what [epoll_wait] reports, when each event
    is dispatched, which worker goes on and what its system calls return, is
    given as a list of commands; [exec] computes what the server does with each.
    Its runs are the runs of [EventLoop.loop_step].  A connection that the
    server waits for goes through cycles: its event is reported and dispatched, a
    worker takes its task, and finishes it. *)
From S2P Require Import Prelude CStr Buffer TimeStamp TimerHeap TimerQueue Channel TcpServer EventLoop.
Local Open Scope Z_scope.

Module EventRun.
Import EPoller TcpServer EventLoop.

#[export] Instance dispatched_eq_dec : EqDecision dispatched.
Proof. solve_decision. Defined.

Section run.
Context {Ctx W : Type} (cb : callbacks Ctx W).
Implicit Types (s : TcpServer.t Ctx W) (c : conn Ctx) (p evs : list (Z * Z)).

Notation state := (TcpServer.t Ctx W * list (Z * Z))%type.

(** ** Commands *)
Inductive cmd :=
  | Wait (evs : list (Z * Z))
  | Dispatch (clock : TimeStamp.t) (r : option (Z * ChannelType))
  | Take
  | Finish (k : nat) (o : outcome).

#[export] Instance armed_dec s (fd : Z) : Decision (exists i, poller_ s !! fd = Some i /\ armed i = true).
Proof.
  destruct (poller_ s !! fd) as [i|] eqn:E; [|right; by intros (i & ? & _)].
  destruct (armed i) eqn:Ea; [left; by exists i|right; intros (j & [= <-] & H); congruence].
Defined.
#[export] Instance reportable_dec s evs : Decision (reportable s evs).
Proof. unfold reportable. apply _. Defined.
#[export] Instance acceptable_dec s (r : option (Z * ChannelType)) : Decision (acceptable s r).
Proof. destruct r as [[fd ty]|]; cbn; unfold is_open; apply _. Defined.
#[export] Instance calm_dec (clock : TimeStamp.t) s p : Decision (calm clock s p).
Proof. unfold calm. apply _. Defined.

Definition ok {A} (x : result A) : option A := match x with Ok a => Some a | Err _ => None end.

(** [None]: the command is not possible, or what it starts is undefined. *)
Definition exec (a : cmd) (x : state) : option state :=
  let '(s, p) := x in
  match a, p with
  | Wait evs, [] => if decide (quit_ s = false /\ reportable s evs) then Some (set_poller (report_all evs (poller_ s)) s, evs) else None
  | Wait _, _ :: _ => None
  | Dispatch _ _, [] => None
  | Dispatch clock r, e :: p =>
      if decide (acceptable s r /\ (e.1 = alive_fd s -> calm clock s p)) then
        (fun u => (u, p)) <$> ok (dispatch_event cb clock r e s)
      else None
  | Take, _ => match tasks_ s with x :: ts => Some (set_work ts (running_ s ++ [x]) s, p) | [] => None end
  | Finish k o, _ =>
      match running_ s !! k with
      | Some x => (fun u => (u, p)) <$> ok (run_task cb x o (set_work (tasks_ s) (delete k (running_ s)) s))
      | None => None
      end
  end.

Fixpoint exec_all (l : list cmd) (x : state) : option state :=
  match l with [] => Some x | a :: l => match exec a x with Some y => exec_all l y | None => None end end.

Lemma exec_all_app l1 l2 x : exec_all (l1 ++ l2) x = match exec_all l1 x with Some y => exec_all l2 y | None => None end.
Proof. revert x. induction l1 as [|a l1 IH]; intros x; [done|]. cbn [app exec_all]. by destruct (exec a x). Qed.

(** ** The commands are the steps *)
Lemma exec_step a x y : exec a x = Some y -> loop_step cb calm x y.
Proof.
  destruct x as [s p], a as [evs|clock r| |k o]; cbn [exec].
  - destruct p; [|done]. destruct (decide _) as [[Hq Hr]|]; [|done]. intros [= <-]. by apply loop_poll.
  - destruct p as [|e p]; [done|]. destruct (decide _) as [[Ha Hg]|]; [|done].
    destruct (dispatch_event cb clock r e s) as [u|] eqn:E; [|done]. intros [= <-]. by eapply loop_dispatch.
  - destruct (tasks_ s) as [|w ts] eqn:E; [done|]. intros [= <-]. by apply loop_take.
  - destruct (running_ s !! k) as [w|] eqn:E; [|done].
    destruct (run_task cb w o _) as [u|] eqn:Er; [|done]. intros [= <-].
    apply (loop_finish cb calm s p w (take k (running_ s)) (drop (S k) (running_ s)) o); [symmetry; by apply take_drop_middle|].
    by rewrite <- delete_take_drop.
Qed.

Lemma exec_all_steps l x y : exec_all l x = Some y -> rtc (loop_step cb calm) x y.
Proof.
  revert x. induction l as [|a l IH]; intros x; cbn [exec_all]; [by intros [= ->]|].
  destruct (exec a x) as [z|] eqn:E; [|done]. intros H. eapply rtc_l; [by eapply exec_step|by apply IH].
Qed.

Lemma step_exec x y : loop_step cb calm x y -> exists a, exec a x = Some y.
Proof.
  intros [s evs Hq Hr|s p e clock r s' Ha Hg H|s p w ts E|s p w rs1 rs2 o s' E H].
  - exists (Wait evs). cbn [exec]. by rewrite decide_True.
  - exists (Dispatch clock r). cbn [exec]. by rewrite decide_True, H.
  - exists Take. cbn [exec]. by rewrite E.
  - exists (Finish (length rs1) o). cbn [exec]. rewrite E, list_lookup_middle by done.
    rewrite delete_take_drop, take_app_length, <- Nat.add_1_r, drop_past. by rewrite H.
Qed.

(** ** A connection that the server waits for *)

(** What the alive timer knows of a connection whose last event was dispatched
    at [clock]. *)
Definition timer_ok (fd : Z) (clock : TimeStamp.t) s : Prop :=
  TimerHeap.Inv (TimerQueue.timer_heap_ (alive_timer_ s))
  /\ 0 <= TimeStamp.microsecond_ clock < 2 ^ 63 /\ 0 <= idle_timeout_ s <= 2147483
  /\ forall ts f, TimerHeap.abs (TimerQueue.timer_heap_ (alive_timer_ s)) !! fd = Some (ts, f) ->
       TimeStamp.microsecond_ ts <= TimeStamp.microsecond_ clock + idle_timeout_ s * 1000.

(** The loop runs, no task waits for a worker, and the connection [c] is open
    and armed for [ev].  Other connections may be with workers. *)
Record ready (fd ev : Z) (clock : TimeStamp.t) s c (ch : Channel.t Buffer.t) : Prop := Ready {
  r_run : quit_ s = false; r_tasks : tasks_ s = []; r_own : ~ reserved s fd;
  r_conn : conns_ s !! fd = Some c; r_open : disconnected_ c = false; r_channel : channel_ c = Some ch;
  r_armed : poller_ s !! fd = Some (Interest (Z.lor ev kConnectionEvent) true);
  r_timer : timer_ok fd clock s }.

(** One cycle, while [n] other tasks are with workers. *)
Definition cycle (n : nat) (fd ev : Z) (clock : TimeStamp.t) (o : outcome) : list cmd :=
  [Wait [(fd, ev)]; Dispatch clock None; Take; Finish n o].

(** When the worker starts: the entry is disarmed and the timer moved. *)
Definition taken (fd : Z) (q : TimerQueue.t Z) s : TcpServer.t Ctx W := set_timer q (set_poller (report fd (poller_ s)) s).

Lemma adjust_ok fd clock0 clock s :
  timer_ok fd clock0 s -> TimeStamp.microsecond_ clock0 <= TimeStamp.microsecond_ clock < 2 ^ 63 ->
  exists ts q, TimeStamp.nowMsecond clock (idle_timeout_ s) = Ok ts
    /\ TimerQueue.adjust (mkTimer fd ts None) (alive_timer_ s) = Ok q /\ timer_ok fd clock (taken fd q s).
Proof.
  intros (HI & Hc0 & Hi & Hle) Hc. unfold TimeStamp.nowMsecond. rewrite TimeStamp.millsecond_small by done.
  set (ts := TimeStamp.add clock _).
  assert (TimeStamp.microsecond_ ts = TimeStamp.microsecond_ clock + idle_timeout_ s * 1000) as Ets.
  { unfold ts, TimeStamp.add. cbn. rewrite u64_small; lia. }
  destruct (TimerHeap.adjust_spec (mkTimer fd ts None) _ HI) as (h & E & HI' & Ha).
  { intros t f E. apply Hle in E. cbn [timestamp]. rewrite Ets. lia. }
  exists ts. eexists. split; [done|]. split; [unfold TimerQueue.adjust; by rewrite E|]. split; [done|]. split; [cbn; lia|]. split; [done|].
  intros t f. cbn. rewrite Ha, lookup_alter_eq. cbn. destruct (TimerHeap.abs _ !! fd) as [[t0 f0]|]; [|done].
  intros [= <- _]. rewrite Ets. lia.
Qed.

Lemma conn_at_lookup fd c s : conns_ s !! fd = Some c -> conn_at fd s = c.
Proof. unfold conn_at. by intros ->. Qed.

(** The event is dispatched: the task is the only one of the queue. *)
Lemma work_taken fd ev clock0 clock s c ch x :
  ready fd ev clock0 s c ch -> task_fd x = fd ->
  TimeStamp.microsecond_ clock0 <= TimeStamp.microsecond_ clock < 2 ^ 63 ->
  exists q, timer_ok fd clock (taken fd q s)
    /\ handleConnectionWork x clock (set_poller (report fd (poller_ s)) s) = Ok (set_work [x] (running_ s) (taken fd q s)).
Proof.
  intros [Hq Ht Hn Hc Ho Hch Ha Hti] Hx Hcl. destruct (adjust_ok fd clock0 clock s Hti Hcl) as (ts & q & E1 & E2 & Hti').
  exists q. split; [done|]. unfold handleConnectionWork. rewrite Hx.
  set (s1 := set_poller _ s). assert (conn_at fd s1 = c) as -> by by apply conn_at_lookup. rewrite Ho, Hch. cbn [orb].
  cbn [idle_timeout_ set_conn alive_timer_ s1 set_poller]. rewrite E1, E2. f_equal.
  unfold pool_add, set_work, set_timer, set_conn, taken, set_poller, s1. cbn.
  by rewrite insert_id, Ht by done.
Qed.

Lemma report_lookup fd s i :
  poller_ s !! fd = Some i -> Z.land (events i) EPOLLONESHOT <> 0 -> report fd (poller_ s) !! fd = Some (Interest (events i) false).
Proof. intros. by apply lookup_report_one_shot. Qed.

(** A cycle runs the task. *)
Lemma cycle_exec fd ev clock0 clock s c ch x o :
  ready fd ev clock0 s c ch -> (ev, x) = (EPOLLIN, OnRead fd) \/ (ev, x) = (EPOLLOUT, OnWrite fd) ->
  TimeStamp.microsecond_ clock0 <= TimeStamp.microsecond_ clock < 2 ^ 63 ->
  exists q, timer_ok fd clock (taken fd q s)
    /\ forall s', run_task cb x o (taken fd q s) = Ok s' ->
         exec_all (cycle (length (running_ s)) fd ev clock o) (s, []) = Some (s', []).
Proof.
  intros Hr Hev Hcl. pose proof Hr as [Hq Ht Hn Hc Ho Hch Ha Hti].
  destruct (work_taken fd ev clock0 clock s c ch x Hr) as (q & Hti' & E); [by destruct Hev as [[= _ ->]|[= _ ->]]|done|].
  exists q. split; [done|]. intros s' Hrun. unfold cycle. cbn [exec_all exec].
  rewrite decide_True.
  2:{ split; [done|]. split; [simpl; lia|]. split; [apply NoDup_singleton|]. apply Forall_cons. split; [|by apply Forall_nil].
      split; [by eexists|]. split; [by destruct Hev as [[= -> _]|[= -> _]]|done]. }
  change (report_all [(fd, ev)] (poller_ s)) with (report fd (poller_ s)).
  cbn [exec]. rewrite decide_True.
  2:{ split; [done|]. intros E3. destruct Hn. cbn in E3. unfold reserved. tauto. }
  assert (dispatch_event cb clock None (fd, ev) (set_poller (report fd (poller_ s)) s) = Ok (set_work [x] (running_ s) (taken fd q s))) as ->.
  { unfold dispatch_event. cbn [fst snd]. destruct Hev as [[= -> ->]|[= -> ->]].
    - change (dispatch EPOLLIN) with ReadCb. cbv iota. rewrite (proj2 (Z.eqb_neq _ _)).
      + rewrite connection_read by done. exact E.
      + intros E3. apply Hn. cbn in E3. unfold reserved. tauto.
    - exact E. }
  cbn [ok fmap option_fmap option_map exec tasks_ set_work running_]. rewrite list_lookup_middle by done.
  rewrite delete_take_drop, take_app_length, <- Nat.add_1_r, drop_past, app_nil_r.
  assert (set_work [] (running_ s) (set_work [] (running_ s ++ [x]) (set_work [x] (running_ s) (taken fd q s))) = taken fd q s) as ->.
  { unfold set_work, taken, set_timer, set_poller. cbn. by rewrite Ht. }
  by rewrite Hrun.
Qed.

(** *** What a task leaves *)
Lemma taken_ready fd ev ev' clock0 clock q s s1 c c' ch ch' :
  ready fd ev clock0 s c ch -> timer_ok fd clock (taken fd q s) -> left_behind cb (taken fd q s) s1 ->
  disconnected_ c' = false -> channel_ c' = Some ch' -> ready fd ev' clock (rearm fd ev' (set_conn fd c' s1)) c' ch'.
Proof.
  intros [Hq Ht Hn Hc Ho Hch Ha _] Hti Hl Hd' Hc'.
  assert (quit_ s1 = false /\ tasks_ s1 = [] /\ ~ reserved s1 fd /\ is_Some (poller_ s1 !! fd) /\ timer_ok fd clock s1) as (H1 & H2 & H3 & H4 & H5).
  { assert (is_Some (poller_ (taken fd q s) !! fd)) as Hp.
    { unfold taken. cbn. rewrite (report_lookup fd s _ Ha); [by eexists|]. apply (connection_event_one_shot ev true). }
    destruct Hl as [|w|fd' b]; [done| |done]. unfold called. destruct (asked_timer cb w); [|done].
    do 3 (split; [done|]). split; [|done]. cbn. rewrite lookup_add. case_decide; [by eexists|]. exact Hp. }
  split; [done|done|done| |done|done| |done].
  - cbn. by rewrite lookup_insert_eq.
  - cbn. by rewrite lookup_update, decide_True.
Qed.

(** *** A new connection *)
(** A server that waits for connections. *)
Definition listening (clock : TimeStamp.t) s : Prop :=
  quit_ s = false /\ tasks_ s = [] /\ (exists i, poller_ s !! svr_fd s = Some i /\ armed i = true)
  /\ svr_fd s <> alive_fd s /\ TimerHeap.Inv (TimerQueue.timer_heap_ (alive_timer_ s))
  /\ 0 <= TimeStamp.microsecond_ clock < 2 ^ 63 /\ 0 <= idle_timeout_ s <= 2147483.

(** A server that was just started waits for connections, and is not a party to
    any yet. *)
Lemma start_listening evfd svr alive session idle sendfile w mono clock s :
  NoDup [evfd; svr; alive; session] -> 0 <= idle <= 2147483 -> 0 <= TimeStamp.microsecond_ clock < 2 ^ 63 ->
  start mono (new evfd svr alive session idle sendfile w) = Ok s ->
  listening clock s /\ running_ s = [] /\ wire_ s = []
  /\ forall fd, ~ reserved s fd -> ~ is_open s fd /\ poller_ s !! fd = None.
Proof.
  intros Hd Hid Hcl E. pose proof (start_fresh _ _ _ _ _ _ _ _ _ Hd E) as (Hc & _ & Hru & _ & Hp).
  revert E Hc Hru Hp. unfold start, new. cbn. rewrite TimeStamp.millsecond_small by done. intros [= <-] _ _ Hp.
  apply NoDup_cons in Hd as [Ha Hd]. apply NoDup_cons in Hd as [Hb _]. rewrite !not_elem_of_cons in Ha, Hb.
  split; [|split; [done|split; [done|]]].
  - split; [done|]. split; [done|]. split; [|split; [cbn; tauto|split; [|done]]].
    + cbn. rewrite lookup_add, decide_True; [by eexists|]. split; [done|].
      rewrite !lookup_add. repeat (rewrite decide_False by (intros [-> _]; tauto)). apply (lookup_empty (M := gmap Z)).
    + unfold TimerQueue.runEvery, TimerQueue.settime. cbn. case_match; apply TimerHeap.Inv_empty.
  - intros fd Hn. split; [|by apply Hp]. unfold is_open, conn_at. cbn. rewrite lookup_empty. by intros [? ?].
Qed.

Definition connect (fd : Z) (ty : ChannelType) (clock : TimeStamp.t) s : list cmd :=
  [Wait [(svr_fd s, EPOLLIN)]; Dispatch clock (Some (fd, ty))].

Lemma connect_exec fd ty clock s :
  listening clock s -> ~ reserved s fd -> ~ is_open s fd -> poller_ s !! fd = None ->
  exists s', exec_all (connect fd ty clock s) (s, []) = Some (s', [])
    /\ ready fd EPOLLIN clock s' (Conn false false None (Some (new_channel ty s))) (new_channel ty s)
    /\ owner_ s' = owner_ s /\ wire_ s' = wire_ s /\ running_ s' = running_ s.
Proof.
  intros (Hq & Ht & (i & Hi & Hai) & Hne & HI & Hcl & Hid) Hn Ho Hp.
  set (s1 := set_poller (report (svr_fd s) (poller_ s)) s).
  assert (exists s', handleConnected clock fd (new_channel ty s) s1 = Ok s'
    /\ ready fd EPOLLIN clock s' (Conn false false None (Some (new_channel ty s))) (new_channel ty s)
    /\ owner_ s' = owner_ s /\ wire_ s' = wire_ s /\ running_ s' = running_ s) as (s' & E & H).
  { unfold handleConnected. cbn [idle_timeout_ alive_timer_ set_conn set_poller s1]. unfold TimeStamp.nowMsecond.
    rewrite TimeStamp.millsecond_small by done. unfold TimerQueue.add.
    destruct (TimerHeap.push_spec (mkTimer fd (TimeStamp.add clock (TimeStamp.Make (idle_timeout_ s * 1000))) (Some fd)) _ HI) as (h & -> & HI' & Ha).
    eexists. split; [reflexivity|]. split; [|done]. split; [done|done|done| |done|done| |].
    - cbn. by rewrite lookup_insert_eq.
    - cbn. rewrite lookup_add, decide_True; [done|]. split; [done|]. rewrite lookup_report_ne; [done|]. intros <-. by rewrite Hi in Hp.
    - split; [done|]. split; [done|]. split; [done|]. intros ts f. cbn. rewrite Ha. cbn. rewrite lookup_insert_eq.
      intros [= <- _]. unfold TimeStamp.add. cbn. rewrite u64_small; lia. }
  exists s'. split; [|done]. unfold connect. cbn [exec_all exec]. rewrite decide_True.
  2:{ split; [done|]. split; [simpl; lia|]. split; [apply NoDup_singleton|]. apply Forall_cons. split; [|by apply Forall_nil].
      split; [by exists i|]. split; [done|done]. }
  change (report_all [(svr_fd s, EPOLLIN)] (poller_ s)) with (report (svr_fd s) (poller_ s)). fold s1. cbn [exec].
  rewrite decide_True by (split; [by split|intros E3; by destruct Hne]).
  unfold dispatch_event. cbn [fst snd]. change (dispatch EPOLLIN) with ReadCb. cbv iota. change (svr_fd s1) with (svr_fd s).
  rewrite Z.eqb_refl. cbn [handleServerAccept]. change (new_channel ty s1) with (new_channel ty s). by rewrite E.
Qed.

(** ** Reading *)
(** What [getError] returns when there is nothing more to read. *)
Definition retry (ty : ChannelType) : Z :=
  match ty with Raw => TcpConnection.EAGAIN | Ssl => TcpConnection.SSL_ERROR_WANT_READ end.

(** The cycle in which the worker reads [chunks] until there is nothing more. *)
Definition read_cycle (n : nat) (fd : Z) (clock : TimeStamp.t) (ty : ChannelType) (chunks : list bytes) : list cmd :=
  cycle n fd EPOLLIN clock (Outcome chunks [] (-1) (retry ty)).

Lemma read_cycle_exec fd clock0 clock s c ch chunks :
  ready fd EPOLLIN clock0 s c ch -> TimeStamp.microsecond_ clock0 <= TimeStamp.microsecond_ clock < 2 ^ 63 ->
  Buffer.wf (Channel.recver_ ch) -> mjoin chunks <> [] ->
  exists r, Buffer.wf r /\ Buffer.contents r = Buffer.contents (Channel.recver_ ch) ++ mjoin chunks
    /\ forall done c' ch' w',
      msg_cb cb (Conn false (keep_alive_ c) (context_ c) (Some (Channel.set_recver r ch))) (owner_ s) = Ok (done, c', w') ->
      disconnected_ c' = false -> channel_ c' = Some ch' ->
      exists s', exec_all (read_cycle (length (running_ s)) fd clock (Channel.channel_type ch) chunks) (s, []) = Some (s', [])
        /\ ready fd (if done then EPOLLOUT else EPOLLIN) clock s' c' ch'
        /\ owner_ s' = w' /\ wire_ s' = wire_ s /\ running_ s' = running_ s.
Proof.
  intros Hr Hcl Hw Hne. pose proof Hr as [_ _ _ Hc Ho Hch _ _].
  destruct (readAgain_recver (BQ := Buffer_ByteQueue) ch chunks (-1) (retry (Channel.channel_type ch)) Hw) as (r & Er & Hwr & Cr).
  exists r. split; [done|]. split; [done|]. intros done c' ch' w' Hm Hd' Hch'.
  destruct (cycle_exec fd EPOLLIN clock0 clock s c ch (OnRead fd) (Outcome chunks [] (-1) (retry (Channel.channel_type ch))) Hr ltac:(by left) Hcl)
    as (q & Hti & Hx).
  exists (rearm fd (if done then EPOLLOUT else EPOLLIN) (set_conn fd c' (called cb w' (taken fd q s)))).
  split; [|split; [|split; [|split]]].
  - apply Hx. cbn [run_task o_chunks o_n o_err]. unfold onRead. rewrite (conn_at_lookup fd c) by done.
    rewrite Hch. cbn [of_option]. rewrite Er.
    assert ((match Channel.channel_type ch with Raw => retry (Channel.channel_type ch) =? TcpConnection.EAGAIN
      | Ssl => retry (Channel.channel_type ch) =? TcpConnection.SSL_ERROR_WANT_READ end) = true) as -> by (by destruct (Channel.channel_type ch)).
    cbn [negb]. rewrite andb_false_r.
    assert (Buffer.readable r <> 0)%nat as Hr0.
    { pose proof (bq_contents_length (Q := Buffer.t) r Hwr) as Hl. change (bq_contents r) with (Buffer.contents r) in Hl.
      change (bq_readable r) with (Buffer.readable r) in Hl. rewrite <- Hl. change (bq_contents r) with (Buffer.contents r) in Cr.
      rewrite Cr, length_app. destruct (mjoin chunks); [done|simpl; lia]. }
    cbn [Channel.recver_ Channel.set_recver]. rewrite (proj2 (Nat.eqb_neq _ _) Hr0). rewrite Ho.
    change (owner_ (set_conn fd ?x (taken fd q s))) with (owner_ s). rewrite Hm.
    by rewrite called_set_conn, set_conn_twice.
  - eapply taken_ready; [exact Hr|exact Hti|constructor|done|done].
  - cbn. unfold called. by destruct (asked_timer cb w').
  - cbn. unfold called. by destruct (asked_timer cb w').
  - cbn. unfold called. by destruct (asked_timer cb w').
Qed.

(** ** Writing *)
Definition write_cycle (n : nat) (fd : Z) (clock : TimeStamp.t) (err : Z) (ns : list Z) : list cmd :=
  cycle n fd EPOLLOUT clock (Outcome [] ns 0 err).

Definition with_channel c (ch : Channel.t Buffer.t) : conn Ctx := Conn (disconnected_ c) (keep_alive_ c) (context_ c) (Some ch).

Lemma write_cycle_exec fd clock0 clock s c ch ns err w :
  ready fd EPOLLOUT clock0 s c ch -> TimeStamp.microsecond_ clock0 <= TimeStamp.microsecond_ clock < 2 ^ 63 ->
  Channel.write_loop Buffer.reset ns [] ch = Ok w -> err <> 0 ->
  exists s', exec_all (write_cycle (length (running_ s)) fd clock err ns) (s, []) = Some (s', [])
    /\ owner_ s' = owner_ s /\ wire_ s' = wire_ s ++ [(fd, Channel.w_wire w)] /\ running_ s' = running_ s
    /\ (Channel.w_n w < 0 -> ready fd EPOLLOUT clock s' (with_channel c (Channel.w_channel w)) (Channel.w_channel w))
    /\ (Channel.w_n w = 0 -> Channel.w_completed w = true ->
         if keep_alive_ c then ready fd EPOLLIN clock s' (with_channel c (Channel.w_channel w)) (Channel.w_channel w)
         else ~ is_open s' fd /\ poller_ s' !! fd = None).
Proof.
  intros Hr Hcl Hw Herr. pose proof Hr as [_ _ _ Hc Ho Hch _ _].
  destruct (cycle_exec fd EPOLLOUT clock0 clock s c ch (OnWrite fd) (Outcome [] ns 0 err) Hr ltac:(by right) Hcl) as (q & Hti & Hx).
  set (c' := with_channel c (Channel.w_channel w)). set (s1 := set_conn fd c' (add_wire fd (Channel.w_wire w) (taken fd q s))).
  assert (forall s', run_task cb (OnWrite fd) (Outcome [] ns 0 err) (taken fd q s) = Ok s' <->
    Ok (if (Channel.w_n w =? 0) && keep_alive_ c then rearm fd (if Channel.w_completed w then EPOLLIN else EPOLLOUT) s1
        else if (Channel.w_n w <? 0) && negb (err =? 0) then rearm fd EPOLLOUT s1 else handleConnectionClose fd s1) = Ok s') as Hrun.
  { intros s'. cbn [run_task o_writes o_err]. unfold onWrite. rewrite (conn_at_lookup fd c) by done. rewrite Hch. cbn [of_option].
    unfold TcpConnection.writeAgain. rewrite Hw. fold (with_channel c (Channel.w_channel w)). fold c' s1.
    cbn [keep_alive_ c' with_channel]. destruct (_ && keep_alive_ c); [done|]. by destruct (_ && negb _). }
  assert (forall ev, ready fd ev clock (rearm fd ev s1) c' (Channel.w_channel w)) as Hready.
  { intros ev. eapply taken_ready; [exact Hr|exact Hti|constructor|done|done]. }
  exists (if (Channel.w_n w =? 0) && keep_alive_ c then rearm fd (if Channel.w_completed w then EPOLLIN else EPOLLOUT) s1
        else if (Channel.w_n w <? 0) && negb (err =? 0) then rearm fd EPOLLOUT s1 else handleConnectionClose fd s1).
  split; [by apply Hx, Hrun|].
  assert (forall s', (exists ev, s' = rearm fd ev s1) \/ s' = handleConnectionClose fd s1 ->
    owner_ s' = owner_ s /\ wire_ s' = wire_ s ++ [(fd, Channel.w_wire w)] /\ running_ s' = running_ s) as Hsame.
  { intros s' [[ev ->]| ->]; [done|]. unfold handleConnectionClose. by destruct (_ || _). }
  split; [|split; [|split; [|split]]];
    [apply Hsame; repeat case_match; eauto..| |].
  - intros Hn. rewrite (proj2 (Z.eqb_neq _ _)) by lia. rewrite (proj2 (Z.ltb_lt _ _)) by lia.
    apply Z.eqb_neq in Herr. rewrite Herr. apply Hready.
  - intros Hn Hco. rewrite Hn, Hco. cbn [Z.eqb andb Z.ltb Z.compare]. destruct (keep_alive_ c); [apply Hready|].
    destruct (close_closed fd s1) as [H1 H2]; [..|by split; [intros [? H]; congruence|]];
      unfold s1, is_open; rewrite conn_at_set, decide_True by done; [exact Ho|by eexists].
Qed.

(** *** The rounds in which a response is written *)
(** In each the kernel takes no more than it is offered; the last one, and only
    it, completes. *)
Fixpoint rounds_ok (rounds : list (list Z)) (ch : Channel.t Buffer.t) : Prop :=
  match rounds with
  | [] => False
  | ns :: rounds =>
      calls_ok ns ch /\
      match Channel.write_loop Buffer.reset ns [] ch with
      | Ok w => if Channel.w_completed w then rounds = [] else rounds_ok rounds (Channel.w_channel w)
      | Err _ => False
      end
  end.

Definition write_cycles (n : nat) (fd : Z) (clock : TimeStamp.t) (err : Z) (rounds : list (list Z)) : list cmd :=
  mjoin (write_cycle n fd clock err <$> rounds).

(** What went on the wire of a descriptor. *)
Definition wire_of (fd : Z) (l : list (Z * bytes)) : bytes := mjoin (snd <$> filter (fun x => x.1 = fd) l).

Lemma wire_of_snoc fd l b : wire_of fd (l ++ [(fd, b)]) = wire_of fd l ++ b.
Proof.
  unfold wire_of. rewrite filter_app, filter_cons_True by done. rewrite fmap_app, join_app. f_equal. cbn. by rewrite app_nil_r.
Qed.

Lemma with_channel_twice c ch ch' : with_channel (with_channel c ch) ch' = with_channel c ch'.
Proof. done. Qed.

Lemma write_cycles_exec fd clock0 clock s c ch sent err rounds :
  ready fd EPOLLOUT clock0 s c ch -> TimeStamp.microsecond_ clock0 <= TimeStamp.microsecond_ clock < 2 ^ 63 -> err <> 0 ->
  sending ch sent -> sent <> total ch -> rounds_ok rounds ch ->
  exists s' rest, exec_all (write_cycles (length (running_ s)) fd clock err rounds) (s, []) = Some (s', [])
    /\ owner_ s' = owner_ s /\ running_ s' = running_ s
    /\ sent ++ rest = total ch /\ wire_of fd (wire_ s') = wire_of fd (wire_ s) ++ rest
    /\ if keep_alive_ c then
         exists ch0, same_kind ch ch0 /\ let ch' := Channel.reset Buffer.reset ch0 in ready fd EPOLLIN clock s' (with_channel c ch') ch'
       else ~ is_open s' fd /\ poller_ s' !! fd = None.
Proof.
  intros Hr Hcl Herr. assert (TimeStamp.microsecond_ clock <= TimeStamp.microsecond_ clock < 2 ^ 63) as Hcl2 by lia.
  revert clock0 s c ch sent Hr Hcl. induction rounds as [|ns rounds IH]; intros clock0 s c ch sent Hr Hcl Hs Hne Hok; [done|].
  destruct Hok as [Hc Hw]. destruct (Channel.write_loop Buffer.reset ns [] ch) as [w|] eqn:Ew; [|done].
  destruct (write_cycle_exec fd clock0 clock s c ch ns err w Hr Hcl Ew Herr) as (s1 & Ex & Eo & Ewi & Eru & Hn & Hz).
  assert (Channel.write_loop Buffer.reset ns sent ch = Ok (Channel.Written (Channel.w_channel w) (Channel.w_n w) (Channel.w_completed w) (sent ++ Channel.w_wire w))) as Ew'.
  { pose proof (write_loop_wire Buffer.reset ns sent [] ch) as H. by rewrite app_nil_r, Ew in H. }
  pose proof (write_loop_spec Buffer.reset ns sent ch _ Hs Hne Hc Ew') as Hsp. cbn [Channel.w_completed Channel.w_wire Channel.w_n Channel.w_channel] in Hsp.
  unfold write_cycles. rewrite fmap_cons. change (mjoin (?x :: ?y)) with (x ++ mjoin y). rewrite exec_all_app, Ex.
  destruct (write_loop_kind Buffer.reset ns [] ch w Ew) as [Hk Hdone].
  destruct (Channel.w_completed w) eqn:Eco.
  - rewrite Hw. destruct Hsp as (Ht & Hn0 & _). exists s1, (Channel.w_wire w). split; [done|]. do 3 (split; [done|]).
    split; [by rewrite Ewi, wire_of_snoc|]. specialize (Hz Hn0 eq_refl). destruct (keep_alive_ c); [|done].
    destruct Hdone as [?|(ch0 & Ech & Hk0)]; [lia|]. exists ch0. split; [done|]. cbv zeta. by rewrite Ech in Hz.
  - destruct Hsp as (Hneg & Hs1 & Ht1 & Hne1). rewrite <- Eru. specialize (Hn Hneg).
    destruct (IH clock s1 _ _ _ Hn Hcl2 Hs1) as (s2 & rest & E2 & Eo2 & Er2 & Et2 & Ew2 & Hfin); [by rewrite Ht1|done|].
    exists s2, (Channel.w_wire w ++ rest). split; [exact E2|]. split; [congruence|]. split; [congruence|].
    rewrite Ht1 in Et2. split; [by rewrite app_assoc|]. split; [by rewrite Ew2, Ewi, wire_of_snoc, app_assoc|].
    cbn [keep_alive_ with_channel] in Hfin. destruct (keep_alive_ c); [|done]. destruct Hfin as (ch0 & Hk0 & Hfin).
    exists ch0. split; [by eapply same_kind_trans|done].
Qed.

End run.
End EventRun.
