(* ===== verification/IdleTimeout.v ===== *)
(** * IdleTimeout: what the alive timer promises

    The specification is a clock and the time of the last activity of each
    connection: when it was accepted, or when its last event was dispatched.
    Along any run of the server in which the clock does not go back, the indexed
    heap of the alive timer implements it. *)
From S2P Require Import Prelude CStr Buffer TimeStamp TimerHeap TimerQueue Channel TcpServer EventLoop EventRun.
Local Open Scope Z_scope.

Module IdleTimeout.
Import EPoller TcpServer EventLoop EventRun.

Section idle.
Context {Ctx W : Type} (cb : callbacks Ctx W) (idle : Z).
Implicit Types (s : TcpServer.t Ctx W) (p : list (Z * Z)) (last : gmap Z Z).

(** ** The specification *)
(** Which connection a command is an activity of. *)
Definition active (a : cmd) (x : TcpServer.t Ctx W * list (Z * Z)) : option Z :=
  match a, x with
  | Dispatch _ r, (s, e :: _) =>
      match dispatch e.2 with
      | ReadCb => if e.1 =? svr_fd s then fst <$> r else Some e.1
      | WriteCb => Some e.1
      | _ => None
      end
  | _, _ => None
  end.

Definition touch (a : cmd) (x : TcpServer.t Ctx W * list (Z * Z)) (clock : TimeStamp.t) last : gmap Z Z :=
  match active a x with Some fd => <[fd := TimeStamp.microsecond_ clock]> last | None => last end.

(** A step, with the clock and the last activities. *)
Definition timed : Type := Z * gmap Z Z * (TcpServer.t Ctx W * list (Z * Z)).
Inductive timed_step : timed -> timed -> Prop :=
  | timed_dispatch now last x y clock r :
      exec cb (Dispatch clock r) x = Some y -> now <= TimeStamp.microsecond_ clock < 2 ^ 63 ->
      timed_step (now, last, x) (TimeStamp.microsecond_ clock, touch (Dispatch clock r) x clock last, y)
  | timed_other now last x y a :
      exec cb a x = Some y -> (forall clock r, a <> Dispatch clock r) -> timed_step (now, last, x) (now, last, y).

(** ** The relation with the heap *)
Definition heap s : TimerHeap.t Z := TimerQueue.timer_heap_ (alive_timer_ s).

Record represents (now : Z) last s : Prop := Represents {
  rep_inv : TimerHeap.Inv (heap s);
  rep_idle : idle_timeout_ s = idle /\ 0 <= idle <= 2147483;
  rep_now : 0 <= now < 2 ^ 63;
  rep_entry fd ts f : TimerHeap.abs (heap s) !! fd = Some (ts, f) ->
    f = Some fd /\ TimeStamp.microsecond_ ts <= now + idle_timeout_ s * 1000;
  rep_open fd : ~ reserved s fd -> is_open s fd -> exists t, last !! fd = Some t /\ t <= now
    /\ TimerHeap.abs (heap s) !! fd = Some (TimeStamp.Make (t + idle_timeout_ s * 1000), Some fd) }.

(** A step that leaves the timer alone and opens nothing. *)
Lemma represents_same now now' last last' s s' :
  represents now last s -> now <= now' < 2 ^ 63 ->
  (alive_timer_ s', idle_timeout_ s') = (alive_timer_ s, idle_timeout_ s) -> (forall fd, reserved s' fd <-> reserved s fd) ->
  (forall fd, ~ reserved s fd -> is_open s' fd -> is_open s fd /\ last' !! fd = last !! fd) -> represents now' last' s'.
Proof.
  intros [HI Hid Hn He Ho] Hle Hs Hr Hop. injection Hs as Ea Ei.
  split; unfold heap in *; rewrite ?Ea, ?Ei; [done|done|lia| |].
  - intros fd ts f E. apply He in E as [-> E]. split; [done|lia].
  - intros fd Hf Hof. rewrite Hr in Hf. destruct (Hop fd Hf Hof) as [Hof' El]. destruct (Ho fd Hf Hof') as (t & E & Ht & Hab).
    exists t. rewrite El. split; [done|]. split; [lia|done].
Qed.

(** *** The deadline *)
Lemma deadline_ok (clock : TimeStamp.t) ms :
  0 <= TimeStamp.microsecond_ clock < 2 ^ 63 -> 0 <= ms <= 2147483 ->
  TimeStamp.nowMsecond clock ms = Ok (TimeStamp.Make (TimeStamp.microsecond_ clock + ms * 1000)).
Proof.
  intros Hc Hi. unfold TimeStamp.nowMsecond. rewrite TimeStamp.millsecond_small by done. f_equal.
  unfold TimeStamp.add. cbn. rewrite u64_small by lia. done.
Qed.

(** *** Handlers *)
Lemma close_open fd fd' s : is_open (handleConnectionClose fd s) fd' -> is_open s fd'.
Proof.
  unfold is_open. destruct (decide (fd = fd')) as [<-|Hne]; [|by destruct (close_same fd fd' s Hne) as (-> & _)].
  unfold handleConnectionClose. destruct (_ || _); rewrite conn_at_set, decide_True by done; [done|by intros [? ?]].
Qed.

Lemma close_timer_kept fd s :
  (alive_timer_ (handleConnectionClose fd s), idle_timeout_ (handleConnectionClose fd s)) = (alive_timer_ s, idle_timeout_ s).
Proof. unfold handleConnectionClose. by destruct (_ || _). Qed.

Lemma connected_represents now last s clock fd ch s' :
  represents now last s -> now <= TimeStamp.microsecond_ clock < 2 ^ 63 -> handleConnected clock fd ch s = Ok s' ->
  represents (TimeStamp.microsecond_ clock) (<[fd := TimeStamp.microsecond_ clock]> last) s'.
Proof.
  intros [HI Hid Hn He Ho] Hle. unfold handleConnected. cbn. rewrite deadline_ok by (done || lia). unfold TimerQueue.add.
  destruct (TimerHeap.push_spec (mkTimer fd (TimeStamp.Make (TimeStamp.microsecond_ clock + idle_timeout_ s * 1000)) (Some fd)) _ HI) as (h & E & HI' & Ha).
  unfold heap in E. rewrite E. intros [= <-]. unfold heap in *. split; cbn.
  - done.
  - done.
  - lia.
  - intros fd' ts f. rewrite Ha. cbn. destruct (decide (fd = fd')) as [<-|Hne].
    + rewrite lookup_insert_eq. intros [= <- <-]. by split.
    + rewrite lookup_insert_ne by done. intros E'. apply He in E' as [-> E']. split; [done|lia].
  - intros fd' Hf Hof. rewrite Ha. cbn. destruct (decide (fd = fd')) as [<-|Hne].
    + rewrite !lookup_insert_eq. exists (TimeStamp.microsecond_ clock). done.
    + rewrite !lookup_insert_ne by done.
      assert (is_open s fd') as Hof' by (unfold is_open, conn_at in *; cbn in Hof; by rewrite lookup_insert_ne in Hof).
      destruct (Ho fd' Hf Hof') as (t & El & Ht & Hab). exists t. split; [done|]. split; [lia|done].
Qed.

Lemma work_represents now last s clock x s' :
  represents now last s -> now <= TimeStamp.microsecond_ clock < 2 ^ 63 ->
  (is_open s (task_fd x) -> disconnected_ (conn_at (task_fd x) s) = false) -> handleConnectionWork x clock s = Ok s' ->
  represents (TimeStamp.microsecond_ clock) (<[task_fd x := TimeStamp.microsecond_ clock]> last) s'.
Proof.
  intros Hrep Hle Hd. unfold handleConnectionWork. set (fd := task_fd x) in *.
  assert (forall fd' (u : TcpServer.t Ctx W), conn_at fd' (set_conn fd (conn_at fd s) u) = if decide (fd = fd') then conn_at fd s else conn_at fd' u) as Hc by (intros; apply conn_at_set).
  destruct (disconnected_ (conn_at fd s) || _) eqn:Eg.
  - intros [= <-]. apply (represents_same now _ last _ s); [done|done|done|done|]. intros fd' _. unfold is_open. rewrite Hc.
    case_decide as Ef; [subst fd'|intros H; split; [done|by rewrite lookup_insert_ne]].
    intros Hof. rewrite (Hd Hof) in Eg. destruct Hof as [ch Hch]. by rewrite Hch in Eg.
  - destruct Hrep as [HI Hid Hn He Ho]. cbn. rewrite deadline_ok by (done || lia). unfold TimerQueue.adjust.
    destruct (TimerHeap.adjust_spec (mkTimer fd (TimeStamp.Make (TimeStamp.microsecond_ clock + idle_timeout_ s * 1000)) None) _ HI) as (h & E & HI' & Ha).
    { intros ts f Ef. cbn in Ef |- *. apply He in Ef as [_ Ef]. lia. }
    unfold heap in E. rewrite E. intros [= <-]. unfold heap in *. split; cbn.
    + done.
    + done.
    + lia.
    + intros fd' ts f. rewrite Ha. cbn. destruct (decide (fd = fd')) as [<-|Hne].
      * rewrite lookup_alter_eq. destruct (TimerHeap.abs _ !! fd) as [[t0 f0]|] eqn:Ef; [|done]. cbn. intros [= <- <-].
        apply He in Ef as [-> _]. by split.
      * rewrite lookup_alter_ne by done. intros E'. apply He in E' as [-> E']. split; [done|lia].
    + intros fd' Hf Hof. rewrite Ha. cbn.
      assert (is_open s fd') as Hof'.
      { unfold is_open in *. change (conn_at fd' _) with (conn_at fd' (set_conn fd (conn_at fd s) s)) in Hof. rewrite Hc in Hof.
        case_decide; [by subst|done]. }
      destruct (Ho fd' Hf Hof') as (t & El & Ht & Hab). destruct (decide (fd = fd')) as [<-|Hne].
      * exists (TimeStamp.microsecond_ clock). rewrite lookup_insert_eq, lookup_alter_eq, Hab. done.
      * exists t. rewrite lookup_insert_ne, lookup_alter_ne by done. split; [done|]. split; [lia|done].
Qed.

(** *** The expiry *)
(** A closed connection stays so, and one that is not among [fds] is kept. *)
Lemma closes_open fds s fd :
  (is_open s fd -> disconnected_ (conn_at fd s) = false) ->
  is_open (foldl (fun s fd => handleConnectionClose fd s) s fds) fd <-> is_open s fd /\ fd ∉ fds.
Proof.
  revert s. induction fds as [|g fds IH]; intros s Hd; cbn [foldl]; [set_solver|].
  assert (is_open (handleConnectionClose g s) fd <-> is_open s fd /\ fd <> g) as Hg.
  { split.
    - intros H. split; [by eapply close_open|]. intros <-. pose proof (Hd (close_open _ _ _ H)) as Hd'. revert H.
      unfold handleConnectionClose, is_open. rewrite Hd'. destruct (channel_ (conn_at fd s)) eqn:Ec; cbn [orb];
        rewrite conn_at_set, decide_True by done; [by intros [? ?]|]. rewrite Ec. by intros [? ?].
    - intros [Ho Hne]. unfold is_open. by destruct (close_same g fd s ltac:(done)) as (-> & _). }
  rewrite IH, Hg; [set_solver|]. intros H. apply Hg in H as [H Hne].
  destruct (close_same g fd s ltac:(done)) as (-> & _). by apply Hd.
Qed.

Lemma closes_timer fds s :
  let s' := foldl (fun s fd => handleConnectionClose fd s) s fds in
  (alive_timer_ s', idle_timeout_ s') = (alive_timer_ s, idle_timeout_ s).
Proof. revert s. induction fds as [|g fds IH]; intros s; cbn [foldl]; [done|]. cbv zeta in *. by rewrite IH, close_timer_kept. Qed.

(** The timers of a heap and its table. *)
Lemma in_heap (h : TimerHeap.t Z) x :
  TimerHeap.Inv h -> x ∈ TimerHeap.c_ h -> TimerHeap.abs h !! fd x = Some (timestamp x, callback x).
Proof. intros HI. apply TimerHeap.absl_lookup. apply HI. Qed.

Lemma call_closes (l : list (Timer Z)) s :
  Forall (fun x => callback x = Some (fd x)) l ->
  fold_left (TimerQueue.call_timer handleConnectionClose) l s = foldl (fun s g => handleConnectionClose g s) s (fd <$> l).
Proof.
  revert s. induction l as [|x l IH]; intros s H; [done|]. apply Forall_cons in H as [Hx H]. cbn [fold_left fmap list_fmap foldl].
  rewrite IH by done. unfold TimerQueue.call_timer. by rewrite Hx.
Qed.

Lemma heap_fds (h h' : TimerHeap.t Z) fired x :
  TimerHeap.Inv h -> fired ++ TimerHeap.c_ h' ≡ₚ TimerHeap.c_ h -> x ∈ TimerHeap.c_ h -> fd x ∉ fd <$> fired -> x ∈ TimerHeap.c_ h'.
Proof.
  intros _ Hp Hx Hn. rewrite <- Hp in Hx. apply elem_of_app in Hx as [Hx|Hx]; [|done]. destruct Hn. by apply list_elem_of_fmap_2.
Qed.

Lemma expiry now last s clock :
  represents now last s -> (forall g, ~ reserved s g -> is_open s g -> disconnected_ (conn_at g s) = false) ->
  exists s', aliveTimeout clock s = Ok s' /\ idle_timeout_ s' = idle_timeout_ s /\ own s' = own s /\ represents now last s'
    /\ forall g, ~ reserved s g -> is_open s' g <-> is_open s g
         /\ exists t, last !! g = Some t /\ TimeStamp.microsecond_ clock < t + idle_timeout_ s * 1000.
Proof.
  intros [HI Hid Hn He Ho] Hd. unfold heap in *.
  assert (Forall (fun x => callback x = Some (fd x)) (TimerHeap.c_ (heap s))) as Hcb.
  { apply Forall_forall. intros x Hx. by apply in_heap, He in Hx as [-> _]. }
  unfold aliveTimeout, TimerQueue.handleTimeout. unfold heap in *.
  destruct (TimerQueue.timeoutLoop_spec handleConnectionClose (1 + TimerHeap.size (TimerQueue.timer_heap_ (alive_timer_ s))) clock _ s
    (Nat.lt_succ_diag_r _) HI) as (h & fired & -> & HI' & Hp & Hf & Hr & _).
  { eapply Forall_impl; [exact Hcb|]. intros x ->. by eexists. }
  cbv zeta. cbn. eexists. split; [reflexivity|].
  assert (Forall (fun x => callback x = Some (fd x)) fired) as Hcf.
  { rewrite <- Hp in Hcb. by apply Forall_app in Hcb as [? _]. }
  rewrite (call_closes _ _ Hcf).
  pose proof (closes_timer (fd <$> fired) s) as Ht. pose proof (closes_own (fd <$> fired) s) as Hown. cbv zeta in Ht. injection Ht as _ Ei.
  pose proof (fun g => closes_open (fd <$> fired) s g) as Hop. revert Ei Hown Hop.
  generalize (foldl (fun s g => handleConnectionClose g s) s (fd <$> fired)). intros u Ei Hown Hop.
  assert (forall g, ~ reserved s g -> is_open u g <-> is_open s g /\ g ∉ fd <$> fired) as Hop' by (intros g Hg; apply Hop; by apply Hd).
  assert (forall x, x ∈ TimerHeap.c_ (TimerQueue.timer_heap_ (alive_timer_ s)) -> fd x ∉ fd <$> fired -> x ∈ TimerHeap.c_ h) as Hleft
    by (intros x; by apply heap_fds).
  split; [done|]. split; [done|]. split.
  - split; unfold heap; cbn; [done|by rewrite Ei|done|..].
    + intros g ts f Hg. apply abs_elem in Hg as (x & Hx & <- & E); [|done]. rewrite Ei. apply (He (fd x)).
      rewrite in_heap; [by rewrite E|done|]. rewrite <- Hp. apply elem_of_app. by right.
    + intros g Hg Hog. rewrite (reserved_own s) in Hg by done. apply (Hop' g Hg) in Hog as [Hog Hnf].
      destruct (Ho g Hg Hog) as (t & El & Hle & Hab). exists t. split; [done|]. split; [done|]. rewrite Ei.
      apply abs_elem in Hab as (x & Hx & <- & E); [|done]. rewrite E. apply in_heap; [done|by apply Hleft].
  - intros g Hg. change (is_open (set_timer _ u) g) with (is_open u g). rewrite (Hop' g Hg). split; intros [Hog Hx]; (split; [done|]);
      destruct (Ho g Hg Hog) as (t & El & Hle & Hab); (apply abs_elem in Hab as (x & Hin & <- & E); [|done]).
    + exists t. split; [done|]. apply Hleft in Hx; [|done]. rewrite Forall_forall in Hr. specialize (Hr x Hx).
      injection E as E _. unfold TimerQueue.expired in Hr. rewrite <- E in Hr. cbn in Hr. lia.
    + destruct Hx as (t' & El' & Hlt). rewrite El in El'. injection El' as <-. intros Hin'.
      apply list_elem_of_fmap in Hin' as (y & Ey & Hy). rewrite Forall_forall in Hf. pose proof (Hf y Hy) as Hy'.
      assert (y ∈ TimerHeap.c_ (TimerQueue.timer_heap_ (alive_timer_ s))) as Hyh by (rewrite <- Hp; apply elem_of_app; by left).
      apply in_heap in Hyh; [|done]. rewrite <- Ey, in_heap in Hyh by done. unfold TimerQueue.expired in Hy'.
      injection E as E _. injection Hyh as E' _. rewrite <- E', <- E in Hy'. cbn in Hy'. lia.
Qed.

(** *** Tasks *)
Lemma task_open x o s s' : run_task cb x o s = Ok s' -> is_open s (task_fd x).
Proof.
  unfold is_open. destruct x as [g|g]; cbn [run_task task_fd]; [unfold onRead|unfold onWrite];
    (destruct (channel_ (conn_at g s)); [by eexists|done]).
Qed.

Lemma task_kept x o s s' :
  keeps_open cb -> run_task cb x o s = Ok s' ->
  (alive_timer_ s', idle_timeout_ s') = (alive_timer_ s, idle_timeout_ s) /\ forall g, is_open s' g -> is_open s g.
Proof.
  intros Hk H. pose proof (task_open _ _ _ _ H) as Ho. apply (run_task_result _ _ _ _ _ Hk) in H as (s1 & c & Hl & _ & _ & Hs).
  assert ((alive_timer_ s1, idle_timeout_ s1) = (alive_timer_ s, idle_timeout_ s) /\ conns_ s1 = conns_ s) as [E1 E2]
    by (destruct Hl as [|w|]; [done|unfold called; by destruct (asked_timer cb w)|done]).
  assert (forall g, is_open (set_conn (task_fd x) c s1) g -> is_open s g) as Hset.
  { intros g. unfold is_open. rewrite conn_at_set. case_decide as Eg; [by rewrite <- Eg|]. unfold conn_at. by rewrite E2. }
  destruct Hs as [->|[ev ->]].
  - rewrite close_timer_kept. split; [done|]. intros g Hg. apply Hset. by eapply close_open.
  - split; [done|]. exact Hset.
Qed.

(** *** Every step *)
Lemma good_connected s p g : good (s, p) -> ~ reserved s g -> is_open s g -> disconnected_ (conn_at g s) = false.
Proof. intros [(Hi & _) _] Hg. cbn [fst snd] in Hi. destruct (Hi g Hg) as ((_ & _ & H) & _). exact H. Qed.

Lemma extends_reserved s s' g : extends s s' -> reserved s' g <-> reserved s g.
Proof. intros [E _]. unfold reserved. by injection E as -> -> -> ->. Qed.

Lemma dispatch_represents now last s e p clock r s' :
  good (s, e :: p) -> dispatch_event cb clock r e s = Ok s' -> now <= TimeStamp.microsecond_ clock < 2 ^ 63 -> represents now last s ->
  represents (TimeStamp.microsecond_ clock) (touch (Dispatch clock r) (s, e :: p) clock last) s'.
Proof.
  intros Hg H Hle Hrep. pose proof (dispatch_extends _ _ _ _ _ _ H) as Hext.
  destruct (Hg) as [_ He]. cbn [fst snd] in He. apply Forall_cons in He as [(Hd & Hres & Hses) _].
  unfold dispatch_event in H. unfold touch, active. destruct (dispatch e.2) eqn:Ed; [| | |done].
  - injection H as <-. apply (represents_same now _ last _ s); [done|done|by rewrite close_timer_kept| |].
    + intros g. by apply extends_reserved.
    + intros g _ Hog. split; [by eapply close_open|done].
  - destruct (e.1 =? svr_fd s) eqn:Ev.
    + destruct r as [[g ty]|]; [by eapply connected_represents|]. injection H as <-.
      by apply (represents_same now _ last _ s).
    + destruct (decide (reserved s e.1)) as [Hr|Hn].
      * assert (forall u, represents now last u -> extends s u -> (alive_timer_ s', idle_timeout_ s') = (alive_timer_ u, idle_timeout_ u) ->
          (forall g, is_open s' g -> is_open u g) -> represents (TimeStamp.microsecond_ clock) (<[e.1 := TimeStamp.microsecond_ clock]> last) s') as Hsame.
        { intros u Hu Hsu E Hop. apply (represents_same now _ last _ u); [done|done|done| |].
          - intros g. rewrite (extends_reserved s s' g Hext). symmetry. by apply extends_reserved.
          - intros g Hgr Hog. split; [by apply Hop|]. apply lookup_insert_ne. intros <-. by apply Hgr, (extends_reserved s u). }
        apply own_read in H; [|done|by apply Z.eqb_neq|done]. destruct H as [->|[[w ->]|[_ H]]].
        -- by apply (Hsame s).
        -- by apply (Hsame s).
        -- destruct (expiry now last s clock Hrep) as (u & E & _ & _ & Hu & _); [by intros g; apply good_connected with (e :: p)|].
           rewrite H in E. injection E as <-. by apply (Hsame s').
      * rewrite connection_read in H by done. apply (work_represents now last s clock (OnRead e.1)); [done|done| |done].
        intros Ho. by apply good_connected with (e :: p).
  - assert (~ reserved s e.1) as Hn by (intros Hr; specialize (Hres Hr); done).
    apply (work_represents now last s clock (OnWrite e.1)); [done|done| |done].
    intros Ho. by apply good_connected with (e :: p).
Qed.

Lemma other_represents now last x a y :
  keeps_open cb -> (forall clock r, a <> Dispatch clock r) -> exec cb a x = Some y -> represents now last x.1 -> represents now last y.1.
Proof.
  intros Hk Ha H Hrep. assert (now <= now < 2 ^ 63) as Hle by (destruct Hrep; lia). destruct x as [s p]. destruct a as [evs|clock r| |k o]; cbn [exec] in H.
  - destruct p; [|done]. destruct (decide _); [|done]. injection H as <-. by apply (represents_same now _ last _ s).
  - by destruct (Ha clock r).
  - destruct (tasks_ s); [done|]. injection H as <-. by apply (represents_same now _ last _ s).
  - destruct (running_ s !! k) as [x|]; [|done]. destruct (run_task _ _ _ _) as [u|] eqn:E; [|done]. injection H as <-.
    destruct (task_kept _ _ _ _ Hk E) as [Et Ho]. pose proof (task_extends cb _ _ _ _ Hk E) as Hext.
    apply (represents_same now _ last _ s); [done|done|done|by intros g; apply (extends_reserved _ u g Hext)|].
    intros g _ Hog. split; [by apply Ho|done].
Qed.

Lemma timed_loop now last x now' last' y : timed_step (now, last, x) (now', last', y) -> loop_step cb calm x y.
Proof. intros H. inversion H; subst; by eapply exec_step. Qed.

Lemma run_represents a b :
  keeps_open cb -> rtc timed_step a b -> good a.2 -> represents a.1.1 a.1.2 a.2.1 -> good b.2 /\ represents b.1.1 b.1.2 b.2.1.
Proof.
  intros Hk Hs. induction Hs as [|x y z H _ IH]; [done|]. intros Hg Hrep. apply IH.
  - destruct x as [[? ?] x], y as [[? ?] y]. apply timed_loop in H. by eapply loop_step_good.
  - destruct H as [now last x y clock r H Hle|now last x y c H Hc]; cbn [fst snd] in *; [|by eapply other_represents].
    destruct x as [s p]. cbn [exec] in H. destruct p as [|e p]; [done|]. destruct (decide _); [|done].
    destruct (dispatch_event cb clock r e s) as [u|] eqn:E; [|done]. injection H as <-. by eapply dispatch_represents.
Qed.

Lemma start_represents evfd svr alive session sendfile w mono s now :
  0 <= idle <= 2147483 -> 0 <= now < 2 ^ 63 -> start mono (new evfd svr alive session idle sendfile w) = Ok s ->
  represents now ∅ s /\ forall g, ~ is_open s g.
Proof.
  intros Hi Hn. unfold start. cbn. destruct (TimeStamp.millsecond idle) as [ts|]; [|done]. intros [= <-].
  assert (forall mono ts, TimerQueue.timer_heap_ (TimerQueue.runEvery mono.1 mono.2 ts TimerQueue.new) = TimerHeap.empty_heap (C := Z)) as Eh
    by (intros m t; unfold TimerQueue.runEvery, TimerQueue.settime; by destruct (TimerQueue.settime_accepts _)).
  assert (forall (u : TcpServer.t Ctx W) g, conns_ u = ∅ -> ~ is_open u g) as Hno
    by (intros u g E; unfold is_open, conn_at; rewrite E, lookup_empty; by intros [? ?]).
  split; [|intros g; by apply Hno].
  split; unfold heap; cbn; rewrite ?Eh.
  - apply TimerHeap.Inv_empty.
  - done.
  - done.
  - done.
  - intros g _ H. by apply Hno in H.
Qed.

End idle.
End IdleTimeout.

(** ** The guarantee *)
Import EPoller TcpServer EventLoop EventRun IdleTimeout.

(** C8: The alive timer closes the connections that have been idle for the
    idle time, and no others.  However accepts, events and workers interleave,
    as long as the clock does not go back and no timeout closes a connection
    that is being worked on: every open connection has a last activity, when it
    was accepted or when an event of it was dispatched, and a timeout at any
    clock leaves open exactly those whose last activity is less than the idle
    time ago. *)
Theorem idle_timeout_refines {Ctx W} (cb : callbacks Ctx W) (evfd svr alive session idle : Z) (sendfile : bool) (w : W)
    (mono : Z * Z) (s0 : TcpServer.t Ctx W) (now0 now : Z) (last : gmap Z Z) (s : TcpServer.t Ctx W) (p : list (Z * Z)) (clock : TimeStamp.t) :
  keeps_open cb -> NoDup [evfd; svr; alive; session] -> 0 <= idle <= 2147483 -> 0 <= now0 < 2 ^ 63 ->
  start mono (new evfd svr alive session idle sendfile w) = Ok s0 ->
  rtc (timed_step cb) (now0, ∅, (s0, [])) (now, last, (s, p)) ->
  (forall g, ~ reserved s g -> is_open s g -> exists t, last !! g = Some t /\ t <= now)
  /\ exists s', aliveTimeout clock s = Ok s' /\ forall g, ~ reserved s g ->
       is_open s' g <-> is_open s g /\ exists t, last !! g = Some t /\ TimeStamp.microsecond_ clock < t + idle * 1000.
Proof.
  intros Hk Hd Hi Hn H0 Hrun. destruct (start_represents idle _ _ _ _ _ _ _ _ now0 Hi Hn H0) as [Hrep _].
  apply start_fresh, fresh_good in H0; [|done].
  apply (run_represents _ idle) in Hrun as [Hg Hr]; [|done..]. cbn [fst snd] in Hg, Hr. split.
  - intros g Hg' Ho. destruct (rep_open _ _ _ _ Hr g Hg' Ho) as (t & E & Hle & _). by exists t.
  - destruct (expiry idle now last s clock Hr) as (s' & E & Ei & _ & _ & H); [by intros g; apply good_connected with p|].
    exists s'. split; [done|]. by rewrite (proj1 (rep_idle _ _ _ _ Hr)) in H.
Qed.

(** Descriptor 9 is accepted at second 0 and sends something at second 2, 10 is
    accepted at second 1: with an idle time of 2 seconds, a timeout at second 3
    closes 10 only. *)
Definition idle_server : TcpServer.t unit unit := get_ok demo_server (start (0, 0) (new 3 4 5 6 2000 false tt)).
Definition idle_script : list cmd :=
  [Wait [(4, EPOLLIN)]; Dispatch (second 0) (Some (9, Raw)); Wait [(4, EPOLLIN)]; Dispatch (second 1) (Some (10, Raw));
   Wait [(9, EPOLLIN)]; Dispatch (second 2) None; Take; Finish 0 demo_outcome].

(** The run of a script of commands. *)
Fixpoint timed_run (l : list cmd) (a : timed (Ctx := unit) (W := unit)) : option (timed (Ctx := unit) (W := unit)) :=
  match l with
  | [] => Some a
  | c :: l =>
      match exec demo_cb c a.2 with
      | None => None
      | Some y =>
          match c with
          | Dispatch clock r =>
              if bool_decide (a.1.1 <= TimeStamp.microsecond_ clock < 2 ^ 63)
              then timed_run l (TimeStamp.microsecond_ clock, touch c a.2 clock a.1.2, y) else None
          | _ => timed_run l (a.1, y)
          end
      end
  end.

Lemma timed_run_steps l a b : timed_run l a = Some b -> rtc (timed_step demo_cb) a b.
Proof.
  revert a. induction l as [|c l IH]; intros [[now last] x]; cbn [timed_run fst snd]; [by intros [= <-]|].
  destruct (exec demo_cb c x) as [y|] eqn:E; [|done].
  assert ((forall clock r, c <> Dispatch clock r) -> timed_run l (now, last, y) = Some b -> rtc (timed_step demo_cb) (now, last, x) b) as Hother.
  { intros Hc H. apply (rtc_l _ _ (now, last, y)); [by apply (timed_other _ _ _ _ _ c)|by apply IH]. }
  destruct c as [evs|clock r| |k o]; [by apply Hother| |by apply Hother..].
  destruct (bool_decide_reflect (now <= TimeStamp.microsecond_ clock < 2 ^ 63)) as [Hle|]; [|done].
  intros H. eapply rtc_l; [by apply timed_dispatch|by apply IH].
Qed.

Definition idle_end : timed (Ctx := unit) (W := unit) := default (0, ∅, (idle_server, [])) (timed_run idle_script (0, ∅, (idle_server, []))).

Lemma idle_timeout_refines_witness :
  exists s', aliveTimeout (second 3) idle_end.2.1 = Ok s' /\ is_open s' 9 /\ ~ is_open s' 10.
Proof.
  destruct (idle_timeout_refines demo_cb 3 4 5 6 2000 false tt (0, 0) idle_server 0 idle_end.1.1 idle_end.1.2 idle_end.2.1 idle_end.2.2 (second 3))
    as (_ & s' & E & H).
  - exact demo_keeps_open.
  - apply (bool_decide_unpack _). vm_compute. exact I.
  - lia.
  - lia.
  - vm_compute. reflexivity.
  - apply (timed_run_steps idle_script). vm_compute. reflexivity.
  - exists s'. split; [exact E|].
    assert (forall g, 7 <= g -> ~ reserved idle_end.2.1 g) as Hn.
    { intros g Hg. replace (reserved idle_end.2.1 g) with (g = 3 \/ g = 4 \/ g = 5 \/ g = 6) by (vm_compute; reflexivity). lia. }
    split.
    + apply (H 9); [apply Hn; lia|]. split; [vm_compute; eexists; reflexivity|]. exists 2000000. split; vm_compute; reflexivity.
    + intros Ho. apply (H 10) in Ho; [|apply Hn; lia]. destruct Ho as (_ & t & Et & Hlt).
      replace (idle_end.1.2 !! 10) with (Some 1000000) in Et by (vm_compute; reflexivity).
      injection Et as <-. vm_compute in Hlt. discriminate Hlt.
Defined.
