(* ===== verification/PhpFastCgi.v ===== *)
(** * PhpFastCgi: the FastCGI client that talks to PHP-FPM

    Models [soc/modules/php-fastcgi/include/FastCgi.h],
    [soc/modules/php-fastcgi/include/PhpFastCgi.h] and
    [soc/modules/php-fastcgi/src/PhpFastCgi.cc].  What is sent is the list of
    bytes written to the socket (a record is one write); what is received is
    the list of the pieces in which it arrives, of which a [read] takes at most
    the next. *)
From S2P Require Import Prelude CStr InetAddress HttpMap HttpAuth Buffer.
Local Open Scope Z_scope.

(** ** [FastCgi.h] *)
Module FastCgi.

Record FCGI_Header := Header {
  version : ascii; type : ascii; requestIdB1 : ascii; requestIdB0 : ascii;
  contentLengthB1 : ascii; contentLengthB0 : ascii; paddingLength : ascii; reserved : ascii }.

Definition FCGI_HEADER_LEN : nat := 8.
Definition FCGI_VERSION_1 : Z := 1.
Definition FCGI_BEGIN_REQUEST : Z := 1.
Definition FCGI_END_REQUEST : Z := 3.
Definition FCGI_PARAMS : Z := 4.
Definition FCGI_STDIN : Z := 5.
Definition FCGI_STDOUT : Z := 6.
Definition FCGI_STDERR : Z := 7.
Definition FCGI_RESPONDER : Z := 1.
Definition FCGI_KEEP_CONN : Z := 1.

(** The bytes of the structures, which have no padding. *)
Definition header_bytes (h : FCGI_Header) : bytes :=
  [version h; type h; requestIdB1 h; requestIdB0 h; contentLengthB1 h; contentLengthB0 h; paddingLength h; reserved h].

Record FCGI_BeginRequestBody := BeginBody { roleB1 : ascii; roleB0 : ascii; flags : ascii; body_reserved : bytes }.
Definition begin_bytes (b : FCGI_BeginRequestBody) : bytes := [roleB1 b; roleB0 b; flags b] ++ body_reserved b.

End FastCgi.

(** ** [PhpFastCgi] *)
Module PhpFastCgi.
Import FastCgi.

Inductive FCGI_Params :=
  | REQUEST_METHOD | QUERY_STRING | CONTENT_LENGTH | CONTENT_TYPE | SCRIPT_FILENAME | SERVER_NAME | SERVER_PORT
  | REMOTE_ADDR | REMOTE_HOST | AUTORIZATION | USER_AGENT | PHP_AUTH_USER | PHP_AUTH_PW | PHP_AUTH_DIGEST.

Definition kBufferSize : nat := 2048.

(** [params_[param]]: a parameter without an entry gets the empty name. *)
Definition params_ (p : FCGI_Params) : bytes :=
  match p with
  | REQUEST_METHOD => bs "REQUEST_METHOD"
  | QUERY_STRING => bs "QUERY_STRING"
  | CONTENT_LENGTH => bs "CONTENT_LENGTH"
  | CONTENT_TYPE => bs "CONTENT_TYPE"
  | SCRIPT_FILENAME => bs "SCRIPT_FILENAME"
  | SERVER_NAME => bs "SERVER_NAME"
  | SERVER_PORT => bs "SERVER_PORT"
  | REMOTE_HOST => bs "REMOTE_ADDR"
  | USER_AGENT => bs "USER_AGENT"
  | PHP_AUTH_USER => bs "PHP_AUTH_USER"
  | PHP_AUTH_PW => bs "PHP_AUTH_PW"
  | PHP_AUTH_DIGEST => bs "PHP_AUTH_DIGEST"
  | REMOTE_ADDR | AUTORIZATION => []
  end.

Section client.
Context (requestId_ : Z).

(** The [request] argument of the source is not used. *)
Definition makeHeader (type contentlen paddinglen : Z) : FCGI_Header :=
  Header (chr FCGI_VERSION_1) (chr type)
    (chr (Z.land (Z.shiftr requestId_ 8) 0xff)) (chr (Z.land requestId_ 0xff))
    (chr (Z.land (Z.shiftr contentlen 8) 0xff)) (chr (Z.land contentlen 0xff))
    (chr paddinglen) NUL.

Definition makeBeginRequestBody (role : Z) (keepconn : bool) : FCGI_BeginRequestBody :=
  BeginBody (chr (Z.land (Z.shiftr role 8) 0xff)) (chr (Z.land role 0xff))
    (chr (if keepconn then FCGI_KEEP_CONN else 0)) (replicate 5 NUL).

(** One length of [makeNameValueBody]. *)
Definition length_bytes (n : Z) : bytes :=
  if n <? 128 then [chr n]
  else [chr (Z.lor (Z.shiftr n 24) 0x80); chr (Z.shiftr n 16); chr (Z.shiftr n 8); chr n].

(** What is stored in [body]; its length is [bodylen]. *)
Definition makeNameValueBody (name value : bytes) : bytes :=
  length_bytes (Z.of_nat (length name)) ++ length_bytes (Z.of_nat (length value)) ++ name ++ value.

Definition sendStartRequestRecord : bytes :=
  header_bytes (makeHeader FCGI_BEGIN_REQUEST 8 0) ++ begin_bytes (makeBeginRequestBody FCGI_RESPONDER false).

(** [bodyBuff] has [kBufferSize] bytes. *)
Definition sendParams (param : FCGI_Params) (value : bytes) : result bytes :=
  let body := makeNameValueBody (params_ param) value in
  if (kBufferSize <? length body)%nat then Err Undefined
  else Ok (header_bytes (makeHeader FCGI_PARAMS (Z.of_nat (length body)) 0) ++ body).

Definition sendEndRequestRecord : bytes := header_bytes (makeHeader FCGI_PARAMS 0 0).

(** The loop of [sendPost]: [ns] are the results of its writes; it ends at the
    first that is not positive.  The pointer written from is [rn] bytes before the
    end, which of a negative [rn] is outside the data. *)
Fixpoint post_loop (ns : list Z) (postdata : bytes) (rn : Z) (wire : bytes) : result bytes :=
  match ns with
  | [] => Err OutOfFuel
  | n :: ns =>
      if rn <? 0 then Err Undefined
      else if 0 <? n then
        let part := take (Z.to_nat n) (drop (length postdata - Z.to_nat rn) postdata) in
        post_loop ns postdata (rn - n) (wire ++ part)
      else Ok wire
  end.

Definition sendPost (ns : list Z) (postdata : bytes) : result bytes :=
  let size := Z.of_nat (length postdata) in
  let rn := s32 size in
  let* data := post_loop ns postdata rn [] in
  Ok (header_bytes (makeHeader FCGI_STDIN size 0) ++ data ++ header_bytes (makeHeader FCGI_STDIN 0 0)).

End client.

(** ** [connectPhpFpm] *)
(** The address that [connect] gets: a [sockaddr_in], or a path. *)
Inductive peer := TcpPeer (a : InetAddress.t) | UnixPeer (path : bytes).
Definition sun_path_size : nat := 108.

Section connect.
(** [inet_addr], and whether [connect] succeeds. *)
Context (inet_addr : bytes -> Z) (connects : peer -> bool).
Definition connect_tcp (ip : bytes) (port : Z) : bool :=
  connects (TcpPeer (InetAddress.Make (InetAddress.htons (InetAddress.u16 port)) (inet_addr ip))).
(** [strncpy] is told the length of the path, not the size of [sun_path]. *)
Definition connect_unix (sockpath : bytes) : result bool :=
  if (sun_path_size <? length sockpath)%nat then Err Undefined else Ok (connects (UnixPeer (c_str sockpath))).
End connect.

(** ** Reading *)

(** The pieces that are still to arrive. *)
Abbreviation socket := (list bytes).

(** [read(sockfd_, p, n)]. *)
Definition read (n : nat) (s : socket) : bytes * socket :=
  match s with
  | [] => ([], [])
  | d :: s => (take n d, match drop n d with [] => s | rest => rest :: s end)
  end.

(** [read] into an array of [size] bytes. *)
Definition read_into (arr : bytes) (n : nat) (s : socket) : result (bytes * nat * socket) :=
  let '(got, s) := read n s in
  if (length arr <? length got)%nat then Err Undefined else Ok (copy_into arr 0 got, length got, s).

Record reader := Reader {
  responderHeader : bytes; content : bytes; tmp : bytes; sock : socket; buffer : Buffer.t; status : bool; message : bytes }.

Definition read_append (n : nat) (r : reader) : result reader :=
  let* (c, ret, s) := read_into (content r) n (sock r) in
  let* b := Buffer.append (take ret c) (buffer r) in
  Ok (Reader (responderHeader r) c (tmp r) s b (status r) (message r)).

Fixpoint read_full (nbuf : nat) (r : reader) : result reader :=
  match nbuf with
  | O => Ok r
  | S nbuf => let* r := read_append kBufferSize r in read_full nbuf r
  end.

Definition byte_at (i : nat) (b : bytes) : Z := char_u (b !!! i).

Definition skip_padding (r : reader) : result reader :=
  let padding := Z.to_nat (byte_at 6 (responderHeader r)) in
  if (0 <? padding)%nat then
    let* (t, _, s) := read_into (tmp r) padding (sock r) in
    Ok (Reader (responderHeader r) (content r) t s (buffer r) (status r) (message r))
  else Ok r.

(** One turn of the loop, a header having been read. *)
Definition read_record (r : reader) : result reader :=
  let h := responderHeader r in
  let type := byte_at 1 h in
  let contentLen := Z.to_nat (byte_at 4 h * 256 + byte_at 5 h) in
  if type =? FCGI_STDOUT then
    let nbuf := (contentLen / kBufferSize)%nat in
    let remain := (contentLen mod kBufferSize)%nat in
    let* r := read_full nbuf r in
    let* r := read_append remain r in
    skip_padding r
  else if type =? FCGI_STDERR then
    let* (c, ret, s) := read_into (content r) contentLen (sock r) in
    skip_padding (Reader h c (tmp r) s (buffer r) false (take ret c))
  else if type =? FCGI_END_REQUEST then
    let* (_, _, s) := read_into (replicate 8 NUL) 8 (sock r) in
    Ok (Reader h (content r) (tmp r) s (buffer r) (status r) (message r))
  else Ok r.

Fixpoint read_loop (fuel : nat) (r : reader) : result reader :=
  match fuel with
  | O => Err OutOfFuel
  | S fuel =>
      let* (h, ret, s) := read_into (responderHeader r) FCGI_HEADER_LEN (sock r) in
      if (0 <? ret)%nat then
        let* r := read_record (Reader h (content r) (tmp r) s (buffer r) (status r) (message r)) in
        read_loop fuel r
      else Ok r
  end.

(** [junk] is what the uninitialised header and padding buffer hold. *)
Definition readPhpFpm (fuel : nat) (junk : bytes) (s : socket) (buffer : Buffer.t) : result (bool * bytes * Buffer.t) :=
  let* r := read_loop fuel (Reader (take 8 junk) (replicate kBufferSize NUL) (drop 8 junk) s buffer true (bs "OK")) in
  Ok (status r, message r, PhpFastCgi.buffer r).

End PhpFastCgi.

(** ** What the FastCGI specification reads out of a byte stream *)
Import FastCgi PhpFastCgi.

Record fcgi_record := Rec { r_type : Z; r_id : Z; r_content : bytes }.

Definition two (a b : ascii) : Z := char_u a * 256 + char_u b.

Fixpoint parse_records (fuel : nat) (s : bytes) : option (list fcgi_record) :=
  match fuel with
  | O => None
  | S fuel =>
      match s with
      | [] => Some []
      | v :: t :: i1 :: i0 :: l1 :: l0 :: p :: _ :: rest =>
          let len := Z.to_nat (two l1 l0) in
          let all := (len + Z.to_nat (char_u p))%nat in
          if bool_decide (char_u v = 1) && (all <=? length rest)%nat
          then cons (Rec (char_u t) (two i1 i0) (take len rest)) <$> parse_records fuel (drop all rest)
          else None
      | _ => None
      end
  end.

(** A length: one byte, or four with the top bit set. *)
Definition parse_length (s : bytes) : option (Z * bytes) :=
  match s with
  | a :: s =>
      if char_u a <? 128 then Some (char_u a, s)
      else match s with
           | b :: c :: d :: s => Some ((char_u a - 128) * 2 ^ 24 + char_u b * 2 ^ 16 + char_u c * 2 ^ 8 + char_u d, s)
           | _ => None
           end
  | [] => None
  end.

Definition parse_pair (s : bytes) : option (bytes * bytes) :=
  match parse_length s with
  | Some (n, s) =>
      match parse_length s with
      | Some (m, s) =>
          if bool_decide (Z.of_nat (length s) = n + m) then Some (take (Z.to_nat n) s, drop (Z.to_nat n) s) else None
      | None => None
      end
  | None => None
  end.

(** ** Round trips *)
Lemma lor_128 a : 0 <= a < 128 -> Z.lor a 128 = a + 128.
Proof.
  intros Ha. assert (forallb (fun k => Z.lor (Z.of_nat k) 128 =? Z.of_nat k + 128) (seq 0 128) = true) as H by reflexivity.
  rewrite forallb_forall in H. specialize (H (Z.to_nat a)). rewrite Z2Nat.id, Z.eqb_eq in H by lia.
  apply H, in_seq. lia.
Qed.

Lemma parse_length_bytes n rest : 0 <= n < 2 ^ 31 -> parse_length (length_bytes n ++ rest) = Some (n, rest).
Proof.
  intros Hn. unfold length_bytes. destruct (Z.ltb_spec n 128) as [H|H]; cbn [parse_length app].
  - rewrite char_u_chr, Z.mod_small by lia. by rewrite (proj2 (Z.ltb_lt n 128) H).
  - rewrite !char_u_chr, !Z.shiftr_div_pow2 by lia.
    assert (0 <= n / 2 ^ 24 < 128) as Ht by (split; [apply Z.div_pos; lia|apply Z.div_lt_upper_bound; lia]).
    rewrite lor_128 by lia. rewrite (Z.mod_small (_ + 128)) by lia.
    rewrite (proj2 (Z.ltb_ge (n / 2 ^ 24 + 128) 128)) by lia. do 2 f_equal. clear H.
    change (2 ^ 24) with 16777216 in *. change (2 ^ 16) with 65536. change (2 ^ 8) with 256.
    Z.div_mod_to_equations. lia.
Qed.

Lemma parse_makeNameValueBody name value :
  Z.of_nat (length name) < 2 ^ 31 -> Z.of_nat (length value) < 2 ^ 31 ->
  parse_pair (makeNameValueBody name value) = Some (name, value).
Proof.
  intros Hn Hv. unfold parse_pair, makeNameValueBody.
  rewrite !parse_length_bytes by lia. rewrite bool_decide_true by (rewrite length_app; lia).
  by rewrite Nat2Z.id, take_app_length, drop_app_length.
Qed.

Lemma two_bytes n : 0 <= n < 65536 -> two (chr (Z.land (Z.shiftr n 8) 0xff)) (chr (Z.land n 0xff)) = n.
Proof.
  intros Hn. unfold two. rewrite !char_u_chr. change 0xff with (Z.ones 8). rewrite !Z.land_ones, Z.shiftr_div_pow2 by lia.
  change (2 ^ 8) with 256. rewrite !Z.mod_mod by lia. Z.div_mod_to_equations. lia.
Qed.

Lemma parse_record id ty content rest fuel :
  0 <= id < 65536 -> 0 <= ty < 256 -> Z.of_nat (length content) < 65536 ->
  parse_records (S fuel) (header_bytes (makeHeader id ty (Z.of_nat (length content)) 0) ++ content ++ rest)
    = cons (Rec ty id content) <$> parse_records fuel rest.
Proof.
  intros Hid Hty Hc. cbn [parse_records header_bytes app]. unfold makeHeader. cbn [version type requestIdB1 requestIdB0
    contentLengthB1 contentLengthB0 paddingLength reserved].
  rewrite !two_bytes by lia. rewrite !char_u_chr. change (FCGI_VERSION_1 mod 256) with 1. change (Z.to_nat (0 mod 256)) with 0%nat.
  rewrite Nat2Z.id, Nat.add_0_r, bool_decide_true by done.
  rewrite (proj2 (Nat.leb_le _ _)) by (rewrite length_app; lia). cbn [andb].
  by rewrite take_app_length, drop_app_length, Z.mod_small.
Qed.

(** The writes of [sendPost] that end in one that takes nothing. *)
Lemma post_loop_all ks data rn wire :
  Forall (fun n => 0 < n) ks -> foldr Z.add 0 ks = rn -> rn <= Z.of_nat (length data) ->
  post_loop (ks ++ [0]) data rn wire = Ok (wire ++ drop (length data - Z.to_nat rn) data).
Proof.
  intros Hp. revert rn wire. induction Hp as [|n ks Hn Hp IH]; intros rn wire Hs Hl; simpl in *.
  - subst rn. rewrite drop_ge by lia. by rewrite app_nil_r.
  - assert (0 <= foldr Z.add 0 ks) as H0.
    { clear -Hp. induction Hp; simpl; lia. }
    rewrite (proj2 (Z.ltb_ge rn 0)) by lia. rewrite (proj2 (Z.ltb_lt _ _) Hn).
    rewrite IH by lia. f_equal. rewrite <- app_assoc. f_equal.
    rewrite <- (take_drop (Z.to_nat n) (drop (length data - Z.to_nat rn) data)) at 2. f_equal.
    rewrite drop_drop. f_equal. lia.
Qed.

Fixpoint send_params (id : Z) (ps : list (FCGI_Params * bytes)) : result bytes :=
  match ps with
  | [] => Ok []
  | (p, v) :: ps => let* a := sendParams id p v in let* b := send_params id ps in Ok (a ++ b)
  end.

Definition fits (pv : FCGI_Params * bytes) : Prop := (length (makeNameValueBody (params_ pv.1) pv.2) <= kBufferSize)%nat.
Definition params_record (id : Z) (pv : FCGI_Params * bytes) : fcgi_record :=
  Rec FCGI_PARAMS id (makeNameValueBody (params_ pv.1) pv.2).

Lemma length_makeNameValueBody name value :
  (length name + length value + 2 <= length (makeNameValueBody name value))%nat.
Proof.
  unfold makeNameValueBody, length_bytes. rewrite !length_app.
  destruct (_ <? 128), (_ <? 128); cbn [length]; lia.
Qed.

Lemma kBufferSize_Z : Z.of_nat kBufferSize = 2048.
Proof. reflexivity. Qed.

Lemma parse_send_params id ps rest fuel :
  0 <= id < 65536 -> Forall fits ps ->
  exists a, send_params id ps = Ok a
    /\ parse_records (length ps + fuel) (a ++ rest) = app (params_record id <$> ps) <$> parse_records fuel rest.
Proof.
  intros Hid Hf. induction Hf as [|[p v] ps Hp Hf IH].
  { exists []. split; [done|]. simpl. by destruct (parse_records fuel rest). }
  destruct IH as (a & E & IH). cbn [send_params]. unfold sendParams. unfold fits in Hp. cbn [fst snd] in Hp.
  rewrite (proj2 (Nat.ltb_ge _ _) Hp), E. eexists. split; [reflexivity|].
  rewrite <- !app_assoc. cbn [length Nat.add]. pose proof kBufferSize_Z.
  rewrite parse_record by (unfold FCGI_PARAMS; lia). rewrite IH. by destruct (parse_records fuel rest).
Qed.

Lemma parse_control id ty rest fuel :
  0 <= id < 65536 -> 0 <= ty < 256 ->
  parse_records (S fuel) (header_bytes (makeHeader id ty 0 0) ++ rest) = cons (Rec ty id []) <$> parse_records fuel rest.
Proof. intros. by apply (parse_record id ty [] rest fuel). Qed.

(** C18: A request to PHP-FPM, as the FastCGI specification reads it: the begin
    record, one parameters record for every parameter that was sent, with its
    name and value, the record that ends the parameters, the post data whatever
    parts the socket takes it in, and the record that ends the data; every
    record carries the request identifier.  The parameters must fit the 2048
    byte buffer and the post data one record. *)
Theorem fcgi_request_roundtrip (id : Z) (ps : list (FCGI_Params * bytes)) (post : bytes) (ks : list Z) :
  0 <= id < 65536 -> Forall fits ps -> Z.of_nat (length post) < 65536 ->
  Forall (fun n => 0 < n) ks -> foldr Z.add 0 ks = Z.of_nat (length post) ->
  exists a b, send_params id ps = Ok a /\ sendPost id (ks ++ [0]) post = Ok b
    /\ parse_records (length ps + 5) (sendStartRequestRecord id ++ a ++ sendEndRequestRecord id ++ b)
       = Some (Rec FCGI_BEGIN_REQUEST id (begin_bytes (makeBeginRequestBody FCGI_RESPONDER false))
               :: (params_record id <$> ps)
               ++ [Rec FCGI_PARAMS id []; Rec FCGI_STDIN id post; Rec FCGI_STDIN id []])
    /\ Forall (fun pv => parse_pair (r_content (params_record id pv)) = Some (params_ pv.1, pv.2)) ps.
Proof.
  intros Hid Hf Hl Hk Hs. unfold sendPost. rewrite s32_small by lia. rewrite post_loop_all by (done || lia).
  rewrite Nat2Z.id, Nat.sub_diag, drop_0. cbn [app].
  set (b := header_bytes (makeHeader id FCGI_STDIN (Z.of_nat (length post)) 0) ++ post
              ++ header_bytes (makeHeader id FCGI_STDIN 0 0)).
  destruct (parse_send_params id ps (sendEndRequestRecord id ++ b) 4 Hid Hf) as (a & Ea & Pa).
  exists a, b. split; [done|]. split; [done|]. split.
  - replace (length ps + 5)%nat with (S (length ps + 4)) by lia. unfold sendStartRequestRecord at 1.
    change 8 with (Z.of_nat (length (begin_bytes (makeBeginRequestBody FCGI_RESPONDER false)))).
    rewrite <- !app_assoc. rewrite parse_record by (done || lia). rewrite Pa.
    unfold sendEndRequestRecord. rewrite parse_control by (done || lia). unfold b.
    rewrite parse_record by (done || lia).
    rewrite <- (app_nil_r (header_bytes (makeHeader id FCGI_STDIN 0 0))), parse_control by (done || lia). done.
  - eapply Forall_impl; [exact Hf|]. intros [p v] Hp. unfold fits in Hp. cbn [fst snd params_record r_content] in *.
    pose proof (length_makeNameValueBody (params_ p) v). pose proof kBufferSize_Z. apply parse_makeNameValueBody; lia.
Qed.

Lemma fcgi_request_roundtrip_witness :
  exists a b, send_params 1 [(REQUEST_METHOD, bs "POST"); (CONTENT_LENGTH, bs "3")] = Ok a
    /\ sendPost 1 [1; 2; 0] (bs "a=b") = Ok b
    /\ exists l, parse_records 7 (sendStartRequestRecord 1 ++ a ++ sendEndRequestRecord 1 ++ b) = Some l
       /\ r_content <$> last l = Some [].
Proof.
  destruct (fcgi_request_roundtrip 1 [(REQUEST_METHOD, bs "POST"); (CONTENT_LENGTH, bs "3")] (bs "a=b") [1; 2])
    as (a & b & Ea & Eb & Ep & _).
  - lia.
  - repeat (constructor; [apply Nat.leb_le; vm_compute; reflexivity|]). constructor.
  - vm_compute. reflexivity.
  - repeat constructor.
  - reflexivity.
  - exists a, b. split; [exact Ea|]. split; [exact Eb|]. eexists. split; [exact Ep|reflexivity].
Defined.

(** The limits of the client.  A parameter whose encoding is longer than
    2048 bytes, such as a long query string, is written past the buffer on the
    stack; and post data of 65536 bytes or more is announced with its length
    modulo 65536, so that what it announces is not what follows. *)
Theorem fcgi_request_limits (id : Z) (p : FCGI_Params) (value post : bytes) (ks : list Z) :
  (kBufferSize < length value + 2)%nat -> 65536 <= Z.of_nat (length post) < 2 ^ 31 ->
  Forall (fun n => 0 < n) ks -> foldr Z.add 0 ks = Z.of_nat (length post) ->
  sendParams id p value = Err Undefined
  /\ exists b h rest, sendPost id (ks ++ [0]) post = Ok b /\ b = header_bytes h ++ post ++ rest
     /\ two (contentLengthB1 h) (contentLengthB0 h) = Z.of_nat (length post) mod 65536
     /\ two (contentLengthB1 h) (contentLengthB0 h) < Z.of_nat (length post).
Proof.
  intros Hv Hp Hk Hs. split.
  - unfold sendParams. pose proof (length_makeNameValueBody (params_ p) value).
    rewrite (proj2 (Nat.ltb_lt kBufferSize (length (makeNameValueBody (params_ p) value)))) by lia. done.
  - unfold sendPost. rewrite s32_small by lia. rewrite post_loop_all by (done || lia). rewrite Nat2Z.id, Nat.sub_diag, drop_0.
    eexists _, _, _. split; [reflexivity|]. split; [reflexivity|]. cbn [makeHeader contentLengthB1 contentLengthB0].
    set (n := Z.of_nat (length post)) in *.
    assert (two (chr (Z.land (Z.shiftr n 8) 0xff)) (chr (Z.land n 0xff)) = n mod 65536) as ->.
    { unfold two. rewrite !char_u_chr. change 0xff with (Z.ones 8). rewrite !Z.land_ones, Z.shiftr_div_pow2 by lia.
      change (2 ^ 8) with 256. rewrite !Z.mod_mod by lia. clear. Z.div_mod_to_equations. lia. }
    split; [done|]. pose proof (Z.mod_pos_bound n 65536 ltac:(lia)). lia.
Qed.

Lemma fcgi_request_limits_witness :
  sendParams 1 QUERY_STRING (replicate (Z.to_nat 2047) "a"%char) = Err Undefined.
Proof.
  apply (fcgi_request_limits 1 QUERY_STRING (replicate (Z.to_nat 2047) "a"%char) (replicate (Z.to_nat 65536) "a"%char) [65536]).
  - rewrite length_replicate. unfold kBufferSize. lia.
  - rewrite length_replicate. lia.
  - repeat constructor.
  - rewrite length_replicate, Z2Nat.id by lia. reflexivity.
Defined.

(** ** The response *)

(** What PHP-FPM sends: output and error records with padding, and the end of
    the request. *)
Inductive fpm_record :=
  | Stdout (c pad : bytes)
  | Stderr (c pad : bytes)
  | EndRequest (body : bytes).

Definition fpm_header (type : Z) (len pad : Z) : bytes :=
  [chr 1; chr type; NUL; chr 1; chr (len / 256); chr len; chr pad; NUL].

Definition fpm_bytes (r : fpm_record) : bytes :=
  match r with
  | Stdout c pad => fpm_header FCGI_STDOUT (Z.of_nat (length c)) (Z.of_nat (length pad)) ++ c ++ pad
  | Stderr c pad => fpm_header FCGI_STDERR (Z.of_nat (length c)) (Z.of_nat (length pad)) ++ c ++ pad
  | EndRequest body => fpm_header FCGI_END_REQUEST 8 0 ++ body
  end.

Definition fpm_ok (r : fpm_record) : Prop :=
  match r with
  | Stdout c pad => Z.of_nat (length c) < 65536 /\ (length pad <= 8)%nat
  | Stderr c pad => (length c <= kBufferSize)%nat /\ (length pad <= 8)%nat
  | EndRequest body => length body = 8%nat
  end.

(** A stream that has arrived in one piece. *)
Definition arrived (s : bytes) : socket := match s with [] => [] | _ => [s] end.

Lemma read_arrived n s : read n (arrived s) = (take n s, arrived (drop n s)).
Proof.
  destruct s as [|c s]; [by rewrite take_nil, drop_nil|]. cbn [arrived read]. f_equal.
  by destruct (drop n (c :: s)).
Qed.

Lemma read_into_arrived arr n s :
  (n <= length s)%nat -> (n <= length arr)%nat ->
  exists a, read_into arr n (arrived s) = Ok (a, n, arrived (drop n s)) /\ length a = length arr /\ take n a = take n s.
Proof.
  intros Hs Ha. unfold read_into. rewrite read_arrived. assert (length (take n s) = n) as Hl by (rewrite length_take; lia).
  rewrite Hl, (proj2 (Nat.ltb_ge (length arr) n) Ha). eexists. split; [done|].
  split; [apply length_copy_into; lia|]. pose proof (take_copy_into arr 0 (take n s)) as H. rewrite Hl in H.
  apply H. lia.
Qed.

(** The reader in front of the stream [s], having collected [out]. *)
Record reading (r : reader) (s out : bytes) (st : bool) (msg : bytes) : Prop := {
  rd_header : length (responderHeader r) = 8%nat;
  rd_content : length (content r) = kBufferSize;
  rd_tmp : length (tmp r) = 8%nat;
  rd_sock : sock r = arrived s;
  rd_wf : Buffer.wf (buffer r);
  rd_out : Buffer.contents (buffer r) = out;
  rd_status : status r = st;
  rd_message : message r = msg }.

Lemma read_append_spec n r s out st msg :
  reading r s out st msg -> (n <= length s)%nat -> (n <= kBufferSize)%nat ->
  exists r', read_append n r = Ok r' /\ reading r' (drop n s) (out ++ take n s) st msg
    /\ responderHeader r' = responderHeader r.
Proof.
  intros [Hh Hc Ht Hs Hw Ho Hst Hm] Hn Hb. unfold read_append. rewrite Hs.
  destruct (read_into_arrived (content r) n s Hn ltac:(lia)) as (a & -> & La & Ta). rewrite Ta.
  destruct (Buffer.append_spec (take n s) (buffer r) Hw) as (b & -> & Wb & Cb).
  eexists. split; [reflexivity|]. split; [|done]. split; cbn; try done; [congruence|by rewrite Cb, Ho].
Qed.

Lemma read_full_spec k r s out st msg :
  reading r s out st msg -> (k * kBufferSize <= length s)%nat ->
  exists r', read_full k r = Ok r' /\ reading r' (drop (k * kBufferSize) s) (out ++ take (k * kBufferSize) s) st msg
    /\ responderHeader r' = responderHeader r.
Proof.
  revert r s out. induction k as [|k IH]; intros r s out Hr Hk.
  - exists r. cbn [Nat.mul take drop]. rewrite drop_0, app_nil_r. done.
  - cbn [read_full Nat.mul] in *.
    destruct (read_append_spec kBufferSize r s out st msg Hr) as (r1 & -> & Hr1 & E1); [lia|lia|].
    destruct (IH r1 _ _ Hr1) as (r2 & -> & Hr2 & E2); [rewrite length_drop; lia|].
    exists r2. split; [done|]. rewrite drop_drop in Hr2. split; [|congruence].
    rewrite <- app_assoc in Hr2. replace (take kBufferSize s ++ _) with (take (kBufferSize + k * kBufferSize) s) in Hr2; [done|].
    symmetry. apply take_take_drop.
Qed.

Lemma skip_padding_spec r s out st msg :
  reading r s out st msg ->
  let n := Z.to_nat (byte_at 6 (responderHeader r)) in
  (n <= length s)%nat -> (n <= 8)%nat ->
  exists r', skip_padding r = Ok r' /\ reading r' (drop n s) out st msg.
Proof.
  intros [Hh Hc Ht Hs Hw Ho Hst Hm] n Hn H8. unfold skip_padding. fold n.
  destruct (Nat.ltb_spec 0 n) as [Hp|Hp].
  - rewrite Hs. destruct (read_into_arrived (tmp r) n s Hn ltac:(lia)) as (a & -> & La & _).
    eexists. split; [reflexivity|]. split; cbn; try done. congruence.
  - exists r. split; [done|]. replace n with 0%nat by lia. rewrite drop_0. done.
Qed.

Lemma fpm_header_fields type len pad :
  0 <= len < 65536 -> 0 <= pad < 256 ->
  byte_at 4 (fpm_header type len pad) * 256 + byte_at 5 (fpm_header type len pad) = len
  /\ byte_at 6 (fpm_header type len pad) = pad /\ length (fpm_header type len pad) = 8%nat.
Proof.
  intros Hl Hp. unfold byte_at, fpm_header. cbn. rewrite !char_u_chr. split; [|split; [by apply Z.mod_small|done]].
  rewrite (Z.mod_small (_ / 256)) by (split; [apply Z.div_pos; lia|apply Z.div_lt_upper_bound; lia]).
  Z.div_mod_to_equations. lia.
Qed.

Lemma read_stdout_spec r c pad rest out st msg :
  responderHeader r = fpm_header FCGI_STDOUT (Z.of_nat (length c)) (Z.of_nat (length pad)) ->
  reading r (c ++ pad ++ rest) out st msg -> fpm_ok (Stdout c pad) ->
  exists r', read_record r = Ok r' /\ reading r' rest (out ++ c) st msg.
Proof.
  intros Hh Hr [Hc Hp]. unfold read_record. rewrite Hh.
  destruct (fpm_header_fields FCGI_STDOUT (Z.of_nat (length c)) (Z.of_nat (length pad))) as (F1 & F2 & F3); [lia..|].
  rewrite F1, Nat2Z.id. change (byte_at 1 _ =? FCGI_STDOUT) with true. cbn iota.
  pose proof (Nat.div_mod_eq (length c) kBufferSize) as Hdm.
  pose proof (Nat.mod_upper_bound (length c) kBufferSize ltac:(unfold kBufferSize; lia)) as Hmu.
  set (k := (length c / kBufferSize)%nat) in *. set (m := (length c mod kBufferSize)%nat) in *.
  destruct (read_full_spec k r _ _ _ _ Hr) as (r1 & -> & Hr1 & E1); [rewrite !length_app; lia|].
  destruct (read_append_spec m r1 _ _ _ _ Hr1) as (r2 & -> & Hr2 & E2);
    [rewrite length_drop, !length_app; lia|lia|].
  rewrite drop_drop in Hr2. replace (k * kBufferSize + m)%nat with (length c) in Hr2 by lia.
  rewrite drop_app_length in Hr2. rewrite <- app_assoc in Hr2.
  rewrite take_take_drop in Hr2. replace (k * kBufferSize + m)%nat with (length c) in Hr2 by lia.
  rewrite take_app_length in Hr2.
  assert (Z.to_nat (byte_at 6 (responderHeader r2)) = length pad) as Hpad by (rewrite E2, E1, Hh, F2; apply Nat2Z.id).
  destruct (skip_padding_spec r2 _ _ _ _ Hr2) as (r3 & -> & Hr3); rewrite ?Hpad in *; [rewrite length_app; lia|done|].
  rewrite drop_app_length in Hr3. by exists r3.
Qed.

Lemma read_stderr_spec r c pad rest out st msg :
  responderHeader r = fpm_header FCGI_STDERR (Z.of_nat (length c)) (Z.of_nat (length pad)) ->
  reading r (c ++ pad ++ rest) out st msg -> fpm_ok (Stderr c pad) ->
  exists r', read_record r = Ok r' /\ reading r' rest out false c.
Proof.
  intros Hh [H1 H2 H3 H4 H5 H6 H7 H8] [Hc Hp]. pose proof kBufferSize_Z.
  destruct (fpm_header_fields FCGI_STDERR (Z.of_nat (length c)) (Z.of_nat (length pad))) as (F1 & F2 & F3); [lia..|].
  unfold read_record. rewrite Hh, F1, Nat2Z.id. change (byte_at 1 _ =? FCGI_STDOUT) with false.
  change (byte_at 1 _ =? FCGI_STDERR) with true. cbn iota. rewrite H4.
  destruct (read_into_arrived (content r) (length c) (c ++ pad ++ rest)) as (a & -> & La & Ta);
    [rewrite length_app; lia|lia|].
  rewrite Ta, drop_app_length, take_app_length.
  destruct (skip_padding_spec (Reader (fpm_header FCGI_STDERR (Z.of_nat (length c)) (Z.of_nat (length pad))) a (tmp r)
    (arrived (pad ++ rest)) (buffer r) false c) (pad ++ rest) out false c) as (r' & E & Hr).
  - split; try done. cbn. congruence.
  - cbn [responderHeader]. rewrite F2, Nat2Z.id, length_app. lia.
  - cbn [responderHeader]. rewrite F2, Nat2Z.id. lia.
  - exists r'. split; [exact E|]. cbn [responderHeader] in Hr. rewrite F2, Nat2Z.id, drop_app_length in Hr. exact Hr.
Qed.

Lemma read_end_spec r body rest out st msg :
  responderHeader r = fpm_header FCGI_END_REQUEST 8 0 -> reading r (body ++ rest) out st msg -> length body = 8%nat ->
  exists r', read_record r = Ok r' /\ reading r' rest out st msg.
Proof.
  intros Hh [H1 H2 H3 H4 H5 H6 H7 H8] Hb. unfold read_record. rewrite Hh.
  change (byte_at 1 _ =? FCGI_STDOUT) with false. change (byte_at 1 _ =? FCGI_STDERR) with false.
  change (byte_at 1 _ =? FCGI_END_REQUEST) with true. cbn iota. rewrite H4, <- Hb.
  destruct (read_into_arrived (replicate (length body) NUL) (length body) (body ++ rest)) as (a & E & _ & _);
    [rewrite length_app; lia|by rewrite length_replicate|].
  rewrite E, drop_app_length. eexists. split; [reflexivity|]. by split.
Qed.

(** What is collected from the records. *)
Definition stdout_of (r : fpm_record) : bytes := match r with Stdout c _ => c | _ => [] end.
Definition report (acc : bool * bytes) (r : fpm_record) : bool * bytes :=
  match r with Stderr c _ => (false, c) | _ => acc end.

Lemma read_record_spec r h out st msg x rest :
  h ++ drop 8 (fpm_bytes x) = fpm_bytes x -> length h = 8%nat -> responderHeader r = h ->
  reading r (drop 8 (fpm_bytes x) ++ rest) out st msg -> fpm_ok x ->
  exists r', read_record r = Ok r'
    /\ reading r' rest (out ++ stdout_of x) (report (st, msg) x).1 (report (st, msg) x).2.
Proof.
  intros Hx Hl Hh Hr Hok. apply (f_equal (take 8)) in Hx. rewrite <- Hl in Hx at 1. rewrite take_app_length in Hx.
  rewrite Hx in Hh. destruct x as [c pad|c pad|body]; cbn [fpm_bytes stdout_of report fst snd] in *.
  - change (take 8 _) with (fpm_header FCGI_STDOUT (Z.of_nat (length c)) (Z.of_nat (length pad))) in Hh.
    change (drop 8 _) with (c ++ pad) in Hr. rewrite <- app_assoc in Hr. by eapply read_stdout_spec.
  - change (take 8 _) with (fpm_header FCGI_STDERR (Z.of_nat (length c)) (Z.of_nat (length pad))) in Hh.
    change (drop 8 _) with (c ++ pad) in Hr. rewrite <- app_assoc in Hr. rewrite app_nil_r. by eapply read_stderr_spec.
  - change (take 8 _) with (fpm_header FCGI_END_REQUEST 8 0) in Hh.
    change (drop 8 _) with body in Hr. rewrite app_nil_r. by eapply read_end_spec.
Qed.

Lemma fpm_bytes_split x : exists h, length h = 8%nat /\ fpm_bytes x = h ++ drop 8 (fpm_bytes x).
Proof. destruct x; eexists; (split; [|cbn [fpm_bytes]; reflexivity]); done. Qed.

Lemma read_loop_spec xs r out st msg :
  reading r (mjoin (fpm_bytes <$> xs)) out st msg -> Forall fpm_ok xs ->
  exists r', read_loop (S (length xs)) r = Ok r'
    /\ Buffer.wf (buffer r') /\ Buffer.contents (buffer r') = out ++ mjoin (stdout_of <$> xs)
    /\ (status r', message r') = foldl report (st, msg) xs.
Proof.
  revert r out st msg. induction xs as [|x xs IH]; intros r out st msg Hr Hok.
  - destruct Hr as [H1 H2 H3 H4 H5 H6 H7 H8]. cbn [read_loop length]. rewrite H4. cbn.
    rewrite app_nil_r. exists r. by rewrite H7, H8.
  - apply Forall_cons in Hok as [Hx Hok]. destruct (fpm_bytes_split x) as (h & Lh & Eh).
    destruct Hr as [H1 H2 H3 H4 H5 H6 H7 H8]. cbn [read_loop]. rewrite H4.
    set (s := fpm_bytes x ++ mjoin (fpm_bytes <$> xs)).
    assert (s = h ++ drop 8 (fpm_bytes x) ++ mjoin (fpm_bytes <$> xs)) as Hs by (unfold s; rewrite Eh at 1; by rewrite app_assoc).
    change (mjoin (fpm_bytes <$> x :: xs)) with s.
    destruct (read_into_arrived (responderHeader r) FCGI_HEADER_LEN s) as (a & -> & La & Ta);
      [rewrite Hs, length_app; unfold FCGI_HEADER_LEN; lia|unfold FCGI_HEADER_LEN; lia|].
    unfold FCGI_HEADER_LEN in *. rewrite (take_ge a) in Ta by lia.
    assert (a = h) as -> by (rewrite Ta, Hs, <- Lh; apply take_app_length).
    assert (drop 8 s = drop 8 (fpm_bytes x) ++ mjoin (fpm_bytes <$> xs)) as -> by (rewrite Hs, <- Lh at 1; apply drop_app_length).
    change (0 <? 8)%nat with true. cbn iota.
    destruct (read_record_spec (Reader h (content r) (tmp r) (arrived (drop 8 (fpm_bytes x) ++ mjoin (fpm_bytes <$> xs)))
      (buffer r) (status r) (message r)) h out st msg x (mjoin (fpm_bytes <$> xs))) as (r1 & -> & Hr1);
      [done|done|done|by split|done|].
    change (length (x :: xs)) with (S (length xs)).
    destruct (IH r1 _ _ _ Hr1 Hok) as (r2 & -> & Hw & Hc & Hst). exists r2. split; [done|]. split; [done|].
    split; [by rewrite Hc, <- app_assoc|]. rewrite Hst. cbn [foldl]. by destruct (report (st, msg) x).
Qed.

Lemma readPhpFpm_spec (xs : list fpm_record) (junk : bytes) (b : Buffer.t) :
  Forall fpm_ok xs -> length junk = 16%nat -> Buffer.wf b ->
  exists b', readPhpFpm (S (length xs)) junk (arrived (mjoin (fpm_bytes <$> xs))) b
      = Ok ((foldl report (true, bs "OK") xs).1, (foldl report (true, bs "OK") xs).2, b')
    /\ Buffer.wf b' /\ Buffer.contents b' = Buffer.contents b ++ mjoin (stdout_of <$> xs).
Proof.
  intros Hok Hj Hb. unfold readPhpFpm.
  destruct (read_loop_spec xs (Reader (take 8 junk) (replicate kBufferSize NUL) (drop 8 junk)
    (arrived (mjoin (fpm_bytes <$> xs))) b true (bs "OK")) (Buffer.contents b) true (bs "OK")) as (r & -> & Hw & Hc & Hst).
  - split; cbn [responderHeader content tmp sock buffer status message]; try done.
    + rewrite length_take. lia.
    + rewrite length_drop. lia.
  - done.
  - exists (buffer r). rewrite <- Hst. done.
Qed.

(** A response of PHP-FPM that has arrived in one piece is read to its end:
    the buffer gains the contents of the output records, in order and without
    their padding, and the message is that of the last error record. *)
Theorem fpm_response_read (xs : list fpm_record) (junk : bytes) (b : Buffer.t) :
  Forall fpm_ok xs -> length junk = 16%nat -> Buffer.wf b ->
  exists b', readPhpFpm (S (length xs)) junk (arrived (mjoin (fpm_bytes <$> xs))) b
      = Ok ((foldl report (true, bs "OK") xs).1, (foldl report (true, bs "OK") xs).2, b')
    /\ Buffer.contents b' = Buffer.contents b ++ mjoin (stdout_of <$> xs).
Proof.
  intros Hok Hj Hb. destruct (readPhpFpm_spec xs junk b Hok Hj Hb) as (b' & E & _ & Hc). by exists b'.
Qed.

Lemma fpm_response_read_witness :
  exists b', readPhpFpm 4 (replicate 16 "j"%char)
      [mjoin (fpm_bytes <$> [Stdout (bs "hello ") (bs "pad"); Stderr (bs "oops") []; Stdout (bs "world") []])] (Buffer.new 4)
    = Ok (false, bs "oops", b') /\ Buffer.contents b' = bs "hello world".
Proof.
  apply (fpm_response_read [Stdout (bs "hello ") (bs "pad"); Stderr (bs "oops") []; Stdout (bs "world") []]).
  - repeat (constructor; [split; apply (bool_decide_unpack _); vm_compute; exact I|]). constructor.
  - reflexivity.
  - apply (bool_decide_unpack _). vm_compute. exact I.
Defined.

(** The reader takes what is there for what it asked for: a response that
    arrives in two pieces is cut where the first ends and read out of step from
    there; and a padding or an error record larger than its buffer, which
    FastCGI allows, overflows the buffer. *)
Theorem fpm_response_unsynchronised :
  let junk := replicate 16 NUL in
  let record := fpm_bytes (Stdout (bs "hello world") []) in
  (exists b, readPhpFpm 2 junk [record] (Buffer.new 4) = Ok (true, bs "OK", b) /\ Buffer.contents b = bs "hello world")
  /\ (exists b, readPhpFpm 3 junk [take 13 record; drop 13 record] (Buffer.new 4) = Ok (true, bs "OK", b)
       /\ Buffer.contents b = bs "hello")
  /\ readPhpFpm 2 junk [fpm_bytes (Stdout (bs "hello") (replicate 9 NUL))] (Buffer.new 4) = Err Undefined
  /\ readPhpFpm 2 junk [fpm_bytes (Stderr (replicate (Z.to_nat 2049) "e"%char) [])] (Buffer.new 4) = Err Undefined.
Proof.
  split; [eexists; split; vm_compute; reflexivity|]. split; [eexists; split; vm_compute; reflexivity|].
  split; vm_compute; reflexivity.
Qed.
