(* ===== verification/JsonRoundtrip.v ===== *)
(** * JsonRoundtrip: the parser on all token lists, and on what is printed *)
From S2P Require Import Prelude CStr JsonLexer JsonParser.
Import JsonUtil JsonReader JsonLexer Json JsonParser.

(** ** The parser is total *)
Section total.
Context {F : Type} (escape : bool).
Implicit Types (ts : list (token F)).

Definition is_end (k : lexeme F) : bool :=
  match k with JSON_OBJECT_END | JSON_ARRAY_END => true | _ => false end.
(** A token list whose last token, if any, closes an object or an array. *)
Definition closed ts : Prop := match last ts with Some t => is_end (tag t) = true | None => True end.

(** A value satisfying [P], or a syntax error. *)
Definition fails_cleanly {A} (P : A -> Prop) (r : result A) : Prop :=
  match r with Ok x => P x | Err (JsonSyntaxErrorExn _ _) => True | Err _ => False end.

Lemma clean_bind {A B} (P : A -> Prop) (Q : B -> Prop) (r : result A) (f : A -> result B) :
  fails_cleanly P r -> (forall x, P x -> fails_cleanly Q (f x)) -> fails_cleanly Q (let* x := r in f x).
Proof. destruct r as [x|e]; [intros H Hf; by apply Hf|by destruct e]. Qed.

Lemma clean_check {A} (Q : A -> Prop) (r : result unit) (k : result A) :
  (r = Ok () \/ exists l c, r = Err (JsonSyntaxErrorExn l c)) -> fails_cleanly Q k -> fails_cleanly Q (let* _ := r in k).
Proof. by intros [-> |(l & c & ->)]. Qed.

(** Each check passes or is a syntax error. *)
Ltac clean_check := repeat (case_match; subst); try (by left); try (right; eexists _, _; reflexivity).

Lemma closure_check cur ts :
  handle_after_object_array_closure_exception cur ts = Ok ()
  \/ exists l c, handle_after_object_array_closure_exception cur ts = Err (JsonSyntaxErrorExn l c).
Proof. unfold handle_after_object_array_closure_exception, syntax. clean_check. Qed.
Lemma after_begin_check (cur : token F) ts :
  handle_after_object_array_exception cur ts = Ok ()
  \/ exists l c, handle_after_object_array_exception cur ts = Err (JsonSyntaxErrorExn l c).
Proof. unfold handle_after_object_array_exception, syntax. clean_check. Qed.
Lemma separator_check (cur : token F) ts :
  handle_missing_separator_exception cur ts = Ok ()
  \/ exists l c, handle_missing_separator_exception cur ts = Err (JsonSyntaxErrorExn l c).
Proof. unfold handle_missing_separator_exception, syntax. clean_check. Qed.
Lemma after_separator_check ts :
  handle_after_separators_exception ts = Ok ()
  \/ exists l c, handle_after_separators_exception ts = Err (JsonSyntaxErrorExn l c).
Proof. unfold handle_after_separators_exception, syntax. clean_check. Qed.
Lemma value_check ts :
  handle_object_missing_value ts = Ok () \/ exists l c, handle_object_missing_value ts = Err (JsonSyntaxErrorExn l c).
Proof. unfold handle_object_missing_value, syntax. clean_check. Qed.

Lemma closed_tail t ts : closed (t :: ts) -> closed ts.
Proof. unfold closed. by destruct ts. Qed.

Lemma closed_open t ts : closed (t :: ts) -> is_end (tag t) = false -> exists t' ts', ts = t' :: ts'.
Proof. destruct ts as [|t' ts']; [|by eexists _, _]. unfold closed. simpl. congruence. Qed.

(** What the loops return: less than what they were given. *)
Definition rest_ok {A} ts (r : A * list (token F)) : Prop := closed r.2 /\ length r.2 <= length ts.

Lemma parse_value_clean object array t ts :
  closed ts ->
  (forall acc, fails_cleanly (rest_ok ts) (object ts acc)) -> (forall acc, fails_cleanly (rest_ok ts) (array ts acc)) ->
  fails_cleanly (rest_ok ts) (parse_value escape object array t ts).
Proof.
  intros Hc Ho Ha. unfold parse_value. destruct (tag t); try (by split).
  - apply clean_check; [apply after_begin_check|]. specialize (Ho []).
    by destruct (object ts []) as [[o ts']|e].
  - apply clean_check; [apply after_begin_check|]. specialize (Ha []).
    by destruct (array ts []) as [[o ts']|e].
Qed.

Lemma rest_ok_le {A} ts ts' (r : result (A * list (token F))) :
  length ts' <= length ts -> fails_cleanly (rest_ok ts') r -> fails_cleanly (rest_ok ts) r.
Proof.
  intros Hl. destruct r as [x|e]; [|by destruct e]. intros [H1 H2]. split; [done|]. lia.
Qed.

Lemma loops_clean fuel :
  (forall ts o, length ts < fuel -> closed ts -> fails_cleanly (rest_ok ts) (parseJsonObject escape fuel ts o))
  /\ (forall ts a, length ts < fuel -> closed ts -> fails_cleanly (rest_ok ts) (parseJsonArray escape fuel ts a)).
Proof.
  induction fuel as [|fuel [IHo IHa]]; [split; intros; lia|].
  assert (forall t ts, length ts < fuel -> closed ts ->
    fails_cleanly (rest_ok ts) (parse_value escape (parseJsonObject escape fuel) (parseJsonArray escape fuel) t ts)) as Hv.
  { intros t ts Hl Hc. apply parse_value_clean; [done|intros acc; by apply IHo|intros acc; by apply IHa]. }
  split; intros ts acc Hl Hc.
  - destruct ts as [|key ts]; [by split|]. cbn [parseJsonObject]. simpl in Hl. pose proof (closed_tail _ _ Hc) as Hc1.
    destruct (is_end (tag key)) eqn:He; [destruct (tag key) eqn:Et; try discriminate He|].
    + apply clean_check; [apply closure_check|]. split; [done|simpl; lia].
    + unfold handle_key_not_string_exception. by rewrite Et.
    + destruct (closed_open _ _ Hc He) as (t & ts' & ->). unfold handle_key_not_string_exception.
      destruct (tag key) eqn:Et; try discriminate He; try done.
      * destruct (tag t) eqn:Ett; cbn [handle_object_missing_separator_exception]; rewrite Ett; try done.
        cbn [drop]. rewrite drop_0. assert (is_end (tag t) = false) as Het by (by rewrite Ett).
        destruct (closed_open _ _ Hc1 Het) as (v & ts & ->). pose proof (closed_tail _ _ (closed_tail _ _ Hc1)) as Hc2.
        apply clean_check; [apply value_check|]. cbn [next_token]. simpl in Hl.
        apply clean_check; [apply separator_check|].
        eapply clean_bind; [apply Hv; [lia|done]|]. intros [x ts2] [Hc3 Hl3]. simpl in *.
        eapply rest_ok_le; [|apply IHo; [lia|done]]. simpl. lia.
      * apply clean_check; [apply after_separator_check|]. eapply rest_ok_le; [|apply IHo; [simpl in *; lia|done]].
        simpl. lia.
  - destruct ts as [|v ts]; [by split|]. cbn [parseJsonArray]. simpl in Hl. pose proof (closed_tail _ _ Hc) as Hc1.
    destruct (tag v) eqn:Et;
      try (apply clean_check; [apply separator_check|]; eapply clean_bind; [apply Hv; [lia|done]|];
           intros [x ts2] [Hc3 Hl3]; simpl in *; eapply rest_ok_le; [|apply IHa; [lia|done]]; simpl; lia).
    + apply clean_check; [apply closure_check|]. split; [done|simpl; lia].
    + apply clean_check; [apply after_separator_check|]. eapply rest_ok_le; [|apply IHa; [lia|done]]. simpl. lia.
Qed.

End total.

(** The result of a document: no value if there are no tokens, a value
    otherwise. *)
Definition document {F} (ts : list (token F)) (v : option (value F)) : Prop := v = None <-> ts = [].

(** C25: Parsing terminates and stays inside the token list, whatever the tokens
    are: it returns a value, or none for an empty document, or it throws a
    syntax error; no index is out of range, although the parser takes the next
    token in three places without looking at the end. *)
Theorem parse_total {F} (escape : bool) (ts : list (token F)) :
  (exists v, parse escape ts = Ok v /\ document ts v) \/ (exists l c, parse escape ts = Err (JsonSyntaxErrorExn l c)).
Proof.
  cut (fails_cleanly (document ts) (parse escape ts)).
  { destruct (parse escape ts) as [v|e]; [by left; eexists|]. destruct e; try done. right. by eexists _, _. }
  destruct ts as [|t ts]; [done|]. unfold parse.
  destruct (last_is_Some (t :: ts)) as [_ [z Hz]]; [done|].
  unfold handle_begin_end_mismatch_exception. cbn [head of_option]. rewrite Hz. cbn [of_option].
  assert (is_end (tag z) = true -> closed ts) as Hc.
  { intros He. apply (closed_tail t). unfold closed. by rewrite Hz. }
  assert (closed ts -> fails_cleanly (rest_ok ts) (parse_value escape (parseJsonObject escape (S (length (t :: ts))))
    (parseJsonArray escape (S (length (t :: ts)))) t ts)) as Hv.
  { intros Hts. destruct (loops_clean (F := F) escape (S (length (t :: ts)))) as [Ho Ha].
    apply parse_value_clean; [done|intros acc; apply Ho|intros acc; apply Ha]; (done || (simpl; lia)). }
  destruct (tag t) eqn:Et; try (by destruct ts).
  - destruct (tag z) eqn:Ez; try done. eapply clean_bind; [by apply Hv, Hc|]. by intros [x r] _.
  - destruct (tag z) eqn:Ez; try done. eapply clean_bind; [by apply Hv, Hc|]. by intros [x r] _.
Qed.

(** ** Tokens of a value, and the parser on them *)
Section roundtrip.
Context {F : Type}.
Implicit Types (v : value F) (ts : list (token F)).

Fixpoint separated (l : list (list (lexeme F))) : list (lexeme F) :=
  match l with [] => [] | [x] => x | x :: l => x ++ JSON_SEP :: separated l end.

Fixpoint tokens_of v : list (lexeme F) :=
  match v with
  | JsonObject kvs =>
      let fix members (kvs : list (str * value F)) :=
        match kvs with
        | [] => []
        | (k, v) :: kvs => (JSON_STRING (text k) :: JSON_KEY_VALUE_SEP :: tokens_of v) :: members kvs
        end in
      JSON_OBJECT_BEGIN :: separated (members kvs) ++ [JSON_OBJECT_END]
  | JsonArray vs =>
      let fix members (vs : list (value F)) :=
        match vs with [] => [] | v :: vs => tokens_of v :: members vs end in
      JSON_ARRAY_BEGIN :: separated (members vs) ++ [JSON_ARRAY_END]
  | JsonString s => [JSON_STRING (text s)]
  | JsonInt n => [JSON_NUMBER n]
  | JsonFloat f => [JSON_FLOAT f]
  | JsonBoolean b => [if b then JSON_TRUE else JSON_FALSE]
  | JsonNull | JsonNone => [JSON_NULL]
  end.

Definition member_tokens (kv : str * value F) : list (lexeme F) :=
  JSON_STRING (text kv.1) :: JSON_KEY_VALUE_SEP :: tokens_of kv.2.

Lemma tokens_of_object kvs :
  tokens_of (JsonObject kvs) = JSON_OBJECT_BEGIN :: separated (member_tokens <$> kvs) ++ [JSON_OBJECT_END].
Proof. simpl. do 3 f_equal. induction kvs as [|[k v] kvs IH]; [done|]. simpl. by rewrite IH. Qed.
Lemma tokens_of_array vs :
  tokens_of (JsonArray vs) = JSON_ARRAY_BEGIN :: separated (tokens_of <$> vs) ++ [JSON_ARRAY_END].
Proof. done. Qed.

(** A value as the parser makes them: no null pointer, and strings whose
    escapes were replaced if the lexer replaces escapes. *)
Fixpoint parsed (escape : bool) v : Prop :=
  match v with
  | JsonObject kvs =>
      let fix members (kvs : list (str * value F)) : Prop :=
        match kvs with [] => True | (k, v) :: kvs => isEscaped k = escape /\ parsed escape v /\ members kvs end in
      members kvs
  | JsonArray vs =>
      let fix members (vs : list (value F)) : Prop :=
        match vs with [] => True | v :: vs => parsed escape v /\ members vs end in
      members vs
  | JsonString s => isEscaped s = escape
  | JsonNone => False
  | _ => True
  end.

Lemma parsed_object escape kvs :
  parsed escape (JsonObject kvs) <-> Forall (fun kv => isEscaped kv.1 = escape /\ parsed escape kv.2) kvs.
Proof.
  simpl. induction kvs as [|[k v] kvs IH]; [done|]. rewrite Forall_cons, <- IH. simpl. tauto.
Qed.
Lemma parsed_array escape vs : parsed escape (JsonArray vs) <-> Forall (parsed escape) vs.
Proof. simpl. induction vs as [|v vs IH]; [done|]. by rewrite Forall_cons, <- IH. Qed.

(** Induction over the members. *)
Lemma value_ind' (P : value F -> Prop) :
  (forall kvs, Forall (fun kv => P kv.2) kvs -> P (JsonObject kvs)) ->
  (forall vs, Forall P vs -> P (JsonArray vs)) ->
  (forall s, P (JsonString s)) -> (forall n, P (JsonInt n)) -> (forall f, P (JsonFloat f)) ->
  (forall b, P (JsonBoolean b)) -> P JsonNull -> P JsonNone -> forall v, P v.
Proof.
  intros Ho Ha Hs Hi Hf Hb Hn Hz. fix IH 1. intros [kvs|vs|s|n|f|b| |];
    [apply Ho|apply Ha|apply Hs|apply Hi|apply Hf|apply Hb|apply Hn|apply Hz].
  - induction kvs as [|[k v] kvs IHl]; constructor; [apply IH|exact IHl].
  - induction vs as [|v vs IHl]; constructor; [apply IH|exact IHl].
Qed.

(** What may come after a value: a separator or a closing token. *)
Definition follows (k : lexeme F) : Prop := k = JSON_SEP \/ is_end k = true.
Definition starts_value (k : lexeme F) : Prop :=
  match k with
  | JSON_STRING _ | JSON_NUMBER _ | JSON_FLOAT _ | JSON_TRUE | JSON_FALSE | JSON_NULL | JSON_OBJECT_BEGIN | JSON_ARRAY_BEGIN => True
  | _ => False
  end.

Lemma tokens_of_starts v : exists k ks, tokens_of v = k :: ks /\ starts_value k.
Proof. destruct v as [| | | | |[]| |]; eexists _, _; done. Qed.

Context (escape : bool).

Lemma array_step fuel (t : token F) ts acc :
  starts_value (tag t) ->
  parseJsonArray escape (S fuel) (t :: ts) acc =
    (let* _ := handle_missing_separator_exception t ts in
     let* (x, ts) := parse_value escape (parseJsonObject escape fuel) (parseJsonArray escape fuel) t ts in
     parseJsonArray escape fuel ts (acc ++ [x])).
Proof. intros H. cbn [parseJsonArray]. by destruct (tag t). Qed.

Lemma object_step fuel (t c v : token F) ts acc s :
  tag t = JSON_STRING s -> tag c = JSON_KEY_VALUE_SEP -> starts_value (tag v) ->
  parseJsonObject escape (S fuel) (t :: c :: v :: ts) acc =
    (let* _ := handle_missing_separator_exception v ts in
     let* (x, ts) := parse_value escape (parseJsonObject escape fuel) (parseJsonArray escape fuel) v ts in
     parseJsonObject escape fuel ts (acc ++ [(Str s escape, x)])).
Proof.
  intros Ht Hc Hv. cbn [parseJsonObject]. rewrite Ht. unfold handle_key_not_string_exception. rewrite Ht.
  cbn [handle_object_missing_separator_exception]. rewrite Hc. cbn [drop].
  cbn [handle_object_missing_value next_token]. by destruct (tag v).
Qed.

(** A separator before the next member. *)
Lemma array_sep fuel (t n : token F) ts acc :
  tag t = JSON_SEP -> starts_value (tag n) ->
  parseJsonArray escape (S fuel) (t :: n :: ts) acc = parseJsonArray escape fuel (n :: ts) acc.
Proof. intros Ht Hn. cbn [parseJsonArray]. rewrite Ht. cbn [handle_after_separators_exception]. by destruct (tag n). Qed.
Lemma object_sep fuel (t n : token F) ts acc :
  tag t = JSON_SEP -> starts_value (tag n) ->
  parseJsonObject escape (S fuel) (t :: n :: ts) acc = parseJsonObject escape fuel (n :: ts) acc.
Proof. intros Ht Hn. cbn [parseJsonObject]. rewrite Ht. cbn [handle_after_separators_exception]. by destruct (tag n). Qed.

(** What comes after a container may be nothing. *)
Definition next_ok (rest : list (token F)) : Prop := match rest with [] => True | n :: _ => follows (tag n) end.

Lemma array_close fuel (z : token F) rest acc :
  tag z = JSON_ARRAY_END -> next_ok rest -> parseJsonArray escape (S fuel) (z :: rest) acc = Ok (acc, rest).
Proof.
  intros Hz Hr. cbn [parseJsonArray]. rewrite Hz. unfold handle_after_object_array_closure_exception.
  destruct rest as [|n rest]; [done|]. destruct Hr as [-> |Hr]; [done|]. by destruct (tag n).
Qed.
Lemma object_close fuel (z : token F) rest acc :
  tag z = JSON_OBJECT_END -> next_ok rest -> parseJsonObject escape (S fuel) (z :: rest) acc = Ok (acc, rest).
Proof.
  intros Hz Hr. cbn [parseJsonObject]. rewrite Hz. unfold handle_after_object_array_closure_exception.
  destruct rest as [|n rest]; [done|]. destruct Hr as [-> |Hr]; [done|]. by destruct (tag n).
Qed.

Definition container (v : value F) : bool := match v with JsonObject _ | JsonArray _ => true | _ => false end.

(** The parser takes exactly the tokens of [v]. *)
Definition parses (v : value F) : Prop := forall fuel t vts rest,
  tag <$> (t :: vts) = tokens_of v -> parsed escape v -> length (vts ++ rest) < fuel ->
  next_ok rest -> (container v = false -> rest <> []) ->
  handle_missing_separator_exception t (vts ++ rest) = Ok ()
  /\ parse_value escape (parseJsonObject escape fuel) (parseJsonArray escape fuel) t (vts ++ rest) = Ok (v, rest).

Lemma separated_cons (x : list (lexeme F)) l :
  separated (x :: l) = x ++ match l with [] => [] | _ => JSON_SEP :: separated l end.
Proof. destruct l; simpl; [by rewrite app_nil_r|done]. Qed.

(** Cuts the tokens of the first of several members off. *)
Lemma split_member (x : list (lexeme F)) l ts :
  tag <$> ts = separated (x :: l) ->
  exists ts1 ts2, ts = ts1 ++ ts2 /\ tag <$> ts1 = x
    /\ match l with
       | [] => ts2 = []
       | _ => exists s ts3, ts2 = s :: ts3 /\ tag s = JSON_SEP /\ tag <$> ts3 = separated l
       end.
Proof.
  rewrite separated_cons. intros H. apply fmap_app_inv in H as (ts1 & ts2 & H1 & H2 & ->).
  exists ts1, ts2. split; [done|]. split; [done|]. destruct l as [|y l].
  - symmetry in H2. by apply fmap_nil_inv in H2.
  - symmetry in H2. apply fmap_cons_inv in H2 as (s & ts3 & -> & Hs & -> ). by exists s, ts3.
Qed.

Lemma array_members vs :
  Forall parses vs -> Forall (parsed escape) vs -> forall fuel ts z rest acc,
  tag <$> ts = separated (tokens_of <$> vs) -> tag z = JSON_ARRAY_END -> next_ok rest ->
  length (ts ++ z :: rest) < fuel ->
  parseJsonArray escape fuel (ts ++ z :: rest) acc = Ok (acc ++ vs, rest).
Proof.
  intros HP Hg. induction vs as [|v vs IH]; intros fuel ts z rest acc Ht Hz Hr Hl.
  { apply fmap_nil_inv in Ht as ->. destruct fuel; [simpl in Hl; lia|]. rewrite app_nil_r. by apply array_close. }
  apply Forall_cons in HP as [Hv HP], Hg as [Gv Hg].
  rewrite fmap_cons in Ht. apply split_member in Ht as (ts1 & ts2 & -> & H1 & H2).
  destruct (tokens_of_starts v) as (k & ks & Ek & Hk). destruct ts1 as [|t ts1]; [by rewrite Ek in H1|].
  assert (starts_value (tag t)) as Hst by (rewrite Ek in H1; injection H1 as -> _; done).
  destruct fuel as [|fuel]; [simpl in Hl; lia|]. rewrite <- app_assoc. cbn [app]. rewrite array_step by done.
  rewrite !length_app in Hl. cbn [length] in Hl.
  assert (next_ok (ts2 ++ z :: rest)) as Hnx.
  { destruct vs; [simpl in H2; subst ts2; right; by rewrite Hz|]. destruct H2 as (s & ts3 & -> & Hs & _). by left. }
  destruct (Hv fuel t ts1 (ts2 ++ z :: rest)) as [-> ->]; [done|done| |done|by destruct ts2|].
  { rewrite !length_app. cbn [length]. lia. }
  destruct vs as [|v' vs].
  - simpl in H2. subst ts2. cbn [app]. destruct fuel; [simpl in Hl; lia|]. by apply array_close.
  - destruct H2 as (s & ts3 & -> & Hs & H3). cbn [app]. cbn [length] in Hl.
    destruct fuel as [|fuel]; [lia|].
    destruct (tokens_of_starts v') as (k' & ks' & Ek' & Hk').
    assert (exists n ts4, ts3 = n :: ts4 /\ starts_value (tag n)) as (n & ts4 & -> & Hn).
    { rewrite fmap_cons, separated_cons, Ek' in H3. destruct ts3 as [|n ts4]; [done|]. injection H3 as En _.
      exists n, ts4. by rewrite En. }
    cbn [app]. rewrite array_sep by done. change (n :: ts4 ++ z :: rest) with ((n :: ts4) ++ z :: rest).
    rewrite (IH HP Hg fuel (n :: ts4) z rest (acc ++ [v])); [by rewrite <- app_assoc|done|done|done|].
    rewrite length_app. cbn [length] in *. lia.
Qed.

Lemma object_members (kvs : list (str * value F)) :
  Forall (fun kv => parses kv.2) kvs -> Forall (fun kv => isEscaped kv.1 = escape /\ parsed escape kv.2) kvs ->
  forall fuel ts z rest acc,
  tag <$> ts = separated (member_tokens <$> kvs) -> tag z = JSON_OBJECT_END -> next_ok rest ->
  length (ts ++ z :: rest) < fuel ->
  parseJsonObject escape fuel (ts ++ z :: rest) acc = Ok (acc ++ kvs, rest).
Proof.
  intros HP Hg. induction kvs as [|[[s e] v] kvs IH]; intros fuel ts z rest acc Ht Hz Hr Hl.
  { apply fmap_nil_inv in Ht as ->. destruct fuel; [simpl in Hl; lia|]. rewrite app_nil_r. by apply object_close. }
  apply Forall_cons in HP as [Hv HP], Hg as [[Ge Gv] Hg]. cbn [fst snd isEscaped] in *. subst e.
  rewrite fmap_cons in Ht. apply split_member in Ht as (ts1 & ts2 & -> & H1 & H2).
  destruct (tokens_of_starts v) as (k & ks & Ek & Hk). unfold member_tokens in H1. cbn [fst snd text] in H1.
  destruct ts1 as [|key [|c [|t ts1]]]; [done|done|by rewrite Ek in H1|]. injection H1 as E1 E2 H1.
  change (tag t :: list_fmap _ _ tag ts1) with (tag <$> (t :: ts1)) in H1.
  assert (starts_value (tag t)) as Hst by (rewrite Ek in H1; injection H1 as -> _; done).
  destruct fuel as [|fuel]; [simpl in Hl; lia|]. rewrite <- app_assoc. cbn [app]. rewrite (object_step _ _ _ _ _ _ s) by done.
  rewrite !length_app in Hl. cbn [length] in Hl.
  assert (next_ok (ts2 ++ z :: rest)) as Hnx.
  { destruct kvs; [simpl in H2; subst ts2; right; by rewrite Hz|]. destruct H2 as (s' & ts3 & -> & Hs & _). by left. }
  destruct (Hv fuel t ts1 (ts2 ++ z :: rest)) as [-> ->]; [done|done| |done|by destruct ts2|].
  { rewrite !length_app. cbn [length]. lia. }
  destruct kvs as [|[k' v'] kvs].
  - simpl in H2. subst ts2. cbn [app]. destruct fuel; [simpl in Hl; lia|]. by apply object_close.
  - destruct H2 as (s' & ts3 & -> & Hs & H3). cbn [app]. cbn [length] in Hl.
    destruct fuel as [|fuel]; [lia|].
    assert (exists n ts4, ts3 = n :: ts4 /\ starts_value (tag n)) as (n & ts4 & -> & Hn).
    { rewrite fmap_cons, separated_cons in H3. destruct ts3 as [|n ts4]; [done|]. injection H3 as En _.
      exists n, ts4. by rewrite En. }
    cbn [app]. rewrite object_sep by done. change (n :: ts4 ++ z :: rest) with ((n :: ts4) ++ z :: rest).
    rewrite (IH HP Hg fuel (n :: ts4) z rest (acc ++ [(Str s escape, v)])); [by rewrite <- app_assoc|done|done|done|].
    rewrite length_app. cbn [length] in *. lia.
Qed.

(** A value that is one token. *)
Lemma scalar_parses fuel (k : lexeme F) (v : value F) (t : token F) vts rest :
  starts_value k -> k <> JSON_OBJECT_BEGIN -> k <> JSON_ARRAY_BEGIN -> tag <$> (t :: vts) = [k] ->
  scalar escape k = v -> next_ok rest -> rest <> [] ->
  handle_missing_separator_exception t (vts ++ rest) = Ok ()
  /\ parse_value escape (parseJsonObject escape fuel) (parseJsonArray escape fuel) t (vts ++ rest) = Ok (v, rest).
Proof.
  intros Hs Ho Ha Ht <- Hr Hne. rewrite fmap_cons in Ht. injection Ht as Et Hv. apply fmap_nil_inv in Hv as ->.
  destruct rest as [|n rest]; [done|]. cbn [app]. unfold handle_missing_separator_exception, parse_value. rewrite Et.
  assert (match tag n with JSON_ARRAY_END | JSON_OBJECT_END | JSON_SEP => Ok () | _ => syntax (line t) (col t + tlen t - 1) end
    = Ok ()) as Hn.
  { destruct Hr as [-> |Hr]; [done|]. by destruct (tag n). }
  rewrite Hn. by destruct k.
Qed.

(** The tokens of a container: its opening, its members and its closing. *)
Lemma container_tokens (b e : lexeme F) l (t : token F) vts :
  tag <$> (t :: vts) = b :: separated l ++ [e] ->
  exists ts z, tag t = b /\ vts = ts ++ [z] /\ tag z = e /\ tag <$> ts = separated l.
Proof.
  rewrite fmap_cons. intros [= Et Ht]. apply fmap_app_inv in Ht as (ts & zs & H1 & H2 & ->).
  symmetry in H2. apply fmap_cons_inv in H2 as (z & zs' & Ez & H2 & ->). symmetry in H2.
  apply fmap_nil_inv in H2 as ->. by exists ts, z.
Qed.

(** The first token of the members. *)
Lemma first_member (l : list (list (lexeme F))) ts :
  tag <$> ts = separated l -> Forall (fun x => exists k ks, x = k :: ks /\ starts_value k) l ->
  ts = [] \/ exists n ts', ts = n :: ts' /\ starts_value (tag n).
Proof.
  destruct l as [|x l]; [intros H; left; by apply fmap_nil_inv in H|].
  rewrite separated_cons. intros H Hl. apply Forall_cons in Hl as [(k & ks & -> & Hk) _].
  destruct ts as [|n ts]; [done|]. injection H as En _. right. exists n, ts. by rewrite En.
Qed.

Lemma parses_all v : parses v.
Proof.
  induction v as [kvs IH|vs IH|s|n|f|b| |] using value_ind'; intros fuel t vts rest Ht Hg Hl Hr Hc.
  - rewrite tokens_of_object in Ht. apply container_tokens in Ht as (ts & z & Et & -> & Ez & H).
    apply parsed_object in Hg. rewrite <- app_assoc in *. cbn [app] in *.
    unfold handle_missing_separator_exception, parse_value. rewrite Et. split; [done|].
    assert (handle_after_object_array_exception t (ts ++ z :: rest) = Ok ()) as ->.
    { destruct (first_member _ _ H) as [-> |(n & ts' & -> & Hn)].
      - apply Forall_fmap, Forall_forall. intros [k v] _. by eexists _, _.
      - cbn. by rewrite Ez, Et.
      - cbn. by destruct (tag n). }
    rewrite (object_members kvs IH Hg fuel ts z rest []); [done|done|done|done|lia].
  - rewrite tokens_of_array in Ht. apply container_tokens in Ht as (ts & z & Et & -> & Ez & H).
    apply parsed_array in Hg. rewrite <- app_assoc in *. cbn [app] in *.
    unfold handle_missing_separator_exception, parse_value. rewrite Et. split; [done|].
    assert (handle_after_object_array_exception t (ts ++ z :: rest) = Ok ()) as ->.
    { destruct (first_member _ _ H) as [-> |(n & ts' & -> & Hn)].
      - apply Forall_fmap, Forall_forall. intros v _. apply tokens_of_starts.
      - cbn. by rewrite Ez, Et.
      - cbn. by destruct (tag n). }
    rewrite (array_members vs IH Hg fuel ts z rest []); [done|done|done|done|lia].
  - apply (scalar_parses fuel (JSON_STRING (text s))); [done..| |done|by apply Hc].
    simpl in Hg. destruct s. simpl in *. by subst.
  - apply (scalar_parses fuel (JSON_NUMBER n)); [done..|by apply Hc].
  - apply (scalar_parses fuel (JSON_FLOAT f)); [done..|by apply Hc].
  - destruct b; [apply (scalar_parses fuel JSON_TRUE)|apply (scalar_parses fuel JSON_FALSE)]; (done || by apply Hc).
  - apply (scalar_parses fuel JSON_NULL); [done..|by apply Hc].
  - done.
Qed.

End roundtrip.

(** A whole document. *)
Lemma parse_container {F} escape (v : value F) ts :
  container v = true -> tag <$> ts = tokens_of v -> parsed escape v -> parse escape ts = Ok (Some v).
Proof.
  intros Hc Ht Hg. destruct ts as [|t ts]; [by destruct v as [| | | | |[]| |]|].
  destruct (parses_all escape v (S (length (t :: ts))) t ts []) as [_ Hp]; [done|done| |done|by rewrite Hc|].
  { rewrite app_nil_r. simpl. lia. }
  rewrite app_nil_r in Hp. unfold parse.
  assert (handle_begin_end_mismatch_exception (t :: ts) = Ok ()) as ->.
  { unfold handle_begin_end_mismatch_exception. cbn [head of_option].
    assert (exists b e l, tokens_of v = b :: separated l ++ [e]
      /\ ((b = JSON_OBJECT_BEGIN /\ e = JSON_OBJECT_END) \/ (b = JSON_ARRAY_BEGIN /\ e = JSON_ARRAY_END))) as (b & e & l & E & Hbe).
    { destruct v as [kvs|vs| | | | | |]; try done; eexists _, _, _;
        [rewrite tokens_of_object|rewrite tokens_of_array]; (split; [reflexivity|]); [by left|by right]. }
    rewrite E in Ht. apply container_tokens in Ht as (ts' & z & Et & -> & Ez & _).
    change (t :: ts' ++ [z]) with ((t :: ts') ++ [z]). rewrite last_snoc. cbn [of_option]. rewrite Et, Ez.
    by destruct Hbe as [[-> ->]|[-> ->]]. }
  assert (tag t = JSON_OBJECT_BEGIN \/ tag t = JSON_ARRAY_BEGIN) as Hb.
  { destruct v as [kvs|vs| | | | | |]; try done; [left|right]; by injection Ht. }
  destruct Hb as [Et|Et]; rewrite Et, Hp; done.
Qed.
