(* ===== verification/JsonText.v ===== *)
(** * JsonText: the lexer on printed text, and the round trip of JSON *)
From S2P Require Import Prelude CStr JsonLexer JsonParser JsonRoundtrip.
Import JsonUtil JsonReader JsonLexer Json JsonParser.

(** ** Escapes *)
Lemma unescape_cases c :
  (exists d, unescape_character c = [BACKSLASH; d] /\ is_valid_next_escape_character d = true
     /\ escape_character d = c /\ d <> "u"%char /\ d <> "x"%char)
  \/ (unescape_character c = [c] /\ c <> BACKSLASH /\ c <> DQUOTE).
Proof.
  unfold unescape_character. repeat case_decide; subst;
    try (left; eexists; split; [reflexivity|]; split; [by vm_compute|]; split; [by vm_compute|done]).
  by right.
Qed.

Lemma escape_loop_unescape s fuel :
  length (unescape_string s) <= fuel -> escape_loop fuel (unescape_string s) = Ok s.
Proof.
  revert fuel. unfold unescape_string. induction s as [|c s IH]; intros fuel Hl; [by destruct fuel|].
  cbn [fmap list_fmap] in *. simpl mjoin in *. rewrite length_app in Hl.
  destruct (unescape_cases c) as [(d & E & _ & Ed & Hu & Hx)|(E & Hb & _)]; rewrite E in *; cbn [length] in Hl;
    (destruct fuel as [|fuel]; [lia|]); cbn [app escape_loop].
  - rewrite decide_True, !decide_False by done. rewrite IH by lia. by rewrite Ed.
  - rewrite decide_False by done. by rewrite IH by lia.
Qed.

Lemma length_unescape s : length s <= length (unescape_string s).
Proof.
  unfold unescape_string. induction s as [|c s IH]; [done|]. cbn [fmap list_fmap]. simpl mjoin. rewrite length_app.
  destruct (unescape_cases c) as [(d & -> & _)|(-> & _)]; cbn [length]; lia.
Qed.

Lemma escape_unescape s : escape_string (unescape_string s) = Ok s.
Proof. by apply escape_loop_unescape. Qed.

(** ** Decimal numbers *)
Lemma digit_value n : n < 10 -> (char_u (digit n) - 48 = Z.of_nat n)%Z /\ isnumber (digit n) = true.
Proof. intros H. do 10 (destruct n as [|n]; [by vm_compute|]). lia. Qed.

Definition dstep (n : Z) (c : ascii) : Z := (n * 10 + (char_u c - 48))%Z.

Lemma nat_digits_value fuel n acc a :
  n < fuel -> exists ds, nat_digits fuel n acc = ds ++ acc /\ foldl dstep a ds = (a * 10 ^ Z.of_nat (length ds) + Z.of_nat n)%Z
    /\ Forall (fun c => isnumber c = true) ds /\ ds <> [].
Proof.
  revert n acc. induction fuel as [|fuel IH]; intros n acc Hn; [lia|]. cbn [nat_digits].
  pose proof (Nat.mod_upper_bound n 10 ltac:(lia)) as Hm. destruct (digit_value _ Hm) as [Hv Hd].
  pose proof (Nat.div_mod_eq n 10) as Hdm.
  destruct (Nat.ltb_spec n 10) as [Hs|Hs].
  - exists [digit (n mod 10)]. split; [done|]. split; [|split; [by repeat constructor|done]].
    rewrite (Nat.mod_small n 10) in * by lia. cbn [foldl length]. unfold dstep. rewrite Hv. lia.
  - destruct (IH (n / 10) (digit (n mod 10) :: acc)) as (ds & -> & Hf & Hnum & Hne).
    { apply Nat.Div0.div_lt_upper_bound; lia. }
    exists (ds ++ [digit (n mod 10)]). split; [by rewrite <- app_assoc|]. split; [|split].
    + rewrite foldl_app, Hf. cbn [foldl]. unfold dstep. rewrite Hv, length_app. cbn [length].
      rewrite Nat2Z.inj_add, Z.pow_add_r by lia. lia.
    + apply Forall_app. split; [done|by repeat constructor].
    + by destruct ds.
Qed.

Lemma to_string_nat_digits n :
  digits_value (to_string_nat n) = Z.of_nat n /\ Forall (fun c => isnumber c = true) (to_string_nat n) /\ to_string_nat n <> [].
Proof.
  unfold to_string_nat. destruct (nat_digits_value (S n) n [] 0 ltac:(lia)) as (ds & -> & Hf & Hd & Hne).
  rewrite app_nil_r. split; [|done]. unfold digits_value. change (foldl _ 0%Z ds) with (foldl dstep 0%Z ds). rewrite Hf. lia.
Qed.

(** No leading zero, but for 0 itself. *)
Lemma nat_digits_head fuel n acc : n < fuel -> n <> 0 -> exists c ds, nat_digits fuel n acc = c :: ds /\ c <> "0"%char.
Proof.
  revert n acc. induction fuel as [|fuel IH]; intros n acc Hn H0; [lia|]. cbn [nat_digits].
  destruct (Nat.ltb_spec n 10) as [Hs|Hs].
  - rewrite Nat.mod_small by lia. eexists _, _. split; [done|]. do 10 (destruct n as [|n]; [done|]). lia.
  - apply IH; [apply Nat.Div0.div_lt_upper_bound; lia|].
    intros E. apply Nat.div_small_iff in E; lia.
Qed.

(** ** The lexer in a text *)
Section text.
Context {F : Type} (toDouble : bytes -> F).
Implicit Types (l : JsonLexer.t F).

(** The reader has taken [pre] and is in front of [rest]. *)
Definition at_pos l (pre rest : bytes) : Prop :=
  reader l = JsonReader.Make (pre ++ rest) (Z.of_nat (length pre) - 1).
Definition kept l l' : Prop := JsonLexer.escape l' = JsonLexer.escape l /\ token_list l' = token_list l.

Lemma kept_trans l1 l2 l3 : kept l1 l2 -> kept l2 l3 -> kept l1 l3.
Proof. intros [] []. split; congruence. Qed.

Lemma get_cons (pre rest : bytes) c :
  get (JsonReader.Make (pre ++ c :: rest) (Z.of_nat (length pre) - 1))
  = (c, JsonReader.Make ((pre ++ [c]) ++ rest) (Z.of_nat (length (pre ++ [c])) - 1)).
Proof.
  unfold get, len, at_ptr. cbn [sbuffer ptr]. replace (Z.of_nat (length pre) - 1 + 1)%Z with (Z.of_nat (length pre)) by lia.
  rewrite (proj2 (Z.leb_gt _ _)) by (rewrite length_app; cbn [length]; lia).
  rewrite Nat2Z.id. f_equal.
  - apply list_lookup_total_correct. by rewrite list_lookup_middle.
  - rewrite <- app_assoc. cbn [app]. f_equal. rewrite length_app. cbn [length]. lia.
Qed.

Lemma getC_cons l pre c rest :
  at_pos l pre (c :: rest) -> exists l', getC l = (c, l') /\ at_pos l' (pre ++ [c]) rest /\ kept l l'.
Proof.
  unfold at_pos, getC. intros ->. rewrite get_cons. eexists. split; [reflexivity|]. by split.
Qed.

Lemma getC_end l pre : at_pos l pre [] -> exists l', getC l = (EOF, l') /\ eof (reader l') = true /\ kept l l'.
Proof.
  unfold at_pos, getC, get, eof, len. intros ->. cbn [sbuffer ptr]. rewrite app_nil_r.
  rewrite (proj2 (Z.leb_le _ _)) by lia. eexists. split; [reflexivity|]. split; [|done].
  cbn. apply Z.ltb_lt. lia.
Qed.

Lemma peek_cons l pre c rest : at_pos l pre (c :: rest) -> peek (reader l) = c.
Proof.
  unfold at_pos, peek, len, at_ptr. intros ->. cbn [sbuffer ptr].
  replace (Z.of_nat (length pre) - 1 + 1)%Z with (Z.of_nat (length pre)) by lia.
  rewrite (proj2 (Z.leb_gt _ _)) by (rewrite length_app; cbn [length]; lia).
  rewrite Nat2Z.id. apply list_lookup_total_correct. by rewrite list_lookup_middle.
Qed.

Lemma backC_snoc l pre c rest : at_pos l (pre ++ [c]) rest -> at_pos (backC l) pre (c :: rest) /\ kept l (backC l).
Proof.
  unfold at_pos, backC, back. intros ->. split; [|done]. cbn. rewrite <- app_assoc. cbn [app]. f_equal.
  rewrite length_app. cbn [length]. lia.
Qed.

Lemma eof_before l pre rest : at_pos l pre rest -> eof (reader l) = false.
Proof.
  unfold at_pos, eof, len. intros ->. cbn. apply Z.ltb_ge. rewrite length_app. lia.
Qed.

Lemma getS_app l pre s rest :
  at_pos l pre (s ++ rest) -> exists l', getS (length s) l = (s, l') /\ at_pos l' (pre ++ s) rest /\ kept l l'.
Proof.
  unfold at_pos, getS. intros ->.
  assert (gets (length s) (JsonReader.Make (pre ++ s ++ rest) (Z.of_nat (length pre) - 1))
    = (s, JsonReader.Make ((pre ++ s) ++ rest) (Z.of_nat (length (pre ++ s)) - 1))) as ->.
  { revert pre. induction s as [|c s IH]; intros pre; [by rewrite app_nil_r|].
    cbn [length gets app]. rewrite get_cons, IH. by replace (pre ++ c :: s) with ((pre ++ [c]) ++ s) by (by rewrite <- app_assoc). }
  eexists. split; [reflexivity|]. by split.
Qed.

(** Blanks before a token. *)
Definition blank (c : ascii) : Prop := isspace c = true \/ isnewline c = true.

Lemma skip_space_blanks fuel c0 l pre ws c rest :
  Forall blank ws -> ~ blank c -> at_pos l pre (ws ++ c :: rest) -> length ws < fuel ->
  exists l', skip_space fuel c0 l = Ok (Some c, l') /\ at_pos l' (pre ++ ws ++ [c]) rest /\ kept l l'.
Proof.
  intros Hw Hc. revert fuel c0 l pre. induction Hw as [|w ws Hb Hw IH]; intros fuel c0 l pre Hp Hf;
    (destruct fuel as [|fuel]; [simpl in Hf; lia|]); cbn [skip_space]; rewrite (eof_before _ _ _ Hp).
  - destruct (getC_cons _ _ _ _ Hp) as (l' & -> & Hp' & Hk). unfold blank in Hc.
    destruct (isspace c); [tauto|]. destruct (isnewline c); [tauto|]. by exists l'.
  - destruct (getC_cons _ _ _ _ Hp) as (l1 & -> & Hp1 & Hk1). cbn [length] in Hf.
    assert (forall l2, reader l2 = reader l1 -> kept l1 l2 -> exists l', skip_space fuel (Some w) l2 = Ok (Some c, l')
      /\ at_pos l' (pre ++ (w :: ws) ++ [c]) rest /\ kept l l') as H.
    { intros l2 E Hk2. destruct (IH fuel (Some w) l2 (pre ++ [w])) as (l' & -> & Hp' & Hk'); [by unfold at_pos; rewrite E|lia|].
      exists l'. split; [done|]. rewrite <- app_assoc in Hp'. split; [done|]. eapply kept_trans; [|done]. by eapply kept_trans. }
    destruct (isspace w) eqn:Es; [by apply H|]. destruct Hb as [Hb|Hb]; [congruence|]. rewrite Hb. by apply H.
Qed.

Lemma skip_space_end fuel c0 l pre ws :
  Forall blank ws -> at_pos l pre ws -> length ws < fuel ->
  exists l', skip_space fuel c0 l = Ok (Some EOF, l') /\ eof (reader l') = true /\ kept l l'.
Proof.
  intros Hw. revert fuel c0 l pre. induction Hw as [|w ws Hb Hw IH]; intros fuel c0 l pre Hp Hf;
    (destruct fuel as [|fuel]; [simpl in Hf; lia|]); cbn [skip_space]; rewrite (eof_before _ _ _ Hp).
  - destruct (getC_end _ _ Hp) as (l' & -> & He & Hk). by exists l'.
  - destruct (getC_cons _ _ _ _ Hp) as (l1 & -> & Hp1 & Hk1). cbn [length] in Hf.
    assert (forall l2, reader l2 = reader l1 -> kept l1 l2 -> exists l', skip_space fuel (Some w) l2 = Ok (Some EOF, l')
      /\ eof (reader l') = true /\ kept l l') as H.
    { intros l2 E Hk2. destruct (IH fuel (Some w) l2 (pre ++ [w])) as (l' & -> & Hp' & Hk'); [by unfold at_pos; rewrite E|lia|].
      exists l'. split; [done|]. split; [done|]. eapply kept_trans; [|done]. by eapply kept_trans. }
    destruct (isspace w) eqn:Es; [by apply H|]. destruct Hb as [Hb|Hb]; [congruence|]. rewrite Hb. by apply H.
Qed.

(** The string loop from the character after the quote. *)
Lemma string_loop_unescaped s fuel sc acc l pre rest :
  at_pos l pre (unescape_string s ++ DQUOTE :: rest) -> length s < fuel ->
  exists l', (let '(c, l) := getC l in string_loop fuel sc c acc l) = Ok (acc ++ unescape_string s, l')
    /\ at_pos l' (pre ++ unescape_string s ++ [DQUOTE]) rest /\ kept l l'.
Proof.
  unfold unescape_string. revert fuel acc l pre. induction s as [|c s IH]; intros fuel acc l pre Hp Hf;
    (destruct fuel as [|fuel]; [simpl in Hf; lia|]).
  - simpl in Hp. destruct (getC_cons _ _ _ _ Hp) as (l1 & -> & Hp1 & Hk1). exists l1. by rewrite app_nil_r.
  - cbn [fmap list_fmap] in *. simpl mjoin in *. cbn [length] in Hf.
    destruct (unescape_cases c) as [(d & E & Hd & _)|(E & Hb & Hq)]; rewrite E in *; cbn [app] in Hp.
    + destruct (getC_cons _ _ _ _ Hp) as (l1 & -> & Hp1 & Hk1). cbn [string_loop].
      change (is_string_begin_end BACKSLASH) with false. cbn iota. rewrite decide_True by done.
      destruct (getC_cons _ _ _ _ Hp1) as (l2 & -> & Hp2 & Hk2). rewrite Hd. cbn [negb].
      destruct (IH fuel ((acc ++ [BACKSLASH]) ++ [d]) l2 _ Hp2) as (l3 & -> & Hp3 & Hk3); [lia|].
      exists l3. rewrite <- !app_assoc in *. split; [done|]. split; [done|]. eapply kept_trans; [|done]. by eapply kept_trans.
    + destruct (getC_cons _ _ _ _ Hp) as (l1 & -> & Hp1 & Hk1). cbn [string_loop].
      unfold is_string_begin_end. rewrite bool_decide_false by done. rewrite decide_False by done.
      destruct (IH fuel (acc ++ [c]) l1 _ Hp1) as (l3 & -> & Hp3 & Hk3); [lia|].
      exists l3. rewrite <- !app_assoc in *. split; [done|]. split; [done|]. by eapply kept_trans.
Qed.

(** [take_while] from the next character. *)
Lemma take_while_run (p : ascii -> bool) ds e fuel acc l pre rest :
  Forall (fun c => p c = true) ds -> p e = false -> at_pos l pre (ds ++ e :: rest) -> length ds < fuel ->
  exists l', (let '(c, l) := getC l in take_while fuel p c acc l) = Ok (e, acc ++ ds, l')
    /\ at_pos l' (pre ++ ds ++ [e]) rest /\ kept l l'.
Proof.
  intros Hd He. revert fuel acc l pre. induction Hd as [|d ds Hp Hd IH]; intros fuel acc l pre Ha Hf;
    (destruct fuel as [|fuel]; [simpl in Hf; lia|]).
  - destruct (getC_cons _ _ _ _ Ha) as (l1 & -> & Hp1 & Hk1). cbn [take_while]. rewrite He.
    exists l1. by rewrite app_nil_r.
  - destruct (getC_cons _ _ _ _ Ha) as (l1 & -> & Hp1 & Hk1). cbn [take_while length] in *. rewrite Hp.
    destruct (IH fuel (acc ++ [d]) l1 _ Hp1) as (l2 & -> & Hp2 & Hk2); [lia|].
    exists l2. rewrite <- !app_assoc in *. split; [done|]. split; [done|]. by eapply kept_trans.
Qed.

(** ** The spelling of a token *)
Definition delimiter (c : ascii) : Prop := c ∈ [","; LF; "}"; "]"]%char.
Definition delimited (rest : bytes) : Prop := exists c r, rest = c :: r /\ delimiter c.

(** The text of a number that the lexer takes for a floating point number. *)
Definition exponent_part (c : ascii) : bool :=
  isnumber c || isexponent c || bool_decide (c = "+"%char) || bool_decide (c = "-"%char).
Definition float_lexeme (t : bytes) : Prop := exists h ds e tail z, t = (h :: ds) ++ e :: tail
  /\ (isnumber h = true \/ h = "-"%char \/ h = "+"%char) /\ (h = "0"%char -> ds = [])
  /\ Forall (fun c => isnumber c = true) ds /\ (e = "."%char \/ isexponent e = true)
  /\ Forall (fun c => exponent_part c = true) tail /\ last tail = Some z /\ isexponent z = false.

Definition spells (t : bytes) (k : lexeme F) (rest : bytes) : Prop :=
  match k with
  | JSON_STRING s => t = quoted (unescape_string s)
  | JSON_NUMBER n => t = to_string n /\ (INT_MIN <= n <= INT_MAX)%Z /\ delimited rest
  | JSON_FLOAT f => float_lexeme t /\ toDouble t = f /\ delimited rest
  | JSON_TRUE => t = bs "true"
  | JSON_FALSE => t = bs "false"
  | JSON_NULL => t = bs "null"
  | JSON_OBJECT_BEGIN => t = bs "{"
  | JSON_OBJECT_END => t = bs "}"
  | JSON_ARRAY_BEGIN => t = bs "["
  | JSON_ARRAY_END => t = bs "]"
  | JSON_KEY_VALUE_SEP => t = bs ":"
  | JSON_SEP => t = bs ","
  end.

(** [l] having lexed [k] up to [rest]. *)
Definition lexed l (k : lexeme F) (rest : bytes) (r : result (JsonLexer.t F)) : Prop :=
  exists l' pre tok, r = Ok l' /\ at_pos l' pre rest /\ tag tok = k
    /\ token_list l' = token_list l ++ [tok] /\ JsonLexer.escape l' = JsonLexer.escape l.

Lemma lexed_kept l l1 k rest r : kept l l1 -> lexed l1 k rest r -> lexed l k rest r.
Proof.
  intros [He Ht] (l' & pre & tok & Hr & Hp & Hk & Ht' & He'). exists l', pre, tok.
  rewrite Ht', He', He, Ht. done.
Qed.

Lemma lexed_push l l1 pre rest tok : at_pos l1 pre rest -> kept l l1 -> lexed l (tag tok) rest (Ok (push tok l1)).
Proof. intros Hp [He Ht]. exists (push tok l1), pre, tok. split; [done|]. split; [done|]. cbn. by rewrite Ht. Qed.

Lemma delimiter_not c : delimiter c -> exponent_part c = false /\ isnumber c = false /\ isexponent c = false /\ c <> "."%char.
Proof. intros H. unfold delimiter in H. repeat (apply elem_of_cons in H as [-> |H]; [done|]). by apply elem_of_nil in H. Qed.

Lemma lex_string_spec fuel l pre s rest :
  at_pos l pre (unescape_string s ++ DQUOTE :: rest) -> JsonLexer.escape l = true -> length s < fuel ->
  lexed l (JSON_STRING s) rest (lex_string fuel l).
Proof.
  intros Hp He Hf. destruct (string_loop_unescaped s fuel (colNumber l) [] l pre rest Hp Hf) as (l' & E & Hp' & Hk).
  unfold lex_string. destruct (getC l) as [c l1]. rewrite E. cbn [app].
  destruct Hk as [He' Ht']. rewrite He', He, escape_unescape. by eapply lexed_push.
Qed.

Lemma lex_identifier_spec l pre c name k rest :
  at_pos l pre (name ++ rest) -> lexed l k rest (lex_identifier c (c :: name) k l).
Proof.
  intros Hp. unfold lex_identifier. cbn [length]. rewrite Nat.sub_0_r || rewrite Nat.sub_succ, Nat.sub_0_r.
  destruct (getS_app _ _ _ _ Hp) as (l' & -> & Hp' & Hk). rewrite decide_True by done. by eapply (lexed_push _ _ _ _ (Token k _ _ _)).
Qed.

(** A number without and with a fraction or an exponent. *)
Lemma lex_integer_spec fuel l pre h ds n rest :
  at_pos l pre (ds ++ rest) -> (h = "0"%char -> ds = []) -> Forall (fun c => isnumber c = true) ds -> length ds < fuel ->
  delimited rest -> to_int (h :: ds) = Ok n -> lexed l (JSON_NUMBER n) rest (lex_number toDouble fuel h l).
Proof.
  intros Hp H0 Hd Hf (c & r & -> & Hc) Hn. destruct (delimiter_not _ Hc) as (_ & Hc1 & Hc2 & Hc3). unfold lex_number.
  assert (bool_decide (h = "0"%char) && isnumber (peek (reader l)) = false) as ->.
  { case_bool_decide as Eh; [|done]. rewrite (H0 Eh) in Hp. by rewrite (peek_cons _ _ _ _ Hp). }
  destruct (take_while_run isnumber ds c fuel [h] l pre r Hd Hc1 Hp Hf) as (l' & E & Hp' & Hk).
  destruct (getC l) as [c1 l1]. rewrite E. rewrite bool_decide_false, Hc2 by done. cbn [orb app].
  rewrite app_assoc in Hp'. destruct (backC_snoc _ _ _ _ Hp') as [Hp2 Hk2]. rewrite Hn.
  eapply (lexed_push l _ _ _ (Token (JSON_NUMBER n) _ _ _)); [exact Hp2|]. by eapply kept_trans.
Qed.

Lemma lex_float_spec fuel l pre h ds e tail z rest :
  at_pos l pre (ds ++ e :: tail ++ rest) -> (h = "0"%char -> ds = []) -> Forall (fun c => isnumber c = true) ds ->
  (e = "."%char \/ isexponent e = true) -> Forall (fun c => exponent_part c = true) tail ->
  last tail = Some z -> isexponent z = false -> length ds + length tail < fuel -> delimited rest ->
  lexed l (JSON_FLOAT (toDouble (h :: ds ++ e :: tail))) rest (lex_number toDouble fuel h l).
Proof.
  intros Hp H0 Hd He Ht Hz Hze Hf (c & r & -> & Hc). destruct (delimiter_not _ Hc) as (Hc0 & _). unfold lex_number.
  assert (isnumber e = false) as Hen by (destruct He as [-> |He]; [done|]; revert He; clear; by_bytes e).
  assert (bool_decide (h = "0"%char) && isnumber (peek (reader l)) = false) as ->.
  { case_bool_decide as Eh; [|done]. rewrite (H0 Eh) in Hp. by rewrite (peek_cons _ _ _ _ Hp). }
  destruct (take_while_run isnumber ds e fuel [h] l pre (tail ++ c :: r) Hd Hen Hp ltac:(lia)) as (l' & E & Hp' & Hk).
  destruct (getC l) as [c1 l1]. rewrite E. clear E.
  assert (bool_decide (e = "."%char) || isexponent e = true) as -> by (destruct He as [-> |He]; [done|]; by rewrite He, orb_true_r).
  destruct (take_while_run exponent_part tail c fuel (([h] ++ ds) ++ [e]) l' _ r Ht Hc0 Hp' ltac:(lia)) as (l2 & E & Hp2 & Hk2).
  destruct (getC l') as [c2 l3]. unfold exponent_part in E. rewrite E.
  rewrite last_app, Hz. cbn [of_option]. rewrite Hze, orb_false_r.
  assert (z <> "."%char) as Hdot.
  { intros ->. apply last_Some_elem_of in Hz. rewrite Forall_forall in Ht. by specialize (Ht _ Hz). }
  rewrite bool_decide_false by done. rewrite app_assoc in Hp2. destruct (backC_snoc _ _ _ _ Hp2) as [Hp3 Hk3].
  replace ((([h] ++ ds) ++ [e]) ++ tail) with (h :: ds ++ e :: tail) by (by rewrite <- !app_assoc).
  eapply (lexed_push l _ _ _ (Token (JSON_FLOAT _) _ _ _)); [exact Hp3|].
  eapply kept_trans; [|exact Hk3]. by eapply kept_trans.
Qed.

(** The text of an integer. *)
Lemma to_string_int n :
  (INT_MIN <= n <= INT_MAX)%Z -> exists h ds, to_string n = h :: ds /\ (isnumber h = true \/ h = "-"%char)
    /\ (h = "0"%char -> ds = []) /\ Forall (fun c => isnumber c = true) ds /\ to_int (h :: ds) = Ok n.
Proof.
  intros Hn. unfold to_string, to_int.
  destruct (to_string_nat_digits (Z.to_nat (if n <? 0 then - n else n)%Z)) as (Hv & Hd & Hne).
  assert (Z.of_nat (Z.to_nat (if n <? 0 then - n else n)%Z) = Z.abs n) as Ha.
  { destruct (Z.ltb_spec n 0); lia. }
  destruct (Z.ltb_spec n 0) as [H|H].
  - exists "-"%char, (to_string_nat (Z.to_nat (- n))). split; [done|]. split; [by right|]. split; [done|]. split; [done|].
    rewrite decide_True by done. rewrite Hv, Ha. replace (- Z.abs n)%Z with n by lia. by apply int_checked_Ok.
  - destruct (to_string_nat (Z.to_nat n)) as [|h ds] eqn:E; [done|]. apply Forall_cons in Hd as [Hh Hd].
    exists h, ds. split; [done|]. split; [by left|]. split; [|split; [done|]].
    + intros ->. destruct (decide (Z.to_nat n = 0)) as [H0|H0]; [rewrite H0 in E; by injection E|].
      destruct (nat_digits_head (S (Z.to_nat n)) (Z.to_nat n) [] ltac:(lia) H0) as (c & ds' & E' & Hc).
      unfold to_string_nat in E. rewrite E' in E. congruence.
    + rewrite !decide_False by (intros ->; discriminate Hh). rewrite Hv, Ha.
      replace (Z.abs n) with n by lia. by apply int_checked_Ok.
Qed.

Lemma not_blank c : c ∈ [DQUOTE; "t"; "f"; "n"; ":"; ","; "{"; "["; "}"; "]"; "-"; "+"]%char \/ isnumber c = true -> ~ blank c.
Proof.
  intros H [Hb|Hb]; revert H Hb;
    assert (forall c, negb (bool_decide (c ∈ [DQUOTE; "t"; "f"; "n"; ":"; ","; "{"; "["; "}"; "]"; "-"; "+"]%char) || isnumber c)
      || negb (isspace c || isnumber c && false || isnewline c) = true) as Hall by (apply forall_byte; vm_compute; reflexivity);
    specialize (Hall c); intros [H|H] Hb; rewrite ?Hb, ?H, ?bool_decide_true, ?orb_true_r in Hall by done; done.
Qed.

Lemma analysis_number fuel l c l1 :
  skip_space fuel None l = Ok (Some c, l1) -> (isnumber c = true \/ c = "-"%char \/ c = "+"%char) ->
  analysis toDouble fuel l = lex_number toDouble fuel c l1.
Proof.
  intros E H. unfold analysis. rewrite E. cbn [of_option].
  rewrite !decide_False by (intros ->; destruct H as [H|[H|H]]; discriminate H).
  destruct H as [-> |[-> | ->]]; done.
Qed.

Lemma analysis_spec fuel l pre ws t k rest :
  Forall blank ws -> at_pos l pre (ws ++ t ++ rest) -> JsonLexer.escape l = true -> spells t k rest ->
  length ws + length t < fuel -> lexed l k rest (analysis toDouble fuel l).
Proof.
  intros Hw Hp He Hs Hf.
  assert (forall c t', t = c :: t' -> ~ blank c ->
    exists l1, skip_space fuel None l = Ok (Some c, l1) /\ at_pos l1 (pre ++ ws ++ [c]) (t' ++ rest) /\ kept l l1) as Hskip.
  { intros c t' -> Hc. cbn [app] in Hp. apply skip_space_blanks; [done|done|done|lia]. }
  destruct k; cbn [spells] in Hs.
  2: { destruct Hs as (-> & Hn & Hd). destruct (to_string_int n Hn) as (h & ds & E & Hh & H0 & Hds & Hi).
    rewrite E in *. destruct (Hskip h ds eq_refl) as (l1 & E1 & Hp1 & Hk1).
    { apply not_blank. destruct Hh as [Hh| ->]; [by right|left]. apply (bool_decide_unpack _). by vm_compute. }
    rewrite (analysis_number _ _ _ _ E1) by (destruct Hh as [Hh| ->]; [by left|by right; left]).
    eapply lexed_kept; [exact Hk1|]. cbn [length] in Hf. eapply (lex_integer_spec _ _ _ h ds n); [exact Hp1|done|done|lia|done|done]. }
  2: { destruct Hs as ((h & ds & e & tail & z & -> & Hh & H0 & Hds & Hee & Ht & Hz & Hze) & <- & Hd).
    destruct (Hskip h (ds ++ e :: tail) eq_refl) as (l1 & E1 & Hp1 & Hk1).
    { apply not_blank. destruct Hh as [Hh|[-> | ->]]; [by right|left|left]; apply (bool_decide_unpack _); by vm_compute. }
    rewrite (analysis_number _ _ _ _ E1) by done. cbn [app length] in *. rewrite length_app in Hf. cbn [length] in Hf.
    rewrite <- app_assoc in Hp1. cbn [app] in Hp1.
    eapply lexed_kept; [exact Hk1|]. eapply (lex_float_spec _ _ _ h ds e tail z); [exact Hp1|done|done|done|done|done|done|lia|done]. }
  all: subst t; destruct (Hskip _ _ eq_refl) as (l1 & E1 & Hp1 & Hk1);
    [apply not_blank; left; apply (bool_decide_unpack _); by vm_compute|]; unfold analysis; rewrite E1; cbn [of_option];
    eapply lexed_kept; [exact Hk1|].
  - rewrite decide_True by done. eapply lex_string_spec.
    + rewrite <- app_assoc in Hp1. exact Hp1.
    + destruct Hk1 as [-> _]. done.
    + pose proof (length_unescape s). unfold quoted in Hf. rewrite !length_app in Hf. lia.
  - by eapply (lex_identifier_spec _ _ "t" (bs "rue")).
  - by eapply (lex_identifier_spec _ _ "f" (bs "alse")).
  - by eapply (lex_identifier_spec _ _ "n" (bs "ull")).
  - by eapply (lexed_push _ _ _ _ (Token JSON_OBJECT_BEGIN _ _ _)).
  - by eapply (lexed_push _ _ _ _ (Token JSON_OBJECT_END _ _ _)).
  - by eapply (lexed_push _ _ _ _ (Token JSON_ARRAY_BEGIN _ _ _)).
  - by eapply (lexed_push _ _ _ _ (Token JSON_ARRAY_END _ _ _)).
  - by eapply (lexed_push _ _ _ _ (Token JSON_KEY_VALUE_SEP _ _ _)).
  - by eapply (lexed_push _ _ _ _ (Token JSON_SEP _ _ _)).
Qed.

End text.
