(* ===== verification/JsonFormat.v ===== *)
(** * JsonFormat: formatted JSON reads back as the value it was printed from

    A text spells a list of tokens if it is those tokens with blanks between
    them; [getTokens] finds exactly the tokens a text spells, and
    [JsonFormatter] prints a value as a text that spells its tokens. *)
From S2P Require Import Prelude CStr JsonLexer JsonParser JsonRoundtrip JsonText.
Import JsonUtil JsonReader JsonLexer Json JsonParser.

Section spelling.
Context {F : Type} (toDouble : bytes -> F) (showDouble : F -> bytes).
Implicit Types (v : value F).

Inductive spelled : bytes -> list (lexeme F) -> Prop :=
  | spelled_end ws : Forall blank ws -> spelled ws []
  | spelled_tok ws t k s ks :
      Forall blank ws -> spells toDouble t k s -> spelled s ks -> spelled (ws ++ t ++ s) (k :: ks).

Lemma spelled_cons t k s ks : spells toDouble t k s -> spelled s ks -> spelled (t ++ s) (k :: ks).
Proof. apply (spelled_tok []). constructor. Qed.

Lemma spelled_blank ws s ks : Forall blank ws -> spelled s ks -> spelled (ws ++ s) ks.
Proof.
  intros Hw Hs. destruct Hs as [ws' Hw'|ws' t k s ks Hw' Ht Hs].
  - constructor. by apply Forall_app.
  - rewrite app_assoc. constructor; [by apply Forall_app|done|done].
Qed.

Lemma spells_nonempty t k s : spells toDouble t k s -> t <> [].
Proof.
  destruct k; cbn [spells]; try (by intros ->).
  - intros (-> & Hn & _). destruct (to_string_int n Hn) as (h & ds & -> & _). done.
  - intros ((h & ds & e & tail & z & -> & _) & _). done.
Qed.

Lemma spelled_length s ks : spelled s ks -> length ks <= length s.
Proof.
  induction 1 as [ws Hw|ws t k s ks Hw Ht Hs IH]; [simpl; lia|]. apply spells_nonempty in Ht.
  rewrite !length_app. cbn [length]. destruct t; [done|]. cbn [length]. lia.
Qed.

(** ** The token loop finds what a text spells *)
Lemma tokens_loop_spelled s ks :
  spelled s ks -> forall fuel steps l pre, at_pos l pre s -> JsonLexer.escape l = true ->
  length s < fuel -> S (length ks) < steps ->
  exists l', tokens_loop toDouble fuel steps l = Ok l' /\ tag <$> token_list l' = (tag <$> token_list l) ++ ks.
Proof.
  induction 1 as [ws Hw|ws t k s ks Hw Ht Hs IH]; intros fuel steps l pre Hp He Hf Hst;
    (destruct steps as [|steps]; [lia|]); cbn [tokens_loop]; rewrite (eof_before _ _ _ Hp).
  - destruct (skip_space_end fuel None l pre ws Hw Hp Hf) as (l' & E & Heof & [_ Hk]).
    unfold analysis. rewrite E.
    cbn [of_option]. rewrite !decide_False by done.
    change (isnumber EOF || bool_decide (EOF = "-"%char) || bool_decide (EOF = "+"%char)) with false. cbn iota.
    destruct steps as [|steps]; [simpl in Hst; lia|]. cbn [tokens_loop]. rewrite Heof.
    exists l'. by rewrite Hk, app_nil_r.
  - rewrite !length_app in Hf. cbn [length] in Hst.
    destruct (analysis_spec toDouble fuel l pre ws t k s) as (l' & pre' & tok & -> & Hp' & Hk & Htl & He');
      [done|done|done|done|lia|].
    destruct (IH fuel steps l' pre') as (l2 & E & Ht2); [done|by rewrite He'|lia|lia|].
    exists l2. split; [done|]. by rewrite Ht2, Htl, fmap_app, <- app_assoc, <- Hk.
Qed.

Lemma getTokens_spelled s ks fuel :
  spelled s ks -> ks <> [] -> S (length s) < fuel ->
  exists l0 l, JsonLexer.new s true = Ok l0 /\ getTokens toDouble fuel l0 = Ok l /\ tag <$> token_list l = ks.
Proof.
  intros Hs Hn Hf. pose proof (spelled_length _ _ Hs) as Hl.
  exists (Make true 1 1 (JsonReader.Make s (-1)) []).
  destruct (tokens_loop_spelled s ks Hs fuel fuel (Make true 1 1 (JsonReader.Make s (-1)) []) []) as (l & E & Ht); [done|done|lia|lia|].
  exists l. split; [|done]. unfold JsonLexer.new, JsonReader.set_buffer. rewrite decide_False; [done|]. intros ->. destruct ks; [done|simpl in Hl; lia].
Qed.

(** ** The formatter spells the tokens of the value *)

(** Numbers whose text the lexer reads back. *)
Definition spellable (k : lexeme F) : Prop :=
  match k with
  | JSON_NUMBER n => (INT_MIN <= n <= INT_MAX)%Z
  | JSON_FLOAT f => float_lexeme (showDouble f) /\ toDouble (showDouble f) = f
  | _ => True
  end.

Section indent.
Context (indent : nat) (escape : bool).

Notation recursive_formatter := (recursive_formatter showDouble indent escape).

(** A formatter that escapes leaves the strings of a document as they are: only
    those without a special character print as a literal of themselves. *)
Definition literal (k : lexeme F) : Prop := match k with JSON_STRING s => unescape_string s = s | _ => True end.
Definition printable (k : lexeme F) : Prop := spellable k /\ (escape = true -> literal k).

(** The lines of the members, [f] printing one of them. *)
Fixpoint members_text {A} (f : A -> result bytes) (depth : nat) (l : list A) : result bytes :=
  match l with
  | [] => Ok []
  | x :: l' =>
      let* s := f x in
      let* r := members_text f depth l' in
      Ok (append_space_character (depth * indent) ++ s ++ member_end (bool_decide (l' = [])) ++ r)
  end.

Definition pair_text (depth : nat) (kv : str * value F) : result bytes :=
  let* key := str_toString_escape escape kv.1 in
  let* s := recursive_formatter depth kv.2 (empty kv.2) in
  Ok (key ++ bs ": " ++ s).

Lemma formatter_array depth vs e :
  recursive_formatter depth (JsonArray vs) e =
    (let* r := members_text (fun v => recursive_formatter (depth + 1) v (empty v)) depth vs in
     Ok (bs "[" ++ (match vs with [] => [] | _ => [LF] end) ++ r
       ++ (if e then [] else append_space_character ((depth - 1) * indent)) ++ bs "]")).
Proof.
  cbn [Json.recursive_formatter]. match goal with |- (let* r := ?a in _) = (let* r := ?b in _) => assert (a = b) as ->; [|done] end.
  induction vs as [|v vs IH]; [done|]. cbn [members_text]. by rewrite <- IH.
Qed.

Lemma formatter_object depth kvs e :
  recursive_formatter depth (JsonObject kvs) e =
    (let* r := members_text (pair_text (depth + 1)) depth kvs in
     Ok (bs "{" ++ (match kvs with [] => [] | _ => [LF] end) ++ r
       ++ (if e then [] else append_space_character ((depth - 1) * indent)) ++ bs "}")).
Proof.
  cbn [Json.recursive_formatter]. match goal with |- (let* r := ?a in _) = (let* r := ?b in _) => assert (a = b) as ->; [|done] end.
  induction kvs as [|[k v] kvs IH]; [done|]. cbn [members_text]. rewrite <- IH. unfold pair_text. cbn [fst snd].
  destruct (str_toString_escape escape k) as [key|]; [|done]. cbn [mbind].
  destruct (recursive_formatter (depth + 1) v (empty v)) as [s|]; [|done].
  match goal with |- (let* r := ?a in _) = _ => destruct a as [r|]; [|done] end.
  by rewrite <- !app_assoc.
Qed.

Lemma spaces_blank n : Forall blank (append_space_character n).
Proof. apply Forall_replicate. by left. Qed.
Lemma LF_blank : Forall blank [LF].
Proof. constructor; [by right|constructor]. Qed.

(** A printed text and its tokens, before any text that it may stand in front of. *)
Definition prints (tx : result bytes) (needs : bool) (ks : list (lexeme F)) : Prop :=
  exists t, tx = Ok t /\ forall s ks', spelled s ks' -> (needs = true -> delimited s) -> spelled (t ++ s) (ks ++ ks').

Lemma members_print {A} (f : A -> result bytes) (toks : A -> list (lexeme F)) depth l :
  Forall (fun x => prints (f x) true (toks x)) l ->
  prints (members_text f depth l) false (separated (toks <$> l)).
Proof.
  induction 1 as [|x l (t & Ht & Hx) Hl (r & Hr & IH)]; [by exists []|].
  cbn [members_text]. rewrite Ht, Hr. eexists. split; [reflexivity|]. intros s ks Hs _.
  rewrite fmap_cons, separated_cons, <- !app_assoc. apply spelled_blank; [apply spaces_blank|].
  apply Hx; [|intros _; destruct l; eexists _, _; (split; [reflexivity|apply (bool_decide_unpack _); by vm_compute])].
  destruct l as [|y l].
  - apply (spelled_blank [LF]); [apply LF_blank|]. by apply (IH s ks).
  - cbn [app member_end]. apply (spelled_cons (bs ",") JSON_SEP); [done|].
    apply (spelled_blank [LF]); [apply LF_blank|]. by apply (IH s ks).
Qed.

(** Opening, members and closing. *)
Lemma container_prints (b e : bytes) (kb ke : lexeme F) nl r closing ks :
  (forall s, spells toDouble b kb s) -> (forall s, spells toDouble e ke s) -> Forall blank nl -> Forall blank closing ->
  prints r false ks -> prints (let* r := r in Ok (b ++ nl ++ r ++ closing ++ e)) false (kb :: ks ++ [ke]).
Proof.
  intros Hb He Hn Hc (t & -> & Ht). eexists. split; [reflexivity|]. intros s ks' Hs _.
  rewrite <- !app_assoc. cbn [app]. apply spelled_cons; [done|]. apply spelled_blank; [done|].
  rewrite <- app_assoc. apply Ht; [|done]. apply spelled_blank; [done|]. cbn [app]. by apply spelled_cons.
Qed.

Lemma prints_weaken tx ks : prints tx false ks -> prints tx true ks.
Proof. intros (t & Ht & H). exists t. split; [done|]. intros s ks' Hs _. by apply H. Qed.

Lemma scalar_prints tx t (k : lexeme F) :
  tx = Ok t -> (forall s, delimited s -> spells toDouble t k s) -> prints tx true [k].
Proof. intros -> H. exists t. split; [done|]. intros s ks Hs Hd. apply spelled_cons; [by apply H, Hd|done]. Qed.

Lemma string_prints s :
  isEscaped s = true -> printable (JSON_STRING (text s)) -> prints (str_toString_escape escape s) false [JSON_STRING (text s)].
Proof.
  intros H [_ Hl]. assert (str_toString_escape escape s = Ok (quoted (unescape_string (text s)))) as ->.
  { unfold str_toString_escape. rewrite H. destruct escape; [by rewrite Hl|done]. }
  eexists. split; [reflexivity|]. intros s' ks Hs _. by apply spelled_cons.
Qed.

Lemma separated_printable {A} (toks : A -> list (lexeme F)) l :
  Forall printable (separated (toks <$> l)) -> Forall (fun x => Forall printable (toks x)) l.
Proof.
  induction l as [|x l IH]; [by constructor|]. rewrite fmap_cons, separated_cons. intros H.
  apply Forall_app in H as [H1 H2]. constructor; [done|]. apply IH. destruct l; [done|].
  by apply Forall_cons in H2 as [_ H2].
Qed.

Lemma formatter_prints v depth e :
  parsed true v -> Forall printable (tokens_of v) -> prints (recursive_formatter depth v e) (negb (container v)) (tokens_of v).
Proof.
  revert depth e. induction v as [kvs IH|vs IH|s|n|f|b| |] using value_ind'; intros depth e Hg Hs; cbn [container negb].
  - rewrite tokens_of_object in Hs |- *. rewrite formatter_object. apply parsed_object in Hg.
    apply Forall_cons in Hs as [_ Hs]. apply Forall_app in Hs as [Hs _]. apply separated_printable in Hs.
    apply container_prints; [done|done|destruct kvs; [constructor|apply LF_blank]|destruct e; [constructor|apply spaces_blank]|].
    apply members_print. rewrite Forall_forall in IH, Hg, Hs |- *. intros [k v] Hin.
    destruct (Hg _ Hin) as [Hk Hv]. specialize (Hs _ Hin). apply Forall_cons in Hs as [Hs0 Hs]. apply Forall_cons in Hs as [_ Hs].
    destruct (string_prints k Hk Hs0) as (tk & Etk & Htk).
    destruct (IH _ Hin (depth + 1) (empty v) Hv Hs) as (t & Et & Ht). cbn [fst snd] in *.
    unfold pair_text. cbn [fst snd]. rewrite Etk, Et. eexists. split; [reflexivity|]. intros s ks Hsp Hd.
    unfold member_tokens. cbn [fst snd]. rewrite <- !app_assoc. cbn [app].
    change (JSON_STRING (text k) :: JSON_KEY_VALUE_SEP :: tokens_of v ++ ks)
      with ([JSON_STRING (text k)] ++ JSON_KEY_VALUE_SEP :: tokens_of v ++ ks).
    apply Htk; [|done]. apply (spelled_cons (bs ":") JSON_KEY_VALUE_SEP (" "%char :: t ++ s)); [done|].
    apply (spelled_blank [" "%char]); [by repeat constructor|]. apply Ht; [done|by intros _; apply Hd].
  - rewrite tokens_of_array in Hs |- *. rewrite formatter_array. apply parsed_array in Hg.
    apply Forall_cons in Hs as [_ Hs]. apply Forall_app in Hs as [Hs _]. apply separated_printable in Hs.
    apply container_prints; [done|done|destruct vs; [constructor|apply LF_blank]|destruct e; [constructor|apply spaces_blank]|].
    apply members_print. rewrite Forall_forall in IH, Hg, Hs |- *. intros v Hin.
    destruct (IH _ Hin (depth + 1) (empty v) (Hg _ Hin) (Hs _ Hin)) as (t & Et & Ht).
    exists t. split; [done|]. intros s ks Hsp Hd. apply Ht; [done|by intros _; apply Hd].
  - apply Forall_cons in Hs as [Hs _]. by apply prints_weaken, string_prints.
  - apply Forall_cons in Hs as [[Hs _] _]. by eapply scalar_prints.
  - apply Forall_cons in Hs as [[[Hs1 Hs2] _] _]. by eapply scalar_prints.
  - destruct b; by eapply scalar_prints.
  - by eapply scalar_prints.
  - done.
Qed.

End indent.

Lemma format_reads_back (indent : nat) (escape : bool) v :
  indent <> 0 -> container v = true -> parsed true v -> Forall (printable escape) (tokens_of v) ->
  exists text, format showDouble indent escape (Some v) = Ok text
    /\ forall fuel, S (length text) < fuel -> parse_text toDouble fuel text true = Ok (Some v).
Proof.
  intros Hi Hc Hp Hs. unfold format. rewrite (proj2 (Nat.eqb_neq _ _) Hi).
  destruct (formatter_prints indent escape v 1 false Hp Hs) as (t & Et & Ht).
  exists t. split; [done|]. intros fuel Hf.
  assert (spelled t (tokens_of v)) as Hsp.
  { specialize (Ht [] []). rewrite !app_nil_r in Ht. apply Ht; [by constructor|by rewrite Hc]. }
  destruct (getTokens_spelled _ _ fuel Hsp ltac:(by destruct v) Hf) as (l0 & l & E0 & El & Hl).
  unfold parse_text. rewrite E0, El. by apply parse_container.
Qed.

End spelling.

(** ** A document reads back *)

(** C11: What [JsonFormatter] prints of an object or an array, unescaping the
    strings, the parser reads back as the same value: every nesting, order of
    the members and escape is kept.  The strings must hold text whose escapes
    were replaced, the integers fit an [int], and the floating point numbers
    print as numbers with a fraction or an exponent that convert back. *)
Theorem json_roundtrip {F} (toDouble : bytes -> F) (showDouble : F -> bytes) (indent : nat) (v : value F) :
  indent <> 0 -> container v = true -> parsed true v -> Forall (spellable toDouble showDouble) (tokens_of v) ->
  exists text, format showDouble indent false (Some v) = Ok text
    /\ forall fuel, S (length text) < fuel -> parse_text toDouble fuel text true = Ok (Some v).
Proof.
  intros Hi Hc Hp Hs. apply format_reads_back; [done..|]. eapply Forall_impl; [exact Hs|]. intros k Hk. by split.
Qed.

Definition half (s : bytes) : option bool :=
  if decide (s = bs "1.5") then Some true else if decide (s = bs "-0.5e+3") then Some false else None.
Definition show_half (f : option bool) : bytes :=
  match f with Some true => bs "1.5" | Some false => bs "-0.5e+3" | None => bs "nan" end.

Lemma json_roundtrip_witness :
  exists text, format show_half 4 false (Some (JsonObject
      [(Str (bs "name") true, JsonString (Str ([DQUOTE] ++ bs "q\ " ++ [LF]) true));
       (Str [] true, JsonArray [JsonInt (-120); JsonFloat (Some false); JsonFloat (Some true); JsonArray []; JsonNull]);
       (Str (bs "b") true, JsonBoolean true)])) = Ok text
    /\ forall fuel, S (length text) < fuel -> parse_text half fuel text true = Ok (Some (JsonObject
      [(Str (bs "name") true, JsonString (Str ([DQUOTE] ++ bs "q\ " ++ [LF]) true));
       (Str [] true, JsonArray [JsonInt (-120); JsonFloat (Some false); JsonFloat (Some true); JsonArray []; JsonNull]);
       (Str (bs "b") true, JsonBoolean true)])).
Proof.
  apply (json_roundtrip half show_half 4); [done|done|cbn; tauto|].
  cbn. repeat constructor; try done.
  - exists "-"%char, (bs "0"), "."%char, (bs "5e+3"), "3"%char.
    repeat first [progress cbn | done | by right; left | by left | split | constructor].
  - exists "1"%char, [], "."%char, (bs "5"), "5"%char.
    repeat first [done | by left | split | constructor].
Defined.

(** ** A string that does not end *)
Section unterminated.
Context {F : Type} (toDouble : bytes -> F).

Definition plain (c : ascii) : Prop := c <> DQUOTE /\ c <> BACKSLASH.

(** The reader is in front of plain characters, or past the end. *)
Definition unquoted (l : JsonLexer.t F) : Prop :=
  (exists pre body, at_pos l pre body /\ Forall plain body) \/ eof (reader l) = true.

Lemma getC_unquoted l : unquoted l -> exists c l', getC l = (c, l') /\ plain c /\ unquoted l'.
Proof.
  intros [(pre & [|c body] & Hp & Hb)|He].
  - destruct (getC_end _ _ Hp) as (l' & -> & He & _). eexists _, _. split; [done|]. split; [done|]. by right.
  - apply Forall_cons in Hb as [Hc Hb]. destruct (getC_cons _ _ _ _ Hp) as (l' & -> & Hp' & _).
    exists c, l'. split; [done|]. split; [done|]. left. eauto.
  - exists EOF, (set_reader (JsonReader.Make (sbuffer (reader l)) (ptr (reader l) + 1)) 1 l).
    unfold eof in He. apply Z.ltb_lt in He. unfold getC, get. cbn [sbuffer ptr].
    assert ((len (JsonReader.Make (sbuffer (reader l)) (ptr (reader l) + 1)) <=? ptr (reader l) + 1)%Z = true) as ->.
    { apply Z.leb_le. unfold len in *. cbn [sbuffer]. lia. }
    split; [done|]. split; [done|]. right. apply Z.ltb_lt. unfold len in *. cbn. lia.
Qed.

Lemma string_loop_stuck fuel sc c s l : plain c -> unquoted l -> string_loop fuel sc c s l = Err OutOfFuel.
Proof.
  revert c s l. induction fuel as [|fuel IH]; intros c s l [Hq Hb] Hl; [done|]. cbn [string_loop].
  unfold is_string_begin_end. rewrite bool_decide_false by done. rewrite decide_False by done.
  destruct (getC_unquoted l Hl) as (c' & l' & -> & Hc' & Hl'). by apply IH.
Qed.

End unterminated.

(** A string whose closing quote is missing never ends the lexer: no
    number of turns of its loop is enough, since the end of the text is read
    again and again as a character of the string. *)
Theorem unterminated_string_loops {F} (toDouble : bytes -> F) (escape : bool) (body : bytes) :
  Forall plain body -> forall fuel, parse_text toDouble fuel (DQUOTE :: body) escape = Err OutOfFuel.
Proof.
  intros Hb fuel. unfold parse_text, JsonLexer.new, JsonReader.set_buffer. rewrite decide_False by done. cbn [construct].
  destruct fuel as [|fuel]; [done|]. unfold getTokens. cbn [tokens_loop].
  set (l := Make escape 1 1 (JsonReader.Make (DQUOTE :: body) (-1)) []).
  assert (at_pos l [] (DQUOTE :: body)) as Hp by done. rewrite (eof_before _ _ _ Hp).
  destruct (skip_space_blanks toDouble (S fuel) None l [] [] DQUOTE body) as (l' & E & Hp' & _);
    [done|by intros [H|H]|done|simpl; lia|].
  unfold analysis. rewrite E. cbn [of_option]. rewrite decide_True by done. unfold lex_string.
  destruct (getC_unquoted l') as (c & l2 & -> & Hc & Hl2); [left; eauto|].
  by rewrite string_loop_stuck.
Qed.

Lemma unterminated_string_loops_witness :
  Forall plain (bs "abc") /\ forall fuel, parse_text half fuel (DQUOTE :: bs "abc") true = Err OutOfFuel.
Proof.
  assert (Forall plain (bs "abc")) as H by (repeat constructor; done).
  split; [exact H|]. exact (unterminated_string_loops half true (bs "abc") H).
Defined.
