(* ===== verification/AppConfig.v ===== *)
(** * AppConfig: the configuration file

    Models [soc/utility/include/AppConfig.h] and [soc/utility/src/AppConfig.cc]:
    a JSON object of objects, read through the stream constructors of the JSON
    reader. *)
From S2P Require Import Prelude CStr JsonLexer JsonParser.
Import Json.

Module AppConfig.

Inductive Values :=
  | VString (s : bytes) | VInt (n : Z) | VBool (b : bool) | VList (l : list bytes).

(** [config_]: a section is inserted with its first key. *)
Abbreviation ConfigMp := (gmap bytes (gmap bytes Values)).

(** [config_[key][subKey] = v] *)
Definition store (key subKey : bytes) (v : Values) (c : ConfigMp) : ConfigMp :=
  <[key := <[subKey := v]> (default ∅ (c !! key))]> c.

Definition get (key subKey : bytes) (c : ConfigMp) : result Values :=
  let* m := of_option OutOfRange (c !! key) in of_option OutOfRange (m !! subKey).
Definition exist (key subKey : bytes) (c : ConfigMp) : bool :=
  match c !! key with Some m => bool_decide (is_Some (m !! subKey)) | None => false end.

(** [GET_CONFIG(T, key, subKey)] at the four types of the variant. *)
Definition get_string (key subKey : bytes) (c : ConfigMp) : result bytes :=
  let* v := get key subKey c in match v with VString s => Ok s | _ => Err BadVariantAccess end.
Definition get_int (key subKey : bytes) (c : ConfigMp) : result Z :=
  let* v := get key subKey c in match v with VInt n => Ok n | _ => Err BadVariantAccess end.
Definition get_bool (key subKey : bytes) (c : ConfigMp) : result bool :=
  let* v := get key subKey c in match v with VBool b => Ok b | _ => Err BadVariantAccess end.
Definition get_list (key subKey : bytes) (c : ConfigMp) : result (list bytes) :=
  let* v := get key subKey c in match v with VList l => Ok l | _ => Err BadVariantAccess end.

Section load.
Context {F : Type} (toDouble : bytes -> F).
Implicit Types (v : value F).

(** [val->value<std::string>()]: the string of a [JsonString], the empty string
    of any other value; the pointer must not be null. *)
Definition value_string v : result bytes :=
  match v with JsonString s => Ok (text s) | JsonNone => Err Undefined | _ => Ok [] end.

Fixpoint strings (vs : list (value F)) : result (list bytes) :=
  match vs with
  | [] => Ok []
  | v :: vs => let* s := value_string v in let* l := strings vs in Ok (s :: l)
  end.

(** The switch on the type: a number that is not an integer stores the integer
    0, an object or [null] nothing. *)
Definition to_value v : result (option Values) :=
  match v with
  | JsonString s => Ok (Some (VString (text s)))
  | JsonInt n => Ok (Some (VInt n))
  | JsonFloat _ => Ok (Some (VInt 0))
  | JsonBoolean b => Ok (Some (VBool b))
  | JsonArray vs => let* l := strings vs in Ok (Some (VList l))
  | JsonObject _ | JsonNull => Ok None
  | JsonNone => Err Undefined
  end.

Fixpoint load_section (key : bytes) (kvs : list (str * value F)) (c : ConfigMp) : result ConfigMp :=
  match kvs with
  | [] => Ok c
  | (k, v) :: kvs =>
      let* x := to_value v in
      load_section key kvs (match x with Some x => store key (text k) x c | None => c end)
  end.

(** [toJsonObject()] of anything but an object is null. *)
Fixpoint load_sections (secs : list (str * value F)) (c : ConfigMp) : result ConfigMp :=
  match secs with
  | [] => Ok c
  | (k, v) :: secs =>
      match v with
      | JsonObject kvs => let* c := load_section (text k) kvs c in load_sections secs c
      | _ => Err Undefined
      end
  end.

Definition load (doc : option (value F)) : result ConfigMp :=
  match doc with Some (JsonObject secs) => load_sections secs ∅ | _ => Err Undefined end.

(** [JsonParser(ifs).parse()]: the lexer catches the exception of an empty
    document, and exits. *)
Definition parse_stream (fuel : nat) (contents : bytes) : result (option (value F)) :=
  let* l := JsonLexer.new_stream contents true in
  let* l := JsonLexer.getTokens toDouble fuel l in
  JsonParser.parse true (JsonLexer.token_list l).

Definition new (fuel : nat) (contents : bytes) : result ConfigMp :=
  let* doc := parse_stream fuel contents in load doc.

End load.
End AppConfig.

(** ** What a lookup returns *)
Import AppConfig.

Section lookup.
Context {F : Type}.
Implicit Types (kvs secs : list (str * value F)).

Definition lookup_config (c : ConfigMp) (key subKey : bytes) : option Values :=
  match c !! key with Some m => m !! subKey | None => None end.

(** The value that the document has for a key: of several members with one key
    the last that holds a value. *)
Fixpoint last_value_of (subKey : bytes) (kvs : list (str * value F)) (acc : option Values) : option Values :=
  match kvs with
  | [] => acc
  | (k, v) :: kvs =>
      last_value_of subKey kvs
        (match to_value v with Ok (Some x) => if decide (text k = subKey) then Some x else acc | _ => acc end)
  end.
Fixpoint last_in_sections (key subKey : bytes) (secs : list (str * value F)) (acc : option Values) : option Values :=
  match secs with
  | [] => acc
  | (k, v) :: secs =>
      last_in_sections key subKey secs
        (match v with JsonObject kvs => if decide (text k = key) then last_value_of subKey kvs acc else acc | _ => acc end)
  end.

Lemma lookup_store k s v c key subKey :
  lookup_config (store k s v c) key subKey = if decide (k = key /\ s = subKey) then Some v else lookup_config c key subKey.
Proof.
  unfold lookup_config, store. destruct (decide (k = key)) as [->|Hk].
  - rewrite lookup_insert_eq. destruct (decide (s = subKey)) as [->|Hs].
    + by rewrite lookup_insert_eq, decide_True.
    + rewrite lookup_insert_ne, decide_False by tauto. by destruct (c !! key).
  - rewrite lookup_insert_ne, decide_False by tauto. done.
Qed.

Lemma load_section_lookup k kvs c c' key subKey :
  load_section k kvs c = Ok c' ->
  lookup_config c' key subKey
  = if decide (k = key) then last_value_of subKey kvs (lookup_config c key subKey) else lookup_config c key subKey.
Proof.
  revert c. induction kvs as [|[s v] kvs IH]; intros c; cbn [load_section last_value_of]; [intros [= <-]; by destruct (decide _)|].
  destruct (to_value v) as [x|]; [|done]. intros H. rewrite (IH _ H).
  destruct x as [x|]; [|done]. rewrite lookup_store.
  destruct (decide (k = key)) as [->|Hk]; [|by rewrite decide_False by tauto].
  f_equal. destruct (decide (text s = subKey)) as [->|Hs]; [by rewrite decide_True|by rewrite decide_False by tauto].
Qed.

Lemma load_sections_lookup secs c c' key subKey :
  load_sections secs c = Ok c' -> lookup_config c' key subKey = last_in_sections key subKey secs (lookup_config c key subKey).
Proof.
  revert c. induction secs as [|[k v] secs IH]; intros c; cbn [load_sections last_in_sections]; [by intros [= <-]|].
  destruct v as [kvs| | | | | | |]; try done.
  destruct (load_section (text k) kvs c) as [c1|] eqn:E; [|done]. intros H. rewrite (IH _ H).
  f_equal. by eapply load_section_lookup.
Qed.

Lemma get_lookup c key subKey : get key subKey c = of_option OutOfRange (lookup_config c key subKey).
Proof. unfold get, lookup_config. by destruct (c !! key). Qed.

End lookup.

(** The type of a configuration value, and the values of a type. *)
Inductive config_type := TString | TInt | TBool | TList.
#[export] Instance config_type_eq_dec : EqDecision config_type.
Proof. solve_decision. Defined.
Definition type_of (v : Values) : config_type :=
  match v with VString _ => TString | VInt _ => TInt | VBool _ => TBool | VList _ => TList end.
Definition denote (T : config_type) : Type :=
  match T with TString => bytes | TInt => Z | TBool => bool | TList => list bytes end.
Definition GET_CONFIG (T : config_type) : bytes -> bytes -> ConfigMp -> result (denote T) :=
  match T with TString => get_string | TInt => get_int | TBool => get_bool | TList => get_list end.
Definition content (v : Values) : denote (type_of v) :=
  match v with VString s => s | VInt n => n | VBool b => b | VList l => l end.

(** C21: The typed access to a loaded configuration.  [exist] says whether the
    document has a value for the key, which is that of the last member; it is
    returned at its own type, is a bad variant access at each other type, and a
    missing key is out of range at every type. *)
Theorem config_typed_access {F} (secs : list (str * value F)) (c : ConfigMp) (key subKey : bytes) (T : config_type) :
  load (Some (JsonObject secs)) = Ok c ->
  exist key subKey c = bool_decide (is_Some (last_in_sections key subKey secs None))
  /\ match last_in_sections key subKey secs None with
     | None => GET_CONFIG T key subKey c = Err OutOfRange
     | Some v => GET_CONFIG (type_of v) key subKey c = Ok (content v)
         /\ (T <> type_of v -> GET_CONFIG T key subKey c = Err BadVariantAccess)
     end.
Proof.
  intros H. cbn [load] in H. pose proof (load_sections_lookup secs ∅ c key subKey H) as E.
  unfold lookup_config at 2 in E. rewrite lookup_empty in E. rewrite <- E.
  assert (exist key subKey c = bool_decide (is_Some (lookup_config c key subKey))) as ->.
  { unfold exist, lookup_config. by destruct (c !! key). }
  split; [done|]. unfold GET_CONFIG, get_string, get_int, get_bool, get_list.
  destruct (lookup_config c key subKey) as [v|] eqn:Ev.
  - split; [destruct v|destruct T, v]; cbn; rewrite ?get_lookup, Ev; done.
  - destruct T; by rewrite get_lookup, Ev.
Qed.

Lemma config_typed_access_witness :
  exists c, load (F := unit) (Some (JsonObject [(Str (bs "server") true,
      JsonObject [(Str (bs "listen_port") true, JsonInt 80); (Str (bs "listen_port") true, JsonInt 5555)])])) = Ok c
    /\ get_int (bs "server") (bs "listen_port") c = Ok 5555%Z
    /\ get_string (bs "server") (bs "listen_port") c = Err BadVariantAccess.
Proof.
  eexists. split; [reflexivity|].
  destruct (config_typed_access (F := unit) [(Str (bs "server") true,
      JsonObject [(Str (bs "listen_port") true, JsonInt 80); (Str (bs "listen_port") true, JsonInt 5555)])]
      _ (bs "server") (bs "listen_port") TString eq_refl) as [_ [H1 H2]].
  split; [exact H1|apply H2; discriminate].
Defined.

(** ** The configuration file that comes with the server *)
Definition sample_config : bytes := bs "{
    'server': {
        'listen_ip': '0.0.0.0',
        'listen_port': 5555,
        'idle_timeout': 2000,
        'server_hostname': 'localhost',
        'enable_https': false,
        'enable_php': false,
        'enable_sendfile': false,
        'default_page': [
            'index.php',
            'index.html'
        ],
        'user_pass_file': './pass_store/user_password',
        'authenticate_realm': 'socnet@test',
        'session_lifetime': 10
    },
    'https': {
        'cert_file': './ssl/cert.crt',
        'private_key_file': './ssl/private.pem',
        'password': ''
    },
    'php-fpm': {
        'tcp_or_domain': true,
        'server_ip': '127.0.0.1',
        'server_port': 9000,
        'sock_path': '/run/php-fpm/php-fpm.sock'
    }
}".
(** With the double quotes that the file has. *)
Definition quotes (s : bytes) : bytes := (fun c => if bool_decide (c = "'"%char) then DQUOTE else c) <$> s.
Definition sample : result ConfigMp := new (F := unit) (fun _ => tt) 2000 (quotes sample_config).

Example sample_loads : match sample with
  | Ok c => get_list (bs "server") (bs "default_page") c = Ok [bs "index.php"; bs "index.html"]
      /\ get_int (bs "server") (bs "idle_timeout") c = Ok 2000%Z
      /\ get_bool (bs "server") (bs "enable_https") c = Ok false
      /\ get_string (bs "server") (bs "enable_https") c = Err BadVariantAccess
  | Err _ => False
  end.
Proof. vm_compute. done. Qed.
