(* ===== verification/HttpServer.v ===== *)
(** * HttpServer: from a connection with bytes to a response

    Models [soc/http/src/HttpServer.cc] and [soc/http/include/HttpServer.h] on
    top of the request parser, the response builder, the services, the sessions
    and the FastCGI client.  A lookup in the file system takes the C string of a
    path and finds the regular file that [stat] and [open] find. *)
From S2P Require Import Prelude CStr Buffer TimeStamp InetAddress EncodeUtil HttpUtil HttpMap HttpHeader HttpAuth HttpRequest Channel HttpResponse HttpService HttpSession TcpServer PhpFastCgi AppConfig.

(** [std::atoi] of a C string. *)
Definition atoi_digits (s : bytes) : Z :=
  (fix go (s : bytes) (n : Z) : Z :=
    match s with c :: s => if isdigit c then go s (n * 10 + (char_u c - 48))%Z else n | [] => n end) s 0%Z.
Fixpoint skip_white (s : bytes) : bytes :=
  match s with c :: s' => if JsonLexer.JsonReader.whitespace c then skip_white s' else s | [] => [] end.
Definition atoi (s : bytes) : result Z :=
  int_checked (match skip_white s with
  | c :: s' => if decide (c = "-"%char) then - atoi_digits s' else if decide (c = "+"%char) then atoi_digits s' else atoi_digits (c :: s')
  | [] => 0
  end)%Z.

Module HttpServer.
#[local] Existing Instance HttpRequest.RetCode_eq_dec.

(** ** State *)
Section server.
Context {any : Type}.

(** What a service can change: the sessions, and the mutable members of the
    request it is called for. *)
Record env := Env {
  e_sessions : Sessions.t any; session_ : option bytes; match_ : list bytes; php_message_ : bytes }.

Definition set_match (m : list bytes) (e : env) : env := Env (e_sessions e) (session_ e) m (php_message_ e).
Definition set_php_message (s : bytes) (e : env) : env := Env (e_sessions e) (session_ e) (match_ e) s.

(** [HttpRequest::getSession]: the owner associates a session. *)
Definition getSession `{HttpSessionServer (Sessions.t any)} (req : HttpRequest.t) (e : env) : result (bytes * env) :=
  let* (x, w) := associate (HttpRequest.cookies_ req) (e_sessions e) in
  Ok (x, Env w (Some x) (match_ e) (php_message_ e)).

Notation BaseService := (HttpService.BaseService env).
Notation Service := (HttpService.t env).

Record t := Make {
  default_pages_ : list bytes; mount_dir_ : HttpMap.t bytes;
  services_ : HttpMap.t BaseService; urlp_services_ : HttpMap.t Service }.

(** ** Configuration of the server *)
Definition setErrorService (d : HttpService.error_handler env) (s : t) : t :=
  Make (default_pages_ s) (mount_dir_ s) (HttpMap.add (bs "#") (HttpService.ErrorService d) (services_ s)) (urlp_services_ s).
Definition addService (url : bytes) (x : Service) (s : t) : t :=
  Make (default_pages_ s) (mount_dir_ s) (HttpMap.add url (HttpService.Service x) (services_ s)) (urlp_services_ s).
Definition addUrlPatternService (url_pattern : bytes) (x : Service) (s : t) : t :=
  Make (default_pages_ s) (mount_dir_ s) (services_ s) (HttpMap.add url_pattern x (urlp_services_ s)).
Definition removeErrorService (s : t) : t := setErrorService HttpService.default_doError s.
Definition removeService (url : bytes) (s : t) : t :=
  Make (default_pages_ s) (mount_dir_ s) (HttpMap.remove url (services_ s)) (urlp_services_ s).
Definition removeUrlPatternService (url_pattern : bytes) (s : t) : t :=
  Make (default_pages_ s) (mount_dir_ s) (services_ s) (HttpMap.remove url_pattern (urlp_services_ s)).

(** [initialize]: the server, and the idle time given to the TCP server. *)
Definition setIdleTime (millsecond : Z) : Z := if (millsecond <=? 0)%Z then 2000 else millsecond.
Definition initialize (c : AppConfig.ConfigMp) : result (t * Z) :=
  let* idle := AppConfig.get_int (bs "server") (bs "idle_timeout") c in
  let* pages := AppConfig.get_list (bs "server") (bs "default_page") c in
  let* https := AppConfig.get_bool (bs "server") (bs "enable_https") c in
  let* _ :=
    (if https then
       let* _ := AppConfig.get_string (bs "https") (bs "cert_file") c in
       let* _ := AppConfig.get_string (bs "https") (bs "private_key_file") c in
       let* _ := AppConfig.get_string (bs "https") (bs "password") c in Ok ()
     else Ok ()) in
  Ok (setErrorService HttpService.default_doError (Make pages ∅ ∅ ∅), setIdleTime idle).

(** [start]: the address to listen on. *)
Definition listen_address (inet_pton : bytes -> option Z) (c : AppConfig.ConfigMp) : result InetAddress.t :=
  let* ip := AppConfig.get_string (bs "server") (bs "listen_ip") c in
  let* port := AppConfig.get_int (bs "server") (bs "listen_port") c in
  Ok (InetAddress.new inet_pton ip port).

(** [HttpRequest::getFullUrl].  It is [noexcept]: a lookup that throws ends the
    process. *)
Definition getFullUrl (c : AppConfig.ConfigMp) (req : HttpRequest.t) : result bytes :=
  let url :=
    let* on_https := AppConfig.get_bool (bs "server") (bs "enable_https") c in
    let has_host := AppConfig.exist (bs "server") (bs "server_hostname") c in
    let schema := if on_https then bs "https" else bs "http" in
    let* port := AppConfig.get_int (bs "server") (bs "listen_port") c in
    let* host :=
      (if has_host then AppConfig.get_string (bs "server") (bs "server_hostname") c
       else AppConfig.get_string (bs "server") (bs "listen_ip") c) in
    Ok (schema ++ bs ":" ++ bs "//" ++ host ++ bs ":" ++ to_string port ++ EncodeUtil.urlDecode (HttpRequest.req_url_ req)) in
  match url with Ok url => Ok url | Err _ => Err ExitProcess end.

(** The connection of [dispatchPhpProcessor] to php-fpm. *)
Definition php_connect (inet_addr : bytes -> Z) (connects : PhpFastCgi.peer -> bool) (c : AppConfig.ConfigMp) : result bool :=
  let* tcp_or_domain := AppConfig.get_bool (bs "php-fpm") (bs "tcp_or_domain") c in
  if tcp_or_domain : bool then
    let* ip := AppConfig.get_string (bs "php-fpm") (bs "server_ip") c in
    let* port := AppConfig.get_int (bs "php-fpm") (bs "server_port") c in
    Ok (PhpFastCgi.connect_tcp inet_addr connects ip port)
  else
    let* path := AppConfig.get_string (bs "php-fpm") (bs "sock_path") c in
    PhpFastCgi.connect_unix connects path.

(** A configured path that is longer than the address is written past it. *)
Lemma php_connect_overflow inet_addr connects c path :
  AppConfig.get_bool (bs "php-fpm") (bs "tcp_or_domain") c = Ok false ->
  AppConfig.get_string (bs "php-fpm") (bs "sock_path") c = Ok path ->
  php_connect inet_addr connects c = Err Undefined <-> PhpFastCgi.sun_path_size < length path.
Proof.
  intros H1 H2. unfold php_connect. rewrite H1, H2. unfold PhpFastCgi.connect_unix.
  by destruct (Nat.ltb_spec PhpFastCgi.sun_path_size (length path)); (split; [|]); try lia; try done.
Qed.

(** [canonical] is [std::filesystem::canonical], which throws for a directory
    that does not exist. *)
Definition addMountDir (canonical : bytes -> option bytes) (url dir : bytes) (s : t) : result t :=
  let* z := of_option Undefined (last url) in
  let u := if decide (z = "/"%char) then url else url ++ bs "/" in
  let* d := of_option StdException (canonical dir) in
  Ok (Make (default_pages_ s) (HttpMap.add u (d ++ bs "/") (mount_dir_ s)) (services_ s) (urlp_services_ s)).

(** ** The environment of a request *)
Context (MD5 : bytes -> bytes) (store : HttpPassStore.t) (dangling : bytes -> bytes).
(** zlib, and the regular expressions of the standard library: the groups of
    the first match, or none. *)
Context (gzipCompress : bytes -> bytes) (regex_search : bytes -> bytes -> option (list bytes)).
(** The traversal order of the hash tables. *)
Context (order : forall V, HttpMap.t V -> list (bytes * V)).
(** The files, whether [mmap] succeeds and the date. *)
Context (files : bytes -> option HttpResponse.file) (mmap_ok : bool) (date : bytes).

(** PHP: whether it is enabled, whether the connection to it succeeds (what
    [php_connect] returns), what
    arrives from it for what is sent to it, the results of the writes of the
    post data, a bound of the records that are read, and the memory behind the
    uninitialised header. *)
Record php := Php {
  enable_php : bool; fpm_up : bool; fpm : bytes -> list bytes; fpm_writes : list Z; fpm_fuel : nat; fpm_junk : bytes }.
Context (php_fpm : php).

(** [FileUtil::exist] and [FileUtil::openFile] see a C string. *)
Definition fs (path : bytes) : option HttpResponse.file := files (c_str path).
Definition exist (path : bytes) : bool := bool_decide (is_Some (fs path)).

Definition getErrorService (s : t) : result BaseService := of_option BadOptionalAccess (HttpMap.get (bs "#") (services_ s)).

Fixpoint getIndexPageFileName (pages : list bytes) (dir : bytes) : option bytes :=
  match pages with
  | [] => None
  | p :: pages => if exist (dir ++ p) then Some (dir ++ p) else getIndexPageFileName pages dir
  end.

(** ** [dispatchPhpProcessor] *)
Notation sendParams := (PhpFastCgi.sendParams 1).

Definition php_auth (req : HttpRequest.t) : result bytes :=
  match HttpRequest.auth_ req with
  | Some (HttpBasicAuth user pass _) =>
      let* a := sendParams PhpFastCgi.PHP_AUTH_USER user in
      let* b := sendParams PhpFastCgi.PHP_AUTH_PW pass in Ok (a ++ b)
  | Some (HttpDigestAuth info _) => sendParams PhpFastCgi.PHP_AUTH_DIGEST info
  | None => Ok []
  end.

Definition php_method (req : HttpRequest.t) : result bytes :=
  let* m := of_option Undefined (HttpRequest.method_ req) in
  match m with
  | HEAD =>
      let* a := sendParams PhpFastCgi.REQUEST_METHOD (bs "HEAD") in Ok (a ++ PhpFastCgi.sendEndRequestRecord 1)
  | GET =>
      let* a := sendParams PhpFastCgi.REQUEST_METHOD (bs "GET") in Ok (a ++ PhpFastCgi.sendEndRequestRecord 1)
  | POST =>
      let* a := sendParams PhpFastCgi.REQUEST_METHOD (bs "POST") in
      let* b :=
        (match HttpHeader.get (bs "Content-Type") (HttpRequest.header_ req) with
         | Some type =>
             let* x := sendParams PhpFastCgi.CONTENT_TYPE type in
             let* y := sendParams PhpFastCgi.CONTENT_LENGTH (to_string (Z.of_nat (length (HttpRequest.post_data_ req)))) in
             Ok (x ++ y)
         | None => Ok []
         end) in
      let* c := PhpFastCgi.sendPost 1 (fpm_writes php_fpm) (HttpRequest.post_data_ req) in
      Ok (a ++ b ++ PhpFastCgi.sendEndRequestRecord 1 ++ c)
  end.

(** What is written to the connection to php-fpm. *)
Definition php_request (path : bytes) (req : HttpRequest.t) : result bytes :=
  let* p := sendParams PhpFastCgi.SCRIPT_FILENAME path in
  let* a := php_auth req in
  let* q := (if HttpRequest.hasQueryString req then sendParams PhpFastCgi.QUERY_STRING (HttpRequest.query_s_ req) else Ok []) in
  let* m := php_method req in
  Ok (PhpFastCgi.sendStartRequestRecord 1 ++ p ++ a ++ q ++ m).

(** The text before the first space. *)
Definition before_space (s : bytes) : bytes := match find_char " " s with Some i => take i s | None => s end.

(** What is made of php-fpm's answer. *)
Definition php_response (status : bool) (sv : bytes) (resp : HttpResponse.t) : result HttpResponse.t :=
  let* (header, index) := HttpHeader.parse sv [] in
  let resp := HttpResponse.setHeaders header resp in
  let* resp :=
    (match HttpHeader.get (bs "Status") header with
     | Some x => let* code := atoi (c_str (before_space x)) in Ok (HttpResponse.setCode code resp)
     | None => Ok resp
     end) in
  if negb status && negb (HttpResponse.code_ resp =? 200)%Z then Ok resp
  else
    let* sv := remove_prefix sv index in HttpResponse.setBody sv resp.

Definition dispatchPhpProcessor (path : bytes) (req : HttpRequest.t) (resp : HttpResponse.t) (e : env)
    : result (HttpResponse.t * env) :=
  if negb (fpm_up php_fpm) then Ok (HttpResponse.setCode HttpStatus.INTERNAL_SERVER_ERROR resp, e)
  else
    let* out := php_request path req in
    let* (status, message, buffer) := PhpFastCgi.readPhpFpm (fpm_fuel php_fpm) (fpm_junk php_fpm) (fpm php_fpm out)
      (Buffer.new Buffer.default_size) in
    let e := set_php_message message e in
    let* resp := php_response status (Buffer.contents buffer) resp in
    Ok (resp, e).

(** ** [dispatchFile] *)
(** A path that exists. *)
Definition serve_path (path : bytes) (req : HttpRequest.t) (resp : HttpResponse.t) (e : env)
    : result (bool * HttpResponse.t * env) :=
  if ends_with path (bs ".php") then
    if enable_php php_fpm then
      let* (resp, e) := dispatchPhpProcessor path req resp e in Ok (true, resp, e)
    else Ok (true, HttpResponse.setCode HttpStatus.FORBIDDEN resp, e)
  else
    Ok (true, HttpResponse.setBodyFile path (HttpResponse.setHeader (bs "Content-Type") (mappingMimeType path) resp), e).

Definition dispatchFile (s : t) (prefix req_url path : bytes) (req : HttpRequest.t) (resp : HttpResponse.t) (e : env)
    : result (bool * HttpResponse.t * env) :=
  let* req_url := remove_prefix req_url (length prefix) in
  let path := path ++ req_url in
  let* z := of_option Undefined (last path) in
  if decide (z = "/"%char) then
    match getIndexPageFileName (default_pages_ s) path with
    | Some page => serve_path page req resp e
    | None => Ok (true, HttpResponse.setCode HttpStatus.FORBIDDEN resp, e)
    end
  else if negb (exist path) then Ok (false, resp, e)
  else serve_path path req resp e.

(** ** [dispatchMountDir] and [dispatchUrlPattern] *)
Definition mount_callback (s : t) (req : HttpRequest.t) (prefix dir : bytes) (x : bool * HttpResponse.t * env)
    : result (bool * (bool * HttpResponse.t * env)) :=
  let '(status, resp, e) := x in
  if starts_with (HttpRequest.url_ req) prefix then
    let* (found, resp, e) := dispatchFile s prefix (HttpRequest.url_ req) dir req resp e in
    if found then Ok (true, (true, resp, e)) else Ok (false, (status, resp, e))
  else Ok (false, x).

Definition dispatchMountDir (s : t) (req : HttpRequest.t) (resp : HttpResponse.t) (e : env)
    : result (bool * HttpResponse.t * env) :=
  if HttpMap.empty (mount_dir_ s) then Ok (false, resp, e)
  else
    let* (status, resp, e) := HttpMap.each (mount_callback s req) (order _ (mount_dir_ s)) (false, resp, e) in
    Ok (status, if status then resp else HttpResponse.setCode HttpStatus.NOT_FOUND resp, e).

Definition pattern_callback (req : HttpRequest.t) (urlp : bytes) (service : Service) (x : bool * HttpResponse.t * env)
    : result (bool * (bool * HttpResponse.t * env)) :=
  let '(status, resp, e) := x in
  match regex_search urlp (HttpRequest.url_ req) with
  | Some groups =>
      let* (resp, e) := HttpService.service0 set_match service groups req resp e in Ok (true, (true, resp, e))
  | None => Ok (false, x)
  end.

Definition dispatchUrlPattern (s : t) (req : HttpRequest.t) (resp : HttpResponse.t) (e : env)
    : result (bool * HttpResponse.t * env) :=
  match HttpMap.get (HttpRequest.url_ req) (services_ s) with
  | Some x => let* (resp, e) := HttpService.base_service x req resp e in Ok (true, resp, e)
  | None =>
      if HttpMap.empty (urlp_services_ s) then Ok (false, resp, e)
      else HttpMap.each (pattern_callback req) (order _ (urlp_services_ s)) (false, resp, e)
  end.

(** ** [onMessage] *)
(** A session that was created for the request gets a cookie. *)
Definition associateRequestSession (resp : HttpResponse.t) (e : env) : result HttpResponse.t :=
  match session_ e with
  | None => Ok resp
  | Some x =>
      let* s := of_option Undefined (Sessions.sessions_ (e_sessions e) !! x) in
      if HttpSession.isNew s then
        let cookie := HttpCookie.setPath (bs "/") (HttpCookie.add (bs "SESSIONID") (HttpSession.getId s) HttpCookie.new) in
        Ok (HttpResponse.setCookie (HttpCookie.toString [(bs "SESSIONID", HttpSession.getId s)] cookie) resp)
      else Ok resp
  end.

(** The response to a request that is complete. *)
Definition respond (s : t) (req : HttpRequest.t) (resp : HttpResponse.t) (e : env) : result (HttpResponse.t * env) :=
  let* (found, resp, e) := dispatchUrlPattern s req resp e in
  let* (_, resp, e) := (if found then Ok (found, resp, e) else dispatchMountDir s req resp e) in
  let* resp := associateRequestSession resp e in
  if ((400 <=? HttpResponse.code_ resp) && (HttpResponse.code_ resp <? 600))%Z then
    let* service := getErrorService s in HttpService.base_service service req resp e
  else Ok (resp, e).

Notation conn := (TcpServer.conn HttpRequest.t).

(** [HttpResponse::send] *)
Definition send (resp : HttpResponse.t) (c : conn) : result conn :=
  let* ch := of_option Undefined (TcpServer.channel_ c) in
  let* (_, ch) := HttpResponse.build gzipCompress fs mmap_ok resp ch in
  Ok (TcpServer.Conn (TcpServer.disconnected_ c) (HttpResponse.keepalive_ resp) (TcpServer.context_ c) (Some ch)).

Definition set_context (x : option HttpRequest.t) (c : conn) : conn := TcpServer.Conn (TcpServer.disconnected_ c) (TcpServer.keep_alive_ c) x (TcpServer.channel_ c).
Definition set_keep_alive (k : bool) (c : conn) : conn := TcpServer.Conn (TcpServer.disconnected_ c) k (TcpServer.context_ c) (TcpServer.channel_ c).

(** The request of a connection that was closed meanwhile is deleted and stays
    the context. *)
Definition onMessage (s : t) (c : conn) (w : Sessions.t any) : result (bool * conn * Sessions.t any) :=
  let req := default HttpRequest.new (TcpServer.context_ c) in
  let* ch := of_option Undefined (TcpServer.channel_ c) in
  let* (recver, req, code) := HttpRequest.parseRequest MD5 store dangling (Channel.recver_ ch) req in
  let c := TcpServer.Conn (TcpServer.disconnected_ c) (TcpServer.keep_alive_ c) (Some req) (Some (Channel.set_recver recver ch)) in
  if TcpServer.disconnected_ c then Ok (true, c, w)
  else
    let* resp := HttpResponse.new date req in
    let e := Env w None [] [] in
    if decide (code = HttpRequest.BAD_REQUEST) then
      let c := set_context None (set_keep_alive false c) in
      let resp := HttpResponse.setHeader (bs "Connection") (bs "close") (HttpResponse.setCode HttpStatus.BAD_REQUEST resp) in
      let* service := getErrorService s in
      let* (resp, e) := HttpService.base_service service req resp e in
      let* c := send resp c in
      Ok (true, c, e_sessions e)
    else if decide (code <> HttpRequest.REQUEST_CONTENT_DONE) then Ok (false, c, w)
    else
      let req := HttpRequest.reset req in
      let* (resp, e) := respond s req resp e in
      let* c := send resp c in
      Ok (true, set_context None c, e_sessions e).

(** What the server binds to the TCP server below it: [onMessage], and the
    session timer that [associateSession] asks for. *)
Definition callbacks (s : t) : TcpServer.callbacks HttpRequest.t (Sessions.t any) :=
  TcpServer.Callbacks (onMessage s) (fun w => bool_decide (is_Some (Sessions.session_timer_ w))) Sessions.handleTimeout.

End server.
End HttpServer.
