(* ===== verification/Startup.v ===== *)
(** * Startup: the server is made, listens and accepts

    Models the constructor of [TcpServer], [setCertificate], [wakeUp], the calls
    of the system in [start], [handleServerAccept] and [handleConnected]
    ([soc/net/src/TcpServer.cc]), and the constructor and [start] of
    [HttpServer] ([soc/http/src/HttpServer.cc]), as scripts of [ServerSocket].
    The states they make are those of [EventLoop], from which the theorems
    about the running server start. *)
From S2P Require Import Prelude CStr Buffer TimeStamp InetAddress TimerHeap TimerQueue Channel ServerSocket HttpRequest HttpService HttpSession TcpServer EventLoop EventRun AppConfig HttpServer.
Import Sys.
Local Open Scope Z_scope.

Module Startup.

Definition EFD_CLOEXEC : Z := 0x80000.
Definition EFD_NONBLOCK : Z := 0x800.
Definition EPOLL_CLOEXEC : Z := 0x80000.
Definition CLOCK_REALTIME : Z := 0.
Definition SIGPIPE : Z := 13.

Section startup.
Context {any W : Type} `{Kernel} (inet_pton : bytes -> option Z).
Implicit Types (c : AppConfig.ConfigMp) (s : TcpServer.t HttpRequest.t W).

(** ** [TcpServer] *)
(** [idle_timeout_] is not initialised; the callbacks of the poller are the
    handlers of [EventLoop]. *)
Definition TcpServer_new (idle_timeout_ session : Z) (w : W) c : script (TcpServer.t HttpRequest.t W) :=
  evfd ← sys (eventfd 0 (Z.lor EFD_CLOEXEC EFD_NONBLOCK));
  svr ← option.createNBSocket;
  sys (epoll_create1 EPOLL_CLOEXEC) ;;
  alive ← sys (timerfd_create CLOCK_REALTIME 0);
  sendfile ← lift (AppConfig.get_bool (bs "server") (bs "enable_sendfile") c);
  sys (ignore_signal SIGPIPE) ;;
  ServerSocket.enableReuseAddr true svr ;;
  ServerSocket.enableReusePort true svr ;;
  option.setNonBlocking evfd ;;
  sys (epoll_add evfd (Z.lor EPoller.EPOLLIN EPoller.kConnectionEvent)) ;;
  sys (epoll_add alive EPoller.EPOLLIN) ;;
  mret (EventLoop.new evfd svr alive session idle_timeout_ sendfile w).

Definition set_idle (ms : Z) s : TcpServer.t HttpRequest.t W :=
  TcpServer.Make (TcpServer.quit_ s) (TcpServer.evfd_ s) (TcpServer.svr_fd s) (TcpServer.alive_fd s) (TcpServer.session_fd s) ms
    (TcpServer.sendfile_ s) (TcpServer.poller_ s) (TcpServer.alive_timer_ s) (TcpServer.session_timer_ s) (TcpServer.conns_ s)
    (TcpServer.owner_ s) (TcpServer.tasks_ s) (TcpServer.running_ s) (TcpServer.closed_ s) (TcpServer.wire_ s).

(** [ssl_] is made once. *)
Definition setCertificate (cert_file privatekey_file password : bytes) (ssl_ : option ServerSsl.t) : script (option ServerSsl.t) :=
  match ssl_ with
  | Some _ => mret ssl_
  | None => ctx ← ServerSsl.new cert_file privatekey_file password; mret (Some ctx)
  end.

(** [start], up to the loop; [mono] is what the clock reads. *)
Definition TcpServer_start (mono : Z * Z) (address : InetAddress.t) s : script (TcpServer.t HttpRequest.t W) :=
  ServerSocket.bind address (TcpServer.svr_fd s) ;;
  ServerSocket.listen (TcpServer.svr_fd s) ;;
  sys (epoll_add (TcpServer.svr_fd s) (Z.lor EPoller.EPOLLIN EPoller.kServerEvent)) ;;
  ts ← lift (TimeStamp.millsecond (TcpServer.idle_timeout_ s));
  let its := TimerQueue.every_spec mono.1 mono.2 ts in
  sys (timerfd_settime (TcpServer.alive_fd s) (it_value_sec its) (it_value_nsec its) (it_interval_sec its) (it_interval_nsec its)) ;;
  lift (EventLoop.start mono s).

Definition wakeUp s : script () := sys (write (TcpServer.evfd_ s) 1) ;; mret ().
Definition quit s : script () := wakeUp s.

(** [handleConnected]; [new_conn_cb_] is not set by the HTTP server. *)
Definition handleConnected (clock : TimeStamp.t) (connfd : Z) (ty : ChannelType) s : script (TcpServer.t HttpRequest.t W) :=
  option.setNonBlocking connfd ;;
  sys (epoll_add connfd (Z.lor EPoller.EPOLLIN EPoller.kConnectionEvent)) ;;
  lift (TcpServer.handleConnected clock connfd (EventLoop.new_channel ty s) s).

(** [ssl_->createSslChannel] of a null [ssl_] is undefined. *)
Definition handleServerAccept c (ssl_ : option ServerSsl.t) (clock : TimeStamp.t) s : script (TcpServer.t HttpRequest.t W) :=
  x ← ServerSocket.accept (TcpServer.svr_fd s);
  let connfd := x.1 in
  if connfd <=? 0 then mret s
  else
    https ← lift (AppConfig.get_bool (bs "server") (bs "enable_https") c);
    if https : bool then
      ctx ← lift (of_option Undefined ssl_);
      channel ← ServerSsl.createSslChannel connfd ctx;
      ret ← ServerSsl.accept channel;
      if ret <? 1 then ServerSsl.delete_channel channel ;; mret s
      else handleConnected clock connfd Ssl s
    else handleConnected clock connfd Raw s.

(** ** [HttpServer] *)
Definition HttpServer_new (idle_timeout_ session : Z) (w : W) c
    : script (HttpServer.t (any := any) * TcpServer.t HttpRequest.t W * option ServerSsl.t) :=
  s ← TcpServer_new idle_timeout_ session w c;
  x ← lift (HttpServer.initialize c);
  https ← lift (AppConfig.get_bool (bs "server") (bs "enable_https") c);
  ssl ←
    (if https : bool then
       cert_file ← lift (AppConfig.get_string (bs "https") (bs "cert_file") c);
       private_key_file ← lift (AppConfig.get_string (bs "https") (bs "private_key_file") c);
       password ← lift (AppConfig.get_string (bs "https") (bs "password") c);
       setCertificate cert_file private_key_file password None
     else mret None);
  mret (x.1, set_idle x.2 s, ssl).

Definition HttpServer_start (mono : Z * Z) c s : script (TcpServer.t HttpRequest.t W) :=
  address ← lift (HttpServer.listen_address inet_pton c); TcpServer_start mono address s.

(** [HttpServer server; server.start();], up to the loop. *)
Definition run (mono : Z * Z) (idle_timeout_ session : Z) (w : W) c
    : script (HttpServer.t (any := any) * TcpServer.t HttpRequest.t W * option ServerSsl.t) :=
  x ← HttpServer_new idle_timeout_ session w c;
  s ← HttpServer_start mono c x.1.2;
  mret (x.1.1, s, x.2).

(** ** [~TcpServer], and then its members from the last to the first *)
Definition removeAndCloseEvent (fd : Z) : script () := sys (epoll_del fd) ;; sys (close fd) ;; mret ().
Fixpoint each {A} (f : A -> script ()) (l : list A) : script () :=
  match l with [] => mret () | a :: l => f a ;; each f l end.
(** The connections in the order of [l]; a channel closes its descriptor, after
    the end of TLS. *)
Definition destroy (l : list (Z * TcpServer.conn HttpRequest.t)) (ssl_ : option ServerSsl.t) (channel_ssl : Z -> Z) s : script () :=
  removeAndCloseEvent (TcpServer.evfd_ s) ;;
  removeAndCloseEvent (TcpServer.svr_fd s) ;;
  removeAndCloseEvent (TcpServer.alive_fd s) ;;
  (if TcpServer.session_timer_ s then removeAndCloseEvent (TcpServer.session_fd s) else mret ()) ;;
  each (fun x => if TcpServer.disconnected_ x.2 then mret () else sys (epoll_del x.1) ;; mret ()) l ;;
  each (fun x => match TcpServer.channel_ x.2 with
                 | Some ch => match Channel.channel_type ch with
                              | Raw => sys (close x.1) ;; mret ()
                              | Ssl => ServerSsl.delete_channel (channel_ssl x.1, x.1)
                              end
                 | None => mret ()
                 end) l ;;
  match ssl_ with Some ctx => ServerSsl.destroy ctx | None => mret () end ;;
  ServerSocket.destroy (TcpServer.svr_fd s).

(** ** The process ends when a call fails that must not *)
Lemma bind_no_exit {A B} (x : result A) (f : A -> result B) :
  x <> Err ExitProcess -> (forall a, f a <> Err ExitProcess) -> (let* a := x in f a) <> Err ExitProcess.
Proof. destruct x as [a|e]; [intros _ Hf; apply Hf|]. intros Hx _ [= ->]. by apply Hx. Qed.

Lemma config_no_exit c k1 k2 :
  AppConfig.get_string k1 k2 c <> Err ExitProcess /\ AppConfig.get_int k1 k2 c <> Err ExitProcess
  /\ AppConfig.get_bool k1 k2 c <> Err ExitProcess /\ AppConfig.get_list k1 k2 c <> Err ExitProcess.
Proof.
  assert (AppConfig.get k1 k2 c <> Err ExitProcess) as H1.
  { unfold AppConfig.get. destruct (c !! k1) as [m|]; [|done]. cbn. by destruct (m !! k2). }
  by repeat split; apply bind_no_exit; try done; intros [].
Qed.

Lemma millsecond_no_exit ms : TimeStamp.millsecond ms <> Err ExitProcess.
Proof. unfold TimeStamp.millsecond, int_checked. by destruct (_ && _). Qed.

Lemma initialize_no_exit c : HttpServer.initialize (any := any) c <> Err ExitProcess.
Proof.
  unfold HttpServer.initialize. do 3 (apply bind_no_exit; [apply config_no_exit|intros ?]).
  apply bind_no_exit; [|done]. case_match; [|done]. do 3 (apply bind_no_exit; [apply config_no_exit|intros ?]). done.
Qed.

Lemma listen_address_no_exit c : HttpServer.listen_address inet_pton c <> Err ExitProcess.
Proof. unfold HttpServer.listen_address. do 2 (apply bind_no_exit; [apply config_no_exit|intros ?]). done. Qed.

Lemma start_no_exit mono s : EventLoop.start mono s <> Err ExitProcess.
Proof. unfold EventLoop.start. apply bind_no_exit; [apply millsecond_no_exit|done]. Qed.

#[local] Hint Extern 1 (exits_on_failure (lift _)) => apply exits_lift : sys.
#[local] Hint Resolve config_no_exit initialize_no_exit listen_address_no_exit start_no_exit millsecond_no_exit : sys.
#[local] Hint Extern 1 (AppConfig.get_string _ _ _ <> _) => apply config_no_exit : sys.
#[local] Hint Extern 1 (AppConfig.get_bool _ _ _ <> _) => apply config_no_exit : sys.

Lemma exits_TcpServer_new idle session w c : exits_on_failure (TcpServer_new idle session w c).
Proof.
  unfold TcpServer_new, ServerSocket.enableReuseAddr, ServerSocket.enableReusePort. auto 40 with sys.
Qed.

Lemma exits_setCertificate cert pk pw ssl : exits_on_failure (setCertificate cert pk pw ssl).
Proof. destruct ssl; cbn; auto with sys. Qed.
#[local] Hint Resolve exits_TcpServer_new exits_setCertificate : sys.

Lemma exits_HttpServer_new idle session w c : exits_on_failure (HttpServer_new idle session w c).
Proof. unfold HttpServer_new. auto 40 with sys. Qed.

Lemma exits_start mono c s : exits_on_failure (HttpServer_start mono c s).
Proof. unfold HttpServer_start, TcpServer_start. auto 40 with sys. Qed.
#[local] Hint Resolve exits_HttpServer_new exits_start : sys.

Lemma exits_run mono idle session w c : exits_on_failure (run mono idle session w c).
Proof. unfold run. auto 10 with sys. Qed.

(** ** What a start that succeeds has done *)
Lemma TcpServer_new_Ok idle session w c tr s tr' :
  TcpServer_new idle session w c tr = (Ok s, tr') ->
  exists evfd svr alive sendfile t,
    AppConfig.get_bool (bs "server") (bs "enable_sendfile") c = Ok sendfile
    /\ s = EventLoop.new evfd svr alive session idle sendfile w /\ tr' = tr ++ t
    /\ (granted t = true -> forall k0 b0, foldl (sock_step svr) k0 t = Sock true true None false /\ foldl (nonblock_step svr) b0 t = true).
Proof.
  intros E. unfold TcpServer_new, option.createNBSocket, ServerSocket.enableReuseAddr, ServerSocket.enableReusePort,
    ServerSocket.enable, option.setNonBlocking in E.
  script_inv E. do 5 eexists. split; [done|]. split; [done|]. rewrite <- !app_assoc. split; [reflexivity|].
  intros Hg k0 b0. granted_calls Hg. split; [done|]. by destruct (_ && _ && _); [|rewrite andb_false_r].
Qed.

Lemma HttpServer_new_Ok idle0 session w c h s ssl tr0 tr :
  HttpServer_new idle0 session w c tr0 = (Ok (h, s, ssl), tr) ->
  exists idle evfd svr alive sendfile t,
    HttpServer.initialize c = Ok (h, idle) /\ AppConfig.get_bool (bs "server") (bs "enable_sendfile") c = Ok sendfile
    /\ AppConfig.get_bool (bs "server") (bs "enable_https") c = Ok (bool_decide (is_Some ssl))
    /\ s = EventLoop.new evfd svr alive session idle sendfile w
    /\ tr = tr0 ++ t
    /\ (granted t = true -> forall k0 b0, foldl (sock_step svr) k0 t = Sock true true None false
                             /\ foldl (nonblock_step svr) b0 t = true).
Proof.
  intros E. unfold HttpServer_new in E. apply bind_Ok in E as (s0 & tr1 & E0 & E).
  apply TcpServer_new_Ok in E0 as (evfd & svr & alive & sf & t & Hsf & -> & -> & Ht).
  apply bind_Ok in E as ([h0 idle] & tr1 & E1 & E). injection E1 as E1 <-.
  apply bind_Ok in E as (https & tr2 & E2 & E). injection E2 as E2 <-.
  apply bind_Ok in E as (ssl' & tr3 & E3 & E). injection E as <- <- <- <-.
  assert (exists u, tr3 = tr0 ++ (t ++ u) /\ forallb ssl_call u = true /\ https = bool_decide (is_Some ssl')) as (u & -> & Hu & ->).
  { destruct https.
    - script_inv E3. unfold setCertificate in E3. apply bind_Ok in E3 as (ctx & tr4 & E3 & Er). injection Er as <- <-.
      apply ServerSsl.new_ssl in E3 as (u & -> & Hu). exists u. by rewrite app_assoc.
    - injection E3 as <- <-. exists []. by rewrite app_nil_r. }
  exists idle, evfd, svr, alive, sf, (t ++ u). repeat (split; [done|]). intros Hg k0 b0. unfold granted in Hg. rewrite forallb_app in Hg.
  apply andb_prop in Hg as [Hg _]. rewrite !foldl_app.
  destruct (Ht Hg k0 b0) as [H1 H2]. cbn. rewrite H1, H2. by apply ssl_calls_quiet.
Qed.

Lemma start_fds mono s s' : EventLoop.start mono s = Ok s' ->
  TcpServer.evfd_ s' = TcpServer.evfd_ s /\ TcpServer.svr_fd s' = TcpServer.svr_fd s /\ TcpServer.alive_fd s' = TcpServer.alive_fd s.
Proof. unfold EventLoop.start. cbn. destruct (TimeStamp.millsecond _); [|done]. by intros [= <-]. Qed.

(** Starting the server.  Whatever the configuration and the answers of the
    system, the process ends exactly when binding or listening fails, or OpenSSL
    refuses a context, a certificate or a key, and makes no call after that; an
    exception stands for a configuration that lacks an entry.  A start that
    succeeds has made the server of the configuration, with a context for TLS
    exactly if it asks for HTTPS; its last calls bind the configured address,
    listen, register the socket and arm the idle timer, in this order; and where
    the system refused no option the socket is non-blocking, listening at that
    address, and shares it.  The server is then in a state from which any client
    can be served. *)
Theorem server_starts mono idle0 session w c r tr :
  run mono idle0 session w c [] = (r, tr) ->
  (r = Err ExitProcess <-> existsb fatal tr = true)
  /\ forall h s ssl, r = Ok (h, s, ssl) ->
     exists idle sendfile address ts t v1 v2 v3 v4,
       HttpServer.initialize c = Ok (h, idle) /\ HttpServer.listen_address inet_pton c = Ok address
       /\ AppConfig.get_bool (bs "server") (bs "enable_sendfile") c = Ok sendfile
       /\ AppConfig.get_bool (bs "server") (bs "enable_https") c = Ok (bool_decide (is_Some ssl))
       /\ EventLoop.start mono (EventLoop.new (TcpServer.evfd_ s) (TcpServer.svr_fd s) (TcpServer.alive_fd s)
             session idle sendfile w) = Ok s
       /\ TimeStamp.millsecond idle = Ok ts
       /\ tr = t ++ [(bind (TcpServer.svr_fd s) address, v1); (listen (TcpServer.svr_fd s) SOMAXCONN, v2);
            (epoll_add (TcpServer.svr_fd s) (Z.lor EPoller.EPOLLIN EPoller.kServerEvent), v3);
            (let its := TimerQueue.every_spec mono.1 mono.2 ts in
             timerfd_settime (TcpServer.alive_fd s) (it_value_sec its) (it_value_nsec its)
               (it_interval_sec its) (it_interval_nsec its), v4)]
       /\ (granted tr = true -> nonblock (TcpServer.svr_fd s) tr = true
                        /\ sock_state (TcpServer.svr_fd s) tr = Sock true true (Some address) true)
       /\ (NoDup [TcpServer.evfd_ s; TcpServer.svr_fd s; TcpServer.alive_fd s; session] -> 0 <= idle <= 2147483 ->
           forall clock, 0 <= TimeStamp.microsecond_ clock < 2 ^ 63 ->
           EventRun.listening clock s
           /\ forall fd, ~ TcpServer.reserved s fd -> ~ TcpServer.is_open s fd /\ TcpServer.poller_ s !! fd = None).
Proof.
  intros E. split.
  { by destruct (exits_run mono idle0 session w c [] r tr E) as (t & -> & Ht). }
  intros h s ssl ->. unfold run in E. apply bind_Ok in E as ([[h0 s0] ssl0] & tr1 & E1 & E).
  apply HttpServer_new_Ok in E1 as (idle & evfd & svr & alive & sf & t & Hi & Hsf & Hh & -> & -> & Ht).
  unfold HttpServer_start, TcpServer_start, ServerSocket.bind, ServerSocket.listen in E. cbn [fst snd] in E. script_inv E.
  subst ssl tr. apply start_fds in E0 as Hf. destruct Hf as (-> & -> & ->).
  exists idle, sf, a0, a4, t, a2, a3, a1, a5. split; [exact Hi|]. split; [exact E1|]. split; [exact Hsf|].
  split; [exact Hh|]. split; [exact E0|]. split; [exact E2|].
  split; [rewrite <- !app_assoc; reflexivity|]. split.
  2:{ intros Hd Hidle clock Hcl.
      by destruct (EventRun.start_listening _ _ _ _ _ _ _ _ clock _ Hd Hidle Hcl E0) as (H1 & _ & _ & H2). }
  rewrite <- !app_assoc. cbn [app]. intros Hg. unfold granted in Hg.
  rewrite forallb_app in Hg. apply andb_prop in Hg as [Hg _].
  destruct (Ht Hg (Sock false false None false) false) as [H1 H2]. rewrite nonblock_app, sock_state_app.
  unfold nonblock, sock_state. cbn [TcpServer.svr_fd EventLoop.new]. rewrite H1, H2. cbn. apply Z.ltb_ge in F, F0.
  rewrite (proj2 (Z.leb_le 0 _) F), (proj2 (Z.leb_le 0 _) F0), Z.eqb_refl. done.
Qed.

(** ** A connection *)
(** What the calls of an accept came to, as the event loop of [EventLoop] takes
    it: the descriptor, unless there is none or the handshake failed. *)
Definition accepted (https : bool) (t : trace) : option (Z * ChannelType) :=
  match t with
  | (accept _, connfd) :: t =>
      if connfd <=? 0 then None
      else if https then
        match t with _ :: _ :: (SSL_accept _, ret) :: _ => if ret <? 1 then None else Some (connfd, Ssl) | _ => None end
      else Some (connfd, Raw)
  | _ => None
  end.

Lemma handleConnected_run clock connfd ty s tr r tr' :
  handleConnected clock connfd ty s tr = (r, tr') ->
  exists old v1 v2, r = TcpServer.handleConnected clock connfd (EventLoop.new_channel ty s) s
    /\ tr' = tr ++ [(fcntl connfd F_GETFL 0, old); (fcntl connfd F_SETFL (Z.lor old O_NONBLOCK), v1);
                    (epoll_add connfd (Z.lor EPoller.EPOLLIN EPoller.kConnectionEvent), v2)].
Proof.
  unfold handleConnected, option.setNonBlocking, mbind, script_bind, sys, lift. cbn. intros [= <- <-].
  rewrite <- !app_assoc. eauto.
Qed.

(** Accepting a connection.  Whatever the system answers, the calls of
    [handleServerAccept] and its effect on the server are those that the event
    loop is proved with, for the descriptor and the handshake they report; a
    connection that the poller is given is non-blocking by then, if [fcntl] was
    not refused, and one whose handshake failed is closed.  But [SSL_accept] is
    called before that, on the blocking descriptor that [accept] returns: the loop
    waits for a client that is silent in its handshake, and serves no other
    meanwhile. *)
Theorem accept_refines c https ssl clock s tr r tr' :
  AppConfig.get_bool (bs "server") (bs "enable_https") c = Ok https -> https = bool_decide (is_Some ssl) ->
  handleServerAccept c ssl clock s tr = (r, tr') ->
  exists t, tr' = tr ++ t
    /\ r = EventLoop.handleServerAccept (accepted https t) clock s
    /\ (granted t = true -> forall i fd ev v, t !! i = Some (epoll_add fd ev, v) -> nonblock fd (tr ++ take i t) = true)
    /\ (forall i channel v, t !! i = Some (SSL_accept channel, v) ->
          exists connfd, t !! 0%nat = Some (accept (TcpServer.svr_fd s), connfd) /\ 0 < connfd
            /\ nonblock connfd (tr ++ take i t) = false)
    /\ (forall connfd, t !! 0%nat = Some (accept (TcpServer.svr_fd s), connfd) -> 0 < connfd -> accepted https t = None ->
          exists v, last t = Some (close connfd, v)).
Proof.
  intros Hc Hs E. unfold handleServerAccept in E.
  destruct (ServerSocket.accept_run (TcpServer.svr_fd s) tr) as (connfd & peer & E0). rewrite (bind_step _ _ _ _ _ E0) in E.
  cbn [fst] in E. destruct (connfd <=? 0) eqn:Epos.
  { injection E as <- <-. eexists. split; [done|]. cbn [accepted]. rewrite Epos. split; [done|].
    split; [intros _ i fd ev v Hi; at_index Hi|]. split; [intros i ch v Hi; at_index Hi|].
    intros ? [= <-]. apply Z.leb_le in Epos. lia. }
  rewrite (bind_step _ _ _ _ _ (f_equal (fun x => (x, _)) Hc)) in E. apply Z.leb_gt in Epos as Hpos.
  destruct ssl as [ctx|]; cbn in Hs; subst https.
  - rewrite (bind_step (lift (Ok ctx)) _ _ _ _ eq_refl) in E.
    destruct (ServerSsl.createSslChannel_run connfd ctx (tr ++ [(accept (TcpServer.svr_fd s), connfd)])) as (ssl & v0 & E1).
    rewrite (bind_step _ _ _ _ _ E1) in E. unfold ServerSsl.accept in E. rewrite bind_sys in E. cbn [fst] in E.
    revert E. generalize (answer ((tr ++ [(accept (TcpServer.svr_fd s), connfd)]) ++ [(SSL_new ctx, ssl); (SSL_set_fd ssl connfd, v0)]) (SSL_accept ssl)).
    intros ret E. destruct (ret <? 1) eqn:Er.
    + destruct (ServerSsl.delete_channel_run ssl connfd
        (((tr ++ [(accept (TcpServer.svr_fd s), connfd)]) ++ [(SSL_new ctx, ssl); (SSL_set_fd ssl connfd, v0)]) ++ [(SSL_accept ssl, ret)]))
        as (t & v1 & E2 & Ht).
      rewrite (bind_step _ _ _ _ _ E2) in E. injection E as <- <-. rewrite <- !app_assoc. eexists. split; [done|]. cbn [app accepted].
      rewrite Epos, Er. split; [done|]. split.
      * intros _ i fd ev v Hi. by destruct Ht as [-> |(v2 & v3 & ->)]; at_index Hi.
      * split; [|intros ? [= <-] _ _; exists v1; by destruct Ht as [-> |(v2 & v3 & ->)]].
        intros i ch v Hi. exists connfd. split; [done|]. split; [done|].
        by destruct Ht as [-> |(v2 & v3 & ->)]; at_index Hi; rewrite nonblock_app; cbn; rewrite Z.eqb_refl.
    + apply handleConnected_run in E as (old & v1 & v2 & -> & ->). rewrite <- !app_assoc. eexists. split; [done|]. cbn [app accepted].
      rewrite Epos, Er. split; [done|]. split.
      * intros Hg i fd ev v Hi. at_index Hi. injection Hi as <- <- <-. rewrite nonblock_app. granted_calls Hg. done.
      * split; [|done]. intros i ch v Hi. exists connfd. split; [done|]. split; [done|]. at_index Hi. rewrite nonblock_app. cbn. by rewrite Z.eqb_refl.
  - apply handleConnected_run in E as (old & v1 & v2 & -> & ->). rewrite <- !app_assoc. eexists. split; [done|]. cbn [app accepted].
    rewrite Epos. split; [done|]. split.
    + intros Hg i fd ev v Hi. at_index Hi. injection Hi as <- <- <-. rewrite nonblock_app. granted_calls Hg. done.
    + split; [intros i ch v Hi; at_index Hi|done].
Qed.

(** ** Destruction *)
(** The server socket is closed by [~TcpServer] and, as its last call, once more
    by the destructor of [svr_socket_]. *)
Definition runs (m : script ()) : Prop := forall tr, exists t, m tr = (Ok (), tr ++ t).

Lemma runs_sys x : runs (sys x ;; mret ()).
Proof. intros tr. rewrite bind_sys. eauto. Qed.
Lemma runs_ret : runs (mret ()).
Proof. intros tr. exists []. by rewrite app_nil_r. Qed.
Lemma runs_bind m1 m2 : runs m1 -> runs m2 -> runs (m1 ;; m2).
Proof.
  intros H1 H2 tr. destruct (H1 tr) as [t1 E1], (H2 (tr ++ t1)) as [t2 E2]. rewrite (bind_step _ _ _ _ _ E1), E2, <- app_assoc. eauto.
Qed.
Lemma removeAndClose_run fd tr :
  exists v1 v2, removeAndCloseEvent fd tr = (Ok (), tr ++ [(epoll_del fd, v1); (close fd, v2)]).
Proof. unfold removeAndCloseEvent. rewrite !bind_sys, <- app_assoc. eauto. Qed.
Lemma runs_removeAndClose fd : runs (removeAndCloseEvent fd).
Proof. intros tr. destruct (removeAndClose_run fd tr) as (v1 & v2 & ->). eauto. Qed.
Lemma runs_delete_channel channel : runs (ServerSsl.delete_channel channel).
Proof. intros tr. destruct channel as [ssl fd]. destruct (ServerSsl.delete_channel_run ssl fd tr) as (t & v & -> & _). eauto. Qed.
Lemma runs_each {A} (f : A -> script ()) l : (forall a, runs (f a)) -> runs (each f l).
Proof. intros Hf. induction l as [|a l IH]; [apply runs_ret|]. by apply runs_bind. Qed.

Lemma runs_then m k tr : runs m -> exists t, (m ;; k : script ()) tr = k (tr ++ t).
Proof. intros Hm. destruct (Hm tr) as [t E]. exists t. exact (bind_step _ (fun _ => k) _ _ _ E). Qed.

Lemma destroy_closes_twice l ssl channel_ssl s tr :
  exists t1 t2 v1 v2, destroy l ssl channel_ssl s tr
    = (Ok (), tr ++ t1 ++ (close (TcpServer.svr_fd s), v1) :: t2 ++ [(close (TcpServer.svr_fd s), v2)]).
Proof.
  unfold destroy. edestruct runs_then as [t1 ->]; [apply runs_removeAndClose|].
  edestruct removeAndClose_run as (v1 & v2 & E1). rewrite (bind_step _ _ _ _ _ E1). cbv beta. clear E1.
  edestruct runs_then as [? ->]; [apply runs_removeAndClose|].
  edestruct runs_then as [? ->]; [case_match; [apply runs_removeAndClose|apply runs_ret]|].
  edestruct runs_then as [? ->]; [apply runs_each; intros []; case_match; [apply runs_ret|apply runs_sys]|].
  edestruct runs_then as [? ->].
  { apply runs_each. intros []. cbn. destruct (TcpServer.channel_ _); [case_match; [apply runs_sys|apply runs_delete_channel]|apply runs_ret]. }
  edestruct runs_then as [? ->].
  { destruct ssl; [|apply runs_ret]. unfold ServerSsl.destroy. case_match; [apply runs_ret|apply runs_sys]. }
  unfold ServerSocket.destroy. rewrite bind_sys, <- !app_assoc. cbn [app].
  exists (t1 ++ [(epoll_del (TcpServer.svr_fd s), v1)]), (x ++ x0 ++ x1 ++ x2 ++ x3), v2. eexists.
  rewrite <- !app_assoc. reflexivity.
Qed.

End startup.

(** ** The server that comes with the repository *)
(** A system that gives the descriptors 3 to 6 and 9, and to which OpenSSL
    agrees; [can_bind] is whether the address is free. *)
Definition demo_kernel (can_bind : bool) : Kernel := {|
  answer _ x := match x with
    | eventfd _ _ => 3 | socket _ _ _ => 4 | epoll_create1 _ => 5 | timerfd_create _ _ => 6 | accept _ => 9
    | bind _ _ => if can_bind then 0 else -1
    | SSL_CTX_new | SSL_CTX_use_certificate_file _ _ | SSL_CTX_use_PrivateKey_file _ _ | SSL_CTX_check_private_key _
    | SSL_new _ | SSL_accept _ => 1
    | _ => 0
    end;
  filled _ := InetAddress.Make 0 0 |}.
Definition demo_config (https : bool) : AppConfig.ConfigMp :=
  AppConfig.store (bs "server") (bs "enable_https") (AppConfig.VBool https) (get_ok ∅ AppConfig.sample).
Notation demo_run can_bind https :=
  (run (H := demo_kernel can_bind) (any := unit) (fun _ => Some 0) (0, 0) 0 7 tt (demo_config https) []).

Lemma demo_https : AppConfig.get_bool (bs "server") (bs "enable_https") (demo_config true) = Ok true.
Proof. vm_compute. reflexivity. Qed.
Lemma demo_address :
  HttpServer.listen_address (fun _ => Some 0) (demo_config true) = Ok (InetAddress.Make (InetAddress.htons 5555) 0).
Proof. vm_compute. reflexivity. Qed.

Lemma server_starts_witness :
  (exists tr, demo_run false true = (Err ExitProcess, tr))
  /\ exists x tr address, demo_run true true = (Ok x, tr) /\ is_Some x.2
     /\ sock_state 4 tr = Sock true true (Some address) true /\ InetAddress.getPort address = 5555.
Proof.
  split.
  - destruct (demo_run false true) as [r tr] eqn:E. exists tr. f_equal.
    apply (server_starts (H := demo_kernel false) _ _ _ _ _ _ _ _ E).
    change tr with (Err (A := unit) ExitProcess, tr).2. rewrite <- (f_equal snd E : _ = tr). vm_compute. reflexivity.
  - destruct (demo_run true true) as [r tr] eqn:E.
    assert (is_Ok r = true) as Hr by (change r with (r, tr).1; rewrite <- E; vm_compute; reflexivity).
    assert (TcpServer.svr_fd (get_ok (HttpServer.Make [] ∅ ∅ ∅, EventLoop.new 0 0 0 0 0 false tt, None) r).1.2 = 4) as H4
      by (change r with (r, tr).1; rewrite <- E; vm_compute; reflexivity).
    assert (granted tr = true) as Hg by (change tr with (r, tr).2; rewrite <- E; vm_compute; reflexivity).
    destruct r as [[[h s] ssl]|]; [|discriminate Hr].
    destruct (server_starts (H := demo_kernel true) _ _ _ _ _ _ _ _ E) as [_ Hok].
    destruct (Hok h s ssl eq_refl) as (idle & sf & address & ts & t & v1 & v2 & v3 & v4 & _ & Ha & _ & Hs & _ & _ & _ & Hsock & _).
    exists (h, s, ssl), tr, address. split; [done|]. split.
    { apply (bool_decide_eq_true _). rewrite demo_https in Hs. by injection Hs. }
    cbn [get_ok fst snd] in H4. rewrite <- H4. split; [by apply Hsock|].
    rewrite demo_address in Ha. injection Ha as <-. reflexivity.
Defined.

(** A client whose handshake succeeds. *)
Definition demo_server : TcpServer.t HttpRequest.t unit :=
  get_ok (EventLoop.new 0 0 0 0 0 false tt) (EventLoop.start (0, 0) (EventLoop.new 3 4 6 7 2000 false tt)).
Notation demo_accept tr :=
  (handleServerAccept (H := demo_kernel true) (demo_config true) (Some 1) (TimeStamp.make 0) demo_server tr).

Lemma accept_refines_witness :
  exists t, (demo_accept []).2 = t /\ accepted true t = Some (9, Ssl)
    /\ (demo_accept []).1 = EventLoop.handleServerAccept (Some (9, Ssl)) (TimeStamp.make 0) demo_server
    /\ nonblock 9 t = true /\ t !! 3%nat = Some (SSL_accept 1, 1) /\ nonblock 9 (take 3 t) = false.
Proof.
  destruct (demo_accept []) as [r tr] eqn:E.
  destruct (accept_refines (H := demo_kernel true) (demo_config true) true (Some 1) (TimeStamp.make 0) demo_server [] r tr
    demo_https eq_refl E) as (t & Ht & Hr & _ & Hs & _).
  assert (tr = (demo_accept []).2) as Etr by (by rewrite E).
  cbn [app] in Ht. subst t. exists tr. split; [done|].
  assert (accepted true tr = Some (9, Ssl)) as Ha by (rewrite Etr; vm_compute; reflexivity).
  assert (tr !! 3%nat = Some (SSL_accept 1, 1)) as H3 by (rewrite Etr; vm_compute; reflexivity).
  split; [done|]. split; [cbn [fst]; by rewrite Hr, Ha|]. split; [rewrite Etr; vm_compute; reflexivity|]. split; [done|].
  destruct (Hs 3%nat 1 1 H3) as (connfd & H0 & _ & Hn).
  assert (tr !! 0%nat = Some (accept 4, 9)) as H0' by (rewrite Etr; vm_compute; reflexivity).
  rewrite H0' in H0. injection H0 as <-. exact Hn.
Defined.

End Startup.
