(* ===== verification/HttpServerSpec.v ===== *)
(** * HttpServerSpec: what the server answers

    The routing of a request and the protocol of [onMessage], for any services,
    file system and hash table order. *)
From S2P Require Import Prelude CStr Buffer TimeStamp EncodeUtil HttpUtil HttpMap HttpHeader HttpAuth HttpRequest Channel HttpResponse HttpService HttpSession TcpServer PhpFastCgi AppConfig HttpServer.
Import HttpServer.
#[local] Existing Instance HttpRequest.RetCode_eq_dec.

Section routing.
Context {any : Type} (regex_search : bytes -> bytes -> option (list bytes)).
Context (order : forall V, HttpMap.t V -> list (bytes * V)) (listed : forall V (m : HttpMap.t V), HttpMap.listing m (order V m)).
Context (files : bytes -> option HttpResponse.file) (php_fpm : php).
Implicit Types (s : HttpServer.t (any := any)) (e : env (any := any)) (req : HttpRequest.t) (resp : HttpResponse.t) (url : bytes).

(** No service and no pattern of the server takes the address. *)
Definition no_service s url : Prop :=
  services_ s !! url = None /\ Forall (fun kv => regex_search kv.1 url = None) (order _ (urlp_services_ s)).

(** The first mounted directory, in the order of the traversal, whose prefix
    starts the address. *)
Definition mounted_at s url (prefix dir : bytes) : Prop := exists l1 l2,
  order _ (mount_dir_ s) = l1 ++ (prefix, dir) :: l2 /\ Forall (fun kv => starts_with url kv.1 = false) l1
  /\ starts_with url prefix = true.

(** A path that is served as it is: not a directory, not a PHP script. *)
Definition plain_path (path : bytes) : Prop :=
  (exists z, last path = Some z /\ z <> "/"%char) /\ ends_with path (bs ".php") = false.

Definition serve_file (path : bytes) resp : HttpResponse.t :=
  HttpResponse.setBodyFile path (HttpResponse.setHeader (bs "Content-Type") (mappingMimeType path) resp).

Lemma listing_nonempty {V} (m : HttpMap.t V) kv l1 l2 : order V m = l1 ++ kv :: l2 -> HttpMap.empty m = false.
Proof.
  intros E. pose proof (listed V m) as H. unfold HttpMap.listing in H. rewrite E in H. unfold HttpMap.empty.
  apply bool_decide_false. intros Hs. apply map_size_empty_inv in Hs. rewrite Hs, map_to_list_empty in H.
  symmetry in H. apply Permutation_nil_l in H. by destruct l1.
Qed.

(** An [each] whose first callbacks leave the state and go on. *)
Lemma each_skip {V S} (cb : bytes -> V -> S -> result (bool * S)) l1 l2 (x : S) :
  Forall (fun kv => cb kv.1 kv.2 x = Ok (false, x)) l1 -> HttpMap.each cb (l1 ++ l2) x = HttpMap.each cb l2 x.
Proof. induction 1 as [|[k v] l1 H Hl IH]; [done|]. cbn in *. by rewrite H. Qed.

Lemma no_pattern s req resp e :
  no_service s (HttpRequest.url_ req) -> dispatchUrlPattern regex_search order s req resp e = Ok (false, resp, e).
Proof.
  intros [H1 H2]. unfold dispatchUrlPattern, HttpMap.get. rewrite H1. destruct (HttpMap.empty _); [done|].
  pose proof (each_skip (pattern_callback regex_search req) (order _ (urlp_services_ s)) [] (false, resp, e)) as H.
  rewrite app_nil_r in H. rewrite H; [done|]. eapply Forall_impl; [exact H2|]. intros [k v] E. cbn in *. by rewrite E.
Qed.

(** The callback passes over the prefixes that do not start the address. *)
Lemma mount_skips s req l x :
  Forall (fun kv => starts_with (HttpRequest.url_ req) kv.1 = false) l ->
  Forall (fun kv => mount_callback files php_fpm s req kv.1 kv.2 x = Ok (false, x)) l.
Proof. intros H. eapply Forall_impl; [exact H|]. intros [k v] E. unfold mount_callback. destruct x as [[st r] e]. by rewrite E. Qed.

Lemma mounted_dispatch s req resp e prefix dir resp' e' :
  mounted_at s (HttpRequest.url_ req) prefix dir ->
  dispatchFile files php_fpm s prefix (HttpRequest.url_ req) dir req resp e = Ok (true, resp', e') ->
  dispatchMountDir order files php_fpm s req resp e = Ok (true, resp', e').
Proof.
  intros (l1 & l2 & E & Hl & Hp) H. unfold dispatchMountDir. rewrite (listing_nonempty _ _ _ _ E), E.
  rewrite each_skip by by apply mount_skips. cbn [HttpMap.each mount_callback]. by rewrite Hp, H.
Qed.

Lemma plain_dispatch s req resp e prefix dir rest :
  plain_path (dir ++ rest) -> exist files (dir ++ rest) = true ->
  dispatchFile files php_fpm s prefix (prefix ++ rest) dir req resp e = Ok (true, serve_file (dir ++ rest) resp, e).
Proof.
  intros [(z & Hz & Hne) Hphp] Hex. unfold dispatchFile. rewrite remove_prefix_app by done. rewrite Hz. cbn [of_option].
  rewrite decide_False, Hex by done. cbn [negb]. unfold serve_path. by rewrite Hphp.
Qed.

(** A file under a mounted directory. *)
Lemma file_dispatch s req resp e prefix dir rest :
  HttpRequest.url_ req = prefix ++ rest -> mounted_at s (HttpRequest.url_ req) prefix dir ->
  plain_path (dir ++ rest) -> exist files (dir ++ rest) = true ->
  dispatchMountDir order files php_fpm s req resp e = Ok (true, serve_file (dir ++ rest) resp, e).
Proof. intros Hu Hm Hp He. eapply mounted_dispatch; [exact Hm|]. rewrite Hu. by apply plain_dispatch. Qed.

(** A service that is registered for the address. *)
Lemma respond_service s req resp e x resp' e' :
  services_ s !! HttpRequest.url_ req = Some (HttpService.Service x) -> HttpService.service x req resp e = Ok (resp', e') ->
  session_ e' = None ->
  respond regex_search order files php_fpm s req resp e =
    if ((400 <=? HttpResponse.code_ resp') && (HttpResponse.code_ resp' <? 600))%Z then
      let* service := getErrorService s in HttpService.base_service service req resp' e'
    else Ok (resp', e').
Proof.
  intros Hs Hx He. unfold respond, dispatchUrlPattern, HttpMap.get. rewrite Hs. cbn [HttpService.base_service]. rewrite Hx.
  unfold associateRequestSession. by rewrite He.
Qed.

(** A request for which no session was asked. *)
Lemma respond_file s req resp e prefix dir rest :
  no_service s (HttpRequest.url_ req) -> HttpRequest.url_ req = prefix ++ rest ->
  mounted_at s (HttpRequest.url_ req) prefix dir -> plain_path (dir ++ rest) -> exist files (dir ++ rest) = true ->
  session_ e = None -> HttpResponse.code_ resp = 200%Z ->
  respond regex_search order files php_fpm s req resp e = Ok (serve_file (dir ++ rest) resp, e).
Proof.
  intros Hn Hu Hm Hp He Hs Hc. unfold respond. rewrite no_pattern by done. rewrite (file_dispatch _ _ _ _ prefix dir rest) by done.
  unfold associateRequestSession. rewrite Hs. cbn. by rewrite Hc.
Qed.

End routing.

(** ** A file on the wire *)
Section onMessage.
Context {any : Type} (MD5 : bytes -> bytes) (store : HttpPassStore.t) (dangling gzipCompress : bytes -> bytes).
Context (regex_search : bytes -> bytes -> option (list bytes)) (order : forall V, HttpMap.t V -> list (bytes * V)).
Context (files : bytes -> option HttpResponse.file) (date : bytes) (php_fpm : php).
Implicit Types (s : HttpServer.t (any := any)) (c : TcpServer.conn HttpRequest.t) (w : Sessions.t any).

Notation parseRequest := (HttpRequest.parseRequest MD5 store dangling).
Notation onMessage := (HttpServer.onMessage MD5 store dangling gzipCompress regex_search order files true date php_fpm).

(** What [onMessage] parses. *)
Definition parses_to c (ch : Channel.t Buffer.t) (recver : Buffer.t) (req : HttpRequest.t) (code : HttpRequest.RetCode) : Prop :=
  TcpServer.disconnected_ c = false /\ TcpServer.channel_ c = Some ch
  /\ parseRequest (Channel.recver_ ch) (default HttpRequest.new (TcpServer.context_ c)) = Ok (recver, req, code).

Lemma new_response (req : HttpRequest.t) v m :
  HttpRequest.version_ req = Some v -> HttpRequest.method_ req = Some m ->
  exists resp, HttpResponse.new date req = Ok resp /\ HttpResponse.code_ resp = 200%Z
    /\ HttpResponse.method_ resp = m /\ HttpResponse.keepalive_ resp = HttpRequest.keepalive_ req
    /\ Buffer.wf (HttpResponse.tmp_buffer_ resp).
Proof.
  intros Hv Hm. unfold HttpResponse.new. rewrite Hv, Hm. eexists. split; [reflexivity|]. do 3 (split; [done|]).
  apply Buffer.retiredAll_wf, Buffer.new_wf.
Qed.

(** [send] of a response that can be built, to an idle connection. *)
Lemma send_spec (resp : HttpResponse.t) c ch message :
  buildable (fs files) resp -> idle ch -> TcpServer.channel_ c = Some ch -> status_at (HttpResponse.code_ resp) = Ok message ->
  exists b' ch', send gzipCompress files true resp c
      = Ok (TcpServer.Conn (TcpServer.disconnected_ c) (HttpResponse.keepalive_ resp) (TcpServer.context_ c) (Some ch'))
    /\ HttpResponse.code_ b' = HttpResponse.code_ resp
    /\ (HttpResponse.keepalive_ resp = true -> HttpHeader.get (bs "Content-Length") (HttpResponse.header_ b')
          = Some (to_string (Z.of_nat (length (encoded gzipCompress (HttpResponse.compressed_ b') (representation (fs files) resp))))))
    /\ fresh ch' /\ same_kind ch ch'
    /\ (forall k, unframed k -> HttpHeader.get k (HttpResponse.header_ b') = HttpHeader.get k (HttpResponse.header_ resp))
    /\ (HttpResponse.method_ resp <> HEAD ->
          total ch' = head_block b' message ++ encoded gzipCompress (HttpResponse.compressed_ b') (representation (fs files) resp)).
Proof.
  intros Hb Hi Hc Hm. unfold send. rewrite Hc. cbn [of_option].
  destruct (build_spec gzipCompress (fs files) resp ch message Hb Hi Hm) as (b' & ch' & E & _ & Hcode & HL & _ & Hf & Ht & _).
  exists b', ch'. rewrite E. pose proof (fun k => build_keeps gzipCompress (fs files) k _ _ _ _ _ E). apply build_kind in E. done.
Qed.

Lemma serve_file_buildable path (resp : HttpResponse.t) :
  is_Some (fs files path) -> Buffer.wf (HttpResponse.tmp_buffer_ resp) -> buildable (fs files) (serve_file path resp).
Proof.
  intros Hf Hw. split; [|intros _; split; [done|]].
  - cbn. unfold Buffer.wf in *. cbn. lia.
  - cbn. unfold Buffer.contents, Buffer.readable. done.
Qed.

(** A request that is not complete. *)
Lemma message_waits s c w ch recver req code v m :
  parses_to c ch recver req code -> HttpRequest.version_ req = Some v -> HttpRequest.method_ req = Some m ->
  code <> HttpRequest.REQUEST_CONTENT_DONE -> code <> HttpRequest.BAD_REQUEST ->
  onMessage s c w = Ok (false, TcpServer.Conn false (TcpServer.keep_alive_ c) (Some req) (Some (Channel.set_recver recver ch)), w).
Proof.
  intros (Hd & Hch & Hp) Hv Hm H1 H2. unfold HttpServer.onMessage. rewrite Hch. cbn [of_option]. rewrite Hp, Hd.
  destruct (new_response req v m Hv Hm) as (resp & -> & _). by rewrite decide_False, decide_True.
Qed.

(** A complete request: [respond], and the response is sent. *)
Lemma message_respond s c w ch recver req resp0 resp e message :
  parses_to c ch recver req HttpRequest.REQUEST_CONTENT_DONE -> idle (Channel.set_recver recver ch) ->
  HttpResponse.new date req = Ok resp0 ->
  respond regex_search order files php_fpm s (HttpRequest.reset req) resp0 (Env w None [] []) = Ok (resp, e) ->
  buildable (fs files) resp -> status_at (HttpResponse.code_ resp) = Ok message -> HttpResponse.method_ resp <> HEAD ->
  exists b' ch', onMessage s c w = Ok (true, TcpServer.Conn false (HttpResponse.keepalive_ resp) None (Some ch'), e_sessions e)
    /\ HttpResponse.code_ b' = HttpResponse.code_ resp
    /\ (HttpResponse.keepalive_ resp = true -> HttpHeader.get (bs "Content-Length") (HttpResponse.header_ b')
          = Some (to_string (Z.of_nat (length (encoded gzipCompress (HttpResponse.compressed_ b') (representation (fs files) resp))))))
    /\ fresh ch' /\ same_kind ch ch'
    /\ (forall k, unframed k -> HttpHeader.get k (HttpResponse.header_ b') = HttpHeader.get k (HttpResponse.header_ resp))
    /\ total ch' = head_block b' message ++ encoded gzipCompress (HttpResponse.compressed_ b') (representation (fs files) resp).
Proof.
  intros (Hd & Hch & Hp) Hi Er Hr Hb Hm Hh.
  set (c1 := TcpServer.Conn false (TcpServer.keep_alive_ c) (Some req) (Some (Channel.set_recver recver ch))).
  destruct (send_spec resp c1 _ message Hb Hi eq_refl Hm) as (b' & ch' & Es & Hcode & HL & Hfr & Hki & Hg & Ht).
  exists b', ch'. split; [|split; [done|]; split; [done|]; split; [done|]; split; [exact Hki|]; split; [done|by apply Ht]].
  unfold HttpServer.onMessage. rewrite Hch. cbn [of_option]. rewrite Hp, Hd, Er.
  rewrite (decide_False (P := HttpRequest.REQUEST_CONTENT_DONE = HttpRequest.BAD_REQUEST)) by done.
  rewrite (decide_False (P := HttpRequest.REQUEST_CONTENT_DONE <> HttpRequest.REQUEST_CONTENT_DONE)) by tauto.
  rewrite Hr. fold c1. by rewrite Es.
Qed.

(** A fault of a service is not caught. *)
Lemma message_fails s c w ch recver req resp0 x :
  parses_to c ch recver req HttpRequest.REQUEST_CONTENT_DONE -> HttpResponse.new date req = Ok resp0 ->
  respond regex_search order files php_fpm s (HttpRequest.reset req) resp0 (Env w None [] []) = Err x -> onMessage s c w = Err x.
Proof.
  intros (Hd & Hch & Hp) Er Hr. unfold HttpServer.onMessage. rewrite Hch. cbn [of_option]. rewrite Hp, Hd, Er.
  rewrite (decide_False (P := HttpRequest.REQUEST_CONTENT_DONE = HttpRequest.BAD_REQUEST)) by done.
  rewrite (decide_False (P := HttpRequest.REQUEST_CONTENT_DONE <> HttpRequest.REQUEST_CONTENT_DONE)) by tauto.
  by rewrite Hr.
Qed.

(** A request for a file. *)
Lemma message_file s c w ch recver req v m prefix dir rest f :
  (forall V (m : HttpMap.t V), HttpMap.listing m (order V m)) ->
  parses_to c ch recver req HttpRequest.REQUEST_CONTENT_DONE ->
  HttpRequest.version_ req = Some v -> HttpRequest.method_ req = Some m -> m <> HEAD -> idle (Channel.set_recver recver ch) ->
  no_service regex_search order s (HttpRequest.url_ req) -> HttpRequest.url_ req = prefix ++ rest ->
  mounted_at order s (HttpRequest.url_ req) prefix dir -> plain_path (dir ++ rest) -> fs files (dir ++ rest) = Some f ->
  exists b' ch', onMessage s c w = Ok (true, TcpServer.Conn false (HttpRequest.keepalive_ req) None (Some ch'), w)
    /\ HttpResponse.code_ b' = 200%Z
    /\ (HttpRequest.keepalive_ req = true -> HttpHeader.get (bs "Content-Length") (HttpResponse.header_ b')
          = Some (to_string (Z.of_nat (length (encoded gzipCompress (HttpResponse.compressed_ b') (HttpResponse.f_contents f))))))
    /\ fresh ch' /\ same_kind ch ch'
    /\ total ch' = head_block b' (bs "OK") ++ encoded gzipCompress (HttpResponse.compressed_ b') (HttpResponse.f_contents f).
Proof.
  intros Hl Hp Hv Hm Hh Hi Hn Hu Hmt Hpl Hf.
  destruct (new_response req v m Hv Hm) as (resp & Er & Hc & Hme & Hk & Hw).
  destruct (message_respond s c w ch recver req resp (serve_file (dir ++ rest) resp) (Env w None [] []) (bs "OK"))
    as (b' & ch' & E & Hcode & HL & Hfr & Hki & _ & Ht); [done|done|done| | | |by cbn; rewrite Hme|].
  - rewrite (respond_file regex_search order Hl files php_fpm s (HttpRequest.reset req) resp _ prefix dir rest); [done..| |done|done].
    unfold exist. rewrite Hf. by apply bool_decide_true.
  - by apply serve_file_buildable; [rewrite Hf|].
  - cbn. by rewrite Hc.
  - assert (representation (fs files) (serve_file (dir ++ rest) resp) = HttpResponse.f_contents f) as Erep.
    { unfold representation. cbn. by rewrite Hf. }
    rewrite Erep in *. cbn in E, Hcode, HL. rewrite Hk in E, HL. rewrite Hc in Hcode. by exists b', ch'.
Qed.

End onMessage.

(** C4: A file from request to wire.  When the bytes of a connection complete a
    request that is not HEAD, for an address that no service takes and that
    names an existing file below the first mounted directory whose prefix
    matches, the server answers 200: the task is done, the request is freed, the
    connection is kept alive as the request says, the sessions are as before,
    and a write loop that completes has put the status line, the header and the
    contents of the file on the wire, with their length announced. *)
Theorem static_file_served {any : Type} (MD5 : bytes -> bytes) (store : HttpPassStore.t) (dangling gzipCompress : bytes -> bytes)
    (regex_search : bytes -> bytes -> option (list bytes)) (order : forall V, HttpMap.t V -> list (bytes * V))
    (files : bytes -> option HttpResponse.file) (date : bytes) (php_fpm : php) (qreset : Buffer.t -> Buffer.t)
    (s : HttpServer.t (any := any)) (c : TcpServer.conn HttpRequest.t) (w : Sessions.t any)
    (ch : Channel.t Buffer.t) (recver : Buffer.t) (req : HttpRequest.t) v m prefix dir rest f :
  (forall V (m : HttpMap.t V), HttpMap.listing m (order V m)) ->
  parses_to MD5 store dangling c ch recver req HttpRequest.REQUEST_CONTENT_DONE ->
  HttpRequest.version_ req = Some v -> HttpRequest.method_ req = Some m -> m <> HEAD -> idle (Channel.set_recver recver ch) ->
  no_service regex_search order s (HttpRequest.url_ req) -> HttpRequest.url_ req = prefix ++ rest ->
  mounted_at order s (HttpRequest.url_ req) prefix dir -> plain_path (dir ++ rest) -> fs files (dir ++ rest) = Some f ->
  exists b' ch' body,
    onMessage MD5 store dangling gzipCompress regex_search order files true date php_fpm s c w
      = Ok (true, TcpServer.Conn false (HttpRequest.keepalive_ req) None (Some ch'), w)
    /\ body = encoded gzipCompress (HttpResponse.compressed_ b') (HttpResponse.f_contents f)
    /\ HttpResponse.code_ b' = 200%Z
    /\ (HttpRequest.keepalive_ req = true ->
          HttpHeader.get (bs "Content-Length") (HttpResponse.header_ b') = Some (to_string (Z.of_nat (length body))))
    /\ (forall ns x, calls_ok ns ch' -> Channel.write_loop qreset ns [] ch' = Ok x -> Channel.w_completed x = true ->
          Channel.w_wire x = head_block b' (bs "OK") ++ body).
Proof.
  intros Hl Hp Hv Hm Hh Hi Hn Hu Hmt Hpl Hf.
  destruct (message_file MD5 store dangling gzipCompress regex_search order files date php_fpm s c w ch recver req v m prefix dir rest f)
    as (b' & ch' & E & Hcode & HL & Hfr & _ & Ht); [done..|].
  eexists b', ch', _. split; [exact E|]. split; [done|]. split; [done|]. split; [done|]. intros ns x Hok Hx Hcm.
  pose proof (write_loop_spec qreset ns [] ch' x (fresh_sending ch' Hfr) (total_not_nil ch' Hfr) Hok Hx) as H.
  rewrite Hcm, Ht in H. apply H.
Qed.

(** *** A concrete server *)
Definition demo_order (V : Type) (m : HttpMap.t V) : list (bytes * V) := map_to_list m.
Lemma demo_listed V (m : HttpMap.t V) : HttpMap.listing m (demo_order V m).
Proof. unfold HttpMap.listing, demo_order. reflexivity. Qed.

Definition demo_files (p : bytes) : option HttpResponse.file :=
  if decide (p = bs "/srv/a.txt") then Some (HttpResponse.File (bs "hello") (bs "today"))
  else if decide (p = bs "/srv/x.php") then Some (HttpResponse.File (bs "<?php secret ?>") (bs "today")) else None.
Definition demo_php : php := Php false false (fun _ => []) [] 0 [].
Definition demo_http : HttpServer.t (any := unit) :=
  HttpServer.removeErrorService (HttpServer.Make [bs "index.html"] {[bs "/f/" := bs "/srv/"]} ∅ ∅).
Definition demo_sessions : Sessions.t unit := Sessions.Make ∅ None [].
Definition no_regex (_ _ : bytes) : option (list bytes) := None.

(** A connection that received [text]. *)
Definition received (text : bytes) : Buffer.t :=
  match Buffer.append text (Buffer.new 16) with Ok b => b | Err _ => Buffer.new 16 end.
Definition demo_conn (text : bytes) : TcpServer.conn HttpRequest.t :=
  TcpServer.Conn false false None (Some (Channel.new Raw false (Buffer.new 16) (received text))).
Definition demo_text : bytes := bs "GET /f/a.txt HTTP/1.1" ++ CRLF ++ bs "Host: x" ++ CRLF ++ CRLF.

(** What the parser makes of a text. *)
Definition demo_parse (text : bytes) : Buffer.t * HttpRequest.t * HttpRequest.RetCode :=
  match HttpRequest.parseRequest demo_md5 demo_store (fun s => s) (received text) HttpRequest.new with
  | Ok x => x
  | Err _ => (Buffer.new 0, HttpRequest.new, HttpRequest.BAD_REQUEST)
  end.

Lemma demo_no_service url : url <> bs "#" -> no_service no_regex demo_order demo_http url.
Proof.
  intros H. split; [|by apply Forall_forall].
  change (services_ demo_http) with ({[bs "#" := HttpService.ErrorService (HttpService.default_doError (E := env))]} : HttpMap.t (HttpService.BaseService (env (any := unit)))).
  by apply lookup_singleton_ne.
Qed.

Lemma demo_mounted rest : mounted_at demo_order demo_http (bs "/f/" ++ rest) (bs "/f/") (bs "/srv/").
Proof. exists [], []. split; [vm_compute; reflexivity|]. split; [constructor|apply starts_with_app]. Qed.

Lemma static_file_served_witness :
  exists c', onMessage demo_md5 demo_store (fun s => s) (fun s => s) no_regex demo_order demo_files true (bs "now") demo_php
      demo_http (demo_conn demo_text) demo_sessions = Ok (true, c', demo_sessions)
    /\ TcpServer.keep_alive_ c' = true /\ TcpServer.context_ c' = None.
Proof.
  destruct (static_file_served demo_md5 demo_store (fun s => s) (fun s => s) no_regex demo_order demo_files (bs "now") demo_php
    Buffer.reset demo_http (demo_conn demo_text) demo_sessions (Channel.new Raw false (Buffer.new 16) (received demo_text))
    (demo_parse demo_text).1.1 (demo_parse demo_text).1.2 HTTP_1_1 GET (bs "/f/") (bs "/srv/") (bs "a.txt")
    (HttpResponse.File (bs "hello") (bs "today")) demo_listed) as (b' & ch' & body & E & _).
  - split; [reflexivity|]. split; [reflexivity|]. vm_compute. reflexivity.
  - vm_compute. reflexivity.
  - vm_compute. reflexivity.
  - discriminate.
  - repeat split; try (vm_compute; reflexivity); vm_compute; lia.
  - apply demo_no_service. vm_compute. discriminate.
  - vm_compute. reflexivity.
  - exact (demo_mounted (bs "a.txt")).
  - split; [exists "t"%char; split; [reflexivity|discriminate]|reflexivity].
  - vm_compute. reflexivity.
  - eexists. split; [exact E|]. split; vm_compute; reflexivity.
Defined.

(** ** Pages that are made by the server *)
Lemma setBody_spec (body : bytes) (b : HttpResponse.t) :
  Buffer.wf (HttpResponse.tmp_buffer_ b) ->
  exists b', HttpResponse.setBody body b = Ok b' /\ HttpResponse.resp_file_ b' = false
    /\ Buffer.contents (HttpResponse.tmp_buffer_ b') = body /\ Buffer.wf (HttpResponse.tmp_buffer_ b')
    /\ HttpResponse.code_ b' = HttpResponse.code_ b /\ HttpResponse.method_ b' = HttpResponse.method_ b
    /\ HttpResponse.keepalive_ b' = HttpResponse.keepalive_ b /\ HttpResponse.header_ b' = HttpResponse.header_ b.
Proof.
  intros Hw. unfold HttpResponse.setBody, HttpResponse.appendBody. cbn [HttpResponse.tmp_buffer_ HttpResponse.set_body].
  destruct (Buffer.append_spec body (Buffer.reset (HttpResponse.tmp_buffer_ b))) as (q & -> & Wq & Cq).
  { unfold Buffer.wf in *. cbn. lia. }
  eexists. split; [reflexivity|]. split; [done|]. split; [exact Cq|]. done.
Qed.

(** The page of the error service for a listed code. *)
Definition error_page (code : Z) (message : bytes) : bytes :=
  let text := to_string code ++ bs " " ++ message in
  bs "<html><head><title>" ++ text ++ bs "</title></head><body><center><h1>" ++ text
  ++ bs "</h1></center><hr><center>socnet</center></body></html>".

Lemma error_page_spec {E} (doError : HttpService.error_handler E) (req : HttpRequest.t) (resp : HttpResponse.t) (e : E) message :
  doError (HttpResponse.code_ resp) req resp e = Ok (false, resp, e) ->
  status_at (HttpResponse.code_ resp) = Ok message -> Buffer.wf (HttpResponse.tmp_buffer_ resp) ->
  exists resp', HttpService.error_service doError req resp e = Ok (resp', e)
    /\ HttpResponse.resp_file_ resp' = false
    /\ HttpResponse.header_ resp' = HttpHeader.add (bs "Content-Type") (bs "text/html") (HttpResponse.header_ resp)
    /\ Buffer.contents (HttpResponse.tmp_buffer_ resp') = error_page (HttpResponse.code_ resp) message
    /\ Buffer.wf (HttpResponse.tmp_buffer_ resp') /\ HttpResponse.code_ resp' = HttpResponse.code_ resp
    /\ HttpResponse.method_ resp' = HttpResponse.method_ resp /\ HttpResponse.keepalive_ resp' = HttpResponse.keepalive_ resp.
Proof.
  intros Hd Hm Hw. unfold HttpService.error_service, HttpService.baseErrorPage. rewrite Hd, Hm.
  destruct (setBody_spec (error_page (HttpResponse.code_ resp) message)
    (HttpResponse.setHeader (bs "Content-Type") (bs "text/html") resp) Hw) as (b & Eb & Hf & Hc & Wb & H1 & H2 & H3 & H4).
  unfold error_page in Eb at 1. rewrite Eb. exists b. done.
Qed.

(** An address that nothing serves.  With a directory mounted, none of whose
    prefixes starts the address, the response is the 404 page of the error
    service; without any it is the untouched response, a 200 without a body. *)
Theorem unmatched_address {any : Type} (regex_search : bytes -> bytes -> option (list bytes))
    (order : forall V, HttpMap.t V -> list (bytes * V)) (files : bytes -> option HttpResponse.file) (php_fpm : php)
    (s : HttpServer.t (any := any)) (req : HttpRequest.t) (resp : HttpResponse.t) (e : env) :
  no_service regex_search order s (HttpRequest.url_ req) -> session_ e = None -> HttpResponse.code_ resp = 200%Z ->
  Buffer.wf (HttpResponse.tmp_buffer_ resp) -> services_ s !! bs "#" = Some (HttpService.ErrorService HttpService.default_doError) ->
  Forall (fun kv => starts_with (HttpRequest.url_ req) kv.1 = false) (order _ (mount_dir_ s)) ->
  (mount_dir_ s <> ∅ -> exists resp', respond regex_search order files php_fpm s req resp e = Ok (resp', e)
     /\ HttpResponse.code_ resp' = 404%Z
     /\ Buffer.contents (HttpResponse.tmp_buffer_ resp') = error_page 404 (bs "Not Found"))
  /\ (mount_dir_ s = ∅ -> respond regex_search order files php_fpm s req resp e = Ok (resp, e)).
Proof.
  intros Hn Hs Hc Hw He Hm. unfold respond. rewrite no_pattern by done.
  unfold dispatchMountDir, associateRequestSession. split; intros Hd.
  - assert (HttpMap.empty (mount_dir_ s) = false) as ->.
    { apply bool_decide_false. intros E. by apply map_size_empty_inv in E. }
    pose proof (each_skip (mount_callback files php_fpm s req) (order _ (mount_dir_ s)) [] (false, resp, e)) as H.
    rewrite app_nil_r in H. rewrite H by by apply mount_skips. cbn [HttpMap.each]. rewrite Hs.
    cbn [HttpResponse.code_ HttpResponse.setCode]. change ((400 <=? HttpStatus.NOT_FOUND) && (HttpStatus.NOT_FOUND <? 600))%Z with true.
    unfold getErrorService, HttpMap.get. rewrite He. cbn [of_option HttpService.base_service].
    destruct (error_page_spec HttpService.default_doError req (HttpResponse.setCode HttpStatus.NOT_FOUND resp) e (bs "Not Found")) as (r & -> & _ & _ & Hp & _ & Hcode & _);
      [done|done|done|]. exists r. split; [done|]. split; [exact Hcode|exact Hp].
  - rewrite Hd. change (HttpMap.empty (∅ : HttpMap.t bytes)) with true. cbn iota. rewrite Hs, Hc. done.
Qed.

Definition demo_response : HttpResponse.t :=
  match HttpResponse.new (bs "now") (demo_parse demo_text).1.2 with Ok b => b | Err _ => demo_builder GET end.
Definition demo_env : env (any := unit) := Env demo_sessions None [] [].

Lemma demo_response_wf : Buffer.wf (HttpResponse.tmp_buffer_ demo_response).
Proof. apply (bool_decide_unpack _). vm_compute. exact I. Qed.

Lemma unmatched_address_witness :
  respond no_regex demo_order demo_files demo_php (HttpServer.Make [] ∅ (services_ demo_http) ∅) (demo_parse demo_text).1.2
    demo_response demo_env = Ok (demo_response, demo_env).
Proof.
  apply (unmatched_address no_regex demo_order demo_files demo_php (HttpServer.Make [] ∅ (services_ demo_http) ∅)).
  - split; [|by apply Forall_forall]. apply (demo_no_service (HttpRequest.url_ (demo_parse demo_text).1.2)).
    vm_compute. discriminate.
  - reflexivity.
  - vm_compute. reflexivity.
  - exact demo_response_wf.
  - reflexivity.
  - vm_compute; constructor.
  - reflexivity.
Defined.

(** ** Requests that are not complete, and requests that are not requests *)

(** A request that is not complete waits.  [onMessage] returns false, keeps
    what was parsed as the context of the connection and leaves everything else
    alone: nothing is put in the sender, and no session is touched. *)
Theorem incomplete_request_waits {any : Type} (MD5 : bytes -> bytes) (store : HttpPassStore.t) (dangling gzipCompress : bytes -> bytes)
    (regex_search : bytes -> bytes -> option (list bytes)) (order : forall V, HttpMap.t V -> list (bytes * V))
    (files : bytes -> option HttpResponse.file) (date : bytes) (php_fpm : php)
    (s : HttpServer.t (any := any)) (c : TcpServer.conn HttpRequest.t) (w : Sessions.t any)
    (ch : Channel.t Buffer.t) (recver : Buffer.t) (req : HttpRequest.t) (code : HttpRequest.RetCode) v m :
  parses_to MD5 store dangling c ch recver req code -> HttpRequest.version_ req = Some v -> HttpRequest.method_ req = Some m ->
  code <> HttpRequest.REQUEST_CONTENT_DONE -> code <> HttpRequest.BAD_REQUEST ->
  onMessage MD5 store dangling gzipCompress regex_search order files true date php_fpm s c w
  = Ok (false, TcpServer.Conn false (TcpServer.keep_alive_ c) (Some req) (Some (Channel.set_recver recver ch)), w).
Proof. apply message_waits. Qed.

Lemma incomplete_request_waits_witness :
  exists req c', onMessage demo_md5 demo_store (fun s => s) (fun s => s) no_regex demo_order demo_files true (bs "now") demo_php
      demo_http (demo_conn (bs "GET /f/a.txt HTTP/1.1" ++ CRLF ++ bs "Host: x" ++ CRLF)) demo_sessions = Ok (false, c', demo_sessions)
    /\ TcpServer.context_ c' = Some req /\ HttpRequest.req_url_ req = bs "/f/a.txt".
Proof.
  set (text := bs "GET /f/a.txt HTTP/1.1" ++ CRLF ++ bs "Host: x" ++ CRLF).
  eexists (demo_parse text).1.2, _. split.
  - apply (incomplete_request_waits demo_md5 demo_store (fun s => s) (fun s => s) no_regex demo_order demo_files (bs "now") demo_php
      demo_http (demo_conn text) demo_sessions (Channel.new Raw false (Buffer.new 16) (received text))
      (demo_parse text).1.1 (demo_parse text).1.2 (demo_parse text).2 HTTP_1_1 GET).
    + split; [reflexivity|]. split; [reflexivity|]. vm_compute. reflexivity.
    + vm_compute. reflexivity.
    + vm_compute. reflexivity.
    + vm_compute. discriminate.
    + vm_compute. discriminate.
  - split; [reflexivity|]. vm_compute. reflexivity.
Defined.

(** C34: A bad request.  If its request line was read it gets the 400 page, and
    the request is freed; the connection is kept alive as the request says.  If
    the request line itself is what is wrong, building the response reads the
    method or the version of the request, which were never set. *)
Theorem bad_request_answer {any : Type} (MD5 : bytes -> bytes) (store : HttpPassStore.t) (dangling gzipCompress : bytes -> bytes)
    (regex_search : bytes -> bytes -> option (list bytes)) (order : forall V, HttpMap.t V -> list (bytes * V))
    (files : bytes -> option HttpResponse.file) (date : bytes) (php_fpm : php)
    (s : HttpServer.t (any := any)) (c : TcpServer.conn HttpRequest.t) (w : Sessions.t any)
    (ch : Channel.t Buffer.t) (recver : Buffer.t) (req : HttpRequest.t) :
  parses_to MD5 store dangling c ch recver req HttpRequest.BAD_REQUEST -> idle (Channel.set_recver recver ch) ->
  services_ s !! bs "#" = Some (HttpService.ErrorService HttpService.default_doError) ->
  let answer := onMessage MD5 store dangling gzipCompress regex_search order files true date php_fpm s c w in
  (HttpRequest.version_ req = None \/ HttpRequest.method_ req = None -> answer = Err Undefined)
  /\ forall v m, HttpRequest.version_ req = Some v -> HttpRequest.method_ req = Some m -> m <> HEAD ->
     exists b' ch', answer = Ok (true, TcpServer.Conn false (HttpRequest.keepalive_ req) None (Some ch'), w)
       /\ HttpResponse.code_ b' = 400%Z
       /\ total ch' = head_block b' (bs "Bad Request")
            ++ encoded gzipCompress (HttpResponse.compressed_ b') (error_page 400 (bs "Bad Request")).
Proof.
  intros (Hd & Hch & Hp) Hi He. cbn zeta. unfold onMessage. rewrite Hch. cbn [of_option]. rewrite Hp, Hd. split.
  - intros H. unfold HttpResponse.new. destruct (HttpRequest.version_ req); [|done]. cbn [of_option]. by destruct H as [H| ->].
  - intros v m Hv Hm Hh. destruct (new_response date req v m Hv Hm) as (resp & -> & Hc & Hme & Hk & Hw).
    rewrite decide_True by done. unfold getErrorService, HttpMap.get. rewrite He. cbn [of_option HttpService.base_service].
    set (r0 := HttpResponse.setHeader _ _ _).
    destruct (error_page_spec HttpService.default_doError req r0 (Env w None [] []) (bs "Bad Request") eq_refl eq_refl Hw)
      as (r & -> & Hf & _ & Hb & Wb & Hcr & Hmr & Hkr).
    set (c0 := set_context _ _).
    destruct (send_spec gzipCompress files r c0 (Channel.set_recver recver ch) (bs "Bad Request"))
      as (b' & ch' & -> & Hcb & _ & _ & _ & _ & Ht); [by split; [|rewrite Hf]|done|done|by rewrite Hcr|].
    exists b', ch'. split; [by rewrite Hkr; unfold r0; cbn; rewrite Hk|]. split; [by rewrite Hcb, Hcr|].
    rewrite Ht by (rewrite Hmr; unfold r0; cbn; by rewrite Hme). unfold representation. by rewrite Hf, Hb.
Qed.

Definition bad_line : bytes := bs "PUT / HTTP/1.1" ++ CRLF ++ CRLF.
Lemma bad_request_answer_witness :
  onMessage demo_md5 demo_store (fun s => s) (fun s => s) no_regex demo_order demo_files true (bs "now") demo_php
    demo_http (demo_conn bad_line) demo_sessions = Err Undefined.
Proof.
  apply (bad_request_answer demo_md5 demo_store (fun s => s) (fun s => s) no_regex demo_order demo_files (bs "now") demo_php
      demo_http (demo_conn bad_line) demo_sessions (Channel.new Raw false (Buffer.new 16) (received bad_line))
      (demo_parse bad_line).1.1 (demo_parse bad_line).1.2).
  - split; [reflexivity|]. split; [reflexivity|]. vm_compute. reflexivity.
  - repeat split; try (vm_compute; reflexivity); vm_compute; lia.
  - reflexivity.
  - left. vm_compute. reflexivity.
Defined.

(** ** Names with a zero byte *)
Lemma last_app_cons {A} (l : list A) x r : last (l ++ x :: r) = last (x :: r).
Proof. induction l as [|y l IH]; [done|]. cbn [app]. by destruct l. Qed.

(** A zero byte in the address hides the extension.  For a PHP script below
    a mounted directory, and PHP disabled, the address of the script is
    forbidden; but the address followed by an encoded zero byte and any harmless
    extension is answered with the source of the script. *)
Theorem null_byte_discloses_source {any : Type} (order : forall V, HttpMap.t V -> list (bytes * V))
    (files : bytes -> option HttpResponse.file) (php_fpm : php)
    (s : HttpServer.t (any := any)) (req : HttpRequest.t) (resp : HttpResponse.t) (e : env) prefix dir script ext f :
  (forall V (m : HttpMap.t V), HttpMap.listing m (order V m)) -> enable_php php_fpm = false ->
  mounted_at order s (HttpRequest.url_ req) prefix dir -> NUL ∉ dir ++ script -> ends_with (dir ++ script) (bs ".php") = true ->
  files (dir ++ script) = Some f ->
  (HttpRequest.url_ req = prefix ++ script ->
     dispatchMountDir order files php_fpm s req resp e = Ok (true, HttpResponse.setCode HttpStatus.FORBIDDEN resp, e))
  /\ (HttpRequest.url_ req = prefix ++ script ++ NUL :: ext -> plain_path (dir ++ script ++ NUL :: ext) ->
     exists resp', dispatchMountDir order files php_fpm s req resp e = Ok (true, resp', e)
       /\ representation (fs files) resp' = HttpResponse.f_contents f).
Proof.
  intros Hl He Hm Hn Hphp Hf.
  assert (fs files (dir ++ script) = Some f) as Hfs by (unfold fs; by rewrite c_str_id).
  split; intros Hu.
  - eapply mounted_dispatch; [exact Hl|exact Hm|]. rewrite Hu. unfold dispatchFile. rewrite remove_prefix_app by done.
    assert (last (dir ++ script) = Some "p"%char) as Hlast.
    { apply ends_with_spec in Hphp as [t ->]. change (bs ".php") with ("."%char :: bs "php"). by rewrite last_app_cons. }
    rewrite Hlast. cbn [of_option]. rewrite decide_False by done. unfold exist. rewrite Hfs, bool_decide_true by by eexists.
    cbn [negb]. unfold serve_path. by rewrite Hphp, He.
  - intros Hp. assert (fs files (dir ++ script ++ NUL :: ext) = Some f) as Hfs2.
    { unfold fs. rewrite app_assoc, c_str_app by done. cbn. rewrite app_nil_r. exact Hf. }
    eexists. split.
    + apply (file_dispatch order Hl files php_fpm s req resp e prefix dir (script ++ NUL :: ext)); [exact Hu|exact Hm|exact Hp|].
      unfold exist. rewrite Hfs2. by apply bool_decide_true.
    + unfold representation. cbn. by rewrite Hfs2.
Qed.

Definition null_text : bytes := bs "GET /f/x.php%00.txt HTTP/1.1" ++ CRLF ++ bs "Host: x" ++ CRLF ++ CRLF.
Lemma null_byte_discloses_source_witness :
  exists resp', dispatchMountDir demo_order demo_files demo_php demo_http (demo_parse null_text).1.2 demo_response demo_env
      = Ok (true, resp', demo_env)
    /\ representation (fs demo_files) resp' = bs "<?php secret ?>".
Proof.
  destruct (null_byte_discloses_source demo_order demo_files demo_php demo_http (demo_parse null_text).1.2 demo_response demo_env
    (bs "/f/") (bs "/srv/") (bs "x.php") (bs ".txt") (HttpResponse.File (bs "<?php secret ?>") (bs "today")) demo_listed) as [_ H].
  - reflexivity.
  - exact (demo_mounted (bs "x.php" ++ NUL :: bs ".txt")).
  - apply (bool_decide_unpack _). vm_compute. exact I.
  - reflexivity.
  - vm_compute. reflexivity.
  - destruct H as (resp' & E & Hr); [vm_compute; reflexivity| |exists resp'; split; [exact E|exact Hr]].
    split; [exists "t"%char; split; [reflexivity|discriminate]|reflexivity].
Defined.
