(* ===== verification/SimpleServer.v ===== *)
(** * SimpleServer: the programs that use the library

    Models [test/simple-server-test.cc] and [test/simple-server-test2.cc]: their
    services, as handlers over a request and a response, and the servers that
    [main] configures.  What they print on the standard output is left out.  The
    values of a session are strings and integers. *)
From S2P Require Import Prelude CStr Buffer TimeStamp EncodeUtil HttpUtil HttpMap HttpHeader HttpMultiPart HttpAuth HttpRequest Channel JsonLexer JsonParser JsonRoundtrip JsonText JsonFormat HttpResponse HttpService HttpSession TcpServer PhpFastCgi AppConfig HttpServer HttpServerSpec.
Import HttpServer.

Module SimpleServer.

(** [std::any], as far as the programs use it. *)
Inductive any := any_string (s : bytes) | any_int (n : Z).
Definition cast_string (x : any) : option bytes := match x with any_string s => Some s | any_int _ => None end.
Definition cast_int (x : any) : option Z := match x with any_int n => Some n | any_string _ => None end.

Notation env := (HttpServer.env (any := any)).
Notation handler := (HttpService.handler env).
Notation server := (HttpServer.t (any := any)).

Section services.
Context {F : Type} (showDouble : F -> bytes) {HS : HttpSessionServer (Sessions.t any)}.
(** The realm of the passwords, the configuration, and the address of the
    client as [InetAddress::toString] prints it. *)
Context (realm : bytes) (config : AppConfig.ConfigMp) (remote : HttpRequest.t -> bytes).

Definition text_plain (body : bytes) (resp : HttpResponse.t) : result HttpResponse.t :=
  HttpResponse.setBody body (HttpResponse.setContentType (bs "text/plain") resp).
Definition post_ok : bytes := bs "post test successfully!".

(** ** [LoginTestService] *)
Definition login_cookie : HttpCookie.t :=
  HttpCookie.setPath (bs "/") (HttpCookie.setMaxAge 10 (HttpCookie.add (bs "id") (bs "login") HttpCookie.new)).
Definition Login_doGet : handler := fun req resp e =>
  if match HttpRequest.auth_ req with Some a => verify a | None => false end then
    let* resp := text_plain (bs "login successfully!") (HttpResponse.setCookie0 [(bs "id", bs "login")] login_cookie resp) in
    Ok (resp, e)
  else let* resp := HttpResponse.sendAuth realm [] [] [] [] Basic resp in Ok (resp, e).
Definition Login_doPost : handler := fun req resp e => Login_doGet req resp e.
Definition LoginTestService : HttpService.t env :=
  HttpService.Make (HttpService.default_doHead Login_doGet) Login_doGet Login_doPost.

(** ** [PostTestService] *)
Definition Post_doGet : handler := fun req resp e =>
  let* (_, e) := getSession req e in
  if bool_decide (is_Some (HttpMap.get (bs "user") (HttpRequest.cookies_ req))) then
    let* resp := text_plain post_ok resp in Ok (resp, e)
  else Ok (HttpResponse.setBodyHtml (bs "html/post.html") resp, e).

Definition user_cookie (name : bytes) : HttpCookie.t := HttpCookie.add (bs "user") name (HttpCookie.setMaxAge 5 HttpCookie.new).
Definition Post_doPost : handler := fun req resp e =>
  if HttpRequest.has_multipart_ req then let* resp := text_plain post_ok resp in Ok (resp, e)
  else if HttpRequest.hasForm req then
    let* name := of_option BadOptionalAccess (HttpMap.get (bs "name") (HttpRequest.form_ req)) in
    let* _ := of_option BadOptionalAccess (HttpMap.get (bs "age") (HttpRequest.form_ req)) in
    if bool_decide (name = bs "admin") then
      let* resp := text_plain post_ok (HttpResponse.setCookie0 [(bs "user", name)] (user_cookie name) resp) in Ok (resp, e)
    else Ok (HttpResponse.setBodyHtml (bs "html/post.html") resp, e)
  else Ok (HttpResponse.setBodyHtml (bs "html/post.html") resp, e).
Definition PostTestService : HttpService.t env :=
  HttpService.Make (HttpService.default_doHead Post_doGet) Post_doGet Post_doPost.

(** ** [ErrorService] *)
Definition doError : HttpService.error_handler env := fun code _ resp e =>
  if (code =? 404)%Z then Ok (true, HttpResponse.setBodyHtml (bs "html/error/404.html") resp, e)
  else if (code =? 500)%Z then Ok (true, HttpResponse.setBodyHtml (bs "html/error/500.html") resp, e)
  else Ok (false, resp, e).

(** ** [SetSessionService] and [GetSessionService] *)
Definition with_sessions (w : Sessions.t any) (e : env) : env := Env w (session_ e) (match_ e) (php_message_ e).
Definition Set_doGet : handler := fun req resp e =>
  let* (x, e) := getSession req e in
  let* w := Sessions.update x (HttpSession.setValue (bs "str") (any_string (bs "hello world"))) (e_sessions e) in
  let* w := Sessions.update x (HttpSession.setValue (bs "num") (any_int 1000)) w in
  let* resp := text_plain (bs "set session") resp in Ok (resp, with_sessions w e).
Definition SetSessionService : HttpService.t env :=
  HttpService.Make (HttpService.default_doHead Set_doGet) Set_doGet HttpService.default_doPost.

Definition Get_doGet : handler := fun req resp e =>
  let* (_, e) := getSession req e in
  let* resp := text_plain (bs "get session") resp in Ok (resp, e).
Definition GetSessionService : HttpService.t env :=
  HttpService.Make (HttpService.default_doHead Get_doGet) Get_doGet HttpService.default_doPost.

(** ** [GetHeaderService] *)
Definition header_members (h : HttpHeader.t) : list (Json.str * Json.value F) :=
  foldl (fun o kv => Json.object_add_string kv.1 kv.2 o) [] h.
Definition header_root (full_url : bytes) (req : HttpRequest.t) : Json.value F :=
  let e1 := header_members (HttpRequest.header_ req) in
  let e2 := Json.object_add_string (bs "full_url") full_url [] in
  let e2 := Json.object_add_string (bs "url") (HttpRequest.url_ req) e2 in
  let e2 := Json.object_add_string (bs "query_string") (HttpRequest.query_s_ req) e2 in
  let e2 := Json.object_add_string (bs "remote_address") (remote req) e2 in
  let root := Json.object_add_value (bs "headers") (Json.JsonObject e1) [] in
  Json.JsonObject (Json.object_add_value (bs "others") (Json.JsonObject e2) root).
Definition Header_doGet : handler := fun req resp e =>
  let* full_url := getFullUrl config req in
  let* resp := HttpResponse.setBodyJson showDouble (header_root full_url req) true resp in Ok (resp, e).
Definition GetHeaderService : HttpService.t env :=
  HttpService.Make (HttpService.default_doHead Header_doGet) Header_doGet HttpService.default_doPost.

(** ** [main] *)
Definition main (canonical : bytes -> option bytes) : result (server * Z) :=
  let* (s, idle) := initialize config in
  let* s := addMountDir canonical (bs "/") (bs "./html") s in
  let s := addService (bs "/set") SetSessionService s in
  let s := addService (bs "/get") GetSessionService s in
  let s := addService (bs "/json") GetHeaderService s in
  let s := addService (bs "/login") LoginTestService s in
  let s := addService (bs "/post") PostTestService s in
  Ok (setErrorService doError s, idle).

(** *** The first program *)
Definition Test_doGet : handler := fun _ resp e => let* resp := text_plain (bs "hello world") resp in Ok (resp, e).
Definition Test_doHead : handler := fun req resp e => Test_doGet req resp e.
Definition TestService : HttpService.t env := HttpService.Make Test_doHead Test_doGet HttpService.default_doPost.
Definition main0 : result (server * Z) :=
  let* (s, idle) := initialize config in Ok (addService (bs "/") TestService s, idle).

End services.
End SimpleServer.

(** ** What the second program answers *)
Import SimpleServer.

Section site.
Context {F : Type} (showDouble : F -> bytes) {HS : HttpSessionServer (Sessions.t any)}.
Context (realm : bytes) (config : AppConfig.ConfigMp) (remote : HttpRequest.t -> bytes) (canonical : bytes -> option bytes).
Context (s : server) (idle_ms : Z) (configured : main showDouble realm config remote canonical = Ok (s, idle_ms)).

Lemma site_services :
  services_ s !! bs "/login" = Some (HttpService.Service (LoginTestService realm))
  /\ services_ s !! bs "/post" = Some (HttpService.Service PostTestService)
  /\ services_ s !! bs "/json" = Some (HttpService.Service (GetHeaderService showDouble config remote))
  /\ services_ s !! bs "#" = Some (HttpService.ErrorService doError).
Proof.
  revert configured. unfold main. destruct (initialize config) as [[s0 ms]|]; [|done].
  destruct (addMountDir _ _ _ _) as [s1|]; [|done]. intros [= <- _]. unfold HttpMap.add. cbn.
  repeat split; repeat (first [by apply lookup_insert_eq|rewrite lookup_insert_ne by discriminate]).
Qed.

(** A response that was just made. *)
Definition made (resp : HttpResponse.t) : Prop :=
  HttpResponse.code_ resp = 200%Z /\ Buffer.wf (HttpResponse.tmp_buffer_ resp)
  /\ HttpHeader.get (bs "Set-Cookie") (HttpResponse.header_ resp) = None.

Lemma new_made date req resp : HttpResponse.new date req = Ok resp -> made resp.
Proof.
  unfold HttpResponse.new. destruct (HttpRequest.version_ req); [|done]. destruct (HttpRequest.method_ req); [|done].
  intros [= <-]. split; [done|]. split; [apply Buffer.retiredAll_wf, Buffer.new_wf|]. cbn [HttpResponse.header_]. unfold HttpHeader.add.
  by rewrite !HttpHeader.get_add_ne by discriminate.
Qed.

Lemma text_plain_spec body resp :
  Buffer.wf (HttpResponse.tmp_buffer_ resp) ->
  exists b', text_plain body resp = Ok b' /\ HttpResponse.resp_file_ b' = false
    /\ Buffer.contents (HttpResponse.tmp_buffer_ b') = body /\ Buffer.wf (HttpResponse.tmp_buffer_ b')
    /\ HttpResponse.code_ b' = HttpResponse.code_ resp /\ HttpResponse.method_ b' = HttpResponse.method_ resp
    /\ HttpResponse.keepalive_ b' = HttpResponse.keepalive_ resp
    /\ HttpResponse.header_ b' = HttpHeader.add (bs "Content-Type") (bs "text/plain") (HttpResponse.header_ resp).
Proof. intros Hw. apply (setBody_spec body (HttpResponse.setContentType (bs "text/plain") resp) Hw). Qed.

(** *** The login *)
Definition login_verified (req : HttpRequest.t) : bool := match HttpRequest.auth_ req with Some a => verify a | None => false end.
Definition login_body (ok : bool) : bytes := if ok then bs "login successfully!" else error_page 401 (bs "Unauthorized").
Definition login_field (ok : bool) : bytes * bytes :=
  if ok then (bs "Set-Cookie", bs "id=login; Path=/; Max-Age=10")
  else (bs "WWW-Authenticate", bs "Basic realm=" ++ [DQUOTE] ++ c_str realm ++ [DQUOTE]).

Context (regex_search : bytes -> bytes -> option (list bytes)) (order : forall V, HttpMap.t V -> list (bytes * V)).
Context (files : bytes -> option HttpResponse.file) (php_fpm : php).

Lemma login_responds req resp e m :
  HttpRequest.url_ req = bs "/login" -> HttpRequest.method_ req = Some m -> session_ e = None -> made resp -> length (c_str realm) < 1000 ->
  exists resp', respond regex_search order files php_fpm s req resp e = Ok (resp', e)
    /\ HttpResponse.resp_file_ resp' = false /\ Buffer.wf (HttpResponse.tmp_buffer_ resp')
    /\ Buffer.contents (HttpResponse.tmp_buffer_ resp') = login_body (login_verified req)
    /\ HttpResponse.code_ resp' = (if login_verified req then 200 else 401)%Z
    /\ HttpResponse.method_ resp' = HttpResponse.method_ resp /\ HttpResponse.keepalive_ resp' = HttpResponse.keepalive_ resp
    /\ HttpHeader.get (login_field (login_verified req)).1 (HttpResponse.header_ resp') = Some (login_field (login_verified req)).2.
Proof.
  intros Hu Hm He (Hc & Hw & Hk) Hr. destruct site_services as (Hl & _ & _ & Herr). rewrite <- Hu in Hl.
  assert (forall x, HttpService.service (LoginTestService realm) req resp e = x <-> Login_doGet realm req resp e = x) as Hsv.
  { intros x. unfold HttpService.service. rewrite Hm. by destruct m. }
  unfold Login_doGet in Hsv. fold (login_verified req) in Hsv. destruct (login_verified req).
  - set (r0 := HttpResponse.setCookie0 _ _ resp) in Hsv.
    destruct (text_plain_spec (bs "login successfully!") r0 Hw) as (b & Eb & Hf & Hb & Wb & H1 & H2 & H3 & H4).
    exists b. rewrite (respond_service regex_search order files php_fpm s req resp e _ b e Hl); [|apply Hsv; by rewrite Eb|done].
    rewrite H1. change (HttpResponse.code_ r0) with (HttpResponse.code_ resp). rewrite Hc. split; [done|].
    do 6 (split; [done|]). rewrite H4. cbn [login_field fst snd]. unfold HttpHeader.add. rewrite HttpHeader.get_add_ne by discriminate.
    apply (HttpHeader.find_key_emplace HttpHeader.set_cookie). exact Hk.
  - unfold HttpResponse.sendAuth, HttpResponse.setAuthType, HttpResponse.sprintf_1024 in Hsv.
    set (field := bs "Basic realm=" ++ [DQUOTE] ++ c_str realm ++ [DQUOTE]) in Hsv.
    assert (length field <? 1024 = true) as Hlen.
    { apply Nat.ltb_lt. unfold field. rewrite !length_app. cbn. lia. }
    rewrite Hlen in Hsv. cbv beta iota zeta in Hsv. set (r0 := HttpResponse.setHeader (bs "Content-Type") _ _) in Hsv.
    rewrite (respond_service regex_search order files php_fpm s req resp e _ r0 e Hl); [|by apply Hsv|done].
    cbn [HttpResponse.code_ r0 HttpResponse.setHeader HttpResponse.set_header_ HttpResponse.setCode].
    unfold getErrorService, HttpMap.get. rewrite Herr. cbn [of_option HttpService.base_service].
    destruct (error_page_spec doError req r0 e (bs "Unauthorized") eq_refl eq_refl Hw) as (b & -> & Hf & Hh & Hb & Wb & H1 & H2 & H3).
    exists b. do 7 (split; [done|]). rewrite Hh. cbn [login_field fst snd]. unfold HttpHeader.add.
    rewrite HttpHeader.get_add_ne by discriminate. unfold r0. cbn [HttpResponse.header_ HttpResponse.setHeader HttpResponse.set_header_ HttpResponse.setCode]. unfold HttpHeader.add. rewrite HttpHeader.get_add_ne by discriminate.
    by apply HttpHeader.get_add.
Qed.

End site.

(** C5: The login page is for those who can log in.  Whatever the configuration,
    the files, the patterns and the sessions are: a complete request for
    [/login], other than HEAD, gets the greeting and the login cookie if its
    credentials were verified, and the challenge of the realm with the 401 page,
    for which the error service of the program has no page of its own, if they
    were not or there are none; what a completed write loop puts on the wire is
    that answer, the sessions are as before, and the request is freed. *)
Theorem login_guarded {F} (showDouble : F -> bytes) {HS : HttpSessionServer (Sessions.t any)} (realm : bytes)
    (config : AppConfig.ConfigMp) (remote : HttpRequest.t -> bytes) (canonical : bytes -> option bytes) (s : server) (idle_ms : Z)
    (MD5 : bytes -> bytes) (store : HttpPassStore.t) (dangling gzipCompress : bytes -> bytes)
    (regex_search : bytes -> bytes -> option (list bytes)) (order : forall V, HttpMap.t V -> list (bytes * V))
    (files : bytes -> option HttpResponse.file) (date : bytes) (php_fpm : php) (qreset : Buffer.t -> Buffer.t)
    (c : TcpServer.conn HttpRequest.t) (w : Sessions.t any) (ch : Channel.t Buffer.t) (recver : Buffer.t) (req : HttpRequest.t) v m :
  main showDouble realm config remote canonical = Ok (s, idle_ms) -> length (c_str realm) < 1000 ->
  parses_to MD5 store dangling c ch recver req HttpRequest.REQUEST_CONTENT_DONE ->
  HttpRequest.version_ req = Some v -> HttpRequest.method_ req = Some m -> m <> HEAD -> idle (Channel.set_recver recver ch) ->
  HttpRequest.url_ req = bs "/login" ->
  let ok := login_verified req in
  exists b' ch',
    onMessage MD5 store dangling gzipCompress regex_search order files true date php_fpm s c w
      = Ok (true, TcpServer.Conn false (HttpRequest.keepalive_ req) None (Some ch'), w)
    /\ HttpResponse.code_ b' = (if ok then 200 else 401)%Z
    /\ HttpHeader.get (login_field realm ok).1 (HttpResponse.header_ b') = Some (login_field realm ok).2
    /\ (forall ns x, calls_ok ns ch' -> Channel.write_loop qreset ns [] ch' = Ok x -> Channel.w_completed x = true ->
          Channel.w_wire x = head_block b' (if ok then bs "OK" else bs "Unauthorized")
            ++ encoded gzipCompress (HttpResponse.compressed_ b') (login_body ok)).
Proof.
  intros Hconf Hr Hp Hv Hm Hh Hi Hu ok.
  destruct (new_response date req v m Hv Hm) as (resp & Er & _ & Hme & Hk & _).
  destruct (login_responds showDouble realm config remote canonical s idle_ms Hconf regex_search order files php_fpm
    (HttpRequest.reset req) resp (Env w None [] []) m) as (r & Hresp & Hf & Hw & Hb & Hc & Hmr & Hkr & Hg);
    [done|done|done|by eapply new_made|done|].
  change (login_verified (HttpRequest.reset req)) with ok in *.
  destruct (message_respond MD5 store dangling gzipCompress regex_search order files date php_fpm s c w ch recver req resp r
    (Env w None [] []) (if ok then bs "OK" else bs "Unauthorized")) as (b' & ch' & E & Hcode & _ & Hfr & _ & Hget & Ht);
    [done|done|done|exact Hresp|by split; [|rewrite Hf]|by rewrite Hc; destruct ok|by rewrite Hmr, Hme|].
  exists b', ch'. rewrite E, Hkr, Hk, Hcode, Hc. split; [done|]. split; [done|]. split.
  - rewrite Hget; [exact Hg|]. destruct ok; apply (bool_decide_unpack _); vm_compute; exact I.
  - intros ns x Hok Hx Hcm. pose proof (write_loop_spec qreset ns [] ch' x (fresh_sending ch' Hfr) (total_not_nil ch' Hfr) Hok Hx) as H.
    rewrite Hcm, Ht in H. replace (representation (fs files) r) with (login_body ok) in H; [apply H|].
    unfold representation. by rewrite Hf, Hb.
Qed.

(** The program with the configuration that comes with it. *)
Notation sample_main c := (main (F := unit) (HS := Sessions.HttpServer_sessions 10 [] (TimeStamp.make 0) (0, 0)%Z) (fun _ => []) (bs "r") c
  (fun _ => bs "127.0.0.1:1") (fun _ => Some (bs "/srv/html"))).
Definition sample_site : server * Z :=
  match sample with
  | Ok c => match sample_main c with Ok x => x | Err _ => (HttpServer.Make [] ∅ ∅ ∅, 0%Z) end
  | Err _ => (HttpServer.Make [] ∅ ∅ ∅, 0%Z)
  end.
Lemma sample_starts : exists c, sample = Ok c /\ sample_main c = Ok (sample_site.1, sample_site.2).
Proof.
  assert (match sample with Ok c => match sample_main c with Ok _ => true | Err _ => false end | Err _ => false end = true) as H
    by (vm_compute; reflexivity).
  unfold sample_site. destruct sample as [c|]; [|done]. exists c. split; [done|]. by destruct (sample_main c) as [[s i]|].
Qed.
Definition any_sessions : Sessions.t any := Sessions.Make ∅ None [].
(** [mike:secret] *)
Definition login_text : bytes :=
  bs "GET /login HTTP/1.1" ++ CRLF ++ bs "Authorization: Basic bWlrZTpzZWNyZXQ=" ++ CRLF ++ CRLF.

Lemma login_guarded_witness :
  exists c', onMessage demo_md5 demo_store (fun s => s) (fun s => s) no_regex demo_order demo_files true (bs "now") demo_php
      sample_site.1 (demo_conn login_text) any_sessions = Ok (true, c', any_sessions)
    /\ login_verified (demo_parse login_text).1.2 = true.
Proof.
  destruct sample_starts as (c & _ & Ec).
  destruct (login_guarded (F := unit) (HS := Sessions.HttpServer_sessions 10 [] (TimeStamp.make 0) (0, 0)%Z) (fun _ => []) (bs "r") c
    (fun _ => bs "127.0.0.1:1") (fun _ => Some (bs "/srv/html")) sample_site.1 sample_site.2
    demo_md5 demo_store (fun s => s) (fun s => s) no_regex demo_order demo_files (bs "now") demo_php Buffer.reset
    (demo_conn login_text) any_sessions (Channel.new Raw false (Buffer.new 16) (received login_text))
    (demo_parse login_text).1.1 (demo_parse login_text).1.2 HTTP_1_1 GET) as (b' & ch' & E & _).
  - exact Ec.
  - vm_compute. lia.
  - split; [reflexivity|]. split; [reflexivity|]. vm_compute. reflexivity.
  - vm_compute. reflexivity.
  - vm_compute. reflexivity.
  - discriminate.
  - repeat split; try (vm_compute; reflexivity); vm_compute; lia.
  - vm_compute. reflexivity.
  - eexists. split; [exact E|vm_compute; reflexivity].
Defined.

(** The form of [/post].  A posted form without a name or without an age is a
    [bad_optional_access] that nothing catches in the worker: any client can end
    the process.  With both, and the name [admin], the answer is the cookie and
    the page. *)
Theorem post_form_fields {F} (showDouble : F -> bytes) {HS : HttpSessionServer (Sessions.t any)} (realm : bytes)
    (config : AppConfig.ConfigMp) (remote : HttpRequest.t -> bytes) (canonical : bytes -> option bytes) (s : server) (idle_ms : Z)
    (MD5 : bytes -> bytes) (store : HttpPassStore.t) (dangling gzipCompress : bytes -> bytes)
    (regex_search : bytes -> bytes -> option (list bytes)) (order : forall V, HttpMap.t V -> list (bytes * V))
    (files : bytes -> option HttpResponse.file) (date : bytes) (php_fpm : php)
    (c : TcpServer.conn HttpRequest.t) (w : Sessions.t any) (ch : Channel.t Buffer.t) (recver : Buffer.t) (req : HttpRequest.t) v :
  main showDouble realm config remote canonical = Ok (s, idle_ms) ->
  parses_to MD5 store dangling c ch recver req HttpRequest.REQUEST_CONTENT_DONE ->
  HttpRequest.version_ req = Some v -> HttpRequest.method_ req = Some POST -> idle (Channel.set_recver recver ch) ->
  HttpRequest.url_ req = bs "/post" -> HttpRequest.has_multipart_ req = false -> HttpRequest.hasForm req = true ->
  let name := HttpMap.get (bs "name") (HttpRequest.form_ req) in
  let age := HttpMap.get (bs "age") (HttpRequest.form_ req) in
  let answer := onMessage MD5 store dangling gzipCompress regex_search order files true date php_fpm s c w in
  (name = None \/ age = None -> answer = Err BadOptionalAccess)
  /\ (name = Some (bs "admin") -> is_Some age -> exists b' ch',
        answer = Ok (true, TcpServer.Conn false (HttpRequest.keepalive_ req) None (Some ch'), w)
        /\ HttpHeader.get (bs "Set-Cookie") (HttpResponse.header_ b') = Some (bs "user=admin; Max-Age=5")
        /\ total ch' = head_block b' (bs "OK") ++ encoded gzipCompress (HttpResponse.compressed_ b') post_ok).
Proof.
  intros Hconf Hp Hv Hm Hi Hu Hmp Hform name age answer.
  destruct (site_services showDouble realm config remote canonical s idle_ms Hconf) as (_ & Hs & _). rewrite <- Hu in Hs.
  destruct (new_response date req v POST Hv Hm) as (resp & Er & Hc & Hme & Hk & Hw). set (e := Env w None [] []).
  assert (forall x, Post_doPost req resp e = x <-> HttpService.service (PostTestService (HS := HS)) (HttpRequest.reset req) resp e = x) as Hsv.
  { intros x. unfold HttpService.service. change (HttpRequest.method_ (HttpRequest.reset req)) with (HttpRequest.method_ req). by rewrite Hm. }
  unfold Post_doPost in Hsv. rewrite Hmp, Hform in Hsv. fold name age in Hsv. unfold answer. split.
  - intros Hnone. eapply message_fails; [exact Hp|exact Er|]. unfold respond, dispatchUrlPattern.
    change (HttpRequest.url_ (HttpRequest.reset req)) with (HttpRequest.url_ req). unfold HttpMap.get at 1. rewrite Hs.
    cbn [HttpService.base_service]. fold e. rewrite (proj1 (Hsv (Err BadOptionalAccess))); [done|].
    destruct Hnone as [-> | ->]; [done|by destruct name].
  - intros Hname [a Hage]. rewrite Hname, Hage in Hsv. cbn [of_option] in Hsv. rewrite bool_decide_true in Hsv by done.
    set (r0 := HttpResponse.setCookie0 _ _ resp) in Hsv.
    destruct (text_plain_spec post_ok r0 Hw) as (b & Eb & Hf & Hb & Wb & H1 & H2 & H3 & H4). rewrite Eb in Hsv.
    pose proof (respond_service regex_search order files php_fpm s (HttpRequest.reset req) resp e _ b e Hs (proj1 (Hsv _) eq_refl) eq_refl) as Hresp.
    rewrite H1 in Hresp. change (HttpResponse.code_ r0) with (HttpResponse.code_ resp) in Hresp. rewrite Hc in Hresp. cbn in Hresp.
    destruct (message_respond MD5 store dangling gzipCompress regex_search order files date php_fpm s c w ch recver req resp b e (bs "OK"))
      as (b' & ch' & E & _ & _ & _ & _ & Hget & Ht);
      [done|done|done|exact Hresp|by split; [|rewrite Hf]|by rewrite H1; cbn; rewrite Hc|by rewrite H2; cbn; rewrite Hme|].
    exists b', ch'. rewrite E, H3. change (HttpResponse.keepalive_ r0) with (HttpResponse.keepalive_ resp). rewrite Hk. split; [done|]. split.
    + rewrite Hget by (apply (bool_decide_unpack _); vm_compute; exact I). rewrite H4. unfold HttpHeader.add.
      rewrite HttpHeader.get_add_ne by discriminate. apply (HttpHeader.find_key_emplace HttpHeader.set_cookie).
      apply (new_made date req resp Er).
    + rewrite Ht. unfold representation. by rewrite Hf, Hb.
Qed.

Definition form_text : bytes :=
  bs "POST /post HTTP/1.1" ++ CRLF ++ bs "Content-Type: application/x-www-form-urlencoded" ++ CRLF ++ bs "Content-Length: 10" ++ CRLF ++ CRLF
  ++ bs "name=admin".

Lemma post_form_fields_witness :
  onMessage demo_md5 demo_store (fun s => s) (fun s => s) no_regex demo_order demo_files true (bs "now") demo_php
    sample_site.1 (demo_conn form_text) any_sessions = Err BadOptionalAccess.
Proof.
  destruct sample_starts as (c & _ & Ec).
  apply (post_form_fields (F := unit) (HS := Sessions.HttpServer_sessions 10 [] (TimeStamp.make 0) (0, 0)%Z) (fun _ => []) (bs "r") c
    (fun _ => bs "127.0.0.1:1") (fun _ => Some (bs "/srv/html")) sample_site.1 sample_site.2
    demo_md5 demo_store (fun s => s) (fun s => s) no_regex demo_order demo_files (bs "now") demo_php
    (demo_conn form_text) any_sessions (Channel.new Raw false (Buffer.new 16) (received form_text))
    (demo_parse form_text).1.1 (demo_parse form_text).1.2 HTTP_1_1).
  - exact Ec.
  - split; [reflexivity|]. split; [reflexivity|]. vm_compute. reflexivity.
  - vm_compute. reflexivity.
  - vm_compute. reflexivity.
  - repeat split; try (vm_compute; reflexivity); vm_compute; lia.
  - vm_compute. reflexivity.
  - vm_compute. reflexivity.
  - vm_compute. reflexivity.
  - right. vm_compute. reflexivity.
Defined.

(** ** The JSON page *)
Section json_page.
Context {F : Type} (toDouble : bytes -> F) (showDouble : F -> bytes).
Context (config : AppConfig.ConfigMp) (remote : HttpRequest.t -> bytes).

Definition str_pair (kv : bytes * bytes) : Json.str * Json.value F := (Json.new_str kv.1, Json.JsonString (Json.new_str kv.2)).
Lemma header_members_map h : header_members (F := F) h = str_pair <$> h.
Proof.
  unfold header_members. rewrite <- (app_nil_l (str_pair <$> h)). generalize (@nil (Json.str * Json.value F)).
  induction h as [|[k v] h IH]; intros o; cbn [foldl]; [by rewrite app_nil_r|]. rewrite IH. unfold Json.object_add_string, Json.object_add.
  by rewrite <- app_assoc.
Qed.

(** A text without a character that JSON escapes. *)
Definition unspecial (s : bytes) : Prop := JsonUtil.unescape_string s = s.
#[export] Instance unspecial_dec s : Decision (unspecial s).
Proof. unfold unspecial. apply _. Defined.
Definition others (full_url : bytes) (req : HttpRequest.t) : list (bytes * bytes) :=
  [(bs "full_url", full_url); (bs "url", HttpRequest.url_ req); (bs "query_string", HttpRequest.query_s_ req); (bs "remote_address", remote req)].
Lemma header_root_members full_url req :
  header_root (F := F) remote full_url req = Json.JsonObject
    [(Json.new_str (bs "headers"), Json.JsonObject (str_pair <$> HttpRequest.header_ req));
     (Json.new_str (bs "others"), Json.JsonObject (str_pair <$> others full_url req))].
Proof. unfold header_root. by rewrite header_members_map. Qed.

Lemma pairs_parsed l : parsed (F := F) true (Json.JsonObject (str_pair <$> l)).
Proof. apply parsed_object, Forall_fmap, Forall_forall. by intros kv _. Qed.

Lemma separated_all {A} (P : JsonLexer.lexeme F -> Prop) (toks : A -> list (JsonLexer.lexeme F)) l :
  P JsonLexer.JSON_SEP -> Forall (fun x => Forall P (toks x)) l -> Forall P (separated (toks <$> l)).
Proof.
  intros HP. induction 1 as [|x l Hx Hl IH]; [by constructor|]. rewrite fmap_cons, separated_cons. apply Forall_app. split; [done|].
  destruct l; [constructor|]. by constructor.
Qed.

Lemma pairs_printable l :
  Forall (fun kv => unspecial kv.1 /\ unspecial kv.2) l ->
  Forall (printable toDouble showDouble true) (tokens_of (Json.JsonObject (str_pair <$> l))).
Proof.
  intros H. rewrite tokens_of_object. constructor; [by split|]. apply Forall_app. split; [|by repeat constructor].
  rewrite <- list_fmap_compose. apply separated_all; [by split|]. eapply Forall_impl; [exact H|]. intros [k v] [Hk Hv].
  repeat constructor; by intros _.
Qed.
End json_page.

Definition sample_config_map : AppConfig.ConfigMp := get_ok ∅ sample.
Definition json_text : bytes := bs "GET /json HTTP/1.1" ++ CRLF ++ bs "X: plain" ++ CRLF ++ CRLF.
Definition page_response : HttpResponse.t :=
  match HttpResponse.new (bs "now") (demo_parse json_text).1.2 with Ok b => b | Err _ => demo_builder GET end.
Definition page_env : env := Env any_sessions None [] [].
Definition one_client (_ : HttpRequest.t) : bytes := bs "127.0.0.1:1".

(** A header field with quotes in its value. *)
Definition inject_text : bytes :=
  bs "GET /json HTTP/1.1" ++ CRLF ++ bs "X: a" ++ [DQUOTE] ++ bs ", " ++ [DQUOTE] ++ bs "admin" ++ [DQUOTE] ++ bs ": " ++ [DQUOTE] ++ bs "yes"
  ++ CRLF ++ CRLF.

(** The formatter of a JSON body is told to escape strings that count as
    escaped, so it prints them as they are: the value puts a member into the
    object that is not a header field of the request. *)
Definition page_injected : Prop :=
  let req := (demo_parse inject_text).1.2 in
  HttpHeader.get (bs "admin") (HttpRequest.header_ req) = None
  /\ exists resp' doc fields others,
       Header_doGet (fun _ : unit => []) sample_config_map one_client req page_response page_env = Ok (resp', page_env)
       /\ JsonParser.parse_text (fun _ => tt) 1000 (Buffer.contents (HttpResponse.tmp_buffer_ resp')) true
          = Ok (Some (Json.JsonObject doc))
       /\ doc = [(Json.new_str (bs "headers"), Json.JsonObject fields); (Json.new_str (bs "others"), Json.JsonObject others)]
       /\ Json.find (bs "admin") fields = Some (Json.JsonString (Json.new_str (bs "yes"))).
Lemma page_is_injected : page_injected.
Proof.
  split; [vm_compute; reflexivity|]. do 4 eexists. split; [vm_compute; reflexivity|]. split; [vm_compute; reflexivity|].
  split; [reflexivity|vm_compute; reflexivity].
Qed.

(** C35: The JSON page.  When no header field, address or query of the request
    has a character that JSON escapes, the body of [/json] is read back by the
    parser of the library, with any fuel above its length, as the object of the
    header fields and the addresses.  A field whose value has quotes is printed
    as it is, and puts members of its own into that object. *)
Theorem json_page_reads_back {F} (toDouble : bytes -> F) (showDouble : F -> bytes) (config : AppConfig.ConfigMp)
    (remote : HttpRequest.t -> bytes) (req : HttpRequest.t) (resp : HttpResponse.t) (e : env) (full_url : bytes) :
  getFullUrl config req = Ok full_url -> Buffer.wf (HttpResponse.tmp_buffer_ resp) ->
  Forall (fun kv => unspecial kv.1 /\ unspecial kv.2) (HttpRequest.header_ req) ->
  Forall (fun kv => unspecial kv.2) (others remote full_url req) ->
  (exists resp', Header_doGet showDouble config remote req resp e = Ok (resp', e)
    /\ HttpHeader.get (bs "Content-Type") (HttpResponse.header_ resp') = Some (bs "application/json; charset=utf-8")
    /\ let body := Buffer.contents (HttpResponse.tmp_buffer_ resp') in
       forall fuel, S (length body) < fuel -> JsonParser.parse_text toDouble fuel body true = Ok (Some (Json.JsonObject
         [(Json.new_str (bs "headers"), Json.JsonObject (str_pair <$> HttpRequest.header_ req));
          (Json.new_str (bs "others"), Json.JsonObject (str_pair <$> others remote full_url req))])))
  /\ page_injected.
Proof.
  intros Hu Hw Hh Ho. split; [|exact page_is_injected]. rewrite <- header_root_members. set (root := header_root remote full_url req).
  assert (parsed true root /\ Forall (printable toDouble showDouble true) (tokens_of root)) as [Hp Hs].
  { unfold root. rewrite header_root_members. split.
    - apply parsed_object. repeat constructor; cbn [fst snd]; apply pairs_parsed.
    - rewrite tokens_of_object. constructor; [by split|]. apply Forall_app. split; [|by repeat constructor].
      apply separated_all; [by split|]. constructor; [|constructor; [|constructor]]; (constructor; [by split|]); (constructor; [by split|]);
        apply pairs_printable; [done|].
      repeat (apply Forall_cons in Ho as [? Ho]). repeat (constructor; [by split|]). constructor. }
  destruct (format_reads_back toDouble showDouble 4 true root) as (text & Et & Hread); [done|reflexivity|done|done|].
  unfold Header_doGet. rewrite Hu. unfold HttpResponse.setBodyJson, HttpResponse.json_text. fold root. rewrite Et.
  destruct (setBody_spec text resp Hw) as (b & -> & _ & Hb & _).
  eexists. split; [reflexivity|]. split; [by apply HttpHeader.get_add|]. cbn. by rewrite Hb.
Qed.

Lemma json_page_reads_back_witness :
  exists resp', Header_doGet (fun _ : unit => []) sample_config_map one_client (demo_parse json_text).1.2 page_response page_env = Ok (resp', page_env).
Proof.
  destruct (json_page_reads_back (fun _ => tt) (fun _ => []) sample_config_map one_client (demo_parse json_text).1.2 page_response page_env
    (bs "http:" ++ bs "//localhost:5555/json")) as [(resp' & E & _) _].
  - vm_compute. reflexivity.
  - apply (bool_decide_unpack _). vm_compute. exact I.
  - apply (bool_decide_unpack _). vm_compute. exact I.
  - apply (bool_decide_unpack _). vm_compute. exact I.
  - exists resp'. exact E.
Defined.
