(* ===== verification/HttpServerSafety.v ===== *)
(** * HttpServerSafety: mounted directories and workers

    The paths a mounted directory gives access to in a file system with [..],
    and the composition of [onMessage] with the event loop and its workers. *)
From S2P Require Import Prelude CStr Buffer TimeStamp EncodeUtil HttpUtil HttpMap HttpHeader HttpAuth HttpRequest Channel HttpResponse HttpService HttpSession ThreadPool TcpServer EventLoop WorkerPool PhpFastCgi AppConfig HttpServer HttpServerSpec.
Import HttpServer.
#[local] Existing Instance HttpRequest.RetCode_eq_dec.

(** ** Paths of a file system *)
Fixpoint components (s : bytes) : list bytes :=
  match s with
  | [] => [[]]
  | c :: s =>
      if bool_decide (c = "/"%char) then [] :: components s
      else match components s with x :: l => (c :: x) :: l | [] => [[c]] end
  end.

(** One component, from the directory [st] (innermost first). *)
Definition walk (st : list bytes) (x : bytes) : list bytes :=
  if decide (x = [] \/ x = bs ".") then st else if decide (x = bs "..") then tail st else x :: st.
Definition resolve (path : bytes) : list bytes := reverse (foldl walk [] (components path)).

(** A name that stands for an entry of a directory. *)
Definition entry (x : bytes) : Prop := "/"%char ∉ x /\ NUL ∉ x /\ x <> [] /\ x <> bs "." /\ x <> bs "..".
Definition absolute (l : list bytes) : bytes := mjoin ((fun x => "/"%char :: x) <$> l).

Lemma components_cons_app (a b : bytes) : "/"%char ∉ a -> components (a ++ "/"%char :: b) = a :: components b.
Proof.
  induction a as [|c a IH]; [done|]. intros [Hc Ha]%not_elem_of_cons. cbn [app components].
  rewrite bool_decide_false by congruence. by rewrite IH.
Qed.

Lemma components_entry (a : bytes) : "/"%char ∉ a -> components a = [a].
Proof.
  induction a as [|c a IH]; [done|]. intros [Hc Ha]%not_elem_of_cons. cbn [components].
  rewrite bool_decide_false by congruence. by rewrite IH.
Qed.

(** The components of [/a/b] behind a first one. *)
Lemma components_absolute (x : bytes) (l : list bytes) (b : bytes) :
  "/"%char ∉ x -> Forall entry l -> components (x ++ absolute l ++ "/"%char :: b) = x :: l ++ components b.
Proof.
  intros Hx Hl. revert x Hx. induction Hl as [|y l Hy Hl IH]; intros x Hx; [by apply components_cons_app|].
  unfold absolute. rewrite fmap_cons. change (mjoin (("/"%char :: y) :: ?t)) with (("/"%char :: y) ++ mjoin t). fold (absolute l).
  cbn [app]. rewrite components_cons_app by done. rewrite <- app_assoc, IH by apply Hy. done.
Qed.

Lemma components_absolute_end (x : bytes) (l : list bytes) :
  "/"%char ∉ x -> Forall entry l -> components (x ++ absolute l) = x :: l.
Proof.
  intros Hx Hl. revert x Hx. induction Hl as [|y l Hy Hl IH]; intros x Hx; [rewrite app_nil_r; by apply components_entry|].
  unfold absolute. rewrite fmap_cons. change (mjoin (("/"%char :: y) :: ?t)) with (("/"%char :: y) ++ mjoin t). fold (absolute l).
  cbn [app]. rewrite components_cons_app by done. by rewrite IH by apply Hy.
Qed.

(** [../../] *)
Fixpoint climb (n : nat) : bytes := match n with 0 => [] | S n => bs "../" ++ climb n end.

Lemma components_climb n b : components (climb n ++ b) = replicate n (bs "..") ++ components b.
Proof.
  induction n as [|n IH]; [done|]. cbn [climb replicate app]. rewrite <- app_assoc.
  change (bs "../" ++ climb n ++ b) with (bs ".." ++ "/"%char :: (climb n ++ b)). rewrite components_cons_app by set_solver.
  by rewrite IH.
Qed.

Lemma walk_entries l st : Forall entry l -> foldl walk st l = reverse l ++ st.
Proof.
  intros H. revert st. induction H as [|x l (_ & _ & H1 & H2 & H3) Hl IH]; intros st; [done|].
  cbn [foldl]. rewrite IH. unfold walk. rewrite decide_False by tauto. rewrite decide_False by done.
  by rewrite reverse_cons, <- app_assoc.
Qed.

Lemma walk_climb n st : n <= length st -> foldl walk st (replicate n (bs "..")) = drop n st.
Proof.
  revert st. induction n as [|n IH]; intros st H; [done|]. destruct st as [|x st]; [simpl in H; lia|].
  cbn [replicate foldl]. change (walk (x :: st) (bs "..")) with st. by rewrite IH by (simpl in H; lia).
Qed.

(** From a directory up to the root and down to any file. *)
Lemma resolve_climb (dir : list bytes) (x : bytes) (target : list bytes) :
  Forall entry dir -> Forall entry (x :: target) ->
  resolve (absolute dir ++ bs "/" ++ climb (length dir) ++ x ++ absolute target) = x :: target.
Proof.
  intros Hd Ht. unfold resolve. pose proof Ht as [Hx Ht']%Forall_cons.
  change (absolute dir ++ bs "/" ++ ?r) with ([] ++ absolute dir ++ "/"%char :: r).
  rewrite components_absolute by (set_solver || done). rewrite components_climb, components_absolute_end by (done || apply Hx).
  cbn [foldl]. change (walk [] []) with (@nil bytes). rewrite !foldl_app, (walk_entries dir) by done.
  rewrite app_nil_r, walk_climb by by rewrite length_reverse.
  rewrite drop_ge by by rewrite length_reverse. rewrite (walk_entries (x :: target)) by done.
  by rewrite app_nil_r, reverse_involutive.
Qed.

Lemma absolute_no_NUL l : Forall entry l -> NUL ∉ absolute l.
Proof.
  induction 1 as [|x l Hx Hl IH]; [set_solver|]. unfold absolute. rewrite fmap_cons.
  change (mjoin (("/"%char :: x) :: ?t)) with (("/"%char :: x) ++ mjoin t). fold (absolute l).
  destruct Hx as (_ & Hx & _). rewrite elem_of_app, elem_of_cons. intros [[H|H]|H]; [discriminate H|done|done].
Qed.

Lemma climb_no_NUL n : NUL ∉ climb n.
Proof. induction n as [|n IH]; [set_solver|]. cbn [climb]. rewrite elem_of_app. intros [H|H]; [|done]. revert H. set_solver. Qed.

(** C24: A mounted directory is not a boundary.  In a file system that resolves
    [..], whatever the tree, every file of it that is not a script is served
    below any mounted directory: the address goes up as many steps as the
    directory is deep, and then down to the file. *)
Theorem path_traversal {any : Type} (order : forall V, HttpMap.t V -> list (bytes * V)) (tree : list bytes -> option HttpResponse.file)
    (php_fpm : php) (s : HttpServer.t (any := any)) (req : HttpRequest.t) (resp : HttpResponse.t) (e : env)
    (prefix : bytes) (dir : list bytes) (x : bytes) (target : list bytes) f :
  (forall V (m : HttpMap.t V), HttpMap.listing m (order V m)) ->
  Forall entry dir -> Forall entry (x :: target) -> tree (x :: target) = Some f ->
  HttpRequest.url_ req = prefix ++ climb (length dir) ++ x ++ absolute target ->
  mounted_at order s (HttpRequest.url_ req) prefix (absolute dir ++ bs "/") ->
  plain_path ((absolute dir ++ bs "/") ++ climb (length dir) ++ x ++ absolute target) ->
  exists resp', dispatchMountDir order (fun p => tree (resolve p)) php_fpm s req resp e = Ok (true, resp', e)
    /\ representation (fs (fun p => tree (resolve p))) resp' = HttpResponse.f_contents f.
Proof.
  intros Hl Hd Ht Hf Hu Hm Hp. set (rest := climb (length dir) ++ x ++ absolute target) in *.
  set (path := (absolute dir ++ bs "/") ++ rest) in *.
  assert (fs (fun p => tree (resolve p)) path = Some f) as Hfs.
  { unfold fs. rewrite c_str_id.
    - unfold path, rest. rewrite <- app_assoc, resolve_climb by done. exact Hf.
    - pose proof Ht as [Hx Ht']%Forall_cons. unfold path, rest. rewrite !elem_of_app.
      assert (NUL ∉ bs "/") as Hs by (apply (bool_decide_unpack _); vm_compute; exact I).
      intros [[H|H]|[H|[H|H]]]; [by apply (absolute_no_NUL _ Hd)|done|by apply (climb_no_NUL _ H)|by destruct Hx as (_ & Hx & _)|by apply (absolute_no_NUL _ Ht')]. }
  exists (serve_file path resp). split.
  - apply (file_dispatch order Hl _ php_fpm s req resp e prefix (absolute dir ++ bs "/") rest); [exact Hu|exact Hm|exact Hp|].
    unfold exist. fold path. rewrite Hfs. by apply bool_decide_true.
  - unfold representation. cbn. by rewrite Hfs.
Qed.

Definition demo_tree (p : list bytes) : option HttpResponse.file :=
  if decide (p = [bs "etc"; bs "passwd"]) then Some (HttpResponse.File (bs "root:x:0:0") (bs "today")) else None.
Definition traversal_text : bytes := bs "GET /f/../etc/passwd HTTP/1.1" ++ CRLF ++ bs "Host: x" ++ CRLF ++ CRLF.

Lemma path_traversal_witness :
  exists resp', dispatchMountDir demo_order (fun p => demo_tree (resolve p)) demo_php demo_http (demo_parse traversal_text).1.2
      demo_response demo_env = Ok (true, resp', demo_env)
    /\ representation (fs (fun p => demo_tree (resolve p))) resp' = bs "root:x:0:0".
Proof.
  destruct (path_traversal demo_order demo_tree demo_php demo_http (demo_parse traversal_text).1.2 demo_response demo_env
    (bs "/f/") [bs "srv"] (bs "etc") [bs "passwd"] (HttpResponse.File (bs "root:x:0:0") (bs "today")) demo_listed)
    as (resp' & E & Hr).
  - repeat constructor; apply (bool_decide_unpack _); vm_compute; exact I.
  - repeat constructor; apply (bool_decide_unpack _); vm_compute; exact I.
  - vm_compute. reflexivity.
  - vm_compute. reflexivity.
  - exact (demo_mounted (bs "../etc/passwd")).
  - split; [exists "d"%char; split; [reflexivity|discriminate]|reflexivity].
  - exists resp'. split; [exact E|exact Hr].
Defined.

(** ** The workers of the HTTP server *)

Lemma send_keeps gzipCompress files (resp : HttpResponse.t) (c c' : TcpServer.conn HttpRequest.t) :
  send gzipCompress files true resp c = Ok c' ->
  TcpServer.disconnected_ c' = TcpServer.disconnected_ c /\ is_Some (TcpServer.channel_ c').
Proof.
  unfold send. destruct (TcpServer.channel_ c) as [ch|]; [|done]. cbn [of_option].
  destruct (HttpResponse.build _ _ _ _ _) as [[b ch']|]; [|done]. intros [= <-]. by split; [|eexists].
Qed.

(** [onMessage] neither closes its connection nor marks it. *)
Lemma http_keeps_open {any} MD5 store dangling gzipCompress regex_search order files date php_fpm (s : HttpServer.t (any := any)) :
  TcpServer.keeps_open (callbacks MD5 store dangling gzipCompress regex_search order files true date php_fpm s).
Proof.
  intros c w d c' w' E. cbn [callbacks TcpServer.msg_cb] in E.
  cut (TcpServer.disconnected_ c' = TcpServer.disconnected_ c /\ is_Some (TcpServer.channel_ c')); [tauto|].
  unfold onMessage in E. destruct (TcpServer.channel_ c) as [ch|]; [|done]. cbn [of_option] in E.
  destruct (HttpRequest.parseRequest _ _ _ _ _) as [[[recver req] code]|]; [|done].
  destruct (TcpServer.disconnected_ c) eqn:Ed; [injection E as <- <- <-; by split; [|eexists]|].
  destruct (HttpResponse.new date req) as [resp|]; [|done]. destruct (decide _).
  - destruct (getErrorService s) as [sv|]; [|done]. destruct (HttpService.base_service _ _ _ _) as [[r e1]|]; [|done].
    destruct (send _ _ _ _ _) as [c2|] eqn:Es; [|done]. injection E as <- <- <-. apply send_keeps in Es. exact Es.
  - destruct (decide _); [injection E as <- <- <-; by split; [|eexists]|].
    destruct (respond _ _ _ _ _ _ _ _) as [[r e1]|]; [|done].
    destruct (send _ _ _ _ _) as [c2|] eqn:Es; [|done]. injection E as <- <- <-. apply send_keeps in Es. exact Es.
Qed.

(** A step of the server; its services may differ from step to step. *)
Definition http_step {any} MD5 store dangling gzipCompress regex_search order files date php_fpm
    (x y : TcpServer.t HttpRequest.t (Sessions.t any) * list (Z * Z)) : Prop :=
  exists s : HttpServer.t (any := any),
    EventLoop.loop_step (callbacks MD5 store dangling gzipCompress regex_search order files true date php_fpm s) EventLoop.calm x y.

(** The same on the threads of the pool. *)
Definition http_pool_step {any} MD5 store dangling gzipCompress regex_search order files date php_fpm
    (x y : TcpServer.t HttpRequest.t (Sessions.t any) * list (Z * Z) * ThreadPool.t TcpServer.task) : Prop :=
  exists s : HttpServer.t (any := any),
    WorkerPool.pool_step (callbacks MD5 store dangling gzipCompress regex_search order files true date php_fpm s) x y.

Lemma http_good {any} MD5 store dangling gzipCompress regex_search order files date php_fpm
    (x y : TcpServer.t HttpRequest.t (Sessions.t any) * list (Z * Z)) :
  EventLoop.good x -> rtc (http_step MD5 store dangling gzipCompress regex_search order files date php_fpm) x y -> EventLoop.good y.
Proof.
  intros Hg Hs. induction Hs as [|x y z (s & H) _ IH]; [done|]. apply IH.
  refine (EventLoop.loop_step_good _ _ _ _ H Hg). apply http_keeps_open.
Qed.

Lemma http_pool_sim {any} MD5 store dangling gzipCompress regex_search order files date php_fpm
    (x y : TcpServer.t HttpRequest.t (Sessions.t any) * list (Z * Z) * ThreadPool.t TcpServer.task) a :
  WorkerPool.up x -> WorkerPool.stands_for x a ->
  rtc (http_pool_step MD5 store dangling gzipCompress regex_search order files date php_fpm) x y ->
  rtc ThreadPool.step x.2 y.2 /\ WorkerPool.up y /\ exists b, WorkerPool.stands_for y b
    /\ rtc (http_step MD5 store dangling gzipCompress regex_search order files date php_fpm) a b.
Proof.
  intros Hu Ha Hs. revert a Hu Ha. induction Hs as [x|x y z (s & H) _ IH]; intros a Hu Ha; [split; [done|]; split; [done|by exists a]|].
  destruct (WorkerPool.pool_step_sim _ _ _ _ Hu Ha H) as (Hu' & b & Hb & Hsim).
  destruct (IH b Hu' Hb) as (Hp & Hup & c & Hc & Hsim'). split; [etrans; [by eapply WorkerPool.pool_part|done]|]. split; [done|].
  exists c. split; [done|]. etrans; [|exact Hsim']. clear -Hsim. induction Hsim as [|u v w H _ IH]; [done|]. eapply rtc_l; [by exists s|done].
Qed.

(** C6: The HTTP server under the event loop and the threads of the pool.  From a
    server that was just started, whatever the services do and however the batches
    of [epoll_wait], their dispatch, accepts, the loop inside [add], the threads at
    the mutex and in their tasks, and timeouts interleave (no timeout closing a
    connection in use): the run is one of the event loop with an abstract queue; a
    task that waits has a thread that will come for it, or the loop is about to
    notify one, and one of them can move; a connection has at most one task, about
    to be pushed, in the queue or in a thread, or one event that waits to be
    dispatched, and is then open and disarmed; and an open connection with neither
    has an armed entry: a request is parsed by one thread at a time, and is not
    forgotten. *)
Theorem http_workers_exclusive {any} MD5 store dangling gzipCompress regex_search order files date php_fpm
    (evfd svr alive session idle : Z) (sendfile : bool) (w : Sessions.t any) (mono : Z * Z) (max_threads : nat)
    (t t' : TcpServer.t HttpRequest.t (Sessions.t any)) (p : list (Z * Z)) (q : ThreadPool.t TcpServer.task) :
  NoDup [evfd; svr; alive; session] -> EventLoop.start mono (EventLoop.new evfd svr alive session idle sendfile w) = Ok t ->
  0 < max_threads ->
  rtc (http_pool_step MD5 store dangling gzipCompress regex_search order files date php_fpm)
    (t, [], ThreadPool.new max_threads) (t', p, q) ->
  (exists b, WorkerPool.stands_for (t', p, q) b
     /\ rtc (http_step MD5 store dangling gzipCompress regex_search order files date php_fpm) (t, []) b)
  /\ length (WorkerPool.in_threads q) <= max_threads
  /\ (ThreadPool.tasks_ q <> [] -> ThreadPool.attended q /\ exists q', ThreadPool.run_step q q' \/ ThreadPool.add_step q q')
  /\ forall fd, ~ TcpServer.reserved t' fd ->
     length (WorkerPool.pool_work q fd) + length (EventLoop.pending p fd) <= 1
     /\ (WorkerPool.pool_work q fd <> [] \/ EventLoop.pending p fd <> [] ->
           TcpServer.is_open t' fd /\ exists i, TcpServer.poller_ t' !! fd = Some i /\ EPoller.armed i = false)
     /\ (TcpServer.is_open t' fd -> WorkerPool.pool_work q fd = [] -> EventLoop.pending p fd = [] ->
           exists i, TcpServer.poller_ t' !! fd = Some i /\ EPoller.armed i = true).
Proof.
  intros Hd Hf Hmax Hs. apply EventLoop.start_fresh in Hf; [|done].
  destruct (WorkerPool.fresh_up _ max_threads Hf) as [Hu Ha]. destruct (http_pool_sim _ _ _ _ _ _ _ _ _ _ _ _ Hu Ha Hs) as (Hp & (_ & _ & Hup & _) & b & Hb & Hrun).
  cbn [snd] in Hp, Hup. pose proof (ThreadPool.steps_threads _ _ Hp) as Hlen. cbn in Hlen. rewrite length_replicate in Hlen. split; [by exists b|]. split.
  { etrans; [apply WorkerPool.in_threads_length|]. by rewrite Hlen. }
  split.
  - apply (ThreadPool.steps_inv _ _ (ThreadPool.new_inv max_threads)) in Hp. intros Hne.
    apply ThreadPool.attended_running; [done|done|done|]. intros E. rewrite E in Hlen. simpl in Hlen. lia.
  - intros fd Hn. destruct Hb as (rs & Hrs & ->). cbn [fst snd] in Hrs, Hrun.
    apply EventLoop.fresh_good in Hf. apply (http_good _ _ _ _ _ _ _ _ _ _ _ Hf) in Hrun. by apply (WorkerPool.pool_exclusive t' p q rs).
Qed.

(** A request that arrives, is read and answered. *)
Notation tcp := (TcpServer.t HttpRequest.t (Sessions.t unit)).
Definition http_new : tcp := EventLoop.new 3 4 5 6 1000 false demo_sessions.
Definition http_demo : tcp := get_ok http_new (EventLoop.start (0, 0)%Z http_new).
Definition report_one (fd : Z) (t : tcp) := TcpServer.set_poller (EventLoop.report_all [(fd, EPoller.EPOLLIN)] (TcpServer.poller_ t)) t.
Definition demo_callbacks :=
  callbacks demo_md5 demo_store (fun s => s) (fun s => s) no_regex demo_order demo_files true (bs "now") demo_php demo_http.
Definition http_accepted :=
  get_ok http_demo (EventLoop.dispatch_event demo_callbacks (TimeStamp.make 0) (Some (9%Z, Raw)) (4, EPoller.EPOLLIN)%Z (report_one 4 http_demo)).
Definition http_queued :=
  get_ok http_demo (EventLoop.dispatch_event demo_callbacks (TimeStamp.make 0) None (9, EPoller.EPOLLIN)%Z (report_one 9 (TcpServer.set_work [] [] http_accepted))).
Definition http_answered :=
  get_ok http_demo (TcpServer.run_task demo_callbacks (TcpServer.OnRead 9) (TcpServer.Outcome [demo_text] [] (-1) 11)
    (TcpServer.set_work [] [] http_queued)).

Notation demo_step :=
  (http_step (any := unit) demo_md5 demo_store (fun s => s) (fun s => s) no_regex demo_order demo_files (bs "now") demo_php).
Notation demo_pool_step :=
  (http_pool_step (any := unit) demo_md5 demo_store (fun s => s) (fun s => s) no_regex demo_order demo_files (bs "now") demo_php).

(** One thread: it takes the task that was pushed when the request arrives before
    the loop notifies, and then is free again. *)
Definition demo_pool_idle : ThreadPool.t TcpServer.task := ThreadPool.new 1.
Definition demo_pool_queued : ThreadPool.t TcpServer.task :=
  ThreadPool.emplace (TcpServer.OnRead 9) (ThreadPool.set_callers [ThreadPool.Notifying] demo_pool_idle).
Definition demo_pool_busy : ThreadPool.t TcpServer.task := ThreadPool.check 0 demo_pool_queued.
Definition demo_pool_done : ThreadPool.t TcpServer.task := ThreadPool.finish 0 (TcpServer.OnRead 9) (ThreadPool.set_callers [] demo_pool_busy).

Lemma http_demo_steps : rtc demo_pool_step (http_demo, [], demo_pool_idle) (http_answered, [], demo_pool_done).
Proof.
  eapply rtc_l; [exists demo_http; apply (WorkerPool.ps_poll _ http_demo [(4, EPoller.EPOLLIN)%Z]); [reflexivity|reflexivity|EventLoop.batch_reported]|].
  eapply rtc_l; [exists demo_http; apply (WorkerPool.ps_dispatch _ (report_one 4 http_demo) [] _ (TimeStamp.make 0) (Some (9%Z, Raw)) http_accepted)|].
  { reflexivity. }
  { EventLoop.batch_accepted. }
  { intros E. discriminate E. }
  { vm_compute. reflexivity. }
  eapply rtc_l; [exists demo_http; apply (WorkerPool.ps_poll _ (TcpServer.set_work [] [] http_accepted) [(9, EPoller.EPOLLIN)%Z]); [reflexivity|reflexivity|EventLoop.batch_reported]|].
  eapply rtc_l; [exists demo_http; apply (WorkerPool.ps_dispatch _ (report_one 9 (TcpServer.set_work [] [] http_accepted)) [] _ (TimeStamp.make 0) None http_queued)|].
  { reflexivity. }
  { exact I. }
  { intros E. discriminate E. }
  { vm_compute. reflexivity. }
  eapply rtc_l; [exists demo_http; apply WorkerPool.ps_add, (ThreadPool.add_push _ [] [] (TcpServer.OnRead 9)); [reflexivity|by repeat constructor]|].
  eapply rtc_l; [exists demo_http; apply (WorkerPool.ps_check _ _ _ demo_pool_queued 0); [by repeat constructor|reflexivity]|].
  eapply rtc_l; [exists demo_http; apply WorkerPool.ps_add, (ThreadPool.add_notify _ [] []); [reflexivity|apply ThreadPool.notify_none; by repeat constructor]|].
  apply rtc_once. exists demo_http.
  apply (WorkerPool.ps_finish _ _ _ _ 0 (TcpServer.OnRead 9) (TcpServer.Outcome [demo_text] [] (-1) 11)).
  - reflexivity.
  - vm_compute. reflexivity.
Qed.

Lemma http_workers_exclusive_witness :
  TcpServer.is_open http_answered 9 /\ exists i, TcpServer.poller_ http_answered !! 9%Z = Some i /\ EPoller.armed i = true.
Proof.
  destruct (http_workers_exclusive (any := unit) demo_md5 demo_store (fun s => s) (fun s => s) no_regex demo_order demo_files (bs "now")
    demo_php 3 4 5 6 1000 false demo_sessions (0, 0)%Z 1 http_demo http_answered [] demo_pool_done) as (_ & _ & _ & H).
  - apply (bool_decide_unpack _). vm_compute. exact I.
  - vm_compute. reflexivity.
  - lia.
  - exact http_demo_steps.
  - assert (TcpServer.is_open http_answered 9) as Ho by (vm_compute; by eexists).
    split; [exact Ho|]. apply (H 9%Z); [|exact Ho|vm_compute; reflexivity|reflexivity].
    intros [H'|[H'|[H'|H']]]; vm_compute in H'; discriminate H'.
Defined.
