(* ===== verification/HttpServerPhp.v ===== *)
(** * HttpServerPhp: a PHP page, from the request to php-fpm and back

    [dispatchPhpProcessor] with a php-fpm that speaks FastCGI: what it reads of
    the request, and what becomes of its answer. *)
From S2P Require Import Prelude CStr Buffer HttpUtil HttpMap HttpHeader HttpAuth HttpRequest HttpResponse PhpFastCgi HttpServer HttpServerSpec.
Import FastCgi HttpServer.

(** The parameters of a request, in the order in which they are sent. *)
Definition auth_params (req : HttpRequest.t) : list (PhpFastCgi.FCGI_Params * bytes) :=
  match HttpRequest.auth_ req with
  | Some (HttpBasicAuth user pass _) => [(PhpFastCgi.PHP_AUTH_USER, user); (PhpFastCgi.PHP_AUTH_PW, pass)]
  | Some (HttpDigestAuth info _) => [(PhpFastCgi.PHP_AUTH_DIGEST, info)]
  | None => []
  end.
Definition query_params (req : HttpRequest.t) : list (PhpFastCgi.FCGI_Params * bytes) :=
  if HttpRequest.hasQueryString req then [(PhpFastCgi.QUERY_STRING, HttpRequest.query_s_ req)] else [].
Definition method_params (m : HttpMethod) (req : HttpRequest.t) : list (PhpFastCgi.FCGI_Params * bytes) :=
  (PhpFastCgi.REQUEST_METHOD, HttpRequest.method_name m)
  :: match m with
     | POST =>
         match HttpHeader.get (bs "Content-Type") (HttpRequest.header_ req) with
         | Some type => [(PhpFastCgi.CONTENT_TYPE, type);
                         (PhpFastCgi.CONTENT_LENGTH, to_string (Z.of_nat (length (HttpRequest.post_data_ req))))]
         | None => []
         end
     | _ => []
     end.
Definition php_params (path : bytes) (m : HttpMethod) (req : HttpRequest.t) : list (PhpFastCgi.FCGI_Params * bytes) :=
  [(PhpFastCgi.SCRIPT_FILENAME, path)] ++ auth_params req ++ query_params req ++ method_params m req.

(** The record of a parameter that fits. *)
Definition param_bytes (pv : PhpFastCgi.FCGI_Params * bytes) : bytes :=
  let body := PhpFastCgi.makeNameValueBody (PhpFastCgi.params_ pv.1) pv.2 in
  header_bytes (PhpFastCgi.makeHeader 1 FCGI_PARAMS (Z.of_nat (length body)) 0) ++ body.

Lemma sendParams_fits p v : fits (p, v) -> PhpFastCgi.sendParams 1 p v = Ok (param_bytes (p, v)).
Proof. unfold fits, PhpFastCgi.sendParams. cbn [fst snd]. intros H. by rewrite (proj2 (Nat.ltb_ge _ _) H). Qed.

Lemma send_params_fits ps : Forall fits ps -> send_params 1 ps = Ok (mjoin (param_bytes <$> ps)).
Proof. induction 1 as [|[p v] ps Hp Hf IH]; [done|]. cbn [send_params]. by rewrite sendParams_fits, IH. Qed.

Lemma bytes_of_one x : mjoin (param_bytes <$> [x]) = param_bytes x.
Proof. apply app_nil_r. Qed.
Lemma bytes_of_cons x l : mjoin (param_bytes <$> x :: l) = param_bytes x ++ mjoin (param_bytes <$> l).
Proof. done. Qed.

(** The post data, in the parts [ks] that the socket takes. *)
Definition post_ok (php_fpm : php) (post : bytes) : Prop := exists ks,
  fpm_writes php_fpm = ks ++ [0%Z] /\ Forall (fun n => 0 < n)%Z ks /\ foldr Z.add 0%Z ks = Z.of_nat (length post)
  /\ (Z.of_nat (length post) < 65536)%Z.

Definition post_bytes (m : HttpMethod) (post : bytes) : bytes :=
  match m with
  | POST => header_bytes (PhpFastCgi.makeHeader 1 FCGI_STDIN (Z.of_nat (length post)) 0) ++ post
              ++ header_bytes (PhpFastCgi.makeHeader 1 FCGI_STDIN 0 0)
  | _ => []
  end.
Definition post_records (m : HttpMethod) (post : bytes) : list fcgi_record :=
  match m with POST => [Rec FCGI_STDIN 1 post; Rec FCGI_STDIN 1 []] | _ => [] end.

Lemma php_request_bytes (php_fpm : php) path req m :
  HttpRequest.method_ req = Some m -> Forall fits (php_params path m req) ->
  (m = POST -> post_ok php_fpm (HttpRequest.post_data_ req)) ->
  php_request php_fpm path req = Ok (PhpFastCgi.sendStartRequestRecord 1 ++ mjoin (param_bytes <$> php_params path m req)
    ++ PhpFastCgi.sendEndRequestRecord 1 ++ post_bytes m (HttpRequest.post_data_ req)).
Proof.
  intros Hm Hf Hp. unfold php_params in *. apply Forall_app in Hf as [Hs Hf]. apply Forall_app in Hf as [Ha Hf].
  apply Forall_app in Hf as [Hq Hf]. apply Forall_cons in Hs as [Hs _]. unfold method_params in Hf. apply Forall_cons in Hf as [Hr Hf].
  rewrite !fmap_app, !join_app. unfold php_request. rewrite sendParams_fits by done.
  assert (php_auth req = Ok (mjoin (param_bytes <$> auth_params req))) as ->.
  { unfold php_auth, auth_params in *. destruct (HttpRequest.auth_ req) as [[user pass v|info v]|]; [| |done].
    - apply Forall_cons in Ha as [H1 H2]. apply Forall_cons in H2 as [H2 _]. rewrite !sendParams_fits by done.
      by rewrite bytes_of_cons, bytes_of_one.
    - apply Forall_cons in Ha as [H1 _]. rewrite sendParams_fits by done. by rewrite bytes_of_one. }
  assert ((if HttpRequest.hasQueryString req then PhpFastCgi.sendParams 1 PhpFastCgi.QUERY_STRING (HttpRequest.query_s_ req) else Ok [])
    = Ok (mjoin (param_bytes <$> query_params req))) as ->.
  { unfold query_params in *. destruct (HttpRequest.hasQueryString req); [|done]. apply Forall_cons in Hq as [H1 _].
    rewrite sendParams_fits by done. by rewrite bytes_of_one. }
  assert (php_method php_fpm req = Ok (mjoin (param_bytes <$> method_params m req) ++ PhpFastCgi.sendEndRequestRecord 1
    ++ post_bytes m (HttpRequest.post_data_ req))) as ->.
  2: { f_equal. rewrite bytes_of_one. by rewrite <- !app_assoc. }
  unfold php_method. rewrite Hm. cbn [of_option]. unfold method_params, HttpRequest.method_name in *.
  destruct m; rewrite sendParams_fits by done; try (by rewrite bytes_of_one, app_nil_r).
  destruct (Hp eq_refl) as (ks & Hw & Hk & Hsum & Hlen). unfold PhpFastCgi.sendPost. rewrite Hw.
  rewrite s32_small by lia. rewrite post_loop_all by (done || lia). rewrite Nat2Z.id, Nat.sub_diag, drop_0. unfold post_bytes.
  destruct (HttpHeader.get (bs "Content-Type") (HttpRequest.header_ req)) as [type|].
  - apply Forall_cons in Hf as [H1 Hf]. apply Forall_cons in Hf as [H2 _]. rewrite !sendParams_fits by done.
    rewrite 2!bytes_of_cons, bytes_of_one. by rewrite <- !app_assoc.
  - by rewrite bytes_of_one.
Qed.

(** What the FastCGI specification reads of it. *)
Lemma php_request_records ps m post :
  Forall fits ps -> (m = POST -> (Z.of_nat (length post) < 65536)%Z) ->
  parse_records (length ps + 5) (PhpFastCgi.sendStartRequestRecord 1 ++ mjoin (param_bytes <$> ps)
      ++ PhpFastCgi.sendEndRequestRecord 1 ++ post_bytes m post)
  = Some (Rec FCGI_BEGIN_REQUEST 1 (begin_bytes (PhpFastCgi.makeBeginRequestBody FCGI_RESPONDER false))
          :: (params_record 1 <$> ps) ++ Rec FCGI_PARAMS 1 [] :: post_records m post).
Proof.
  intros Hf Hl. destruct (parse_send_params 1 ps (PhpFastCgi.sendEndRequestRecord 1 ++ post_bytes m post) 4 ltac:(lia) Hf) as (a & Ea & Pa).
  rewrite send_params_fits in Ea by done. injection Ea as <-.
  replace (length ps + 5) with (S (length ps + 4)) by lia. unfold PhpFastCgi.sendStartRequestRecord.
  change 8%Z with (Z.of_nat (length (begin_bytes (PhpFastCgi.makeBeginRequestBody FCGI_RESPONDER false)))).
  rewrite <- !app_assoc. rewrite parse_record by (done || lia). rewrite Pa.
  unfold PhpFastCgi.sendEndRequestRecord. rewrite parse_control by (done || lia). unfold post_bytes, post_records.
  destruct m; [done| |done]. rewrite parse_record by (done || lia || by apply Hl).
  rewrite <- (app_nil_r (header_bytes (PhpFastCgi.makeHeader 1 FCGI_STDIN 0 0))), parse_control by (done || lia). done.
Qed.

(** ** The answer *)
Definition php_code (h : HttpHeader.t) (code : Z) : result Z :=
  match HttpHeader.get (bs "Status") h with Some x => atoi (c_str (before_space x)) | None => Ok code end.

Lemma parse_rendered (h : HttpHeader.t) (rest : bytes) :
  HttpHeader.wf h -> Forall HttpHeader.clean h ->
  HttpHeader.parse (HttpHeader.toString h ++ CRLF ++ rest) [] = Ok (h, length (HttpHeader.toString h) + 2).
Proof.
  intros Hw Hc. unfold HttpHeader.parse. rewrite HttpHeader.parse_loop_toString; [done|done|done|].
  rewrite length_app. pose proof (HttpHeader.length_toString h). lia.
Qed.

Lemma php_response_spec (status : bool) (h : HttpHeader.t) (body : bytes) (resp : HttpResponse.t) code :
  HttpHeader.wf h -> Forall HttpHeader.clean h -> php_code h (HttpResponse.code_ resp) = Ok code ->
  Buffer.wf (HttpResponse.tmp_buffer_ resp) ->
  exists resp', php_response status (HttpHeader.toString h ++ CRLF ++ body) resp = Ok resp' /\ HttpResponse.code_ resp' = code
    /\ HttpResponse.header_ resp' = HttpHeader.add_all h (HttpResponse.header_ resp)
    /\ (status = true \/ code = 200%Z ->
          HttpResponse.resp_file_ resp' = false /\ Buffer.contents (HttpResponse.tmp_buffer_ resp') = body)
    /\ (status = false -> code <> 200%Z -> HttpResponse.tmp_buffer_ resp' = HttpResponse.tmp_buffer_ resp).
Proof.
  intros Hw Hc Hcode Hb. unfold php_response. rewrite parse_rendered by done.
  set (r0 := HttpResponse.setHeaders h resp).
  assert (exists r1, (match HttpHeader.get (bs "Status") h with
     | Some x => let* code := atoi (c_str (before_space x)) in Ok (HttpResponse.setCode code r0) | None => Ok r0 end) = Ok r1
     /\ HttpResponse.code_ r1 = code /\ HttpResponse.header_ r1 = HttpResponse.header_ r0
     /\ HttpResponse.tmp_buffer_ r1 = HttpResponse.tmp_buffer_ resp) as (r1 & -> & H1 & H2 & H3).
  { unfold php_code in Hcode. destruct (HttpHeader.get (bs "Status") h); [rewrite Hcode; by eexists|].
    injection Hcode as <-. by exists r0. }
  rewrite H1. destruct (setBody_spec body r1) as (r2 & E2 & Hf & Hbody & _ & Hcd & _ & _ & Hh); [by rewrite H3|].
  replace (length (HttpHeader.toString h) + 2) with (length (HttpHeader.toString h ++ CRLF)) by (rewrite length_app; done).
  rewrite app_assoc, remove_prefix_app by done. rewrite E2.
  destruct status; cbn [negb andb].
  - exists r2. split; [done|]. split; [by rewrite Hcd|]. split; [by rewrite Hh|]. done.
  - destruct (Z.eqb_spec code 200) as [E|E]; cbn [negb].
    + exists r2. split; [done|]. split; [by rewrite Hcd|]. split; [by rewrite Hh|]. done.
    + exists r1. do 3 (split; [done|]). split; [intros [?|?]; done|done].
Qed.

(** C17: A PHP page, when php-fpm is up and its whole answer is there in one piece
    and has a well-formed header.  For a request whose parameters fit their
    records and, if it is a POST, whose post data is below 65536 bytes and is
    taken by the socket, php-fpm is sent a request that FastCGI reads as the
    script, the credentials, the query and the method of the request, and the post
    data of a POST.  And if all of the answer has arrived before the first read,
    and is records with at most 8 bytes of padding and error texts of at most 2048,
    whose output is a header, an empty line and a body, where the header is
    printed the way [HttpHeader] prints one (keys sorted and in lower case, one
    entry per key other than set-cookie, no colon or carriage return inside a key,
    none inside a value, no value that begins with a space) and the number in its
    Status field, if it has one, fits an [int], then the response gets the fields of
    the header, the code of its Status field, and the body, unless there was an
    error record and the code is not 200.  An answer that arrives in several
    pieces is another matter: [fpm_response_unsynchronised] of PhpFastCgi shows how
    it is misread. *)
Theorem php_page {any : Type} (php_fpm : php) (path : bytes) (req : HttpRequest.t) (resp : HttpResponse.t) (e : env (any := any))
    (m : HttpMethod) (xs : list fpm_record) (h : HttpHeader.t) (body : bytes) (code : Z) :
  fpm_up php_fpm = true -> HttpRequest.method_ req = Some m -> Forall fits (php_params path m req) ->
  (m = POST -> post_ok php_fpm (HttpRequest.post_data_ req)) ->
  exists out, php_request php_fpm path req = Ok out
    /\ parse_records (length (php_params path m req) + 5) out
       = Some (Rec FCGI_BEGIN_REQUEST 1 (begin_bytes (PhpFastCgi.makeBeginRequestBody FCGI_RESPONDER false))
               :: (params_record 1 <$> php_params path m req) ++ Rec FCGI_PARAMS 1 [] :: post_records m (HttpRequest.post_data_ req))
    /\ (fpm php_fpm out = arrived (mjoin (fpm_bytes <$> xs)) -> fpm_fuel php_fpm = S (length xs) ->
        length (fpm_junk php_fpm) = 16 -> Forall fpm_ok xs ->
        mjoin (stdout_of <$> xs) = HttpHeader.toString h ++ CRLF ++ body ->
        HttpHeader.wf h -> Forall HttpHeader.clean h -> php_code h (HttpResponse.code_ resp) = Ok code ->
        Buffer.wf (HttpResponse.tmp_buffer_ resp) ->
        let status := (foldl report (true, bs "OK") xs).1 in
        exists resp', dispatchPhpProcessor php_fpm path req resp e
            = Ok (resp', set_php_message (foldl report (true, bs "OK") xs).2 e)
          /\ HttpResponse.code_ resp' = code
          /\ HttpResponse.header_ resp' = HttpHeader.add_all h (HttpResponse.header_ resp)
          /\ (status = true \/ code = 200%Z -> Buffer.contents (HttpResponse.tmp_buffer_ resp') = body)
          /\ (status = false -> code <> 200%Z -> HttpResponse.tmp_buffer_ resp' = HttpResponse.tmp_buffer_ resp)).
Proof.
  intros Hup Hm Hf Hp. pose proof (php_request_bytes php_fpm path req m Hm Hf Hp) as Eout.
  eexists. split; [exact Eout|]. split.
  { apply php_request_records; [done|]. intros H. by destruct (Hp H) as (ks & _ & _ & _ & ?). }
  set (out := _ ++ _) in *. intros Hfpm Hfuel Hj Hok Hout Hw Hc Hcode Hb status.
  destruct (readPhpFpm_spec xs (fpm_junk php_fpm) (Buffer.new Buffer.default_size) Hok Hj (Buffer.new_wf _)) as (b & Eb & _ & Cb).
  unfold dispatchPhpProcessor. rewrite Hup, Eout, Hfpm, Hfuel, Eb. cbn [negb].
  assert (Buffer.contents b = HttpHeader.toString h ++ CRLF ++ body) as -> by (rewrite Cb; exact Hout).
  destruct (php_response_spec status h body resp code Hw Hc Hcode Hb) as (r & Er & H1 & H2 & H3 & H4).
  unfold status in *. rewrite Er. exists r. split; [done|]. split; [done|]. split; [done|]. split; [|done]. intros H. by apply H3.
Qed.

(** A page that answers 404. *)
Definition page_header : HttpHeader.t := [(bs "content-type", bs "text/html"); (bs "status", bs "404 Not Found")].
Definition page_records : list fpm_record :=
  [Stdout (HttpHeader.toString page_header ++ CRLF ++ bs "<p>none") (bs "pad"); Stdout (bs "</p>") []; EndRequest (replicate 8 NUL)].
Definition page_php : php :=
  Php true true (fun _ => arrived (mjoin (fpm_bytes <$> page_records))) [] 4 (replicate 16 "j"%char).

Lemma php_page_witness :
  exists out resp', php_request page_php (bs "/srv/x.php") (demo_parse demo_text).1.2 = Ok out
    /\ dispatchPhpProcessor page_php (bs "/srv/x.php") (demo_parse demo_text).1.2 demo_response demo_env
       = Ok (resp', set_php_message (bs "OK") demo_env) /\ HttpResponse.code_ resp' = 404%Z
    /\ Buffer.contents (HttpResponse.tmp_buffer_ resp') = bs "<p>none</p>".
Proof.
  destruct (php_page page_php (bs "/srv/x.php") (demo_parse demo_text).1.2 demo_response
    (Env demo_sessions None [] []) GET page_records page_header (bs "<p>none</p>") 404) as (out & Eout & _ & H).
  - reflexivity.
  - vm_compute. reflexivity.
  - repeat (constructor; [apply Nat.leb_le; vm_compute; reflexivity|]). constructor.
  - discriminate.
  - exists out. destruct H as (resp' & E & Hc & _ & Hb & _).
    + reflexivity.
    + reflexivity.
    + reflexivity.
    + repeat (constructor; [apply (bool_decide_unpack _); vm_compute; exact I|]). constructor.
    + vm_compute. reflexivity.
    + split; [repeat constructor|]. split; [repeat constructor|]. apply (bool_decide_unpack _). vm_compute. exact I.
    + repeat constructor; simpl; try (apply (bool_decide_unpack _); vm_compute; exact I).
    + vm_compute. reflexivity.
    + exact demo_response_wf.
    + exists resp'. split; [exact Eout|]. split; [exact E|]. split; [exact Hc|]. apply Hb. left. reflexivity.
Defined.
