(* ===== verification/HttpServerSession.v ===== *)
(** * HttpServerSession: a session over two requests

    A service asks for the session of a request without a session cookie, and
    stores a value in it; the browser sends the cookie of the response back; the
    service gets the same session with that value.  This goes through
    [HttpServer::associateSession], [HttpServer::associateRequestSession],
    [HttpCookie::toString], [HttpRequest::parseCookie] and [HttpSession]; the
    sessions are the implementation of the [HttpSessionServer] interface. *)
From S2P Require Import Prelude CStr TimeStamp Buffer EncodeUtil HttpMap HttpHeader HttpRequest HttpResponse HttpSession HttpServer.

(** ** The text of a cookie *)
Lemma urlEncode_id s : Forall (fun c => EncodeUtil.unreserved c = true) s -> EncodeUtil.urlEncode s = s.
Proof.
  induction 1 as [|c s Hc _ IH]; [done|]. cbn [EncodeUtil.urlEncode]. unfold EncodeUtil.encode_byte. by rewrite Hc, IH.
Qed.

Lemma genRandromStr_unreserved r : Forall (fun c => EncodeUtil.unreserved c = true) (EncodeUtil.genRandromStr r).
Proof.
  apply Forall_fmap, Forall_forall. intros x _. cbn.
  assert (forallb (fun n => EncodeUtil.unreserved (EncodeUtil.alpha !!! n)) (seq 0 62) = true) as Hall by (vm_compute; reflexivity).
  rewrite forallb_forall in Hall. apply Hall, in_seq. pose proof (Nat.mod_upper_bound x 62 ltac:(lia)). lia.
Qed.

Lemma session_name_unreserved r :
  Forall (fun c => EncodeUtil.unreserved c = true) (bs "SESSIONID_" ++ EncodeUtil.genRandromStr r).
Proof. apply Forall_app. split; [by repeat constructor|apply genRandromStr_unreserved]. Qed.

(** The pair that names a session, as the browser sends it. *)
Definition session_pair (x : bytes) : bytes := bs "SESSIONID=" ++ x.

(** The cookie that a response sets is read back. *)
Lemma parseCookie_session (x : bytes) (req : HttpRequest.t) :
  Forall (fun c => EncodeUtil.unreserved c = true) x ->
  HttpHeader.get (bs "Cookie") (HttpRequest.header_ req) = Some (session_pair x) -> HttpRequest.cookies_ req = ∅ ->
  exists req', HttpRequest.parseCookie req = Ok req' /\ HttpRequest.cookies_ req' = {[bs "SESSIONID" := x]}.
Proof.
  intros Hx Hc He. unfold HttpRequest.parseCookie. rewrite Hc, He.
  pose proof (HttpRequest.parseKeyValue_render ";" 0 [(bs "SESSIONID", x)] [NUL] ∅ eq_refl ltac:(discriminate)) as H.
  cbn [HttpRequest.render_pairs] in H. unfold HttpRequest.render_pair in H. cbn [fst snd] in H.
  rewrite (urlEncode_id x) in H by done.
  replace (EncodeUtil.urlEncode (bs "SESSIONID") ++ "="%char :: x) with (session_pair x) in H by reflexivity.
  change (bs ";") with [";"%char]. rewrite H. by eexists.
Qed.

(** ** The session behind the pointer *)
Section values.
Context {any : Type} (life : Z).
Implicit Types (w : Sessions.t any).

Lemma update_represents w m x f w' :
  Sessions.represents life w m -> Sessions.update x f w = Ok w' ->
  (forall s, HttpSession.id_ (f s) = HttpSession.id_ s /\ HttpSession.interval_ (f s) = HttpSession.interval_ s
     /\ HttpSession.status_ (f s) = HttpSession.status_ s) ->
  Sessions.represents life w' m.
Proof.
  intros R E Hf. unfold Sessions.update in E. destruct (_ !! x) as [s|] eqn:Es; [|done]. injection E as <-.
  destruct R as [R1 R2 R3 R4]. split; [|  |exact R3|exact R4]; cbn.
  - intros id st ts Hm. destruct (R1 id st ts Hm) as (s' & Es' & Hid & Hin & Hst & Ht).
    destruct (decide (id = x)) as [->|Hne].
    + rewrite Es in Es'. injection Es' as <-. destruct (Hf s) as (F1 & F2 & F3).
      exists (f s). rewrite lookup_insert_eq, F1, F2, F3. done.
    + exists s'. by rewrite lookup_insert_ne by done.
  - intros id Hm. destruct (decide (id = x)) as [->|Hne]; [|rewrite lookup_insert_ne by done; by apply R2].
    apply R2 in Hm. congruence.
Qed.

End values.

Import HttpServer.

(** The implementation of the interface at a configuration, a time and what lies
    behind the buffer of the name. *)
Notation sessions_at life after clock mono := (Sessions.HttpServer_sessions life after clock mono).

(** C23: A session lasts from one request to the next.  A request without a
    session cookie gets a new session, and its response sets the cookie that
    names it; a value that the service stores in it stays: a later request with
    that cookie is parsed and gets the same session with that value, and its
    response sets no cookie.  The clock does not go back between the two, and the
    session has not expired or been invalidated. *)
Theorem session_continues {any V} (life : Z) (cast : any -> option V)
    (after after' : bytes) (clock clock' : TimeStamp.t) (mono mono' : Z * Z)
    (req req' : HttpRequest.t) (resp resp' : HttpResponse.t) (e : env) (ms : list bytes) (msg : bytes)
    (m : gmap bytes (HttpSession.Status * TimeStamp.t)) (x key : bytes) (value : any) :
  (0 <= life <= 2147)%Z -> Sessions.represents life (e_sessions e) m ->
  HttpMap.get (bs "SESSIONID") (HttpRequest.cookies_ req) = None ->
  16 <= length (Sessions.rand_ (e_sessions e)) ->
  x = bs "SESSIONID_" ++ EncodeUtil.genRandromStr (take 16 (Sessions.rand_ (e_sessions e))) ->
  (forall id, is_Some (m !! id) -> Sessions.timer_key id <> Sessions.timer_key x) ->
  (forall id st ts, m !! id = Some (st, ts) ->
     (TimeStamp.microsecond_ ts <= TimeStamp.microsecond_ (Sessions.deadline life clock))%Z) ->
  (TimeStamp.microsecond_ (Sessions.deadline life clock) <= TimeStamp.microsecond_ (Sessions.deadline life clock'))%Z ->
  HttpHeader.get (bs "Cookie") (HttpRequest.header_ req') = Some (session_pair x) ->
  HttpRequest.cookies_ req' = ∅ ->
  exists e1 w1,
    getSession (H := sessions_at life after clock mono) req e = Ok (x, e1)
    /\ Sessions.update x (HttpSession.setValue key value) (e_sessions e1) = Ok w1
    /\ associateRequestSession resp (Env w1 (session_ e1) (match_ e1) (php_message_ e1))
       = Ok (HttpResponse.setCookie (session_pair x ++ bs "; Path=/") resp)
    /\ exists req2 e2 s,
         HttpRequest.parseCookie req' = Ok req2
         /\ getSession (H := sessions_at life after' clock' mono') req2 (Env w1 None ms msg) = Ok (x, e2)
         /\ associateRequestSession resp' e2 = Ok resp'
         /\ Sessions.sessions_ (e_sessions e2) !! x = Some s /\ HttpSession.getId s = x
         /\ HttpSession.getValue cast key s = cast value.
Proof.
  intros Hl R Hn Hr Ex Hf Hd Hc Hh He.
  pose proof (Sessions.session_name_eq after (take 16 (Sessions.rand_ (e_sessions e)))) as En.
  rewrite length_take, Nat.min_l, <- Ex in En by done. specialize (En eq_refl).
  pose proof (Sessions.associate_represents life after clock mono (HttpRequest.cookies_ req) _ m R Hl Hr) as H.
  unfold Sessions.spec_associate in H. rewrite Hn, En in H. destruct (H Hf Hd) as (w & Ew & Rw). clear H.
  destruct (Sessions.rep_session _ _ _ Rw x HttpSession.New (Sessions.deadline life clock)) as (s & Es & Hid & Hin & Hst & _);
    [by rewrite lookup_insert_eq|].
  set (s1 := HttpSession.setValue key value s).
  set (w1 := Sessions.Make (<[x := s1]> (Sessions.sessions_ w)) (Sessions.session_timer_ w) (Sessions.rand_ w)).
  assert (Sessions.update x (HttpSession.setValue key value) w = Ok w1) as Eu by (unfold Sessions.update; by rewrite Es).
  assert (Sessions.sessions_ w1 !! x = Some s1) as Es1 by (cbn; by rewrite lookup_insert_eq).
  exists (Env w (Some x) (match_ e) (php_message_ e)), w1. split; [|split; [exact Eu|split; [|]]].
  { unfold getSession. cbn. by rewrite Ew. }
  { unfold associateRequestSession. cbn [session_ e_sessions]. rewrite Es1. cbn [of_option]. unfold HttpSession.isNew, HttpSession.getId.
    change (HttpSession.status_ s1) with (HttpSession.status_ s). change (HttpSession.id_ s1) with (HttpSession.id_ s).
    by rewrite Hst, Hid. }
  destruct (parseCookie_session x req') as (req2 & E2 & Hc2); [by rewrite Ex; apply session_name_unreserved|done..|].
  assert (Sessions.find_session (HttpRequest.cookies_ req2) w1 = Some (x, s1)) as Hfind.
  { unfold Sessions.find_session, HttpMap.get. rewrite Hc2, lookup_singleton_eq, Es1.
    unfold HttpSession.isDestroy, s1. cbn. by rewrite Hst. }
  destruct (Sessions.associate_found life after' clock' mono' (HttpRequest.cookies_ req2) w1
    (<[x := (HttpSession.New, Sessions.deadline life clock)]> m) x s1 HttpSession.New (Sessions.deadline life clock))
    as (w2 & Ew2 & _ & Hw2); [by eapply update_represents|done..|by rewrite lookup_insert_eq|done|].
  exists req2, (Env w2 (Some x) ms msg), (HttpSession.setStatus HttpSession.Accessed s1).
  split; [exact E2|]. split; [unfold getSession; cbn; by rewrite Ew2|].
  split; [unfold associateRequestSession; cbn; by rewrite Hw2|]. split; [exact Hw2|]. split; [exact Hid|].
  unfold HttpSession.getValue, s1. cbn. unfold HttpMap.add. by rewrite lookup_insert_eq.
Qed.

Lemma session_continues_witness :
  let e := Env (Sessions.Make (any := nat) ∅ None (replicate 16 10)) None [] [] in
  let req' := HttpRequest.setHeader (bs "Cookie") (bs "SESSIONID=SESSIONID_aaaaaaaaaaaaaaaa") HttpRequest.new in
  match getSession (H := sessions_at 10 [] (TimeStamp.Make 5) (0, 0)%Z) HttpRequest.new e with
  | Ok (x, e1) =>
      exists w1 req2 e2 s, Sessions.update x (HttpSession.setValue (bs "user") 7) (e_sessions e1) = Ok w1
        /\ HttpRequest.parseCookie req' = Ok req2
        /\ getSession (H := sessions_at 10 [] (TimeStamp.Make 900) (0, 0)%Z) req2 (Env w1 None [] []) = Ok (x, e2)
        /\ Sessions.sessions_ (e_sessions e2) !! x = Some s /\ HttpSession.getValue Some (bs "user") s = Some 7
  | Err _ => False
  end.
Proof.
  cbv zeta. set (req' := HttpRequest.setHeader _ _ _). set (e := Env _ _ _ _).
  set (resp := HttpResponse.Make [] [] HttpUtil.HTTP_1_1 [] HttpUtil.GET false false false 200 (Buffer.new 0)).
  destruct (session_continues 10 Some [] [] (TimeStamp.Make 5) (TimeStamp.Make 900) (0, 0)%Z (0, 0)%Z HttpRequest.new req' resp resp
    e [] [] ∅ (bs "SESSIONID_aaaaaaaaaaaaaaaa") (bs "user") 7) as (e1 & w1 & -> & Hu & _ & req2 & e2 & s & Hp & Hg & _ & Hs & _ & Hv);
    [lia|apply Sessions.represents_empty|reflexivity|simpl; lia|reflexivity| | |vm_compute; discriminate|reflexivity|reflexivity|].
  - intros id [v Hv]. rewrite lookup_empty in Hv. discriminate Hv.
  - intros id st ts Hv. rewrite lookup_empty in Hv. discriminate Hv.
  - exists w1, req2, e2, s. split; [exact Hu|]. split; [exact Hp|]. split; [exact Hg|]. split; [exact Hs|exact Hv].
Defined.
