(* ===== verification/HttpServerRun.v ===== *)
(** * HttpServerRun: conversations over the event loop

    The parts together: a client sends requests on one connection, cut into
    whatever pieces the network makes of them; the event loop, a worker, the
    request parser, the routing, the response builder and the write loop answer
    them; and the kernel takes the answers in whatever parts it likes. *)
From S2P Require Import Prelude CStr Buffer TimeStamp TimerHeap TimerQueue EncodeUtil HttpUtil HttpMap HttpHeader HttpAuth HttpRequest RequestPieces Channel HttpResponse HttpService HttpSession TcpServer EventLoop EventRun PhpFastCgi AppConfig HttpServer HttpServerSpec HttpServerSafety.
Import HttpServer EventRun.
#[local] Existing Instance HttpRequest.RetCode_eq_dec.

(** ** A request and how it arrives *)
(** At [x_time] the events of [x_reads] bring the pieces but for the last. *)
Record exchange := Exchange {
  x_time : TimeStamp.t; x_request : HttpRequest.plain; x_reads : list (list bytes); x_last : list bytes }.

Section conversation.
Context {any : Type} (MD5 : bytes -> bytes) (store : HttpPassStore.t) (dangling gzipCompress : bytes -> bytes).
Context (regex_search : bytes -> bytes -> option (list bytes)) (order : forall V, HttpMap.t V -> list (bytes * V)).
Context (files : bytes -> option HttpResponse.file) (date : bytes) (php_fpm : php).
Context (h : HttpServer.t (any := any)).
(** The kernel: the rounds in which it takes what a channel offers. *)
Context (kernel : Channel.t Buffer.t -> list (list Z)).
(** The connection and the type of its channel. *)
Context (fd : Z) (ty : ChannelType).

Notation tcp := (TcpServer.t HttpRequest.t (Sessions.t any)).
Implicit Types (t : tcp) (x : exchange) (p : HttpRequest.plain).

Definition cb : TcpServer.callbacks HttpRequest.t (Sessions.t any) :=
  callbacks MD5 store dangling gzipCompress regex_search order files true date php_fpm h.

(** The events of an exchange: the pieces are read, and then the answer that
    the worker left in the channel is written. *)
Definition read_cycles (n : nat) (clock : TimeStamp.t) (reads : list (list bytes)) : list cmd :=
  mjoin (read_cycle n fd clock ty <$> reads).

Definition run_exchange (n : nat) x t : option tcp :=
  match exec_all cb (read_cycles n (x_time x) (x_reads x ++ [x_last x])) (t, []) with
  | Some (t1, []) =>
      match TcpServer.channel_ (TcpServer.conn_at fd t1) with
      | Some ch =>
          match exec_all cb (write_cycles n fd (x_time x) TcpConnection.EAGAIN (kernel ch)) (t1, []) with
          | Some (t2, []) => Some t2
          | _ => None
          end
      | None => None
      end
  | _ => None
  end.

Fixpoint run_conversation (n : nat) (xs : list exchange) t : option tcp :=
  match xs with
  | [] => Some t
  | x :: xs => match run_exchange n x t with Some t1 => run_conversation n xs t1 | None => None end
  end.

(** The pieces make up the request, with the request line in the first and the
    end of the header in the last, and no event brings nothing. *)
Definition exchange_ok x : Prop :=
  let p := x_request x in
  let pieces := mjoin <$> x_reads x in
  HttpRequest.plain_ok p /\ HttpRequest.p_method p <> HEAD
  /\ mjoin pieces ++ mjoin (x_last x) = HttpRequest.plain_text p
  /\ length (mjoin pieces) < length (head_text p)
  /\ Forall (fun piece => piece <> []) pieces
  /\ (forall first rest, pieces = first :: rest -> length (line_text p) <= length first).

(** The request is for the file [f] below a mounted directory. *)
Definition finds p (f : HttpResponse.file) : Prop := exists prefix dir rest,
  let url := EncodeUtil.urlDecode (HttpRequest.p_path p) in
  url = prefix ++ rest /\ no_service regex_search order h url /\ mounted_at order h url prefix dir
  /\ plain_path (dir ++ rest) /\ fs files (dir ++ rest) = Some f.

Notation keeps p := (HttpRequest.plain_keepalive dangling p).

(** Time does not go back, and only the last request may close the connection. *)
Fixpoint exchanges_ok (clock : TimeStamp.t) (xs : list (exchange * HttpResponse.file)) : Prop :=
  match xs with
  | [] => True
  | (x, f) :: xs =>
      (TimeStamp.microsecond_ clock <= TimeStamp.microsecond_ (x_time x) < 2 ^ 63)%Z
      /\ exchange_ok x /\ finds (x_request x) f /\ (xs = [] \/ keeps (x_request x) = true)
      /\ exchanges_ok (x_time x) xs
  end.

(** Whether the last request leaves the connection open. *)
Definition stays_open (xs : list (exchange * HttpResponse.file)) : bool :=
  match last xs with Some (x, _) => keeps (x_request x) | None => true end.

(** The answer: the file behind the header of a response with code 200. *)
Definition answers (xf : exchange * HttpResponse.file) (a : bytes) : Prop := exists b body,
  a = head_block b (bs "OK") ++ body /\ HttpResponse.code_ b = 200%Z
  /\ body = encoded gzipCompress (HttpResponse.compressed_ b) (HttpResponse.f_contents xf.2)
  /\ (keeps (x_request xf.1) = true ->
        HttpHeader.get (bs "Content-Length") (HttpResponse.header_ b) = Some (to_string (Z.of_nat (length body)))).

(** The connection waits for a request: of [p], the bytes [s] have arrived. *)
Definition receiving (clock : TimeStamp.t) t p (s : bytes) : Prop := exists c ch,
  ready fd EPoller.EPOLLIN clock t c ch
  /\ RequestPieces.arrived p s (Channel.recver_ ch) (default HttpRequest.new (TcpServer.context_ c))
  /\ idle ch /\ Channel.channel_type ch = ty.

(** It waits for any request. *)
Definition waiting (clock : TimeStamp.t) t : Prop := exists c ch,
  ready fd EPoller.EPOLLIN clock t c ch /\ TcpServer.context_ c = None
  /\ Buffer.wf (Channel.recver_ ch) /\ Buffer.contents (Channel.recver_ ch) = []
  /\ idle ch /\ Channel.channel_type ch = ty.

Lemma waiting_receiving clock t p : waiting clock t -> receiving clock t p [].
Proof. intros (c & ch & Hr & Hc & Hw & He & Hi & Hty). exists c, ch. rewrite Hc. split; [done|]. split; [by apply arrived_nothing|done]. Qed.

(** ** Reading *)
Lemma reads_exec clock0 clock t p (s : bytes) (reads : list (list bytes)) (rest : bytes) :
  HttpRequest.plain_ok p -> receiving clock0 t p s ->
  (TimeStamp.microsecond_ clock0 <= TimeStamp.microsecond_ clock < 2 ^ 63)%Z ->
  let pieces := mjoin <$> reads in
  s ++ mjoin pieces ++ rest = HttpRequest.plain_text p -> length (s ++ mjoin pieces) < length (head_text p) ->
  Forall (fun piece => piece <> []) pieces ->
  (forall first l, pieces = first :: l -> length (line_text p) <= length (s ++ first)) ->
  exists clock1 t', exec_all cb (read_cycles (length (TcpServer.running_ t)) clock reads) (t, []) = Some (t', [])
    /\ receiving clock1 t' p (s ++ mjoin pieces) /\ (TimeStamp.microsecond_ clock1 <= TimeStamp.microsecond_ clock)%Z
    /\ TcpServer.owner_ t' = TcpServer.owner_ t /\ TcpServer.wire_ t' = TcpServer.wire_ t /\ TcpServer.running_ t' = TcpServer.running_ t.
Proof.
  intros Hp Hrec Hcl. revert clock0 s t Hrec Hcl. induction reads as [|chunks reads IH]; intros clock0 s t Hrec Hcl pieces E Hl Hne Hf.
  - exists clock0, t. cbn. rewrite app_nil_r. split; [done|]. split; [done|]. split; [lia|done].
  - destruct Hrec as (c & ch & Hr & Ha & Hi & Hty). unfold pieces in *. rewrite fmap_cons in *.
    change (mjoin (mjoin chunks :: ?l)) with (mjoin chunks ++ mjoin l) in *. apply Forall_cons in Hne as [Hne1 Hne].
    specialize (Hf _ _ eq_refl).
    assert (bq_wf (Channel.recver_ ch)) as Hw by (destruct Ha as [| ? ? H]; [done|apply H]).
    destruct (read_cycle_exec cb fd clock0 clock t c ch chunks Hr Hcl Hw Hne1) as (r & Wr & Cr & Hx).
    destruct (piece_waits MD5 store dangling p s (mjoin chunks) (mjoin (mjoin <$> reads) ++ rest) _ r _ Hp Ha Wr Cr)
      as (q' & req & Epa & Ha' & Hm & Hv); [by rewrite <- app_assoc in E|rewrite app_assoc, length_app in Hl; lia|].
    pose proof Hr as [_ _ _ _ Ho _ _ _].
    destruct (Hx false (TcpServer.Conn false (TcpServer.keep_alive_ c) (Some req) (Some (Channel.set_recver q' ch))) (Channel.set_recver q' ch)
      (TcpServer.owner_ t)) as (t1 & E1 & Hr1 & Eo & Ew & Eru); [|done|done|].
    { exact (message_waits MD5 store dangling gzipCompress regex_search order files date php_fpm h
        (TcpServer.Conn false (TcpServer.keep_alive_ c) (TcpServer.context_ c) (Some (Channel.set_recver r ch))) (TcpServer.owner_ t)
        (Channel.set_recver r ch) q' req HttpRequest.AGAIN_HEADER _ _ (conj eq_refl (conj eq_refl Epa)) Hv Hm ltac:(discriminate) ltac:(discriminate)). }
    destruct (IH clock (s ++ mjoin chunks) t1) as (clock1 & t2 & E2 & Hrec2 & Hle & Eo2 & Ew2 & Eru2); [|lia|..].
    + exists (TcpServer.Conn false (TcpServer.keep_alive_ c) (Some req) (Some (Channel.set_recver q' ch))), (Channel.set_recver q' ch). done.
    + by rewrite <- app_assoc in E |- *.
    + by rewrite app_assoc in Hl.
    + done.
    + intros first l _. rewrite length_app. lia.
    + exists clock1, t2. unfold read_cycles. rewrite fmap_cons. change (mjoin (?a :: ?l)) with (a ++ mjoin l).
      rewrite exec_all_app. rewrite <- Hty at 1. rewrite E1. rewrite <- Eru. split; [exact E2|]. rewrite app_assoc. split; [exact Hrec2|].
      split; [done|]. split; [congruence|]. split; congruence.
Qed.
(** ** Answering *)
Context (listed : forall V (m : HttpMap.t V), HttpMap.listing m (order V m)).
Context (takes : forall ch, fresh ch -> rounds_ok (kernel ch) ch).

(** The last piece: the answer is in the channel. *)
Lemma last_exec clock0 clock t p (s : bytes) (last : list bytes) f :
  HttpRequest.plain_ok p -> HttpRequest.p_method p <> HEAD -> receiving clock0 t p s ->
  (TimeStamp.microsecond_ clock0 <= TimeStamp.microsecond_ clock < 2 ^ 63)%Z ->
  s ++ mjoin last = HttpRequest.plain_text p -> mjoin last <> [] -> finds p f ->
  exists t' ch' b, exec_all cb (read_cycle (length (TcpServer.running_ t)) fd clock ty last) (t, []) = Some (t', [])
    /\ ready fd EPoller.EPOLLOUT clock t' (TcpServer.Conn false (keeps p) None (Some ch')) ch'
    /\ HttpResponse.code_ b = 200%Z
    /\ (keeps p = true -> HttpHeader.get (bs "Content-Length") (HttpResponse.header_ b)
          = Some (to_string (Z.of_nat (length (encoded gzipCompress (HttpResponse.compressed_ b) (HttpResponse.f_contents f))))))
    /\ fresh ch' /\ Channel.channel_type ch' = ty /\ (Channel.sendfile_ ch' = true -> Channel.channel_type ch' = Raw)
    /\ total ch' = head_block b (bs "OK") ++ encoded gzipCompress (HttpResponse.compressed_ b) (HttpResponse.f_contents f)
    /\ TcpServer.owner_ t' = TcpServer.owner_ t /\ TcpServer.wire_ t' = TcpServer.wire_ t /\ TcpServer.running_ t' = TcpServer.running_ t.
Proof.
  intros Hp Hh (c & ch & Hr & Ha & Hi & Hty) Hcl E Hne (prefix & dir & rest & Hu & Hn & Hmt & Hpl & Hf).
  assert (bq_wf (Channel.recver_ ch)) as Hw by (destruct Ha as [| ? ? H]; [done|apply H]).
  destruct (read_cycle_exec cb fd clock0 clock t c ch last Hr Hcl Hw Hne) as (r & Wr & Cr & Hx).
  destruct (piece_done MD5 store dangling p s (mjoin last) _ r _ Hp Ha Wr Cr E) as (q' & req & Epa & _ & _ & Hra).
  destruct Hra as ((Hm & Hv & Hurl & _ & _ & _ & Hk) & _). cbv zeta in Hu. rewrite <- Hurl in Hu, Hn, Hmt.
  destruct (message_file MD5 store dangling gzipCompress regex_search order files date php_fpm h
    (TcpServer.Conn false (TcpServer.keep_alive_ c) (TcpServer.context_ c) (Some (Channel.set_recver r ch))) (TcpServer.owner_ t)
    (Channel.set_recver r ch) q' req _ _ prefix dir rest f listed (conj eq_refl (conj eq_refl Epa)) Hv Hm Hh Hi Hn Hu Hmt Hpl Hf)
    as (b & ch' & Em & Hcode & HL & Hfr & [Hk1 Hk2] & Ht).
  destruct (Hx true _ ch' (TcpServer.owner_ t) Em) as (t1 & E1 & Hr1 & Eo & Ew & Eru); [done|done|].
  rewrite Hk in *. rewrite Hty in E1. exists t1, ch', b. split; [exact E1|]. split; [exact Hr1|].
  split; [exact Hcode|]. split; [exact HL|]. split; [exact Hfr|]. split; [by rewrite Hk1|]. split; [|by rewrite Ht].
  rewrite Hk1, Hk2. destruct Hi as (_ & _ & _ & _ & _ & Hi). exact Hi.
Qed.

(** A channel that was reset waits for a request. *)
Lemma reset_waiting clock t c ch0 :
  let ch := Channel.reset Buffer.reset ch0 in
  ready fd EPoller.EPOLLIN clock t c ch -> TcpServer.context_ c = None -> Channel.channel_type ch0 = ty ->
  (Channel.sendfile_ ch0 = true -> Channel.channel_type ch0 = Raw) -> waiting clock t.
Proof.
  intros ch Hr Hc Hty Hs. exists c, ch. split; [done|]. split; [done|].
  assert (forall b, Buffer.wf (Buffer.reset b) /\ Buffer.contents (Buffer.reset b) = []) as Hb.
  { intros b. split; [unfold Buffer.wf; simpl; lia|done]. }
  split; [apply Hb|]. split; [apply Hb|]. split; [|exact Hty]. split; [apply Hb|]. split; [apply (Hb (Channel.sender_ ch0))|]. done.
Qed.

(** One exchange. *)
Lemma exchange_exec clock t x f :
  waiting clock t -> (TimeStamp.microsecond_ clock <= TimeStamp.microsecond_ (x_time x) < 2 ^ 63)%Z ->
  exchange_ok x -> finds (x_request x) f ->
  exists t' a, run_exchange (length (TcpServer.running_ t)) x t = Some t' /\ rtc (EventLoop.loop_step cb EventLoop.calm) (t, []) (t', [])
    /\ answers (x, f) a /\ wire_of fd (TcpServer.wire_ t') = wire_of fd (TcpServer.wire_ t) ++ a
    /\ TcpServer.owner_ t' = TcpServer.owner_ t /\ TcpServer.running_ t' = TcpServer.running_ t
    /\ if keeps (x_request x) then waiting (x_time x) t' else ~ TcpServer.is_open t' fd /\ TcpServer.poller_ t' !! fd = None.
Proof.
  intros Hw Hcl (Hp & Hh & E & Hl & Hne & Hf) Hfi.
  destruct (reads_exec clock (x_time x) t (x_request x) [] (x_reads x) (mjoin (x_last x)) Hp (waiting_receiving _ _ _ Hw) Hcl E Hl Hne Hf)
    as (clock1 & t1 & E1 & Hrec & Hle & Eo1 & Ew1 & Er1).
  destruct (last_exec clock1 (x_time x) t1 (x_request x) _ (x_last x) f Hp Hh Hrec) as (t2 & ch & b & E2 & Hr2 & Hcode & HL & Hfr & Hty & Hsf & Ht & Eo2 & Ew2 & Er2);
    [lia|exact E| |exact Hfi|].
  { intros En. rewrite En, app_nil_r in E. rewrite E, plain_text_head, length_app in Hl. lia. }
  assert (exec_all cb (read_cycles (length (TcpServer.running_ t)) (x_time x) (x_reads x ++ [x_last x])) (t, []) = Some (t2, [])) as Erd.
  { unfold read_cycles. rewrite fmap_app, join_app, exec_all_app. unfold read_cycles in E1. rewrite E1, <- Er1.
    cbn [fmap list_fmap mjoin]. unfold mjoin, list_join. rewrite app_nil_r. exact E2. }
  destruct (write_cycles_exec cb fd (x_time x) (x_time x) t2 _ ch [] TcpConnection.EAGAIN (kernel ch) Hr2) as (t3 & rest & E3 & Eo3 & Er3 & Et3 & Ew3 & Hfin);
    [lia|done|by apply fresh_sending|by apply total_not_nil|by apply takes|].
  exists t3, rest. split; [|split; [|split; [|split; [by rewrite Ew3, Ew2, Ew1|split; [congruence|split; [congruence|]]]]]].
  - unfold run_exchange. rewrite Erd. pose proof Hr2 as [_ _ _ Hc _ Hch _ _]. rewrite (conn_at_lookup fd _ _ Hc). cbn [TcpServer.channel_].
    by rewrite <- Er1, <- Er2, E3.
  - etrans; [by eapply exec_all_steps|]. eapply exec_all_steps. exact E3.
  - exists b. eexists. cbn [app] in Et3. rewrite Et3, Ht. split; [done|]. split; [done|]. split; [done|exact HL].
  - cbn [TcpServer.keep_alive_] in Hfin. destruct (keeps (x_request x)); [|exact Hfin].
    destruct Hfin as (ch0 & [Hk1 Hk2] & Hfin). eapply reset_waiting; [exact Hfin|done|by rewrite Hk1|by rewrite Hk1, Hk2].
Qed.

Lemma conversation_exec clock t (xs : list (exchange * HttpResponse.file)) :
  waiting clock t -> exchanges_ok clock xs ->
  exists t' l, run_conversation (length (TcpServer.running_ t)) xs.*1 t = Some t'
    /\ rtc (EventLoop.loop_step cb EventLoop.calm) (t, []) (t', [])
    /\ Forall2 answers xs l /\ wire_of fd (TcpServer.wire_ t') = wire_of fd (TcpServer.wire_ t) ++ mjoin l
    /\ TcpServer.owner_ t' = TcpServer.owner_ t /\ TcpServer.running_ t' = TcpServer.running_ t
    /\ if stays_open xs then exists clock', waiting clock' t'
       else ~ TcpServer.is_open t' fd /\ TcpServer.poller_ t' !! fd = None.
Proof.
  revert clock t. induction xs as [|[x f] xs IH]; intros clock t Hw Hok.
  - exists t, []. rewrite app_nil_r. repeat (split; [done|]). by exists clock.
  - destruct Hok as (Hcl & Hx & Hf & Hlast & Hok).
    destruct (exchange_exec clock t x f Hw Hcl Hx Hf) as (t1 & a & E1 & S1 & Ha & W1 & O1 & R1 & Hfin).
    rewrite fmap_cons. cbn [run_conversation fst]. rewrite E1. destruct xs as [|xf xs].
    + exists t1, [a]. split; [done|]. split; [done|]. split; [by repeat constructor|]. split; [cbn; by rewrite app_nil_r|].
      do 2 (split; [done|]). change (stays_open [(x, f)]) with (keeps (x_request x)).
      destruct (keeps (x_request x)); [by exists (x_time x)|exact Hfin].
    + destruct Hlast as [?|Hk]; [done|]. rewrite Hk in Hfin.
      destruct (IH (x_time x) t1 Hfin Hok) as (t2 & l & E2 & S2 & H2 & W2 & O2 & R2 & Hfin2). rewrite <- R1.
      exists t2, (a :: l). split; [exact E2|]. split; [by etrans|]. split; [by constructor|].
      split; [change (mjoin (a :: l)) with (a ++ mjoin l); by rewrite W2, W1, app_assoc|]. do 2 (split; [congruence|]). exact Hfin2.
Qed.

(** A connection that was just accepted. *)
Lemma accepted_waiting clock t t0 :
  ready fd EPoller.EPOLLIN clock t (TcpServer.Conn false false None (Some (EventLoop.new_channel ty t0))) (EventLoop.new_channel ty t0) ->
  waiting clock t.
Proof.
  intros Hr. eexists _, _. split; [exact Hr|]. split; [done|].
  split; [apply Buffer.new_wf|]. split; [done|]. split; [|done]. split; [apply Buffer.new_wf|]. do 4 (split; [done|]). by destruct ty.
Qed.

End conversation.

(** C1: A conversation.  A client connects to a server that listens, with other
    connections possibly in the hands of workers, and sends requests for files
    below mounted directories, one after the other, each cut into pieces however
    the network likes (the request line in the first, the end of the header in
    the last), while the kernel takes the answers in parts however it likes.  The
    run of accepting, polling, dispatching, taking and finishing tasks is a run of
    the server, and puts on the wire of the connection exactly the answers, in
    order: each a 200 response with the contents of its file and, on a connection that
    stays open, their length; no session is touched.  At the end the connection waits
    for the next request, or is closed if the last request asked for that. *)
Theorem conversation_served {any : Type} (MD5 : bytes -> bytes) (store : HttpPassStore.t) (dangling gzipCompress : bytes -> bytes)
    (regex_search : bytes -> bytes -> option (list bytes)) (order : forall V, HttpMap.t V -> list (bytes * V))
    (files : bytes -> option HttpResponse.file) (date : bytes) (php_fpm : php) (h : HttpServer.t (any := any))
    (kernel : Channel.t Buffer.t -> list (list Z)) (fd : Z) (ty : ChannelType) (clock : TimeStamp.t)
    (t : TcpServer.t HttpRequest.t (Sessions.t any)) (xs : list (exchange * HttpResponse.file)) :
  (forall V (m : HttpMap.t V), HttpMap.listing m (order V m)) -> (forall ch, fresh ch -> rounds_ok (kernel ch) ch) ->
  listening clock t -> ~ TcpServer.reserved t fd -> ~ TcpServer.is_open t fd -> TcpServer.poller_ t !! fd = None ->
  exchanges_ok dangling regex_search order files h clock xs ->
  let server := cb MD5 store dangling gzipCompress regex_search order files date php_fpm h in
  exists t1 t2 l, exec_all server (connect fd ty clock t) (t, []) = Some (t1, [])
    /\ run_conversation MD5 store dangling gzipCompress regex_search order files date php_fpm h kernel fd ty
         (length (TcpServer.running_ t1)) xs.*1 t1 = Some t2
    /\ rtc (http_step MD5 store dangling gzipCompress regex_search order files date php_fpm) (t, []) (t2, [])
    /\ wire_of fd (TcpServer.wire_ t2) = wire_of fd (TcpServer.wire_ t) ++ mjoin l
    /\ Forall2 (answers dangling gzipCompress) xs l /\ TcpServer.owner_ t2 = TcpServer.owner_ t
    /\ if stays_open dangling xs then exists clock', waiting fd ty clock' t2
       else ~ TcpServer.is_open t2 fd /\ TcpServer.poller_ t2 !! fd = None.
Proof.
  intros Hl Hk Hli Hn Ho Hp Hok server.
  destruct (connect_exec server fd ty clock t Hli Hn Ho Hp) as (t1 & E1 & Hr & O1 & W1 & R1).
  apply accepted_waiting in Hr.
  destruct (conversation_exec MD5 store dangling gzipCompress regex_search order files date php_fpm h kernel fd ty Hl Hk clock t1 xs Hr Hok)
    as (t2 & l & E2 & S2 & Ha & W2 & O2 & R2 & Hfin).
  exists t1, t2, l. split; [exact E1|]. split; [exact E2|]. split.
  - apply (rtc_subrel (EventLoop.loop_step server EventLoop.calm)); [intros x y Hs; by exists h|].
    etrans; [by eapply exec_all_steps|exact S2].
  - split; [by rewrite W2, W1|]. split; [exact Ha|]. split; [by rewrite O2, O1|exact Hfin].
Qed.

(** ** A concrete conversation *)
(** A kernel that refuses first and then takes one byte at a time. *)
Definition bytewise (ch : Channel.t Buffer.t) : list (list Z) := [[(-1)%Z]; replicate (length (total ch)) 1%Z].

Lemma bytewise_calls ch sent n : sending ch sent -> sent <> total ch -> calls_ok (replicate n 1%Z) ch.
Proof.
  revert ch sent. induction n as [|n IH]; intros ch sent Hs Hne; [done|]. cbn [replicate calls_ok].
  assert (call_ok 1 ch) as Hc.
  { unfold call_ok. destruct (prepare_spec ch sent Hs) as (_ & _ & _ & _ & Ho). specialize (Ho Hne).
    destruct (Channel.offered (Channel.prepare ch)); [done|simpl; lia]. }
  split; [done|]. intros Hf. pose proof (write_spec ch sent 1 Hs Hne Hc) as Hw.
  destruct (Channel.write 1 ch) as [[c1 n1] cflag]. cbn [snd fst] in *. destruct Hw as (Ht & Hs1 & Hi).
  apply (IH _ _ Hs1). rewrite Ht. intros E. apply Hi in E. congruence.
Qed.

Lemma bytewise_rest ch sent n : sending ch sent -> sent <> total ch -> length (total ch) <= n -> rounds_ok [replicate n 1%Z] ch.
Proof.
  intros Hs Hne Hn. pose proof (bytewise_calls ch sent n Hs Hne) as Hc. split; [done|].
  destruct (write_loop_progress Buffer.reset (replicate n 1%Z) sent ch Hs Hne Hc) as (w & E & Hw).
  - apply Forall_replicate. lia.
  - rewrite length_replicate. lia.
  - pose proof (write_loop_wire Buffer.reset (replicate n 1%Z) sent [] ch) as H. rewrite app_nil_r, E in H.
    destruct (Channel.write_loop Buffer.reset (replicate n 1%Z) [] ch) as [w0|]; [|done]. injection H as ->. cbn in Hw. by rewrite Hw.
Qed.

Lemma bytewise_takes ch : fresh ch -> rounds_ok (bytewise ch) ch.
Proof.
  intros Hf. pose proof (fresh_sending ch Hf) as Hs. pose proof (total_not_nil ch Hf) as Hne.
  assert (calls_ok [(-1)%Z] ch) as Hc by (split; [unfold call_ok; lia|done]). split; [done|].
  destruct (Channel.write_loop Buffer.reset [(-1)%Z] [] ch) as [w|] eqn:E; [|done].
  pose proof (write_loop_spec Buffer.reset _ [] ch w Hs Hne Hc E) as H.
  destruct (Channel.w_completed w) eqn:Ec; [|destruct H as (_ & Hs1 & Ht & Hn1); rewrite <- Ht; apply (bytewise_rest _ (Channel.w_wire w));
    [done|by rewrite Ht|done]].
  exfalso. destruct H as (_ & Hn & _). cbn in E. injection E as <-. discriminate Hn.
Qed.

Definition file_request (version : HttpVersion) : HttpRequest.plain :=
  HttpRequest.Plain GET (bs "/f/a.txt") [(bs "v", bs "1")] version [(bs "host", bs "x")] None [].
Definition cut (p : HttpRequest.plain) (a b : nat) : list (list bytes) :=
  [[take a (HttpRequest.plain_text p)]; [take b (drop a (HttpRequest.plain_text p))]].
Definition rest_of (p : HttpRequest.plain) (n : nat) : list bytes := [drop n (HttpRequest.plain_text p)].

(** Two requests, in three pieces and in one; the second one asks to close. *)
Definition demo_conversation : list (exchange * HttpResponse.file) :=
  [(Exchange (TimeStamp.make 10) (file_request HTTP_1_1) (cut (file_request HTTP_1_1) 30 5) (rest_of (file_request HTTP_1_1) 35),
      HttpResponse.File (bs "hello") (bs "today"));
   (Exchange (TimeStamp.make 20) (file_request HTTP_1_0) [] (rest_of (file_request HTTP_1_0) 0), HttpResponse.File (bs "hello") (bs "today"))].

Lemma demo_conversation_ok : exchanges_ok (fun s => s) no_regex demo_order demo_files demo_http (TimeStamp.make 0) demo_conversation.
Proof.
  assert (forall v, HttpRequest.plain_ok (file_request v)) as Hp.
  { intros v. repeat split; try (apply (bool_decide_unpack _); vm_compute; exact I).
    all: repeat constructor; simpl; try (apply (bool_decide_unpack _); vm_compute; exact I). }
  assert (forall v, finds no_regex demo_order demo_files demo_http (file_request v) (HttpResponse.File (bs "hello") (bs "today"))) as Hf.
  { intros v. exists (bs "/f/"), (bs "/srv/"), (bs "a.txt"). split; [reflexivity|]. split; [apply demo_no_service; discriminate|].
    split; [exact (demo_mounted (bs "a.txt"))|]. split; [|reflexivity]. split; [exists "t"%char; split; [reflexivity|discriminate]|reflexivity]. }
  split; [vm_compute; split; congruence|]. split; [|split; [apply Hf|split; [right; reflexivity|]]].
  - split; [apply Hp|]. split; [discriminate|]. split; [vm_compute; reflexivity|]. split; [vm_compute; lia|].
    split; [repeat constructor; discriminate|]. intros first l [= <- _]. vm_compute. lia.
  - split; [vm_compute; split; congruence|]. split; [|split; [apply Hf|split; [by left|exact I]]].
    split; [apply Hp|]. split; [discriminate|]. split; [vm_compute; reflexivity|]. split; [vm_compute; lia|].
    split; [constructor|discriminate].
Qed.

Lemma conversation_served_witness :
  exists t1 t2, exec_all demo_callbacks (connect 9 Raw (TimeStamp.make 0) http_demo) (http_demo, []) = Some (t1, [])
    /\ rtc demo_step (http_demo, []) (t2, []) /\ ~ TcpServer.is_open t2 9
    /\ exists l, Forall2 (answers (fun s => s) (fun s => s)) demo_conversation l /\ wire_of 9 (TcpServer.wire_ t2) = mjoin l.
Proof.
  destruct (conversation_served demo_md5 demo_store (fun s => s) (fun s => s) no_regex demo_order demo_files (bs "now") demo_php demo_http
    bytewise 9 Raw (TimeStamp.make 0) http_demo demo_conversation demo_listed bytewise_takes) as (t1 & t2 & l & E1 & _ & S & Ew & Ha & _ & Hc & _).
  - split; [reflexivity|]. split; [reflexivity|]. split; [eexists; split; vm_compute; reflexivity|]. split; [vm_compute; discriminate|].
    split; [apply TimerHeap.Inv_empty|]. split; vm_compute; split; congruence.
  - intros [H|[H|[H|H]]]; vm_compute in H; discriminate H.
  - intros [ch H]. vm_compute in H. discriminate H.
  - vm_compute. reflexivity.
  - exact demo_conversation_ok.
  - exists t1, t2. split; [exact E1|]. split; [exact S|]. split; [exact Hc|]. exists l. split; [exact Ha|exact Ew].
Defined.
